(* ===== verification/_CoqProject ===== *)
-Q . S2P
Prelude.v
Sha256Spec.v
Utf8.v
Sha256.v
JsString.v
JsObject.v
JsNumber.v
Json.v
JsValue.v
UriCodec.v
Cookie.v
Backbone.v
Collection.v
LiveModel.v
JqEvent.v
Callbacks.v
View.v
Sync.v
RegExp.v
World.v
Shell.v
Loader.v
LoaderSpec.v
Grid.v
TimeRange.v
Dates.v
Plot.v
Delivery.v
Legend.v
CounterTree.v
CounterFilter.v
Views.v
Clicks.v
Dashboard.v
Bookmark.v
Login.v
Users.v
Xref.v
Invariant.v
Pending.v
App.v
Wiring.v
Menus.v
Forms.v
Session.v
Samples.v
