(* ===== verification/Prelude.v ===== *)
(** * Verification of istatd's counter browser

    istatd collects statistics counters; the files under [src/files] are the page with
    which its users browse them.  The development models the program's own JavaScript
    ([files/graph.js], [files/istatd-legend.js], [files/sha256.js]), the cookie plugin
    ([files/jquery-cookie-1.4.1.js]) and the parts of [files/backbone.js] and [files/jquery-2.1.1.js] that its
    events rest on, and proves the properties listed below.  Line by line correspondences are in the
    manifest; every definition has the name of the function it translates, or a name in a
    comment that says which one.

    ** The program

    The page shows a grid of graphs.  A graph has a set of counters (its series); it asks the
    loader for their data, the loader batches the questions of all graphs into one request per
    timer, and hands the answer to each graph, which paints itself with Dygraph.  The time range
    is chosen by a slider, by two dates, by zooming or by a refresh that follows the present.  The
    counters come from a tree built from the server's list of names.  What is on the page can be
    saved as a dashboard (a JSON document on the server) or written into the location hash
    (a bookmark).  Users log in with a cookie.  Everything runs in event handlers wrapped by
    [guard], the only exception handler.

    ** Language and libraries

    - [Prelude] (this file): strings as lists of 16-bit units, 32-bit operators, lemmas on
      lists, tactics, the hint database.
    - [JsString], [JsObject], [JsNumber], [Json], [JsValue], [UriCodec]: what the sources use
      of ECMAScript 5: string functions, objects as ordered property lists with their
      enumeration order and the names they inherit, binary64 numbers, [JSON], percent encoding.
    - [Sha256Spec]: SHA-256 as FIPS 180-4 defines it, constants included.
    - [RegExp]: the regular expressions of ECMAScript 5, parsed and matched.
    - [Backbone], [Collection], [LiveModel], [Sync]: Backbone's events, models and collections, models whose
      listeners act or throw while [set] runs, and the requests of [save], [fetch] and [destroy].
    - [JqEvent], [Callbacks]: jQuery's registry of event handlers with delegation, dispatch and removal, and its
      callback lists and deferreds; [View]: how a Backbone view binds its table of events through jQuery.
    - [Cookie]: the cookie plugin over a browser's cookie jar.

    ** The application ([files/graph.js] unless named otherwise)

    - [Utf8], [Sha256]: [files/sha256.js].
    - [World]: the globals and shared objects as one record; a state and exception monad [M];
      graph surfaces are a store indexed by identity, because the grid, timers and the loader's
      callbacks share them.  Closures given to timers, requests, dialogs and animations are codes
      of inductive types.  What the page does to the outside is a log: calls of the DOM, requests sent with their
      bodies, each call of a loader's callback with the data it is given, each Dygraph with its rows and options.  Theorems
      about what is sent, called or drawn read the log and count its entries.
    - [Shell]: [guard], [errorDialog], [promptDialog], [choiceDialog], [begin], helpers.
    - [Loader]: [Loader.addToNextGet], [onTimer], [startRequest], [onXhrComplete], [deliverData].
      The class [LoaderClient] is what it asks of its consumer; [Grid] is the instance.
      [LoaderSpec] is what it promises, a first-in first-out mailbox.
    - [Grid]: [GraphSurface] and [GraphGrid] but for the painting; [Clicks]: the clicks on a graph, its boxes and its
      legend, as they bubble.
    - [TimeRange]: [refresh], [setAutoRefresh], the time slider, intervals, sizes, layout.
    - [Dates]: [parseDate], the date dialog, [strftime]; the time zone is a class with its laws, which leave room for
      the times that a clock put forward skips.
    - [Plot]: [GraphSurface.repaint]; [Delivery]: the way of an answer from the loader to the Dygraphs;
      [Legend]: [files/istatd-legend.js].
    - [CounterTree]: the tree built from the names, its levels and the clicks on it; [CounterFilter]: the counter
      model, the search box, and the rendering that the model's events cause.
    - [Views]: [Widget], [TabCollection], [IstatdDropdownView].
    - [Dashboard]: settings requests, [getDashboard], [openDashboard], the dashboard list, saving.
    - [Bookmark]: [packup_state_as_hash], [gotohash], [load_state], [change_counters].
    - [Login]: [UsersModel], [SettingsModel], the user controls; [Users]: the collection of users and its
      requests; [Xref]: cross-references.
    - [Wiring], [Menus], [Forms]: the handlers that graphs, legends, dropdowns, buttons, the login form and the search box
      bind, and the events that find them: the link between the elements of the page and the events of [App].
    - [Invariant], [Pending]: classes that say what an invariant of the whole page has to satisfy
      and their instances; [App]: [on_ready], menus, buttons, and [step], the dispatch of every
      event the browser or the user can produce; [Session]: the page together with its counter tree
      and filter; [Samples]: the theorems applied to concrete pages.

    ** What is proved

    - Whole page: an invariant over every reachable state of [Session.step] ([session_invariant]); the
      page that [on_ready] builds ([on_ready_page]).
    - Loader: it implements a mailbox ([loader_refines_mailbox]); no callback lost or called twice, delivery,
      deadlines, coverage of a batch, and the stall after a failed answer ([loader_exactly_once], [loader_delivers],
      [request_within_deadline], [request_covers_batch], [failure_stalls_queue]).
    - Grid: its well-formedness ([grid_invariant]) and the effect of toggling and clearing.
    - Time: [refresh_follows_now], [slider_selects_interval], [auto_refresh_single_timer],
      [reload_interval_is_least], [custom_size_checked], [parse_date_roundtrip], [daterange_checked].
    - Plot and legend: the loop over plot times ends and gives the right rows, buckets are drawn at
      their times, the value axis given to Dygraph is that of the buckets drawn ([value_axis], for all formats but the
      stacked one, whose axis [stacked_range_undefined] shows), the dash of a legend entry ([dash_fits_em]); an answer of the
      server is drawn in the graphs that asked for it, row by row ([answer_drawn]).
    - Counters: the leaves of the tree ([counter_tree_leaves]), that the tree shown follows the model as long as no
      handler has thrown ([tree_follows_model]), what a pattern without other metacharacters than the dot and
      the star matches ([plain_patterns]), what a pattern that is no regular expression does
      ([bad_pattern_freezes]), and what a click does ([click_toggles_counter]).
    - Persistence: dashboards and bookmarks come back as saved ([dashboard_roundtrip],
      [bookmark_roundtrip]), what a save sends, how counters are replaced.
    - Users: cookies as a store, the length of a session, the creation of a user; the list of users is the Backbone
      collection ([users_refine_collection]); the password hash is SHA-256 ([hash_refines_fips], [utf8_roundtrip]).
    - Shell: [guard] reports and never throws, [begin] counts, [htmlescape] escapes once.
    - Backbone: listeners, change events, the index of a collection, and the life of a model on the
      server ([model_lifecycle]).
    - Events: a view's handlers are always those of its table ([view_delegation]); events dispatched through jQuery do
      exactly what [App] and [CounterFilter] say of the user's actions, for graphs and legends ([wiring_refines]), dropdowns
      ([menus_refine]), buttons and login ([login_form_refines]) and the search box ([filter_form_refines]).
    - Deferreds: they settle once, and no callback is lost or called twice ([deferred_settles_once]).  Callbacks are any code
      of the client, given as a sequence of choices, so there is no fuel; that loops end when callbacks return is part of
      the theorem.

    Several theorems record behaviour that the code does not intend: [failure_stalls_queue],
    [reset_range_uncorrected], [visibility_never_refreshes], [size_entry_lost_in_manual],
    [remove_posts_to_user], [removed_name_still_known], [parse_date_overflows], [empty_bookmark_fails],
    [plot_times_endless], [misaligned_bucket_stalls], [stacked_range_undefined],
    [special_names_truncated], [dropdown_open_after_clicks], [close_box_unselects], [bad_pattern_freezes],
    [throw_loses_callbacks], [substitution_toggles_off], [set_twice], [odd_dash_overflows], [parse_date_skipped].

    Where a theorem needs conditions, they are in its comment.  The common ones: names of series, counters and users that are not
    names objects inherit ([constructor] and the like) nor array indices, which an object enumerates first; ids of
    models that cannot be taken for a [cid]; times that the local clock shows.

    ** Bounds and fuel

    Loops whose number of turns is not structural take fuel that is computed from their input:
    number printing ([Z.log2] of the number), the JSON parser (the length of the text, enough for every
    text that [stringify] writes), the plot times (the length of the range in seconds, enough when the
    interval is positive: [plot_times_grid]), the month of a day (twelve), the tokens of a regular expression (the
    length of the text: [lex_fuel]), the changes that a model's listeners cause (one turn is enough for those of
    the application, which do not set the model again: [set_observed]).  The loader's identifiers wrap after a
    million requests, which
    is the bound in [loader_exactly_once].  Dates are those of ECMAScript; the round trip of [parseDate]
    is for the years its pattern accepts.

    ** Not modelled

    - The rest of jQuery (Sizzle's selectors, the document, effects, requests, [trigger], [then] and [when]), jsTree, Underscore
      and Dygraph: third-party; their calls are entries of the log, their answers (whether an element matches a selector,
      positions, widths, the node clicked, the time zone) are arguments or fields of classes and records.
    - Backbone's router, history, comparators and event maps, which the application does not use.
    - Regular expressions with backreferences, lookaheads, octal or control-letter escapes: a search for one is
      reported as [Outside].
    - Pixel measures of texts and widgets ([getTextWidth], [actualWidth], [calculateEmWidthInDiv]), which change
      nothing of the page's state, and animations' frames.
    - Stored dashboards whose size, interval or positions of the menus are not whole numbers, and categories of cross-references
      named like array indices: the run leaves the model there ([World.Outside]).
    - Concurrency between tabs of the browser, and the server: the C++ daemon, agents and tools. *)

From Stdlib Require Export ZArith Lia String Ascii.
From stdpp Require Export base tactics list numbers option sorting.

(** The list functions keep their names beside those of [String]. *)
Abbreviation length := List.length.
Abbreviation concat := List.concat.

(** ** JavaScript strings

    A JavaScript string is a sequence of UTF-16 code units; [jsstr] is the list
    of the units as integers.  [js "..."] turns a literal of the source into
    one (the sources' literals are ASCII). *)

Abbreviation jsstr := (list Z).

Fixpoint js (s : string) : jsstr :=
  match s with
  | EmptyString => []
  | String a s' => Z.of_N (N_of_ascii a) :: js s'
  end.

Arguments js _%_string_scope.

(** The code unit of a one-character literal. *)
Definition ch (a : ascii) : Z := Z.of_N (N_of_ascii a).

(** A well-formed string holds 16-bit units; a byte string 8-bit ones. *)
Definition is_unit (c : Z) : Prop := (0 <= c < 65536)%Z.
Definition is_byte (c : Z) : Prop := (0 <= c < 256)%Z.
Definition wf_str (s : jsstr) : Prop := Forall is_unit s.
Definition byte_str (s : jsstr) : Prop := Forall is_byte s.

#[global] Instance is_unit_dec c : Decision (is_unit c).
Proof. unfold is_unit. apply _. Defined.
#[global] Instance is_byte_dec c : Decision (is_byte c).
Proof. unfold is_byte. apply _. Defined.

(** ** The development's scope and hint database *)

Declare Scope js_scope.
Delimit Scope js_scope with js.
Create HintDb js discriminated.
Create Rewrite HintDb js.

(** ** 32-bit integer operators (ECMAScript 5, 9.5, 9.6 and 11.7-11.10) *)

Abbreviation two32 := 4294967296%Z.
Abbreviation two31 := 2147483648%Z.

Definition ToUint32 (x : Z) : Z := (x mod two32)%Z.

Definition ToInt32 (x : Z) : Z :=
  let m := (x mod two32)%Z in
  if (m <? two31)%Z then m else (m - two32)%Z.

Definition js_and (a b : Z) : Z := Z.land (ToInt32 a) (ToInt32 b).
Definition js_or (a b : Z) : Z := Z.lor (ToInt32 a) (ToInt32 b).
Definition js_xor (a b : Z) : Z := Z.lxor (ToInt32 a) (ToInt32 b).
Definition js_not (a : Z) : Z := Z.lnot (ToInt32 a).
Definition js_shl (a n : Z) : Z := ToInt32 (Z.shiftl (ToInt32 a) (n mod 32)).
Definition js_shr (a n : Z) : Z := Z.shiftr (ToInt32 a) (n mod 32).
Definition js_ushr (a n : Z) : Z := Z.shiftr (ToUint32 a) (n mod 32).

Notation "a '&.' b" := (js_and a b) (at level 46, left associativity) : js_scope.
Notation "a '|.' b" := (js_or a b) (at level 48, left associativity) : js_scope.
Notation "a '^.' b" := (js_xor a b) (at level 47, left associativity) : js_scope.
Notation "a '<<.' n" := (js_shl a n) (at level 45, left associativity) : js_scope.
Notation "a '>>.' n" := (js_shr a n) (at level 45, left associativity) : js_scope.
Notation "a '>>>.' n" := (js_ushr a n) (at level 45, left associativity) : js_scope.

(** [NaN] as an operand of a bitwise operator counts as 0: [charCodeAt] past
    the end of a string is [NaN], here [None]. *)
Definition nan0 (x : option Z) : Z := default 0%Z x.

(** ** Tactics *)

(** Case on every [decide] and boolean comparison of the goal, closing the
    arithmetic cases. *)
Ltac zcases :=
  repeat match goal with
  | |- context [decide ?P] => destruct (decide P)
  | |- context [(?a <? ?b)%Z] => destruct (Z.ltb_spec a b)
  | |- context [(?a <=? ?b)%Z] => destruct (Z.leb_spec a b)
  | |- context [(?a =? ?b)%Z] => destruct (Z.eqb_spec a b)
  end; try lia.

(** Turn boolean comparisons of the hypotheses into propositions. *)
Ltac zprop :=
  repeat match goal with
  | H : (_ && _)%bool = true |- _ => apply andb_true_iff in H as [? ?]
  | H : (_ || _)%bool = false |- _ => apply orb_false_iff in H as [? ?]
  | H : (_ <? _)%Z = true |- _ => apply Z.ltb_lt in H
  | H : (_ <? _)%Z = false |- _ => apply Z.ltb_ge in H
  | H : (_ <=? _)%Z = true |- _ => apply Z.leb_le in H
  | H : (_ <=? _)%Z = false |- _ => apply Z.leb_gt in H
  | H : (_ =? _)%Z = true |- _ => apply Z.eqb_eq in H
  | H : (_ =? _)%Z = false |- _ => apply Z.eqb_neq in H
  | H : bool_decide _ = true |- _ => apply bool_decide_eq_true in H
  | H : bool_decide _ = false |- _ => apply bool_decide_eq_false in H
  end.

(** ** Bits of bounded integers *)

Section bits.
Local Open Scope Z_scope.

Lemma testbit_high (x n i : Z) : 0 <= x < 2 ^ n -> n <= i -> Z.testbit x i = false.
Proof.
  intros Hx Hi.
  destruct (Z.eq_dec x 0) as [->|]; [apply Z.testbit_0_l|].
  apply Z.bits_above_log2; [lia|].
  apply Z.log2_lt_pow2; [lia|].
  apply Z.lt_le_trans with (2 ^ n); [lia|].
  destruct (Z.le_gt_cases 0 n); [by apply Z.pow_le_mono_r|].
  rewrite (Z.pow_neg_r 2 n) in Hx by lia. lia.
Qed.

(** A disjunction of a multiple of [2^n] and a number below [2^n] is their sum. *)
Lemma lor_add_disjoint (a b n : Z) :
  0 <= n -> 0 <= b < 2 ^ n -> Z.lor (a * 2 ^ n) b = a * 2 ^ n + b.
Proof.
  intros Hn Hb. symmetry. rewrite <- Z.shiftl_mul_pow2 by done.
  rewrite Z.add_nocarry_lxor.
  - apply Z.bits_inj'; intros i Hi.
    rewrite Z.lxor_spec, Z.lor_spec.
    destruct (Z.lt_ge_cases i n) as [?|?].
    + rewrite Z.shiftl_spec_low by lia. by destruct (Z.testbit b i).
    + rewrite (testbit_high b n i) by lia. by destruct (Z.testbit _ i).
  - apply Z.bits_inj'; intros i Hi. rewrite Z.land_spec, Z.bits_0.
    destruct (Z.lt_ge_cases i n) as [?|?].
    + by rewrite Z.shiftl_spec_low by lia.
    + rewrite (testbit_high b n i) by lia. by rewrite andb_false_r.
Qed.

Lemma testbit_mod_two32 (x i : Z) :
  0 <= i -> Z.testbit (x mod two32) i = if i <? 32 then Z.testbit x i else false.
Proof.
  intros Hi. change two32 with (2 ^ 32). zcases.
  - apply Z.mod_pow2_bits_low. lia.
  - apply Z.mod_pow2_bits_high. lia.
Qed.

Lemma ToUint32_range x : 0 <= ToUint32 x < two32.
Proof. unfold ToUint32. apply Z.mod_pos_bound. lia. Qed.

Lemma ToUint32_small x : 0 <= x < two32 -> ToUint32 x = x.
Proof. intros. by apply Z.mod_small. Qed.

Lemma ToInt32_range x : - two31 <= ToInt32 x < two31.
Proof.
  unfold ToInt32. pose proof (ToUint32_range x) as H. unfold ToUint32 in H.
  zcases.
Qed.

Lemma ToInt32_small x : - two31 <= x < two31 -> ToInt32 x = x.
Proof.
  intros H. unfold ToInt32.
  destruct (Z.lt_ge_cases x 0).
  - replace (x mod 4294967296) with (x + 4294967296); [zcases|].
    rewrite <- (Z_mod_plus_full x 1). rewrite Z.mod_small by lia. lia.
  - rewrite Z.mod_small by lia. zcases.
Qed.

(** [ToInt32] picks a representative of the class modulo [2^32]. *)
Lemma ToUint32_ToInt32 x : ToUint32 (ToInt32 x) = ToUint32 x.
Proof.
  unfold ToUint32, ToInt32. zcases.
  - rewrite Z.mod_mod; lia.
  - rewrite <- (Z_mod_plus_full (_ - two32) 1).
    replace (x mod two32 - two32 + 1 * two32) with (x mod two32) by lia.
    rewrite Z.mod_mod; lia.
Qed.

Lemma ToInt32_ToUint32 x : ToInt32 (ToUint32 x) = ToInt32 x.
Proof. unfold ToInt32, ToUint32. rewrite Z.mod_mod by lia. done. Qed.

Lemma testbit_ToInt32 x i : 0 <= i < 32 -> Z.testbit (ToInt32 x) i = Z.testbit x i.
Proof.
  intros Hi.
  pose proof (testbit_mod_two32 (ToInt32 x) i ltac:(lia)) as H1.
  pose proof (testbit_mod_two32 x i ltac:(lia)) as H2.
  change (ToInt32 x mod two32) with (ToUint32 (ToInt32 x)) in H1.
  rewrite ToUint32_ToInt32 in H1. unfold ToUint32 in H1.
  rewrite H2 in H1. destruct (Z.ltb_spec i 32); [congruence|lia].
Qed.

Lemma ToUint32_add a b : ToUint32 (a + b) = ToUint32 (ToUint32 a + ToUint32 b).
Proof. unfold ToUint32. rewrite <- Z.add_mod; [done|lia]. Qed.

End bits.

(** Bitwise equality below bit 32 is equality of the unsigned values. *)
Lemma ToUint32_bits (a b : Z) :
  (forall i, (0 <= i < 32)%Z -> Z.testbit a i = Z.testbit b i) -> ToUint32 a = ToUint32 b.
Proof.
  intros H. apply Z.bits_inj'; intros i Hi. unfold ToUint32.
  rewrite !testbit_mod_two32 by done. zcases. apply H; lia.
Qed.

(** On small non-negative operands the operators are the arithmetic ones. *)
Section small_operands.
Local Open Scope Z_scope.

Lemma js_shr_small x n : 0 <= x < two31 -> 0 <= n < 32 -> js_shr x n = x / 2 ^ n.
Proof.
  intros Hx Hn. unfold js_shr. rewrite ToInt32_small by lia.
  rewrite (Z.mod_small n) by lia. apply Z.shiftr_div_pow2. lia.
Qed.

Lemma js_shl_small x n :
  0 <= x -> 0 <= n < 32 -> x * 2 ^ n < two31 -> js_shl x n = x * 2 ^ n.
Proof.
  intros Hx Hn H. pose proof (Z.pow_pos_nonneg 2 n).
  unfold js_shl. rewrite (ToInt32_small x) by nia.
  rewrite (Z.mod_small n) by lia. rewrite Z.shiftl_mul_pow2 by lia.
  apply ToInt32_small. nia.
Qed.

(** A mask of [n] ones keeps the remainder modulo [2^n]. *)
Lemma js_and_ones x n m :
  0 <= x < two31 -> 0 <= n < 31 -> m = 2 ^ n - 1 -> js_and x m = x mod 2 ^ n.
Proof.
  intros Hx Hn ->. unfold js_and. rewrite (ToInt32_small x) by lia.
  assert (2 ^ n < 2 ^ 31) by (apply Z.pow_lt_mono_r; lia).
  rewrite ToInt32_small by lia.
  rewrite <- Z.land_ones by lia. f_equal. rewrite Z.ones_equiv. lia.
Qed.

Lemma js_or_disjoint x n y b :
  y = x * 2 ^ n -> 0 <= n -> 0 <= x -> 0 <= b < 2 ^ n -> y < two31 -> b < two31 ->
  js_or y b = y + b.
Proof.
  intros -> Hn Hx Hb H Hb'. unfold js_or.
  rewrite !ToInt32_small by nia. apply lor_add_disjoint; lia.
Qed.

End small_operands.

(** [String.fromCharCode] keeps the low 16 bits of each argument. *)
Definition fromCharCode (cs : list Z) : jsstr := (fun c => (c mod 65536)%Z) <$> cs.

Definition charCodeAt (s : jsstr) (i : nat) : option Z := s !! i.

(** ** Folds *)

(** A fold is mapped by a function that commutes with its step. *)
Lemma foldl_hom {A B C} (phi : A -> C) (f : A -> B -> A) (g : C -> B -> C) (a : A) (l : list B) :
  (forall a b, b ∈ l -> phi (f a b) = g (phi a) b) -> phi (foldl f a l) = foldl g (phi a) l.
Proof.
  revert a; induction l as [|b l IH]; intros a H; simpl; [done|].
  rewrite IH, H; [done|left|]. intros. apply H. by right.
Qed.

(** ** Lists *)

Lemma filter_id {A} (P : A -> Prop) `{forall x, Decision (P x)} (l : list A) :
  Forall P l -> filter P l = l.
Proof. induction 1 as [|x l Hx _ IH]; [done|]. rewrite filter_cons_True by done. by rewrite IH. Qed.

(** [List.filter] keeps order; two filters commute. *)
Lemma filter_filter {A} (f g : A -> bool) l : List.filter f (List.filter g l) = List.filter (fun x => g x && f x) l.
Proof. induction l as [|x l IH]; [done|]. cbn. destruct (g x); cbn; [destruct (f x)|]; by rewrite IH. Qed.

Lemma filter_comm {A} (f g : A -> bool) l : List.filter f (List.filter g l) = List.filter g (List.filter f l).
Proof. rewrite !filter_filter. apply filter_ext. intros x. apply andb_comm. Qed.

Lemma filter_none {A} (f : A -> bool) l : (forall x, x ∈ l -> f x = false) -> List.filter f l = [].
Proof. induction l as [|x l IH]; intros Hf; [done|]. cbn. rewrite Hf by left. apply IH. intros y Hy. apply Hf. by right. Qed.

Lemma filter_all {A} (f : A -> bool) l : (forall x, x ∈ l -> f x = true) -> List.filter f l = l.
Proof. induction l as [|x l IH]; intros Hf; [done|]. cbn. rewrite Hf by left. f_equal. apply IH. intros y Hy. apply Hf. by right. Qed.

(** ** Permutations *)

(** Two balances, one after the other: what was there ([A0]) and came in ([I1],
    [I2]) is what is there ([A2]) and went out ([D1], [D2], [E1], [E2]). *)
Lemma balance_compose {A} (A0 A1 A2 D1 D2 E1 E2 I1 I2 : list A) :
  A1 ++ D1 ++ E1 ≡ₚ A0 ++ I1 -> A2 ++ D2 ++ E2 ≡ₚ A1 ++ I2 ->
  A2 ++ (D1 ++ D2) ++ (E1 ++ E2) ≡ₚ A0 ++ (I1 ++ I2).
Proof.
  intros H1 H2. rewrite (app_assoc A0), <- H1, <- !app_assoc.
  rewrite (Permutation_app_comm D1), <- !app_assoc.
  transitivity (A1 ++ I2 ++ D1 ++ E1).
  - rewrite (app_assoc A1), <- H2, <- !app_assoc. do 2 f_equiv.
    rewrite (Permutation_app_comm E1 (E2 ++ D1)), <- !app_assoc. done.
  - f_equiv. rewrite (Permutation_app_comm I2), <- !app_assoc. done.
Qed.

#[export] Hint Rewrite ToUint32_ToInt32 ToInt32_ToUint32 : js.
#[export] Hint Resolve ToUint32_range ToInt32_range : js.
