(* ===== verification/Sha256Spec.v ===== *)
(** * SHA-256 as the standard defines it (FIPS 180-4)

    The reference the hash of [files/sha256.js] is compared with: words are
    integers below [2^32], additions are modulo [2^32], the message is a list of
    bytes.  The round constants and the initial hash value are computed from
    their definition, the fractional parts of the cube and square roots of
    the first primes, so that the tables of the code are checked against it. *)

From S2P Require Import Prelude.

Local Open Scope Z_scope.

Module Fips.

(** ** Words *)

Definition add32 (x y : Z) : Z := (x + y) mod two32.
Definition rotr (n x : Z) : Z := Z.lor (Z.shiftr x n) ((Z.shiftl x (32 - n)) mod two32).
Definition shr (n x : Z) : Z := Z.shiftr x n.
Definition complement (x : Z) : Z := two32 - 1 - x.

Definition Ch (x y z : Z) : Z := Z.lxor (Z.land x y) (Z.land (complement x) z).
Definition Maj (x y z : Z) : Z :=
  Z.lxor (Z.lxor (Z.land x y) (Z.land x z)) (Z.land y z).
Definition bigSigma0 (x : Z) : Z := Z.lxor (Z.lxor (rotr 2 x) (rotr 13 x)) (rotr 22 x).
Definition bigSigma1 (x : Z) : Z := Z.lxor (Z.lxor (rotr 6 x) (rotr 11 x)) (rotr 25 x).
Definition smallSigma0 (x : Z) : Z := Z.lxor (Z.lxor (rotr 7 x) (rotr 18 x)) (shr 3 x).
Definition smallSigma1 (x : Z) : Z := Z.lxor (Z.lxor (rotr 17 x) (rotr 19 x)) (shr 10 x).

(** ** Constants (sections 4.2.2 and 5.3.3) *)

(** The primes below 312 are the first 64. *)
Definition is_prime (n : nat) : bool :=
  (2 <=? n)%nat && forallb (fun d => negb (n mod d =? 0)%nat) (seq 2 (n - 2)).
Definition primes : list Z := Z.of_nat <$> List.filter is_prime (seq 2 310).

(** The [k]-th root of [n], rounded down, by bisection on [bits] bits. *)
Fixpoint root_aux (bits : nat) (k n acc : Z) : Z :=
  match bits with
  | O => acc
  | S b =>
      let acc' := acc + 2 ^ Z.of_nat b in
      root_aux b k n (if acc' ^ k <=? n then acc' else acc)
  end.

(** The first 32 bits of the fractional part of the [k]-th root of [p]. *)
Definition frac_root (k p : Z) : Z := (root_aux 40 k (p * 2 ^ (32 * k)) 0) mod two32.

Definition K : list Z := frac_root 3 <$> primes.
Definition H0 : list Z := frac_root 2 <$> take 8 primes.

(** ** Padding and parsing (sections 5.1.1 and 5.2.1) *)

(** Big-endian bytes of a number, [n] of them. *)
Fixpoint be_bytes (n : nat) (x : Z) : list Z :=
  match n with
  | O => []
  | S m => (x / 256 ^ Z.of_nat m) mod 256 :: be_bytes m x
  end.

(** Zero bytes between the [0x80] byte and the length field. *)
Definition zeros (len : nat) : nat := Z.to_nat ((55 - Z.of_nat len) mod 64).

Definition pad (msg : list Z) : list Z :=
  msg ++ [128] ++ replicate (zeros (length msg)) 0 ++ be_bytes 8 (8 * Z.of_nat (length msg)).

(** The [j]-th word of the [i]-th block of a padded message. *)
Definition byte_at (bs : list Z) (k : nat) : Z := default 0 (bs !! k).
Definition word (bs : list Z) (i j : nat) : Z :=
  let k := (i * 64 + j * 4)%nat in
  byte_at bs k * 2 ^ 24 + byte_at bs (k + 1) * 2 ^ 16
    + byte_at bs (k + 2) * 2 ^ 8 + byte_at bs (k + 3).

Definition block (bs : list Z) (i : nat) : list Z := word bs i <$> seq 0 16.
Definition nblocks (bs : list Z) : nat := (length bs / 64)%nat.

(** ** Hash computation (section 6.2.2) *)

Definition at0 (l : list Z) (i : nat) : Z := default 0 (l !! i).

Definition schedule_step (w : list Z) (t : nat) : list Z :=
  w ++ [add32 (add32 (add32 (smallSigma1 (at0 w (t - 2))) (at0 w (t - 7)))
                     (smallSigma0 (at0 w (t - 15)))) (at0 w (t - 16))].
Definition schedule (m : list Z) : list Z := foldl schedule_step m (seq 16 48).

Record vars := mkVars { va : Z; vb : Z; vc : Z; vd : Z; ve : Z; vf : Z; vg : Z; vh : Z }.

Definition round (w : list Z) (v : vars) (t : nat) : vars :=
  let T1 := add32 (add32 (add32 (add32 (vh v) (bigSigma1 (ve v))) (Ch (ve v) (vf v) (vg v)))
                         (at0 K t)) (at0 w t) in
  let T2 := add32 (bigSigma0 (va v)) (Maj (va v) (vb v) (vc v)) in
  mkVars (add32 T1 T2) (va v) (vb v) (vc v) (add32 (vd v) T1) (ve v) (vf v) (vg v).

Definition of_list (h : list Z) : vars :=
  mkVars (at0 h 0) (at0 h 1) (at0 h 2) (at0 h 3) (at0 h 4) (at0 h 5) (at0 h 6) (at0 h 7).

Definition compress (h : list Z) (m : list Z) : list Z :=
  let v := foldl (round (schedule m)) (of_list h) (seq 0 64) in
  [add32 (at0 h 0) (va v); add32 (at0 h 1) (vb v); add32 (at0 h 2) (vc v);
   add32 (at0 h 3) (vd v); add32 (at0 h 4) (ve v); add32 (at0 h 5) (vf v);
   add32 (at0 h 6) (vg v); add32 (at0 h 7) (vh v)].

(** The eight words of the digest of a byte string. *)
Definition digest (msg : list Z) : list Z :=
  let bs := pad msg in
  foldl (fun h i => compress h (block bs i)) H0 (seq 0 (nblocks bs)).

(** Its 64 lower-case hexadecimal digits. *)
Definition hex_digit (d : Z) : Z := if d <? 10 then 48 + d else 87 + d.
Definition hex_word (w : Z) : jsstr :=
  (fun i => hex_digit ((w / 16 ^ Z.of_nat i) mod 16)) <$> [7; 6; 5; 4; 3; 2; 1; 0]%nat.
Definition hexdigest (msg : list Z) : jsstr := concat (hex_word <$> digest msg).

End Fips.
