(* ===== verification/Utf8.v ===== *)
(** * The [Utf8] object of [files/sha256.js]

    [encode] and [decode] are translated pass by pass: each is two global
    [String.replace] calls with a callback.  The theorems give the encoding of
    every code unit, show that the output is a byte string, and that decoding
    an encoded string gives the string back. *)

From S2P Require Import Prelude.

Local Open Scope Z_scope.

Module Utf8.

(** [s.replace(/[lo-hi]/g, f)] for a class of one code unit. *)
Definition replace_class (lo hi : Z) (f : Z -> jsstr) (s : jsstr) : jsstr :=
  s ≫= fun c => if (lo <=? c) && (c <=? hi) then f c else [c].

(** ** [Utf8.encode] *)

Definition encode2 (cc : Z) : jsstr :=
  fromCharCode [(192 |. (cc >>. 6))%js; (128 |. (cc &. 63))%js].

Definition encode3 (cc : Z) : jsstr :=
  fromCharCode [(224 |. (cc >>. 12))%js; (128 |. ((cc >>. 6) &. 63))%js; (128 |. (cc &. 63))%js].

Definition encode (strUni : jsstr) : jsstr :=
  let strUtf := replace_class 128 2047 encode2 strUni in
  replace_class 2048 65535 encode3 strUtf.

(** ** [Utf8.decode] *)

Definition lead3 (c : Z) : bool := (224 <=? c) && (c <=? 239).
Definition lead2 (c : Z) : bool := (192 <=? c) && (c <=? 223).
Definition cont (c : Z) : bool := (128 <=? c) && (c <=? 191).

Definition decode3_char (c0 c1 c2 : Z) : jsstr :=
  fromCharCode [(((c0 &. 15) <<. 12) |. ((c1 &. 63) <<. 6) |. (c2 &. 63))%js].

Definition decode2_char (c0 c1 : Z) : jsstr :=
  fromCharCode [(((c0 &. 31) <<. 6) |. (c1 &. 63))%js].

(** First pass: the three-unit matches, left to right, without overlap. *)
Fixpoint decode3 (s : jsstr) : jsstr :=
  match s with
  | [] => []
  | c0 :: s0 =>
      match s0 with
      | c1 :: c2 :: s2 =>
          if lead3 c0 && cont c1 && cont c2 then decode3_char c0 c1 c2 ++ decode3 s2
          else c0 :: decode3 s0
      | _ => c0 :: decode3 s0
      end
  end.

(** Second pass: the two-unit matches. *)
Fixpoint decode2 (s : jsstr) : jsstr :=
  match s with
  | [] => []
  | c0 :: s0 =>
      match s0 with
      | c1 :: s1 =>
          if lead2 c0 && cont c1 then decode2_char c0 c1 ++ decode2 s1
          else c0 :: decode2 s0
      | _ => c0 :: decode2 s0
      end
  end.

Definition decode (strUtf : jsstr) : jsstr :=
  let strUni := decode3 strUtf in
  decode2 strUni.

(** ** The reference encoding of one code unit (Unicode, table 3-6) *)

Definition unit_bytes (c : Z) : list Z :=
  if c <? 128 then [c]
  else if c <? 2048 then [192 + c / 64; 128 + c mod 64]
  else [224 + c / 4096; 128 + c / 64 mod 64; 128 + c mod 64].

(** ** Lemmas *)

Lemma encode2_bytes c : 128 <= c < 2048 -> encode2 c = [192 + c / 64; 128 + c mod 64].
Proof.
  intros H. unfold encode2, fromCharCode. cbn.
  pose proof (Z.mod_pos_bound c 64). pose proof (Z.div_lt_upper_bound c 64 32).
  pose proof (Z.div_pos c 64).
  rewrite (js_shr_small c 6), (js_and_ones c 6 63) by lia.
  change (2 ^ 6) with 64.
  rewrite (js_or_disjoint 3 6 192), (js_or_disjoint 2 6 128) by lia.
  rewrite !(Z.mod_small _ 65536) by lia. done.
Qed.

Lemma encode3_bytes c :
  2048 <= c < 65536 -> encode3 c = [224 + c / 4096; 128 + c / 64 mod 64; 128 + c mod 64].
Proof.
  intros H. unfold encode3, fromCharCode. cbn.
  pose proof (Z.mod_pos_bound c 64). pose proof (Z.mod_pos_bound (c / 64) 64).
  pose proof (Z.div_lt_upper_bound c 4096 16). pose proof (Z.div_pos c 4096).
  pose proof (Z.div_pos c 64). pose proof (Z.div_lt_upper_bound c 64 1024).
  rewrite (js_shr_small c 12), (js_shr_small c 6) by lia.
  change (2 ^ 12) with 4096. change (2 ^ 6) with 64.
  rewrite (js_and_ones c 6 63), (js_and_ones (c / 64) 6 63) by lia.
  change (2 ^ 6) with 64.
  rewrite (js_or_disjoint 7 5 224), !(js_or_disjoint 2 6 128) by lia.
  rewrite !(Z.mod_small _ 65536) by lia. done.
Qed.

Lemma decode2_char_bytes a b :
  0 <= a < 32 -> 0 <= b < 64 -> decode2_char (192 + a) (128 + b) = [a * 64 + b].
Proof.
  intros Ha Hb. unfold decode2_char, fromCharCode. cbn.
  rewrite (js_and_ones (192 + a) 5 31), (js_and_ones (128 + b) 6 63) by lia.
  change (2 ^ 5) with 32. change (2 ^ 6) with 64.
  replace ((192 + a) mod 32) with a by (rewrite <- (Z.mod_unique (192 + a) 32 6 a); lia).
  replace ((128 + b) mod 64) with b by (rewrite <- (Z.mod_unique (128 + b) 64 2 b); lia).
  rewrite (js_shl_small a 6) by lia.
  rewrite (js_or_disjoint a 6) by lia.
  change (2 ^ 6) with 64. rewrite Z.mod_small by lia. done.
Qed.

Lemma decode3_char_bytes a b d :
  0 <= a < 16 -> 0 <= b < 64 -> 0 <= d < 64 ->
  decode3_char (224 + a) (128 + b) (128 + d) = [a * 4096 + b * 64 + d].
Proof.
  intros Ha Hb Hd. unfold decode3_char, fromCharCode. cbn.
  rewrite (js_and_ones (224 + a) 4 15), (js_and_ones (128 + b) 6 63),
    (js_and_ones (128 + d) 6 63) by lia.
  change (2 ^ 4) with 16. change (2 ^ 6) with 64.
  replace ((224 + a) mod 16) with a by (rewrite <- (Z.mod_unique (224 + a) 16 14 a); lia).
  replace ((128 + b) mod 64) with b by (rewrite <- (Z.mod_unique (128 + b) 64 2 b); lia).
  replace ((128 + d) mod 64) with d by (rewrite <- (Z.mod_unique (128 + d) 64 2 d); lia).
  rewrite (js_shl_small a 12), (js_shl_small b 6) by lia.
  rewrite (js_or_disjoint a 12 (a * 2 ^ 12)) by lia.
  rewrite (js_or_disjoint (a * 64 + b) 6) by lia.
  rewrite Z.mod_small by lia. f_equal; lia.
Qed.

(** A pass leaves alone a string none of whose units is in its class. *)
Lemma replace_class_id lo hi f s :
  Forall (fun c => ~ (lo <= c <= hi)) s -> replace_class lo hi f s = s.
Proof.
  induction 1 as [|c s Hc _ IH]; [done|]. unfold replace_class in *. cbn. rewrite IH.
  destruct (Z.leb_spec lo c), (Z.leb_spec c hi); cbn; try done. lia.
Qed.

Lemma replace_class_app lo hi f s t :
  replace_class lo hi f (s ++ t) = replace_class lo hi f s ++ replace_class lo hi f t.
Proof. apply bind_app. Qed.

Lemma unit_bytes_ranges c :
  is_unit c ->
  (0 <= c < 128 /\ unit_bytes c = [c]) \/
  (exists a b, 128 <= c < 2048 /\ 2 <= a < 32 /\ 0 <= b < 64 /\ c = a * 64 + b /\
     unit_bytes c = [192 + a; 128 + b]) \/
  (exists a b d, 2048 <= c < 65536 /\ 0 <= a < 16 /\ 0 <= b < 64 /\ 0 <= d < 64 /\
     c = a * 4096 + b * 64 + d /\ unit_bytes c = [224 + a; 128 + b; 128 + d]).
Proof.
  unfold is_unit, unit_bytes. intros H. zcases.
  - left. split; [lia|done].
  - right; left. exists (c / 64), (c mod 64).
    pose proof (Z.div_mod c 64). pose proof (Z.mod_pos_bound c 64).
    split_and!; try lia; done.
  - right; right. exists (c / 4096), (c / 64 mod 64), (c mod 64).
    pose proof (Z.div_mod c 64). pose proof (Z.mod_pos_bound c 64).
    pose proof (Z.div_mod (c / 64) 64). pose proof (Z.mod_pos_bound (c / 64) 64).
    rewrite Z.div_div in * by lia. change (64 * 64) with 4096 in *.
    split_and!; try lia; done.
Qed.

Lemma encode_cons c s : is_unit c -> encode (c :: s) = unit_bytes c ++ encode s.
Proof.
  intros H. unfold encode. change (c :: s) with ([c] ++ s).
  rewrite !replace_class_app. f_equal. unfold unit_bytes, is_unit in *.
  unfold replace_class at 2. cbn [mbind list_bind]. rewrite app_nil_r. zcases; cbn [andb].
  - by apply replace_class_id; repeat constructor; lia.
  - rewrite encode2_bytes by lia. apply replace_class_id.
    pose proof (Z.div_lt_upper_bound c 64 32). pose proof (Z.mod_pos_bound c 64).
    repeat constructor; lia.
  - unfold replace_class. cbn. rewrite app_nil_r. zcases. cbn. apply encode3_bytes; lia.
Qed.

(** What is left after the first decoding pass: three-byte sequences joined. *)
Definition half_decoded (c : Z) : list Z := if c <? 2048 then unit_bytes c else [c].

Lemma decode3_step c t : is_unit c -> decode3 (unit_bytes c ++ t) = half_decoded c ++ decode3 t.
Proof.
  intros Hc. unfold half_decoded.
  destruct (unit_bytes_ranges c Hc) as
    [[? ->]|[(a & b & ? & ? & ? & -> & ->)|(a & b & d & ? & ? & ? & ? & -> & ->)]].
  - rewrite (proj2 (Z.ltb_lt c 2048)) by lia. cbn [app]. destruct t as [|x [|y t]]; cbn [decode3]; try done.
    unfold lead3. destruct (Z.leb_spec 224 c); [lia|done].
  - rewrite (proj2 (Z.ltb_lt _ 2048)) by lia.
    assert (Hl : lead3 (192 + a) = false /\ lead3 (128 + b) = false).
    { unfold lead3. split; zcases; done. }
    destruct Hl as [Hl1 Hl2]. cbn [app].
    destruct t as [|x [|y t]]; cbn [decode3]; rewrite ?Hl1, ?Hl2; done.
  - rewrite (proj2 (Z.ltb_ge _ 2048)) by lia. cbn [app decode3].
    unfold lead3, cont. zcases. cbn [andb]. by rewrite decode3_char_bytes by lia.
Qed.

Lemma decode2_step c t : is_unit c -> decode2 (half_decoded c ++ t) = c :: decode2 t.
Proof.
  intros Hc. unfold half_decoded.
  destruct (unit_bytes_ranges c Hc) as
    [[? ->]|[(a & b & ? & ? & ? & -> & ->)|(a & b & d & ? & ? & ? & ? & -> & ->)]].
  - rewrite (proj2 (Z.ltb_lt c 2048)) by lia. cbn [app]. destruct t as [|x t]; cbn [decode2]; try done.
    unfold lead2. destruct (Z.leb_spec 192 c); [lia|done].
  - rewrite (proj2 (Z.ltb_lt _ 2048)) by lia. cbn [app decode2].
    unfold lead2, cont. zcases. cbn [andb]. by rewrite decode2_char_bytes by lia.
  - rewrite (proj2 (Z.ltb_ge _ 2048)) by lia. cbn [app].
    assert (Hl : lead2 (a * 4096 + b * 64 + d) = false) by (unfold lead2; zcases; done).
    destruct t as [|x t]; cbn [decode2]; [done|]. by rewrite Hl.
Qed.

(** ** Properties *)

Lemma encode_spec s : wf_str s -> encode s = s ≫= unit_bytes.
Proof.
  induction 1 as [|c s Hc _ IH]; [done|]. rewrite encode_cons by done. cbn. by rewrite IH.
Qed.

Lemma encode_bytes s : wf_str s -> byte_str (encode s).
Proof.
  induction 1 as [|c s Hc _ IH]; [constructor|]. rewrite encode_cons by done.
  apply Forall_app; split; [|done].
  destruct (unit_bytes_ranges c Hc) as
    [[? ->]|[(a & b & ? & ? & ? & -> & ->)|(a & b & d & ? & ? & ? & ? & -> & ->)]];
    repeat constructor; unfold is_byte; lia.
Qed.

Lemma decode_encode_str s : wf_str s -> decode (encode s) = s.
Proof.
  intros Hs. unfold decode.
  assert (decode3 (encode s) = s ≫= half_decoded) as ->.
  { induction Hs as [|c s Hc _ IH]; [done|].
    rewrite encode_cons by done. cbn. by rewrite decode3_step, IH by done. }
  induction Hs as [|c s Hc _ IH]; [done|]. cbn. by rewrite decode2_step, IH by done.
Qed.

(** C33: decoding the UTF-8 encoding of any string of 16-bit units gives the
    string back: the two replacement passes of [Utf8.decode] undo those of [Utf8.encode]. *)
Theorem utf8_roundtrip s : wf_str s -> decode (encode s) = s.
Proof. apply decode_encode_str. Qed.

Lemma utf8_roundtrip_witness : decode (encode [97; 233; 8364; 55357]) = [97; 233; 8364; 55357].
Proof. apply utf8_roundtrip. unfold wf_str. repeat constructor; done. Defined.

End Utf8.
