(* ===== verification/Sha256.v ===== *)
(** * The [Sha256] object of [files/sha256.js]

    Translated with JavaScript's own integers: the bitwise operators produce
    signed 32-bit values, sums are ordinary numbers (the largest, of five
    32-bit values, is far below [2^53]) reduced by [& 0xffffffff].  The
    refinement theorem says the result is the hexadecimal digest of FIPS 180-4
    ([Sha256Spec]).  The array indices of the source are in range (lemmas
    below), so a read out of range, which would be [undefined], does not occur;
    [nth0] reads 0 there. *)

From S2P Require Import Prelude Sha256Spec Utf8.

Local Open Scope Z_scope.

Module Sha256.

Definition nth0 (l : list Z) (i : nat) : Z := default 0 (l !! i).

(** ** The logical functions *)

Definition ROTR (n x : Z) : Z := ((x >>>. n) |. (x <<. (32 - n)))%js.
Definition Sigma0 (x : Z) : Z := (ROTR 2 x ^. ROTR 13 x ^. ROTR 22 x)%js.
Definition Sigma1 (x : Z) : Z := (ROTR 6 x ^. ROTR 11 x ^. ROTR 25 x)%js.
Definition sigma0 (x : Z) : Z := (ROTR 7 x ^. ROTR 18 x ^. (x >>>. 3))%js.
Definition sigma1 (x : Z) : Z := (ROTR 17 x ^. ROTR 19 x ^. (x >>>. 10))%js.
Definition Ch (x y z : Z) : Z := ((x &. y) ^. (js_not x &. z))%js.
Definition Maj (x y z : Z) : Z := ((x &. y) ^. (x &. z) ^. (y &. z))%js.

(** [v.toString(16)] of a digit, and [toHexStr]. *)
Definition toString16_digit (v : Z) : jsstr := if v <? 10 then [48 + v] else [97 + (v - 10)].

Definition toHexStr (n : Z) : jsstr :=
  foldl (fun s i => s ++ toString16_digit ((n >>>. (i * 4)) &. 15)%js) [] [7; 6; 5; 4; 3; 2; 1; 0].

(** ** The tables *)

Definition K : list Z := concat
  [[0x428a2f98; 0x71374491; 0xb5c0fbcf; 0xe9b5dba5; 0x3956c25b; 0x59f111f1; 0x923f82a4; 0xab1c5ed5];
   [0xd807aa98; 0x12835b01; 0x243185be; 0x550c7dc3; 0x72be5d74; 0x80deb1fe; 0x9bdc06a7; 0xc19bf174];
   [0xe49b69c1; 0xefbe4786; 0x0fc19dc6; 0x240ca1cc; 0x2de92c6f; 0x4a7484aa; 0x5cb0a9dc; 0x76f988da];
   [0x983e5152; 0xa831c66d; 0xb00327c8; 0xbf597fc7; 0xc6e00bf3; 0xd5a79147; 0x06ca6351; 0x14292967];
   [0x27b70a85; 0x2e1b2138; 0x4d2c6dfc; 0x53380d13; 0x650a7354; 0x766a0abb; 0x81c2c92e; 0x92722c85];
   [0xa2bfe8a1; 0xa81a664b; 0xc24b8b70; 0xc76c51a3; 0xd192e819; 0xd6990624; 0xf40e3585; 0x106aa070];
   [0x19a4c116; 0x1e376c08; 0x2748774c; 0x34b0bcb5; 0x391c0cb3; 0x4ed8aa4a; 0x5b9cca4f; 0x682e6ff3];
   [0x748f82ee; 0x78a5636f; 0x84c87814; 0x8cc70208; 0x90befffa; 0xa4506ceb; 0xbef9a3f7; 0xc67178f2]].

Definition H_init : list Z :=
  [0x6a09e667; 0xbb67ae85; 0x3c6ef372; 0xa54ff53a; 0x510e527f; 0x9b05688c; 0x1f83d9ab; 0x5be0cd19].

(** ** Preprocessing

    [msg] holds the trailing [0x80] already.  [l = msg.length/4 + 2] and
    [N = Math.ceil(l/16)] divide by powers of two, so [N] is the ceiling of
    [(msg.length + 8) / 64]. *)
Definition num_blocks (msg : jsstr) : nat := Z.to_nat ((Z.of_nat (length msg) + 8 + 63) / 64).

Definition msg_word (msg : jsstr) (i j : nat) : Z :=
  let c k := nan0 (charCodeAt msg (i * 64 + j * 4 + k)) in
  ((c 0%nat <<. 24) |. (c 1%nat <<. 16) |. (c 2%nat <<. 8) |. c 3%nat)%js.

Definition msg_block (msg : jsstr) (i : nat) : list Z := msg_word msg i <$> seq 0 16.

(** The array [M], the bit length stored into the last two words. *)
Definition msg_blocks (msg : jsstr) : list (list Z) :=
  let N := num_blocks msg in
  let M := msg_block msg <$> seq 0 N in
  let bits := (Z.of_nat (length msg) - 1) * 8 in
  alter (fun b => <[15%nat := (bits &. 0xffffffff)%js]> (<[14%nat := bits / 2 ^ 32]> b)) (N - 1)%nat M.

(** ** Hash computation *)

Definition schedule_step (W : list Z) (t : nat) : list Z :=
  W ++ [((sigma1 (nth0 W (t - 2)) + nth0 W (t - 7) + sigma0 (nth0 W (t - 15)) + nth0 W (t - 16))
          &. 0xffffffff)%js].
Definition schedule (Mi : list Z) : list Z := foldl schedule_step Mi (seq 16 48).

Record vars := mkVars { a : Z; b : Z; c : Z; d : Z; e : Z; f : Z; g : Z; h : Z }.

Definition round (W : list Z) (v : vars) (t : nat) : vars :=
  let T1 := h v + Sigma1 (e v) + Ch (e v) (f v) (g v) + nth0 K t + nth0 W t in
  let T2 := Sigma0 (a v) + Maj (a v) (b v) (c v) in
  mkVars ((T1 + T2) &. 0xffffffff)%js (a v) (b v) (c v) ((d v + T1) &. 0xffffffff)%js (e v) (f v) (g v).

Definition init_vars (H : list Z) : vars :=
  mkVars (nth0 H 0) (nth0 H 1) (nth0 H 2) (nth0 H 3) (nth0 H 4) (nth0 H 5) (nth0 H 6) (nth0 H 7).

Definition process_block (H : list Z) (Mi : list Z) : list Z :=
  let v := foldl (round (schedule Mi)) (init_vars H) (seq 0 64) in
  [((nth0 H 0 + a v) &. 0xffffffff)%js; ((nth0 H 1 + b v) &. 0xffffffff)%js;
   ((nth0 H 2 + c v) &. 0xffffffff)%js; ((nth0 H 3 + d v) &. 0xffffffff)%js;
   ((nth0 H 4 + e v) &. 0xffffffff)%js; ((nth0 H 5 + f v) &. 0xffffffff)%js;
   ((nth0 H 6 + g v) &. 0xffffffff)%js; ((nth0 H 7 + h v) &. 0xffffffff)%js].

(** [Sha256.hash(msg, utf8encode)]; [None] is an absent argument. *)
Definition hash (msg : jsstr) (utf8encode : option bool) : jsstr :=
  let msg := if default true utf8encode then Utf8.encode msg else msg in
  let msg := msg ++ fromCharCode [128] in
  let H := foldl process_block H_init (msg_blocks msg) in
  toHexStr (nth0 H 0) ++ toHexStr (nth0 H 1) ++ toHexStr (nth0 H 2) ++ toHexStr (nth0 H 3) ++
  toHexStr (nth0 H 4) ++ toHexStr (nth0 H 5) ++ toHexStr (nth0 H 6) ++ toHexStr (nth0 H 7).

(** ** Each operator computes its word, modulo [2^32] *)

Lemma u32_and x y : ToUint32 (x &. y)%js = Z.land (ToUint32 x) (ToUint32 y).
Proof.
  apply Z.bits_inj'; intros i Hi. rewrite Z.land_spec. unfold ToUint32, js_and.
  rewrite !testbit_mod_two32 by done. destruct (Z.ltb_spec i 32); [|done].
  by rewrite Z.land_spec, !testbit_ToInt32 by lia.
Qed.

Lemma u32_or x y : ToUint32 (x |. y)%js = Z.lor (ToUint32 x) (ToUint32 y).
Proof.
  apply Z.bits_inj'; intros i Hi. rewrite Z.lor_spec. unfold ToUint32, js_or.
  rewrite !testbit_mod_two32 by done. destruct (Z.ltb_spec i 32); [|done].
  by rewrite Z.lor_spec, !testbit_ToInt32 by lia.
Qed.

Lemma u32_xor x y : ToUint32 (x ^. y)%js = Z.lxor (ToUint32 x) (ToUint32 y).
Proof.
  apply Z.bits_inj'; intros i Hi. rewrite Z.lxor_spec. unfold ToUint32, js_xor.
  rewrite !testbit_mod_two32 by done. destruct (Z.ltb_spec i 32); [|done].
  by rewrite Z.lxor_spec, !testbit_ToInt32 by lia.
Qed.

Lemma u32_not x : ToUint32 (js_not x) = Fips.complement (ToUint32 x).
Proof.
  unfold js_not, Fips.complement. rewrite <- (ToUint32_ToInt32 x).
  pose proof (ToInt32_range x). unfold ToUint32, Z.lnot.
  set (y := ToInt32 x) in *. clearbody y. Z.div_mod_to_equations. lia.
Qed.

Lemma u32_ushr x n : 0 <= n < 32 -> ToUint32 (x >>>. n)%js = Z.shiftr (ToUint32 x) n.
Proof.
  intros Hn. unfold js_ushr. rewrite (Z.mod_small n) by lia. apply ToUint32_small.
  pose proof (ToUint32_range x). rewrite Z.shiftr_div_pow2 by lia.
  pose proof (Z.pow_pos_nonneg 2 n). split; [apply Z.div_pos; lia|].
  apply Z.div_lt_upper_bound; nia.
Qed.

Lemma u32_shl x n : 0 <= n < 32 -> ToUint32 (x <<. n)%js = Z.shiftl (ToUint32 x) n mod two32.
Proof.
  intros Hn. unfold js_shl. rewrite (Z.mod_small n) by lia. rewrite ToUint32_ToInt32.
  rewrite <- (ToUint32_ToInt32 x). unfold ToUint32.
  rewrite !Z.shiftl_mul_pow2 by lia. by rewrite Z.mul_mod_idemp_l by lia.
Qed.

(** [x & 0xffffffff] is [x] modulo [2^32], as a signed number. *)
Lemma u32_mask x : ToUint32 (x &. 0xffffffff)%js = ToUint32 x.
Proof.
  rewrite u32_and. change (ToUint32 0xffffffff) with (Z.ones 32).
  rewrite Z.land_ones by lia. apply Z.mod_small. apply ToUint32_range.
Qed.

Lemma u32_add x y : Fips.add32 (ToUint32 x) (ToUint32 y) = ToUint32 (x + y).
Proof. unfold Fips.add32. by rewrite (ToUint32_add x y). Qed.

Lemma u32_nth0 l i : Fips.at0 (ToUint32 <$> l) i = ToUint32 (nth0 l i).
Proof. unfold Fips.at0, nth0. rewrite list_lookup_fmap. by destruct (l !! i). Qed.

Lemma u32_ROTR n x : 0 < n < 32 -> ToUint32 (ROTR n x) = Fips.rotr n (ToUint32 x).
Proof. intros. unfold ROTR, Fips.rotr. by rewrite u32_or, u32_ushr, u32_shl by lia. Qed.

Lemma u32_Sigma0 x : ToUint32 (Sigma0 x) = Fips.bigSigma0 (ToUint32 x).
Proof. unfold Sigma0. by rewrite !u32_xor, !u32_ROTR by lia. Qed.
Lemma u32_Sigma1 x : ToUint32 (Sigma1 x) = Fips.bigSigma1 (ToUint32 x).
Proof. unfold Sigma1. by rewrite !u32_xor, !u32_ROTR by lia. Qed.
Lemma u32_sigma0 x : ToUint32 (sigma0 x) = Fips.smallSigma0 (ToUint32 x).
Proof. unfold sigma0. by rewrite !u32_xor, !u32_ROTR, u32_ushr by lia. Qed.
Lemma u32_sigma1 x : ToUint32 (sigma1 x) = Fips.smallSigma1 (ToUint32 x).
Proof. unfold sigma1. by rewrite !u32_xor, !u32_ROTR, u32_ushr by lia. Qed.
Lemma u32_Ch x y z : ToUint32 (Ch x y z) = Fips.Ch (ToUint32 x) (ToUint32 y) (ToUint32 z).
Proof. unfold Ch. by rewrite !u32_xor, !u32_and, u32_not. Qed.
Lemma u32_Maj x y z : ToUint32 (Maj x y z) = Fips.Maj (ToUint32 x) (ToUint32 y) (ToUint32 z).
Proof. unfold Maj. by rewrite !u32_xor, !u32_and. Qed.

Create Rewrite HintDb u32.
#[local] Hint Rewrite <- u32_Sigma0 u32_Sigma1 u32_sigma0 u32_sigma1 u32_Ch u32_Maj : u32.
#[local] Hint Rewrite u32_nth0 u32_add u32_mask : u32.

(** ** The tables are the standard's *)

Lemma K_fips : K = Fips.K.
Proof. vm_compute. reflexivity. Qed.

Lemma H_init_fips : H_init = Fips.H0.
Proof. vm_compute. reflexivity. Qed.

Lemma nth0_K t : Fips.at0 Fips.K t = ToUint32 (nth0 K t).
Proof. rewrite <- K_fips, <- u32_nth0. by replace (ToUint32 <$> K) with K by (vm_compute; done). Qed.

(** ** The block function simulates the standard's *)

Lemma schedule_sim Mi : ToUint32 <$> schedule Mi = Fips.schedule (ToUint32 <$> Mi).
Proof.
  unfold schedule, Fips.schedule. apply (foldl_hom (fmap ToUint32)).
  intros W t _. unfold schedule_step, Fips.schedule_step.
  rewrite fmap_app. cbn [fmap list_fmap]. by autorewrite with u32.
Qed.

Definition vars_u32 (v : vars) : Fips.vars :=
  Fips.mkVars (ToUint32 (a v)) (ToUint32 (b v)) (ToUint32 (c v)) (ToUint32 (d v))
    (ToUint32 (e v)) (ToUint32 (f v)) (ToUint32 (g v)) (ToUint32 (h v)).

Lemma round_sim W v t : vars_u32 (round W v t) = Fips.round (ToUint32 <$> W) (vars_u32 v) t.
Proof.
  unfold round, Fips.round, vars_u32. cbn [a b c d e f g h Fips.va Fips.vb Fips.vc Fips.vd
    Fips.ve Fips.vf Fips.vg Fips.vh]. pose proof (nth0_K t) as HK.
  set (k := Fips.at0 Fips.K t) in *. rewrite HK. by autorewrite with u32.
Qed.

Lemma process_block_sim H Mi :
  ToUint32 <$> process_block H Mi = Fips.compress (ToUint32 <$> H) (ToUint32 <$> Mi).
Proof.
  unfold process_block, Fips.compress. rewrite <- schedule_sim.
  replace (Fips.of_list (ToUint32 <$> H)) with (vars_u32 (init_vars H))
    by (unfold Fips.of_list, vars_u32, init_vars; cbn; by autorewrite with u32).
  rewrite <- (foldl_hom vars_u32 (round (schedule Mi))) by (intros; apply round_sim).
  set (v := foldl _ _ _). unfold vars_u32. cbn [fmap list_fmap Fips.va Fips.vb Fips.vc Fips.vd
    Fips.ve Fips.vf Fips.vg Fips.vh]. by autorewrite with u32.
Qed.

(** ** Preprocessing is the standard's padding *)

Section padding.
Context (msg : jsstr).
Let padded := msg ++ fromCharCode [128].
Let n := length msg.

Lemma padded_length : length padded = S n.
Proof. unfold padded, n. rewrite length_app. cbn. lia. Qed.

Lemma be_bytes_length k x : length (Fips.be_bytes k x) = k.
Proof. induction k; cbn; congruence. Qed.

Lemma pad_length : length (Fips.pad msg) = (64 * num_blocks padded)%nat.
Proof.
  unfold Fips.pad, num_blocks. rewrite padded_length, !length_app, length_replicate, be_bytes_length.
  fold n. cbn [length]. unfold Fips.zeros. Z.div_mod_to_equations. lia.
Qed.

Lemma nblocks_pad : Fips.nblocks (Fips.pad msg) = num_blocks padded.
Proof. unfold Fips.nblocks. rewrite pad_length. symmetry. apply Nat.div_unique_exact; lia. Qed.

Lemma num_blocks_pos : (S n + 8 <= 64 * num_blocks padded)%nat /\ (1 <= num_blocks padded)%nat.
Proof. unfold num_blocks. rewrite padded_length. Z.div_mod_to_equations. lia. Qed.

(** Before the length field, a byte of the padded message is the code unit of
    the string, or 0 past its end. *)
Lemma pad_byte k :
  (k < 64 * num_blocks padded - 8)%nat -> Fips.byte_at (Fips.pad msg) k = nan0 (charCodeAt padded k).
Proof.
  intros Hk. pose proof pad_length as Hl. unfold Fips.pad, Fips.byte_at, nan0, charCodeAt in *.
  rewrite app_assoc, app_assoc in *. change (msg ++ [128]) with padded in *.
  rewrite !length_app, length_replicate, be_bytes_length in Hl.
  rewrite lookup_app_l by (rewrite length_app, length_replicate; lia).
  destruct (decide (k < length padded)%nat).
  - by rewrite lookup_app_l by done.
  - rewrite lookup_app_r, (lookup_ge_None_2 padded) by lia.
    rewrite lookup_replicate_2 by lia. done.
Qed.

(** The length field. *)
Lemma pad_length_byte k :
  (k < 8)%nat ->
  Fips.byte_at (Fips.pad msg) (64 * num_blocks padded - 8 + k) =
  (8 * Z.of_nat n / 256 ^ Z.of_nat (7 - k)) mod 256.
Proof.
  intros Hk. pose proof pad_length as Hl. unfold Fips.pad, Fips.byte_at in *.
  rewrite app_assoc, app_assoc in *. rewrite length_app, be_bytes_length in Hl.
  rewrite lookup_app_r by lia.
  replace (64 * num_blocks padded - 8 + k - _)%nat with k by lia. fold n.
  do 8 (destruct k as [|k]; [done|]). lia.
Qed.

Lemma nan0_byte k : byte_str msg -> is_byte (nan0 (charCodeAt padded k)).
Proof.
  intros Hb. unfold nan0, charCodeAt. destruct (padded !! k) as [x|] eqn:Hx; cbn.
  - assert (byte_str padded) as Hp.
    { apply Forall_app; split; [done|]. apply Forall_singleton. by vm_compute. }
    exact (proj1 (Forall_lookup _ _) Hp _ _ Hx).
  - unfold is_byte. lia.
Qed.

(** Four bytes packed by shifts and disjunctions, big-endian. *)
Lemma u32_pack x y z w :
  is_byte x -> is_byte y -> is_byte z -> is_byte w ->
  ToUint32 ((x <<. 24) |. (y <<. 16) |. (z <<. 8) |. w)%js
  = x * 2 ^ 24 + y * 2 ^ 16 + z * 2 ^ 8 + w.
Proof.
  unfold is_byte. intros. rewrite !u32_or, !u32_shl by lia.
  rewrite !(ToUint32_small x), !(ToUint32_small y), !(ToUint32_small z), !(ToUint32_small w) by lia.
  rewrite !Z.shiftl_mul_pow2 by lia. rewrite !Z.mod_small by lia.
  rewrite (lor_add_disjoint x _ 24) by lia.
  replace (x * 2 ^ 24 + y * 2 ^ 16) with ((x * 2 ^ 8 + y) * 2 ^ 16) by lia.
  rewrite (lor_add_disjoint _ _ 16) by lia.
  replace ((x * 2 ^ 8 + y) * 2 ^ 16 + z * 2 ^ 8) with ((x * 2 ^ 16 + y * 2 ^ 8 + z) * 2 ^ 8) by lia.
  rewrite (lor_add_disjoint _ _ 8) by lia. lia.
Qed.

(** A word of [M] that the length field does not touch. *)
Lemma msg_word_fips i j :
  byte_str msg -> (i * 64 + j * 4 + 3 < 64 * num_blocks padded - 8)%nat ->
  ToUint32 (msg_word padded i j) = Fips.word (Fips.pad msg) i j.
Proof.
  intros Hb Hij. unfold msg_word, Fips.word.
  rewrite u32_pack by (by apply nan0_byte).
  rewrite !pad_byte by lia. rewrite Nat.add_0_r. done.
Qed.

(** The big-endian bytes of the length make its two words. *)
Lemma length_words (x : Z) :
  0 <= x ->
  (x / 256 ^ 7) mod 256 * 2 ^ 24 + (x / 256 ^ 6) mod 256 * 2 ^ 16
    + (x / 256 ^ 5) mod 256 * 2 ^ 8 + (x / 256 ^ 4) mod 256 = ToUint32 (x / 2 ^ 32) /\
  (x / 256 ^ 3) mod 256 * 2 ^ 24 + (x / 256 ^ 2) mod 256 * 2 ^ 16
    + (x / 256 ^ 1) mod 256 * 2 ^ 8 + (x / 256 ^ 0) mod 256 = ToUint32 x.
Proof.
  assert (Hgo : forall y, 0 <= y -> (y / 16777216) mod 256 * 2 ^ 24 + (y / 65536) mod 256 * 2 ^ 16
    + (y / 256) mod 256 * 2 ^ 8 + y mod 256 = ToUint32 y).
  { intros y Hy. unfold ToUint32. Z.div_mod_to_equations. lia. }
  intros Hx. split.
  - rewrite <- Hgo by (apply Z.div_pos; lia). rewrite !Z.div_div by lia. done.
  - rewrite <- (Hgo x) by done. change (256 ^ 0) with 1. rewrite Z.div_1_r. done.
Qed.

Lemma length_word_14 :
  Fips.word (Fips.pad msg) (num_blocks padded - 1) 14 = ToUint32 (8 * Z.of_nat n / 2 ^ 32).
Proof.
  pose proof num_blocks_pos. unfold Fips.word.
  replace ((num_blocks padded - 1) * 64 + 14 * 4)%nat with (64 * num_blocks padded - 8 + 0)%nat by lia.
  rewrite <- !Nat.add_assoc, !pad_length_byte by lia.
  apply (proj1 (length_words (8 * Z.of_nat n) ltac:(lia))).
Qed.

Lemma length_word_15 :
  Fips.word (Fips.pad msg) (num_blocks padded - 1) 15 = ToUint32 (8 * Z.of_nat n).
Proof.
  pose proof num_blocks_pos. unfold Fips.word.
  replace ((num_blocks padded - 1) * 64 + 15 * 4)%nat with (64 * num_blocks padded - 8 + 4)%nat by lia.
  rewrite <- !Nat.add_assoc, !pad_length_byte by lia.
  apply (proj2 (length_words (8 * Z.of_nat n) ltac:(lia))).
Qed.

(** The last block, its length field stored. *)
Lemma last_block_fips :
  byte_str msg ->
  ToUint32 <$> <[15%nat := (((Z.of_nat (length padded) - 1) * 8) &. 0xffffffff)%js]>
    (<[14%nat := (Z.of_nat (length padded) - 1) * 8 / 2 ^ 32]> (msg_block padded (num_blocks padded - 1)))
  = Fips.block (Fips.pad msg) (num_blocks padded - 1).
Proof.
  intros Hb. pose proof num_blocks_pos as [Hn1 Hn2]. rewrite padded_length.
  replace ((Z.of_nat (S n) - 1) * 8) with (8 * Z.of_nat n) by lia.
  unfold msg_block, Fips.block. rewrite !list_fmap_insert, u32_mask, <- length_word_14, <- length_word_15.
  rewrite <- list_fmap_compose. unfold compose.
  set (i := (num_blocks padded - 1)%nat) in *.
  assert (Hw : forall j, (j < 14)%nat -> ToUint32 (msg_word padded i j) = Fips.word (Fips.pad msg) i j)
    by (intros; apply msg_word_fips; [done|lia]).
  cbn [fmap list_fmap seq insert list_insert]. rewrite !Hw by lia. done.
Qed.

Lemma msg_blocks_fips :
  byte_str msg ->
  fmap ToUint32 <$> msg_blocks padded = Fips.block (Fips.pad msg) <$> seq 0 (num_blocks padded).
Proof.
  intros Hb. pose proof num_blocks_pos as [Hn1 Hn2]. unfold msg_blocks.
  apply list_eq; intros i. rewrite list_lookup_fmap.
  destruct (decide (i = (num_blocks padded - 1)%nat)) as [->|Hi].
  - rewrite list_lookup_alter_eq, !list_lookup_fmap, lookup_seq_lt by lia. cbn [fmap option_fmap option_map].
    rewrite Nat.add_0_l. by rewrite <- last_block_fips.
  - rewrite list_lookup_alter_ne, !list_lookup_fmap by done.
    destruct (decide (i < num_blocks padded)%nat).
    + rewrite lookup_seq_lt by lia. cbn [fmap option_fmap option_map]. f_equal. rewrite Nat.add_0_l.
      unfold msg_block, Fips.block. rewrite <- list_fmap_compose. apply list_fmap_ext.
      intros k j Hk%lookup_seq. unfold compose. apply msg_word_fips; [done|lia].
    + by rewrite lookup_seq_ge by lia.
Qed.

End padding.

(** ** The digest *)

Lemma foldl_process_blocks (H : list Z) (Ms : list (list Z)) :
  fmap (M:=list) ToUint32 (foldl process_block H Ms)
  = foldl Fips.compress (fmap (M:=list) ToUint32 H) (fmap (M:=list) (fmap (M:=list) ToUint32) Ms).
Proof.
  revert H; induction Ms as [|M Ms IH]; intros H; [done|]. cbn [foldl fmap list_fmap].
  by rewrite IH, process_block_sim.
Qed.

Lemma foldl_fmap_seq {A B} (g : A -> B -> A) (k : nat -> B) x l :
  foldl (fun h i => g h (k i)) x l = foldl g x (k <$> l).
Proof. revert x; induction l as [|i l IH]; intros x; [done|]. cbn. apply IH. Qed.

Lemma digest_fips msg :
  byte_str msg ->
  ToUint32 <$> foldl process_block H_init (msg_blocks (msg ++ fromCharCode [128])) = Fips.digest msg.
Proof.
  intros Hb. rewrite foldl_process_blocks, msg_blocks_fips by done.
  unfold Fips.digest. rewrite nblocks_pad, foldl_fmap_seq, <- H_init_fips.
  by replace (ToUint32 <$> H_init) with H_init by (vm_compute; done).
Qed.

Lemma toHexStr_fips n : toHexStr n = Fips.hex_word (ToUint32 n).
Proof.
  assert (Hd : forall i, 0 <= i < 8 -> toString16_digit ((n >>>. (i * 4)) &. 15)%js
    = [Fips.hex_digit ((ToUint32 n / 16 ^ i) mod 16)]).
  { intros i Hi. unfold js_ushr. rewrite (Z.mod_small (i * 4)) by lia.
    pose proof (ToUint32_range n). rewrite Z.shiftr_div_pow2 by lia.
    replace (2 ^ (i * 4)) with (16 ^ i) by (rewrite Z.mul_comm, Z.pow_mul_r by lia; done).
    set (q := ToUint32 n / 16 ^ i). assert (0 <= q < two32).
    { pose proof (Z.pow_pos_nonneg 16 i). split; [apply Z.div_pos; lia|].
      apply Z.div_lt_upper_bound; nia. }
    assert ((q &. 15)%js = q mod 16) as ->.
    { unfold js_and. rewrite <- (ToUint32_small 15) by lia.
      change (ToInt32 (ToUint32 15)) with (Z.ones 4). apply Z.bits_inj'; intros k Hk.
      rewrite Z.land_spec, Z.testbit_ones_nonneg by lia. change 16 with (2 ^ 4).
      destruct (Z.ltb_spec k 4).
      - rewrite testbit_ToInt32, Z.mod_pow2_bits_low by lia. apply andb_true_r.
      - rewrite Z.mod_pow2_bits_high by lia. apply andb_false_r. }
    unfold toString16_digit, Fips.hex_digit. pose proof (Z.mod_pos_bound q 16).
    zcases; f_equal; lia. }
  unfold toHexStr. cbn [foldl]. rewrite !Hd by lia. done.
Qed.

(** The JavaScript hash of a byte string is its FIPS 180-4 digest. *)
Lemma hash_bytes msg : byte_str msg -> hash msg (Some false) = Fips.hexdigest msg.
Proof.
  intros Hb. unfold hash, Fips.hexdigest. cbn [default]. rewrite <- (digest_fips msg) by done.
  set (H := foldl _ _ _). assert (exists x0 x1 x2 x3 x4 x5 x6 x7, H = [x0;x1;x2;x3;x4;x5;x6;x7])
    as (x0&x1&x2&x3&x4&x5&x6&x7&->).
  { subst H. induction (msg_blocks _) as [|M Ms _] using rev_ind; [by do 8 eexists|].
    rewrite foldl_snoc. unfold process_block. by do 8 eexists. }
  cbn [fmap list_fmap concat]. rewrite app_nil_r.
  by rewrite <- !toHexStr_fips.
Qed.

(** Every hash is 64 lower-case hexadecimal digits. *)
Definition hex_lower (c : Z) : Prop := 48 <= c <= 57 \/ 97 <= c <= 102.

Lemma toHexStr_digits n : length (toHexStr n) = 8%nat /\ Forall hex_lower (toHexStr n).
Proof.
  rewrite toHexStr_fips. unfold Fips.hex_word. rewrite length_fmap. split; [done|].
  apply Forall_fmap, Forall_forall. intros i _. cbn. unfold Fips.hex_digit, hex_lower.
  pose proof (Z.mod_pos_bound (ToUint32 n / 16 ^ Z.of_nat i) 16). zcases; lia.
Qed.

Lemma hash_digits msg u : length (hash msg u) = 64%nat /\ Forall hex_lower (hash msg u).
Proof.
  unfold hash. generalize (foldl process_block H_init (msg_blocks ((if default true u then Utf8.encode msg else msg) ++ fromCharCode [128]))).
  intros H. rewrite !length_app, !(proj1 (toHexStr_digits _)). split; [done|].
  rewrite !Forall_app. split_and!; apply toHexStr_digits.
Qed.

Lemma hash_utf8 msg : hash msg None = hash (Utf8.encode msg) (Some false).
Proof. done. Qed.

(** C3: [Sha256.hash] of a string computes, with signed 32-bit operators and
    unmasked sums, the FIPS 180-4 SHA-256 digest (in hex) of the bytes that
    UTF-8 gives each 16-bit unit of the string. *)
Theorem hash_refines_fips msg :
  wf_str msg -> hash msg None = Fips.hexdigest (msg ≫= Utf8.unit_bytes).
Proof.
  intros Hm. rewrite hash_utf8, hash_bytes by (by apply Utf8.encode_bytes). by rewrite Utf8.encode_spec.
Qed.

Lemma hash_refines_fips_witness :
  hash (js "abc") None = js "ba7816bf8f01cfea414140de5dae2223b00361a396177a9cb410ff61f20015ad".
Proof.
  rewrite hash_refines_fips by (unfold wf_str; repeat constructor; done). vm_compute. reflexivity.
Defined.

End Sha256.
