(* ===== verification/JsString.v ===== *)
(** * The string functions of the language that the sources use

    [split], [join], [indexOf], [substr], [replace], number printing and
    parsing, each as ECMAScript 5 defines it on the arguments the sources pass. *)

From S2P Require Import Prelude.

Local Open Scope Z_scope.

(** ** [split] and [join] *)

(** [s.split(c)] for a separator of one code unit. *)
Fixpoint split_char (c : Z) (s : jsstr) : list jsstr :=
  match s with
  | [] => [[]]
  | x :: s' =>
      if x =? c then [] :: split_char c s'
      else match split_char c s' with
           | p :: ps => (x :: p) :: ps
           | [] => [[x]]
           end
  end.

(** [s.split(c, limit)] *)
Definition split_limit (c : Z) (limit : nat) (s : jsstr) : list jsstr := take limit (split_char c s).

Fixpoint starts_with (p s : jsstr) : bool :=
  match p, s with
  | [], _ => true
  | x :: p', y :: s' => (x =? y) && starts_with p' s'
  | _ :: _, [] => false
  end.

(** [s.split(sep)] for a longer separator: the units of a match are skipped. *)
Fixpoint split_str_aux (sep : jsstr) (skip : nat) (s : jsstr) : list jsstr :=
  match s with
  | [] => [[]]
  | x :: s' =>
      match skip with
      | S k => split_str_aux sep k s'
      | O =>
          if starts_with sep s then [] :: split_str_aux sep (length sep - 1) s'
          else match split_str_aux sep 0 s' with
               | p :: ps => (x :: p) :: ps
               | [] => [[x]]
               end
      end
  end.
Definition split_str (sep s : jsstr) : list jsstr := split_str_aux sep 0 s.

Fixpoint join (sep : jsstr) (ps : list jsstr) : jsstr :=
  match ps with
  | [] => []
  | [p] => p
  | p :: ps' => p ++ sep ++ join sep ps'
  end.

(** ** Searching *)

(** [s.indexOf(sub)], [None] for -1. *)
Fixpoint indexOf (sub s : jsstr) : option nat :=
  if starts_with sub s then Some 0%nat
  else match s with
       | [] => None
       | _ :: s' => S <$> indexOf sub s'
       end.

(** [s.substr(-n)] with [n] computed: [substr(-0)] is the whole string. *)
Definition substr_last (n : nat) (s : jsstr) : jsstr :=
  match n with O => s | _ => drop (length s - n) s end.

(** ** Replacing *)

(** [s.replace(/c/g, r)] for a literal character and a replacement without [$]. *)
Definition replace_all (c : Z) (r s : jsstr) : jsstr := s ≫= fun x => if x =? c then r else [x].

(** The replacement text of [replace] with a string pattern (15.5.4.11): [$$],
    [$&], [$`] and [$'] are special, there are no captures. *)
Fixpoint expand_replacement (matched pre post r : jsstr) : jsstr :=
  match r with
  | [] => []
  | x :: r' =>
      if x =? 36 then
        match r' with
        | y :: r'' =>
            if y =? 36 then 36 :: expand_replacement matched pre post r''
            else if y =? 38 then matched ++ expand_replacement matched pre post r''
            else if y =? 96 then pre ++ expand_replacement matched pre post r''
            else if y =? 39 then post ++ expand_replacement matched pre post r''
            else x :: expand_replacement matched pre post r'
        | [] => [x]
        end
      else x :: expand_replacement matched pre post r'
  end.

(** [s.replace(pat, r)] with two strings: the first occurrence only. *)
Definition replace_first (pat r s : jsstr) : jsstr :=
  match indexOf pat s with
  | None => s
  | Some i =>
      let pre := take i s in
      let post := drop (i + length pat) s in
      pre ++ expand_replacement pat pre post r ++ post
  end.

(** ** Decimal numbers *)

Fixpoint dec_aux (fuel : nat) (n : Z) (acc : jsstr) : jsstr :=
  match fuel with
  | O => acc
  | S k =>
      let acc' := 48 + n mod 10 :: acc in
      if n <? 10 then acc' else dec_aux k (n / 10) acc'
  end.

(** Decimal digits of a non-negative integer; [log2 n + 1] divisions by ten are enough. *)
Definition dec_nonneg (n : Z) : jsstr := dec_aux (S (Z.to_nat (Z.log2 n))) n [].

(** [String(n)] of an integer (below [10^21] in absolute value). *)
Definition num_to_str (n : Z) : jsstr :=
  if n <? 0 then 45 :: dec_nonneg (- n) else dec_nonneg n.

Definition is_digit (c : Z) : bool := (48 <=? c) && (c <=? 57).

(** The value of a run of decimal digits. *)
Definition digits_value (s : jsstr) : Z := foldl (fun v c => v * 10 + (c - 48)) 0 s.

(** White space skipped by [parseInt] and matched by [\s]: the controls, the
    Unicode spaces, the byte order mark and the line separators. *)
Definition is_space (c : Z) : bool :=
  ((9 <=? c) && (c <=? 13)) || (c =? 32) || (c =? 160) || (c =? 5760) ||
  ((8192 <=? c) && (c <=? 8202)) || (c =? 8232) || (c =? 8233) || (c =? 8239) ||
  (c =? 8287) || (c =? 12288) || (c =? 65279).

Fixpoint span (p : Z -> bool) (s : jsstr) : jsstr * jsstr :=
  match s with
  | [] => ([], [])
  | x :: s' => if p x then let '(a, b) := span p s' in (x :: a, b) else ([], s)
  end.

Definition hex_value (c : Z) : option Z :=
  if is_digit c then Some (c - 48)
  else if (97 <=? c) && (c <=? 102) then Some (c - 87)
  else if (65 <=? c) && (c <=? 70) then Some (c - 55)
  else None.

Definition is_hex (c : Z) : bool := bool_decide (hex_value c <> None).

(** [parseInt(s)] (15.1.2.2), [None] for [NaN]: white space, a sign, [0x] for
    base 16, then the longest run of digits. *)
Definition parseInt (s : jsstr) : option Z :=
  let s := (span is_space s).2 in
  let '(neg, s) := match s with
                   | x :: s' => if x =? 45 then (true, s') else if x =? 43 then (false, s') else (false, s)
                   | [] => (false, s)
                   end in
  let hex := match s with
             | x :: y :: _ => (x =? 48) && ((y =? 120) || (y =? 88))
             | _ => false
             end in
  let v := if hex then
             match (span is_hex (drop 2 s)).1 with
             | [] => None
             | ds => Some (foldl (fun v c => v * 16 + default 0 (hex_value c)) 0 ds)
             end
           else
             match (span is_digit s).1 with
             | [] => None
             | ds => Some (digits_value ds)
             end in
  (if neg then Z.opp else id) <$> v.

(** ** Order of strings: by code units *)

Fixpoint str_leb (s t : jsstr) : bool :=
  match s, t with
  | [], _ => true
  | _ :: _, [] => false
  | x :: s', y :: t' => (x <? y) || ((x =? y) && str_leb s' t')
  end.
Definition str_le (s t : jsstr) : Prop := str_leb s t = true.

#[global] Instance str_le_dec s t : Decision (str_le s t).
Proof. unfold str_le. apply _. Defined.

(** [a.sort()] on an array of strings. *)
Definition sort_strings (a : list jsstr) : list jsstr := merge_sort str_le a.

(** ** Lemmas *)

Lemma split_char_nonempty c s : split_char c s <> [].
Proof. destruct s; cbn; [done|]. destruct (_ =? _); [done|]. by destruct (split_char c s). Qed.

Lemma split_char_id c s : c ∉ s -> split_char c s = [s].
Proof.
  induction s as [|x s IH]; intros H; [done|]. cbn.
  apply not_elem_of_cons in H as [Hx Hs]. rewrite IH by done.
  by rewrite (proj2 (Z.eqb_neq x c)).
Qed.

Lemma split_char_app c p s :
  c ∉ p -> split_char c (p ++ c :: s) = p :: split_char c s.
Proof.
  induction p as [|x p IH]; intros H; cbn.
  - by rewrite Z.eqb_refl.
  - apply not_elem_of_cons in H as [Hx Hp]. rewrite IH by done.
    by rewrite (proj2 (Z.eqb_neq x c)).
Qed.

(** Joining with a separator that no piece holds, then splitting. *)
Lemma split_char_join c ps :
  ps <> [] -> Forall (fun p => c ∉ p) ps -> split_char c (join [c] ps) = ps.
Proof.
  intros Hne H. induction H as [|p ps Hp Hps IH]; [done|].
  destruct ps as [|q ps]; [by apply split_char_id|].
  change (join [c] (p :: q :: ps)) with (p ++ c :: join [c] (q :: ps)).
  rewrite split_char_app by done. f_equal. by apply IH.
Qed.

Lemma join_split_char c s : join [c] (split_char c s) = s.
Proof.
  induction s as [|x s IH]; [done|]. cbn. pose proof (split_char_nonempty c s).
  destruct (split_char c s) as [|p ps] eqn:E; [done|].
  destruct (Z.eqb_spec x c) as [->|].
  - change (join [c] ([] :: p :: ps)) with (c :: join [c] (p :: ps)). by rewrite IH.
  - destruct ps as [|q ps]; cbn in *; by rewrite IH.
Qed.

(** The pieces of a split do not hold the separator. *)
(** Joining with a longer separator and splitting, when no piece holds its first unit. *)
Lemma split_str_app x sep p s :
  x ∉ p -> split_str (x :: sep) (p ++ (x :: sep) ++ s) = p :: split_str (x :: sep) s.
Proof.
  unfold split_str. intros Hp. induction p as [|y p IH].
  - cbn [app split_str_aux]. replace (starts_with (x :: sep) (x :: sep ++ s)) with true.
    2:{ symmetry. cbn. rewrite Z.eqb_refl. cbn. clear. induction sep as [|y sep IH]; [done|]. cbn. by rewrite Z.eqb_refl. }
    f_equal. cbn [length Nat.sub]. rewrite Nat.sub_0_r. generalize (x :: sep). intros q. clear.
    induction sep as [|y sep IH]; [done|]. apply IH.
  - cbn [app split_str_aux]. apply not_elem_of_cons in Hp as [Hy Hp].
    replace (starts_with _ _) with false by (cbn; by rewrite (proj2 (Z.eqb_neq x y))).
    change (p ++ x :: sep ++ s) with (p ++ (x :: sep) ++ s). by rewrite IH.
Qed.

Lemma split_str_id x sep p : x ∉ p -> split_str (x :: sep) p = [p].
Proof.
  unfold split_str. induction p as [|y p IH]; [done|]. intros [Hy Hp]%not_elem_of_cons.
  cbn [split_str_aux]. replace (starts_with _ _) with false by (cbn; by rewrite (proj2 (Z.eqb_neq x y))).
  by rewrite IH.
Qed.

Lemma split_str_join x sep ps :
  ps <> [] -> Forall (fun p => x ∉ p) ps -> split_str (x :: sep) (join (x :: sep) ps) = ps.
Proof.
  intros Hne H. induction H as [|p ps Hp H IH]; [done|]. destruct ps as [|q ps]; [by apply split_str_id|].
  change (join (x :: sep) (p :: q :: ps)) with (p ++ (x :: sep) ++ join (x :: sep) (q :: ps)).
  by rewrite split_str_app, IH.
Qed.

Lemma split_char_pieces c s : Forall (fun p => c ∉ p) (split_char c s).
Proof.
  induction s as [|x s IH]; cbn; [repeat constructor; apply not_elem_of_nil|].
  pose proof (split_char_nonempty c s). destruct (Z.eqb_spec x c) as [->|Hx].
  - constructor; [apply not_elem_of_nil|done].
  - destruct (split_char c s) as [|p ps]; [done|]. apply Forall_cons in IH as [Hp Hps].
    constructor; [|done]. apply not_elem_of_cons; split; [congruence|done].
Qed.

Lemma split_char_sub c s p x : p ∈ split_char c s -> x ∈ p -> x ∈ s.
Proof.
  revert p; induction s as [|y s IH]; intros p; cbn.
  { intros ->%list_elem_of_singleton. done. }
  destruct (y =? c).
  - intros [->|Hp]%elem_of_cons Hx; [by apply not_elem_of_nil in Hx|]. right. by eapply IH.
  - destruct (split_char c s) as [|q qs]; [intros ->%list_elem_of_singleton Hx; apply list_elem_of_singleton in Hx as ->; left|].
    intros [->|Hp]%elem_of_cons Hx.
    + apply elem_of_cons in Hx as [->|Hx]; [left|right]. eapply IH; [left|done].
    + right. eapply IH; [right; done|done].
Qed.

(** A single character is not found when it is not there. *)
Lemma indexOf_unit c s : indexOf [c] s = None -> c ∉ s.
Proof.
  induction s as [|x s IH]; cbn; [intros _; apply not_elem_of_nil|]. rewrite andb_true_r, not_elem_of_cons.
  destruct (Z.eqb_spec c x) as [->|Hne]; [done|]. intros H. split; [done|]. apply IH. by destruct (indexOf [c] s).
Qed.

Lemma dec_aux_spec fuel n acc :
  0 <= n < 2 ^ Z.of_nat fuel -> fuel <> 0%nat ->
  exists ds, dec_aux fuel n acc = ds ++ acc /\ ds <> [] /\ Forall (fun c => is_digit c = true) ds /\
    digits_value ds = n /\ (n = 0 \/ head ds <> Some 48).
Proof.
  revert n acc; induction fuel as [|k IH]; intros n acc Hn Hk; [done|]. cbn [dec_aux].
  pose proof (Z.mod_pos_bound n 10). pose proof (Z.div_mod n 10).
  assert (is_digit (48 + n mod 10) = true) as Hd
    by (unfold is_digit; rewrite (proj2 (Z.leb_le _ _)), (proj2 (Z.leb_le _ _)) by lia; done).
  destruct (Z.ltb_spec n 10).
  - exists [48 + n mod 10]. split_and!; try done.
    + by repeat constructor.
    + unfold digits_value. cbn. lia.
    + destruct (Z.eq_dec n 0); [by left|right]. rewrite Z.mod_small by lia. cbn. intros [=]. lia.
  - assert (k <> 0%nat) by (intros ->; cbn in Hn; lia).
    destruct (IH (n / 10) (48 + n mod 10 :: acc)) as (ds & -> & Hne & Hds & Hv & Hh); [|done|].
    { rewrite Nat2Z.inj_succ, Z.pow_succ_r in Hn by lia.
      split; [apply Z.div_pos; lia|]. apply Z.div_lt_upper_bound; lia. }
    exists (ds ++ [48 + n mod 10]). split_and!.
    + by rewrite <- app_assoc.
    + by destruct ds.
    + apply Forall_app; split; [done|by repeat constructor].
    + unfold digits_value in *. rewrite foldl_app, Hv. cbn. lia.
    + right. destruct ds; [done|]. cbn in *. destruct Hh as [Hh|Hh]; [lia|done].
Qed.

Lemma dec_nonneg_spec n :
  0 <= n ->
  dec_nonneg n <> [] /\ Forall (fun c => is_digit c = true) (dec_nonneg n) /\
  digits_value (dec_nonneg n) = n /\ (n = 0 \/ head (dec_nonneg n) <> Some 48).
Proof.
  intros Hn. unfold dec_nonneg.
  destruct (dec_aux_spec (S (Z.to_nat (Z.log2 n))) n []) as (ds & -> & ?); [|done|by rewrite app_nil_r].
  split; [done|]. rewrite Nat2Z.inj_succ, Z2Nat.id by apply Z.log2_nonneg.
  destruct (Z.eq_dec n 0) as [->|]; [cbn; lia|]. apply Z.log2_spec. lia.
Qed.

Lemma num_to_str_inj n m : 0 <= n -> 0 <= m -> num_to_str n = num_to_str m -> n = m.
Proof.
  intros Hn Hm H. unfold num_to_str in H.
  rewrite (proj2 (Z.ltb_ge n 0)), (proj2 (Z.ltb_ge m 0)) in H by lia.
  destruct (dec_nonneg_spec n Hn) as (_ & _ & <- & _).
  destruct (dec_nonneg_spec m Hm) as (_ & _ & <- & _). by rewrite H.
Qed.

Lemma span_all p s : Forall (fun c => p c = true) s -> span p s = (s, []).
Proof. induction 1 as [|x s Hx _ IH]; [done|]. cbn. by rewrite Hx, IH. Qed.

Lemma digit_bounds c : is_digit c = true <-> 48 <= c <= 57.
Proof. unfold is_digit. rewrite andb_true_iff, !Z.leb_le. done. Qed.

Lemma num_to_str_digits n : 0 <= n -> num_to_str n <> [] /\ Forall (fun c => is_digit c = true) (num_to_str n).
Proof.
  intros Hn. unfold num_to_str. rewrite (proj2 (Z.ltb_ge n 0)) by lia.
  by destruct (dec_nonneg_spec n Hn) as (? & ? & _).
Qed.

(** A run of digits parses. *)
Lemma parseInt_digits s :
  s <> [] -> Forall (fun c => is_digit c = true) s -> parseInt s = Some (digits_value s).
Proof.
  intros Hne Hd. destruct s as [|x s]; [done|].
  assert (Hx : 48 <= x <= 57) by (apply digit_bounds; by apply Forall_inv in Hd).
  unfold parseInt. assert ((span is_space (x :: s)).2 = x :: s) as ->.
  { cbn. assert (is_space x = false) as ->; [|done]. apply not_true_iff_false. unfold is_space.
    rewrite !orb_true_iff, !andb_true_iff, !Z.leb_le, !Z.eqb_eq. lia. }
  rewrite (proj2 (Z.eqb_neq x 45)), (proj2 (Z.eqb_neq x 43)) by lia.
  assert (match x :: s with
          | x :: y :: _ => (x =? 48) && ((y =? 120) || (y =? 88))
          | _ => false
          end = false) as ->.
  { destruct s as [|y s]; [done|]. apply Forall_cons in Hd as [_ [Hy%digit_bounds _]%Forall_cons].
    rewrite (proj2 (Z.eqb_neq y 120)), (proj2 (Z.eqb_neq y 88)) by lia. apply andb_false_r. }
  by rewrite (span_all is_digit) by done.
Qed.

Lemma digits_not_in c s : Forall (fun c => is_digit c = true) s -> ~ (48 <= c <= 57) -> c ∉ s.
Proof. intros Hs Hc Hin. rewrite Forall_forall in Hs. by apply Hc, digit_bounds, Hs. Qed.

(** Printing a non-negative integer and parsing it back. *)
Lemma parseInt_num_to_str n : 0 <= n -> parseInt (num_to_str n) = Some n.
Proof.
  intros Hn. destruct (num_to_str_digits n Hn) as [Hne Hd]. rewrite parseInt_digits by done.
  unfold num_to_str. rewrite (proj2 (Z.ltb_ge n 0)) by lia. by destruct (dec_nonneg_spec n Hn) as (_ & _ & -> & _).
Qed.
