(* ===== verification/JsObject.v ===== *)
(** * JavaScript objects used as maps

    An object is the list of its own enumerable properties in the order they
    were created.  [obj_keys] is the order of [for ... in] and [Object.keys]:
    the array indices first, ascending, then the other names as created.  The
    names an object inherits from [Object.prototype] (or an array from
    [Array.prototype]) are listed, because [o[k]] and [k in o] see them. *)

From S2P Require Import Prelude JsString.

Local Open Scope Z_scope.

Section obj.
Context {V : Type}.
Abbreviation obj := (list (jsstr * V)).

Fixpoint obj_get (o : obj) (k : jsstr) : option V :=
  match o with
  | [] => None
  | (k', v) :: o' => if decide (k' = k) then Some v else obj_get o' k
  end.

(** [o[k] = v]: in place when the property exists, else created last. *)
Fixpoint obj_set (o : obj) (k : jsstr) (v : V) : obj :=
  match o with
  | [] => [(k, v)]
  | (k', v') :: o' => if decide (k' = k) then (k', v) :: o' else (k', v') :: obj_set o' k v
  end.

(** [delete o[k]] *)
Definition obj_delete (o : obj) (k : jsstr) : obj := filter (fun p => p.1 <> k) o.

(** Array indices: the canonical decimal strings below [2^32 - 1]. *)
Definition array_index (k : jsstr) : option Z :=
  if forallb is_digit k && bool_decide (k <> []) then
    let n := digits_value k in
    if bool_decide (dec_nonneg n = k) && (n <? 4294967295) then Some n else None
  else None.

Definition index_le (a b : jsstr) : Prop :=
  match array_index a, array_index b with
  | Some n, Some m => n <= m
  | _, _ => True
  end.

#[global] Instance index_le_dec a b : Decision (index_le a b).
Proof. unfold index_le. destruct (array_index a), (array_index b); apply _. Defined.

Definition is_index (k : jsstr) : Prop := array_index k <> None.

(** The enumeration order of a list of names. *)
Definition enum_order (ks : list jsstr) : list jsstr :=
  merge_sort index_le (filter is_index ks) ++ filter (fun k => ~ is_index k) ks.

Definition obj_keys (o : obj) : list jsstr := enum_order o.*1.

(** Objects whose names are distinct, which every object is. *)
Definition obj_wf (o : obj) : Prop := NoDup o.*1.

(** ** Lemmas *)

Lemma obj_get_set o k v : obj_get (obj_set o k v) k = Some v.
Proof.
  induction o as [|[k' v'] o IH]; cbn; [by rewrite decide_True|].
  destruct (decide (k' = k)); cbn; [by rewrite decide_True|]. by rewrite decide_False.
Qed.

Lemma obj_get_set_ne o k k' v : k <> k' -> obj_get (obj_set o k v) k' = obj_get o k'.
Proof.
  intros Hne. induction o as [|[k'' v'] o IH]; cbn; [by rewrite decide_False|].
  destruct (decide (k'' = k)) as [->|]; cbn; [by rewrite !decide_False by done|].
  by destruct (decide (k'' = k')).
Qed.

Lemma obj_get_None o k : obj_get o k = None <-> k ∉ o.*1.
Proof.
  induction o as [|[k' v'] o IH]; cbn; [split; [intros _; apply not_elem_of_nil|done]|].
  rewrite not_elem_of_cons. destruct (decide (k' = k)) as [->|].
  - split; [done|intros []; done].
  - rewrite IH. split; [intros; split; congruence|tauto].
Qed.

Lemma obj_get_Some_in o k v : obj_get o k = Some v -> k ∈ o.*1.
Proof.
  intros H. destruct (decide (k ∈ o.*1)) as [|Hn]; [done|].
  apply obj_get_None in Hn. congruence.
Qed.

Lemma obj_set_names o k v : (obj_set o k v).*1 = if decide (k ∈ o.*1) then o.*1 else o.*1 ++ [k].
Proof.
  induction o as [|[k' v'] o IH]; cbn; [done|].
  destruct (decide (k' = k)) as [->|Hne]; cbn.
  - rewrite decide_True; [done|left].
  - rewrite IH. destruct (decide (k ∈ o.*1)).
    + rewrite decide_True; [done|by right].
    + rewrite decide_False; [done|]. by apply not_elem_of_cons.
Qed.

Lemma obj_set_new o k v : k ∉ o.*1 -> obj_set o k v = o ++ [(k, v)].
Proof.
  induction o as [|[k' v'] o IH]; cbn; [done|]. intros [Hk Ho]%not_elem_of_cons.
  rewrite decide_False by congruence. by rewrite IH.
Qed.

Lemma obj_set_wf o k v : obj_wf o -> obj_wf (obj_set o k v).
Proof.
  unfold obj_wf. intros H. rewrite obj_set_names. destruct (decide _); [done|].
  apply NoDup_app; split_and!; [done| |apply NoDup_singleton].
  intros x Hx ->%list_elem_of_singleton. done.
Qed.

Lemma obj_delete_names o k : (obj_delete o k).*1 = filter (fun x => x <> k) o.*1.
Proof.
  induction o as [|[k' v'] o IH]; [done|]. unfold obj_delete in *. rewrite fmap_cons, !filter_cons.
  cbn [fst]. destruct (decide (k' <> k)); cbn; by rewrite IH.
Qed.

Lemma obj_delete_wf o k : obj_wf o -> obj_wf (obj_delete o k).
Proof. unfold obj_wf. rewrite obj_delete_names. apply NoDup_filter. Qed.

Lemma obj_get_delete o k : obj_get (obj_delete o k) k = None.
Proof. apply obj_get_None. rewrite obj_delete_names, list_elem_of_filter. intros [? _]. done. Qed.

Lemma obj_get_delete_ne o k k' : k <> k' -> obj_get (obj_delete o k) k' = obj_get o k'.
Proof.
  intros Hne. induction o as [|[k'' v'] o IH]; [done|]. unfold obj_delete in *.
  rewrite filter_cons. cbn. destruct (decide (k'' <> k)) as [|Hk]; cbn.
  - by destruct (decide (k'' = k')).
  - rewrite decide_False; [done|]. intros ->. by apply Hk.
Qed.

Lemma obj_delete_notin o k : k ∉ o.*1 -> obj_delete o k = o.
Proof.
  induction o as [|[k' v'] o IH]; [done|]. rewrite fmap_cons. intros [Hk Ho]%not_elem_of_cons.
  cbn [fst] in Hk. unfold obj_delete in *. rewrite filter_cons_True by (cbn; congruence). by rewrite IH.
Qed.

Lemma obj_delete_app_new o k v : k ∉ o.*1 -> obj_delete (o ++ [(k, v)]) k = o.
Proof.
  intros H. unfold obj_delete. rewrite filter_app. fold (obj_delete o k).
  rewrite obj_delete_notin by done. cbn. rewrite decide_False by (intros Hk; by apply Hk).
  apply app_nil_r.
Qed.

End obj.
Arguments obj_wf {V} _.

Lemma obj_get_elem {V} (o : list (jsstr * V)) k v : obj_get o k = Some v -> (k, v) ∈ o.
Proof.
  induction o as [|[k' v'] o IH]; cbn; [done|]. destruct (decide (k' = k)) as [->|]; [intros [= ->]; left|right; auto].
Qed.

Lemma obj_in_get {V} (o : list (jsstr * V)) k v : obj_wf o -> (k, v) ∈ o -> obj_get o k = Some v.
Proof.
  unfold obj_wf. induction o as [|[k' v'] o IH]; intros Hnd Hin; [by apply not_elem_of_nil in Hin|].
  cbn in Hnd. apply NoDup_cons in Hnd as [Hk Hnd]. cbn. apply elem_of_cons in Hin as [[= -> ->]|Hin].
  - by rewrite decide_True.
  - rewrite decide_False; [by apply IH|]. intros ->. apply Hk, list_elem_of_fmap. by exists (k, v).
Qed.

Lemma Forall_obj_set {V} (P : jsstr * V -> Prop) o k v : Forall P o -> P (k, v) -> Forall P (obj_set o k v).
Proof.
  intros Ho Hv. induction Ho as [|[k' v'] o Hp Ho IH]; cbn; [by constructor|].
  destruct (decide (k' = k)) as [->|]; by constructor.
Qed.

(** A property and the others. *)
Lemma obj_delete_Permutation {V} (o : list (jsstr * V)) k v :
  obj_wf o -> obj_get o k = Some v -> o ≡ₚ (k, v) :: obj_delete o k.
Proof.
  unfold obj_wf. induction o as [|[k' v'] o IH]; [done|]. rewrite fmap_cons. intros [Hk Hnd]%NoDup_cons. cbn [obj_get].
  destruct (decide (k' = k)) as [->|Hne].
  - intros [= ->]. unfold obj_delete. rewrite filter_cons_False by (cbn; tauto). fold (obj_delete o k).
    by rewrite obj_delete_notin.
  - intros Hg. unfold obj_delete. rewrite filter_cons_True by done. fold (obj_delete o k).
    rewrite (IH Hnd Hg) at 1. constructor.
Qed.

(** ** Enumeration order *)

Lemma enum_order_Permutation ks : enum_order ks ≡ₚ ks.
Proof.
  unfold enum_order. rewrite merge_sort_Permutation.
  induction ks as [|k ks IH]; [done|]. rewrite !filter_cons.
  destruct (decide (is_index k)).
  - rewrite (decide_False (P := ~ is_index k)) by tauto. cbn. by rewrite IH.
  - rewrite (decide_True (P := ~ is_index k)) by tauto. by rewrite <- Permutation_middle, IH.
Qed.

Lemma elem_of_enum_order k ks : k ∈ enum_order ks <-> k ∈ ks.
Proof. by rewrite enum_order_Permutation. Qed.

Lemma NoDup_enum_order ks : NoDup ks -> NoDup (enum_order ks).
Proof. by rewrite enum_order_Permutation. Qed.

(** Without array indices the names are enumerated as created. *)
Lemma enum_order_id ks : Forall (fun k => ~ is_index k) ks -> enum_order ks = ks.
Proof.
  intros H. unfold enum_order. rewrite (filter_id (fun k => ~ is_index k)) by done.
  replace (filter is_index ks) with (@nil jsstr); [done|]. symmetry.
  induction H as [|k ks Hk _ IH]; [done|]. by rewrite filter_cons_False.
Qed.

(** Array indices are enumerated by their value. *)
Definition index_of (k : jsstr) : Z := default 0 (array_index k).

Lemma array_index_num n : 0 <= n < 4294967295 -> array_index (num_to_str n) = Some n.
Proof.
  intros Hn. unfold num_to_str. rewrite (proj2 (Z.ltb_ge n 0)) by lia.
  destruct (dec_nonneg_spec n (proj1 Hn)) as (Hne & Hd & Hv & _). unfold array_index.
  assert (forallb is_digit (dec_nonneg n) = true) as ->.
  { apply forallb_forall. intros c Hc%list_elem_of_In. rewrite Forall_forall in Hd. by apply Hd. }
  rewrite bool_decide_eq_true_2 by done. cbn [andb]. rewrite Hv, bool_decide_eq_true_2 by done.
  by rewrite (proj2 (Z.ltb_lt _ _)) by lia.
Qed.

Lemma array_index_inj a b n : array_index a = Some n -> array_index b = Some n -> a = b.
Proof.
  assert (H : forall k, array_index k = Some n -> dec_nonneg n = k); [|intros Ha%H Hb%H; congruence].
  intros k. unfold array_index. destruct (_ && _); [|done]. destruct (bool_decide _) eqn:E; [|done].
  destruct (_ <? _); [|done]. intros [= <-]. by apply bool_decide_eq_true in E.
Qed.

Lemma enum_order_ascending ks :
  Forall is_index ks -> Sorted (fun a b => index_of a <= index_of b) ks -> enum_order ks = ks.
Proof.
  intros Hi Hs. unfold enum_order. rewrite (filter_id is_index) by done.
  assert (filter (fun k => ~ is_index k) ks = []) as ->.
  { clear Hs. induction Hi as [|k ks Hk _ IH]; [done|]. rewrite filter_cons_False; [done|]. intros Hn. by apply Hn. }
  rewrite app_nil_r. pose proof (merge_sort_Permutation index_le ks) as Hp.
  assert (Hi' : Forall is_index (merge_sort index_le ks)) by (by rewrite Hp).
  assert (Htr : Transitive (fun a b => index_of a <= index_of b)) by (intros a b c ? ?; lia).
  apply (Sorted_unique_strong (fun a b => index_of a <= index_of b)); [| |done|done].
  - intros a b Ha Hb H1 H2. rewrite Forall_forall in Hi, Hi'. specialize (Hi b Hb). specialize (Hi' a Ha).
    unfold is_index, index_of in *. destruct (array_index a) as [n|] eqn:E1; [|done]. destruct (array_index b) as [m|] eqn:E2; [|done].
    cbn [default from_option id] in *. assert (n = m) as -> by lia. by eapply array_index_inj.
  - assert (Ht : Total index_le).
    { intros a b. unfold index_le. destruct (array_index a), (array_index b); [lia|by left..]. }
    pose proof (Sorted_merge_sort index_le ks) as Hm. revert Hi' Hm. generalize (merge_sort index_le ks). clear.
    induction l as [|a l IH]; intros Hi Hm; [constructor|]. inversion_clear Hi as [|? ? Ha Hl]. inversion_clear Hm as [|? ? Hl' Hh].
    constructor; [by apply IH|]. destruct l as [|b l]; constructor. inversion_clear Hl as [|? ? Hb _]. inversion_clear Hh as [|? ? Hab].
    unfold index_le, is_index, index_of in *. by destruct (array_index a), (array_index b).
Qed.

Lemma elem_of_obj_keys {V} (o : list (jsstr * V)) k : k ∈ obj_keys o <-> obj_get o k <> None.
Proof.
  unfold obj_keys. rewrite elem_of_enum_order. rewrite obj_get_None.
  destruct (decide (k ∈ o.*1)); tauto.
Qed.

Lemma obj_keys_length {V} (o : list (jsstr * V)) : length (obj_keys o) = length o.
Proof. unfold obj_keys. by rewrite enum_order_Permutation, length_fmap. Qed.

(** ** Inherited names *)

(** The names of [Object.prototype], visible through [o[k]] on every object. *)
Definition object_prototype : list jsstr :=
  [js "constructor"; js "toString"; js "toLocaleString"; js "valueOf"; js "hasOwnProperty";
   js "isPrototypeOf"; js "propertyIsEnumerable"; js "__proto__"; js "__defineGetter__";
   js "__defineSetter__"; js "__lookupGetter__"; js "__lookupSetter__"].

Definition inherited (k : jsstr) : Prop := k ∈ object_prototype.

#[global] Instance inherited_dec k : Decision (inherited k).
Proof. unfold inherited. apply _. Defined.

(** [o[k]] is truthy when [k] is an own property holding an object, or inherited. *)
Definition obj_truthy {V} (o : list (jsstr * V)) (k : jsstr) : bool :=
  bool_decide (obj_get o k <> None) || bool_decide (inherited k).
