(* ===== verification/JsNumber.v ===== *)
(** * JavaScript numbers

    The values of counter buckets are IEEE 754 binary64 numbers; they are the
    [spec_float]s of the Standard Library with 53 bits of precision, on which
    [+], [-], [*], [/] and the comparisons are executable.  [Math.min] and
    [Math.max] are those of ECMAScript 5, 15.8.2: [NaN] is contagious and [-0]
    is below [+0]. *)

From S2P Require Import Prelude.
From Stdlib Require Import SpecFloat.

Local Open Scope Z_scope.

Abbreviation num := spec_float.

Definition nadd : num -> num -> num := SFadd 53 1024.
Definition nsub : num -> num -> num := SFsub 53 1024.
Definition nmul : num -> num -> num := SFmul 53 1024.
Definition ndiv : num -> num -> num := SFdiv 53 1024.
Definition nlt : num -> num -> bool := SFltb.
Definition nle : num -> num -> bool := SFleb.
Definition neq : num -> num -> bool := SFeqb.
Definition nopp : num -> num := SFopp.

(** The number nearest to an integer, or to [m * 2^e]. *)
Definition num_of_Z (n : Z) : num := binary_normalize 53 1024 n 0 false.
Definition num_scaled (m e : Z) : num := binary_normalize 53 1024 m e false.
Definition nNaN : num := S754_nan.

Definition is_nan (x : num) : bool := match x with S754_nan => true | _ => false end.

Definition math_min (x y : num) : num :=
  if is_nan x || is_nan y then nNaN
  else if nlt x y then x else if nlt y x then y
  else match x with S754_zero true => x | _ => y end.

Definition math_max (x y : num) : num :=
  if is_nan x || is_nan y then nNaN
  else if nlt y x then x else if nlt x y then y
  else match x with S754_zero false => x | _ => y end.

#[global] Instance num_eq_dec : EqDecision num.
Proof. solve_decision. Defined.

(** ** The order of the numbers that are not [NaN]

    Each is ranked by a triple (class, signed exponent, signed mantissa), and
    the comparison of the standard is the lexicographic one of the triples. *)

Definition rank (x : num) : Z * Z * Z :=
  match x with
  | S754_infinity true => (-2, 0, 0)
  | S754_finite true m e => (-1, - e, - Zpos m)
  | S754_zero _ | S754_nan => (0, 0, 0)
  | S754_finite false m e => (1, e, Zpos m)
  | S754_infinity false => (2, 0, 0)
  end.

Definition lex_lt (x y : Z * Z * Z) : Prop :=
  x.1.1 < y.1.1 \/ x.1.1 = y.1.1 /\ (x.1.2 < y.1.2 \/ x.1.2 = y.1.2 /\ x.2 < y.2).

Definition lex_compare (x y : Z * Z * Z) : comparison :=
  match x.1.1 ?= y.1.1 with
  | Eq => match x.1.2 ?= y.1.2 with Eq => x.2 ?= y.2 | c => c end
  | c => c
  end.

Lemma lex_compare_lt x y : lex_compare x y = Lt <-> lex_lt x y.
Proof.
  unfold lex_compare, lex_lt.
  destruct (Z.compare_spec x.1.1 y.1.1), (Z.compare_spec x.1.2 y.1.2),
    (Z.compare_spec x.2 y.2); split; intros; try done; lia.
Qed.

Lemma SFcompare_rank x y :
  is_nan x = false -> is_nan y = false -> SFcompare x y = Some (lex_compare (rank x) (rank y)).
Proof.
  intros Hx Hy. destruct x as [[]|[]| |[] m e], y as [[]|[]| |[] m' e']; try done; cbn; f_equal;
    unfold lex_compare; cbn.
  change (Pos.compare_cont Eq m m') with (m ?= m')%positive.
  rewrite Z.compare_opp, (Z.compare_antisym e e').
  by destruct (e ?= e').
Qed.

Section order.
Context (x y : num) (Hx : is_nan x = false) (Hy : is_nan y = false).

Lemma nlt_rank : nlt x y = true <-> lex_lt (rank x) (rank y).
Proof using Hx Hy.
  unfold nlt, SFltb. rewrite SFcompare_rank, <- lex_compare_lt by done.
  by destruct (lex_compare _ _).
Qed.

Lemma nle_rank : nle x y = true <-> ~ lex_lt (rank y) (rank x).
Proof using Hx Hy.
  unfold nle, SFleb. rewrite SFcompare_rank by done. unfold lex_lt, lex_compare.
  destruct (Z.compare_spec (rank x).1.1 (rank y).1.1), (Z.compare_spec (rank x).1.2 (rank y).1.2),
    (Z.compare_spec (rank x).2 (rank y).2); split; intros; try done; try lia.
Qed.

End order.

Lemma nle_refl x : is_nan x = false -> nle x x = true.
Proof. intros H. apply nle_rank; [done..|]. unfold lex_lt. lia. Qed.

Lemma nle_trans x y z :
  is_nan x = false -> is_nan y = false -> is_nan z = false ->
  nle x y = true -> nle y z = true -> nle x z = true.
Proof. intros ???. rewrite !nle_rank by done. unfold lex_lt. lia. Qed.

Lemma nlt_nle x y : is_nan x = false -> is_nan y = false -> nlt x y = negb (nle y x).
Proof.
  intros. apply eq_true_iff_eq. rewrite negb_true_iff, <- not_true_iff_false.
  rewrite nlt_rank, nle_rank by done. unfold lex_lt. lia.
Qed.

Lemma math_min_or x y :
  is_nan x = false -> is_nan y = false -> math_min x y = x \/ math_min x y = y.
Proof.
  intros Hx Hy. unfold math_min. rewrite Hx, Hy. cbn. repeat case_match; auto.
Qed.

Lemma math_max_or x y :
  is_nan x = false -> is_nan y = false -> math_max x y = x \/ math_max x y = y.
Proof.
  intros Hx Hy. unfold math_max. rewrite Hx, Hy. cbn. repeat case_match; auto.
Qed.

Lemma math_min_nan x y : is_nan (math_min x y) = is_nan x || is_nan y.
Proof.
  destruct (is_nan x) eqn:Hx, (is_nan y) eqn:Hy; unfold math_min; rewrite Hx, Hy; cbn; try done.
  repeat case_match; done.
Qed.

Lemma math_max_nan x y : is_nan (math_max x y) = is_nan x || is_nan y.
Proof.
  destruct (is_nan x) eqn:Hx, (is_nan y) eqn:Hy; unfold math_max; rewrite Hx, Hy; cbn; try done.
  repeat case_match; done.
Qed.

(** [Math.min] is a lower bound, [Math.max] an upper one. *)
Lemma math_min_le x y :
  is_nan x = false -> is_nan y = false -> nle (math_min x y) x = true /\ nle (math_min x y) y = true.
Proof.
  intros Hx Hy. assert (is_nan (math_min x y) = false) by (by rewrite math_min_nan, Hx, Hy).
  rewrite !nle_rank by done. unfold math_min. rewrite Hx, Hy. cbn.
  destruct (nlt x y) eqn:E1; [apply nlt_rank in E1; [|done..]; unfold lex_lt in *; lia|].
  destruct (nlt y x) eqn:E2; [apply nlt_rank in E2; [|done..]; unfold lex_lt in *; lia|].
  apply not_true_iff_false in E1, E2. rewrite nlt_rank in E1, E2 by done.
  destruct x as [[]| | |]; unfold lex_lt in *; lia.
Qed.

Lemma math_max_le x y :
  is_nan x = false -> is_nan y = false -> nle x (math_max x y) = true /\ nle y (math_max x y) = true.
Proof.
  intros Hx Hy. assert (is_nan (math_max x y) = false) by (by rewrite math_max_nan, Hx, Hy).
  rewrite !nle_rank by done. unfold math_max. rewrite Hx, Hy. cbn.
  destruct (nlt y x) eqn:E1; [apply nlt_rank in E1; [|done..]; unfold lex_lt in *; lia|].
  destruct (nlt x y) eqn:E2; [apply nlt_rank in E2; [|done..]; unfold lex_lt in *; lia|].
  apply not_true_iff_false in E1, E2. rewrite nlt_rank in E1, E2 by done.
  destruct x as [[]| | |]; unfold lex_lt in *; lia.
Qed.
