(* ===== verification/Json.v ===== *)
(** * JSON texts

    [JSON.stringify] and [JSON.parse] of ECMAScript 5, 15.12, on the values the
    sources exchange with the server.  A number is the decimal [m * 10^e] with
    [m] not a multiple of ten, which is how [ToString] (9.8.1) writes it;
    literals with more digits than a double holds are not rounded. *)

From S2P Require Import Prelude JsString JsObject.

Local Open Scope Z_scope.

#[warnings="-automation"]
Inductive json :=
  | JNull
  | JBool (b : bool)
  | JNum (m e : Z)
  | JStr (s : jsstr)
  | JArr (l : list json)
  | JObj (o : list (jsstr * json)).

#[global] Instance json_eq_dec : EqDecision json.
Proof.
  unfold EqDecision, RelDecision. fix go 1. intros x y. destruct x as [|b|m e|s|l|o], y as [|b'|m' e'|s'|l'|o']; try (right; discriminate).
  - by left.
  - destruct (decide (b = b')) as [->|]; [by left|right; congruence].
  - destruct (decide (m = m')) as [->|]; [|right; congruence]. destruct (decide (e = e')) as [->|]; [by left|right; congruence].
  - destruct (decide (s = s')) as [->|]; [by left|right; congruence].
  - assert (H : Decision (l = l')) by (revert l'; induction l as [|v l IH]; intros [|v' l']; [by left|right; discriminate..|];
      destruct (go v v') as [->|]; [|right; congruence]; destruct (IH l') as [->|]; [by left|right; congruence]).
    destruct H as [->|]; [by left|right; congruence].
  - assert (H : Decision (o = o')).
    { revert o'; induction o as [|[k v] o IH]; intros [|[k' v'] o']; [by left|right; discriminate..|].
      destruct (decide (k = k')) as [->|]; [|right; congruence].
      destruct (go v v') as [->|]; [|right; congruence]; destruct (IH o') as [->|]; [by left|right; congruence]. }
    destruct H as [->|]; [by left|right; congruence].
Defined.

(** ** Numbers *)

(** Strip the factors of ten; the fuel bounds their number. *)
Fixpoint strip_zeros (fuel : nat) (m e : Z) : Z * Z :=
  match fuel with
  | O => (m, e)
  | S k => if m mod 10 =? 0 then strip_zeros k (m / 10) (e + 1) else (m, e)
  end.

Definition norm_num (m e : Z) : json :=
  if m =? 0 then JNum 0 0
  else let '(m, e) := strip_zeros (S (Z.to_nat (Z.log2 (Z.abs m)))) m e in JNum m e.

(** The number [n], and [n] thousandths. *)
Definition JInt (n : Z) : json := norm_num n 0.
Definition JMilli (n : Z) : json := norm_num n (-3).

(** The integer a number is, and the thousandths it is, if it is. *)
Definition as_scaled (k : Z) (v : json) : option Z :=
  match v with
  | JNum m e => if 0 <=? e + k then Some (m * 10 ^ (e + k)) else if m =? 0 then Some 0 else None
  | _ => None
  end.
Definition as_int (v : json) : option Z := as_scaled 0 v.
Definition as_milli (v : json) : option Z := as_scaled 3 v.

Definition zeros (n : Z) : jsstr := replicate (Z.to_nat n) 48.

Definition exp_str (x : Z) : jsstr := 101 :: (if x <? 0 then 45 else 43) :: dec_nonneg (Z.abs x).

(** [ToString] of a positive decimal: [k] digits, the point after [n] of them. *)
Definition num_str_pos (m e : Z) : jsstr :=
  let ds := dec_nonneg m in
  let k := Z.of_nat (length ds) in
  let n := k + e in
  if (k <=? n) && (n <=? 21) then ds ++ zeros (n - k)
  else if (0 <? n) && (n <=? 21) then take (Z.to_nat n) ds ++ 46 :: drop (Z.to_nat n) ds
  else if (-6 <? n) && (n <=? 0) then 48 :: 46 :: zeros (- n) ++ ds
  else match ds with
       | [d] => d :: exp_str (n - 1)
       | d :: ds' => d :: 46 :: ds' ++ exp_str (n - 1)
       | [] => []
       end.

Definition num_str (m e : Z) : jsstr :=
  if m =? 0 then [48] else if m <? 0 then 45 :: num_str_pos (- m) e else num_str_pos m e.

(** ** [JSON.stringify] *)

Definition hex_lower (d : Z) : Z := if d <? 10 then 48 + d else 87 + d.

Definition quote_unit (c : Z) : jsstr :=
  if c =? 34 then [92; 34] else if c =? 92 then [92; 92]
  else if c =? 8 then [92; 98] else if c =? 12 then [92; 102] else if c =? 10 then [92; 110]
  else if c =? 13 then [92; 114] else if c =? 9 then [92; 116]
  else if c <? 32 then [92; 117; 48; 48; hex_lower (c / 16); hex_lower (c mod 16)]
  else [c].

Definition quote (s : jsstr) : jsstr := 34 :: (s ≫= quote_unit) ++ [34].

(** The members of an object, written in enumeration order. *)
Definition members_str (o : list (jsstr * jsstr)) : jsstr :=
  join [44] ((fun k => quote k ++ 58 :: default [] (obj_get o k)) <$> obj_keys o).

Fixpoint stringify (v : json) : jsstr :=
  match v with
  | JNull => js "null"
  | JBool true => js "true"
  | JBool false => js "false"
  | JNum m e => num_str m e
  | JStr s => quote s
  | JArr l => 91 :: join [44] (List.map stringify l) ++ [93]
  | JObj o => 123 :: members_str (List.map (fun p => (p.1, stringify p.2)) o) ++ [125]
  end.

(** ** [JSON.parse] *)

Definition is_json_space (c : Z) : bool := (c =? 32) || (c =? 9) || (c =? 10) || (c =? 13).
Definition skip_ws (s : jsstr) : jsstr := (span is_json_space s).2.

Definition expect (p s : jsstr) : option jsstr :=
  if starts_with p s then Some (drop (length p) s) else None.

Definition read_unicode (s : jsstr) : option (Z * jsstr) :=
  match s with
  | a :: b :: c :: d :: s' =>
      match hex_value a, hex_value b, hex_value c, hex_value d with
      | Some a, Some b, Some c, Some d => Some (a * 4096 + b * 256 + c * 16 + d, s')
      | _, _, _, _ => None
      end
  | _ => None
  end.

(** The rest of a string literal after the opening quote. *)
Fixpoint read_string (fuel : nat) (s : jsstr) : option (jsstr * jsstr) :=
  match fuel, s with
  | S k, c :: s' =>
      let cons_to x r := '(t, r') ← read_string k r; Some (x :: t, r') in
      if c =? 34 then Some ([], s')
      else if c =? 92 then
        match s' with
        | x :: s'' =>
            if (x =? 34) || (x =? 92) || (x =? 47) then cons_to x s''
            else if x =? 98 then cons_to 8 s'' else if x =? 102 then cons_to 12 s''
            else if x =? 110 then cons_to 10 s'' else if x =? 114 then cons_to 13 s''
            else if x =? 116 then cons_to 9 s''
            else if x =? 117 then '(u, r) ← read_unicode s''; cons_to u r
            else None
        | [] => None
        end
      else if c <? 32 then None
      else cons_to c s'
  | _, _ => None
  end.

(** A number literal: no leading zeros, an optional fraction and exponent. *)
Definition read_frac (s : jsstr) : option (jsstr * jsstr) :=
  match s with
  | c :: s' => if c =? 46 then match span is_digit s' with ([], _) => None | p => Some p end
               else Some ([], s)
  | [] => Some ([], s)
  end.

Definition read_exp (s : jsstr) : option (Z * jsstr) :=
  match s with
  | c :: s' =>
      if (c =? 101) || (c =? 69) then
        let '(neg, s') := match s' with
                          | x :: s'' => if x =? 45 then (true, s'') else if x =? 43 then (false, s'') else (false, s')
                          | [] => (false, s')
                          end in
        match span is_digit s' with
        | ([], _) => None
        | (ds, r) => Some (if neg then - digits_value ds else digits_value ds, r)
        end
      else Some (0, s)
  | [] => Some (0, s)
  end.

Definition read_unsigned (neg : bool) (s : jsstr) : option (json * jsstr) :=
  match span is_digit s with
  | ([], _) => None
  | (d :: ds, s) =>
      if (d =? 48) && bool_decide (ds <> []) then None
      else
        '(fs, s) ← read_frac s;
        '(x, s) ← read_exp s;
        let m := digits_value ((d :: ds) ++ fs) in
        Some (norm_num (if neg then - m else m) (x - Z.of_nat (length fs)), s)
  end.

Definition read_number (s : jsstr) : option (json * jsstr) :=
  match s with
  | c :: s' => if c =? 45 then read_unsigned true s' else read_unsigned false s
  | [] => None
  end.

(** A value, the elements after [[], the members after [{]: the fuel counts values. *)
Fixpoint parse_value (fuel : nat) (s : jsstr) : option (json * jsstr) :=
  match fuel with
  | O => None
  | S k =>
      match skip_ws s with
      | c :: s' =>
          if c =? 110 then r ← expect (js "ull") s'; Some (JNull, r)
          else if c =? 116 then r ← expect (js "rue") s'; Some (JBool true, r)
          else if c =? 102 then r ← expect (js "alse") s'; Some (JBool false, r)
          else if c =? 34 then '(t, r) ← read_string (length s') s'; Some (JStr t, r)
          else if c =? 91 then
            match skip_ws s' with
            | d :: r => if d =? 93 then Some (JArr [], r) else '(l, r) ← parse_elements k s'; Some (JArr l, r)
            | [] => None
            end
          else if c =? 123 then
            match skip_ws s' with
            | d :: r => if d =? 125 then Some (JObj [], r) else '(o, r) ← parse_members k [] s'; Some (JObj o, r)
            | [] => None
            end
          else read_number (c :: s')
      | [] => None
      end
  end
with parse_elements (fuel : nat) (s : jsstr) : option (list json * jsstr) :=
  match fuel with
  | O => None
  | S k =>
      '(v, r) ← parse_value k s;
      match skip_ws r with
      | c :: r' =>
          if c =? 44 then '(l, r) ← parse_elements k r'; Some (v :: l, r)
          else if c =? 93 then Some ([v], r')
          else None
      | [] => None
      end
  end
with parse_members (fuel : nat) (o : list (jsstr * json)) (s : jsstr) : option (list (jsstr * json) * jsstr) :=
  match fuel with
  | O => None
  | S k =>
      match skip_ws s with
      | c :: s' =>
          if c =? 34 then
            '(n, r) ← read_string (length s') s';
            match skip_ws r with
            | c :: r' =>
                if c =? 58 then
                  '(v, r) ← parse_value k r';
                  match skip_ws r with
                  | c :: r' =>
                      if c =? 44 then parse_members k (obj_set o n v) r'
                      else if c =? 125 then Some (obj_set o n v, r')
                      else None
                  | [] => None
                  end
                else None
            | [] => None
            end
          else None
      | [] => None
      end
  end.

(** [JSON.parse(s)], [None] when it throws. *)
Definition json_parse (s : jsstr) : option json :=
  '(v, r) ← parse_value (S (length s)) s;
  match skip_ws r with [] => Some v | _ => None end.

(** The members read have distinct names. *)
Lemma parse_members_wf k o s o' r : obj_wf o -> parse_members k o s = Some (o', r) -> obj_wf o'.
Proof.
  revert o s. induction k as [|k IH]; intros o s Ho; [done|]. cbn [parse_members].
  destruct (skip_ws s) as [|c s']; [done|]. destruct (c =? 34); [|done].
  destruct (read_string (length s') s') as [[n r1]|]; [|done]. cbn [mbind option_bind].
  destruct (skip_ws r1) as [|c1 r2]; [done|]. destruct (c1 =? 58); [|done].
  destruct (parse_value k r2) as [[v r3]|]; [|done]. cbn [mbind option_bind].
  destruct (skip_ws r3) as [|c2 r4]; [done|]. destruct (c2 =? 44); [by apply IH, obj_set_wf|].
  destruct (c2 =? 125); [|done]. intros [= <- _]. by apply obj_set_wf.
Qed.

Lemma read_number_num s v r : read_number s = Some (v, r) -> forall o, v <> JObj o.
Proof.
  assert (Hn : forall m e o, norm_num m e <> JObj o) by (intros m e o; unfold norm_num; repeat case_match; done).
  assert (Hu : forall neg s, read_unsigned neg s = Some (v, r) -> forall o, v <> JObj o).
  { intros neg s0. unfold read_unsigned. destruct (span is_digit s0) as [[|d ds] r1]; [done|]. destruct (_ && _); [done|].
    destruct (read_frac r1) as [[fs r2]|]; [|done]. cbn [mbind option_bind]. destruct (read_exp r2) as [[x r3]|]; [|done].
    cbn [mbind option_bind]. intros [= <- _]. apply Hn. }
  unfold read_number. repeat case_match; try done; apply Hu.
Qed.

Lemma parse_value_obj k s o r : parse_value k s = Some (JObj o, r) -> obj_wf o.
Proof.
  destruct k as [|k]; [done|]. cbn [parse_value]. destruct (skip_ws s) as [|c s']; [done|].
  do 3 (destruct (_ =? _); [by destruct (expect _ _)|]).
  destruct (_ =? _); [by destruct (read_string _ _) as [[? ?]|]|].
  destruct (_ =? _); [destruct (skip_ws s') as [|d r1]; [done|]; destruct (_ =? _); [done|]; by destruct (parse_elements _ _) as [[? ?]|]|].
  destruct (_ =? _).
  - destruct (skip_ws s') as [|d r1]; [done|]. destruct (_ =? _); [intros [= <- _]; apply NoDup_nil_2|].
    destruct (parse_members k [] s') as [[o' r2]|] eqn:E; [|done]. intros [= <- _]. eapply parse_members_wf; [|exact E]. apply NoDup_nil_2.
  - intros H. by destruct (read_number_num _ _ _ H o).
Qed.

Lemma json_parse_obj s o : json_parse s = Some (JObj o) -> obj_wf o.
Proof.
  unfold json_parse. destruct (parse_value _ s) as [[v r]|] eqn:E; [|done]. cbn [mbind option_bind].
  destruct (skip_ws r); [|done]. intros [= ->]. by eapply parse_value_obj.
Qed.

(** [Boolean(v)] *)
Definition truthy (v : json) : bool :=
  match v with
  | JNull => false
  | JBool b => b
  | JNum m _ => negb (m =? 0)
  | JStr s => bool_decide (s <> [])
  | JArr _ | JObj _ => true
  end.

(** ** Numbers survive printing *)

Definition num_wf (m e : Z) : Prop := (m = 0 /\ e = 0) \/ m mod 10 <> 0.

Lemma strip_zeros_spec fuel m e z :
  m mod 10 <> 0 -> 0 <= z < Z.of_nat fuel -> strip_zeros fuel (m * 10 ^ z) e = (m, e + z).
Proof.
  revert e z; induction fuel as [|k IH]; intros e z Hm Hz; [lia|]. cbn [strip_zeros].
  destruct (Z.eq_dec z 0) as [->|].
  - rewrite Z.pow_0_r, Z.mul_1_r, (proj2 (Z.eqb_neq _ _)) by done. f_equal. lia.
  - replace (m * 10 ^ z) with (m * 10 ^ (z - 1) * 10).
    2:{ rewrite <- Z.mul_assoc. f_equal. rewrite (Z.mul_comm _ 10), <- (Z.pow_succ_r 10) by lia. f_equal. lia. }
    rewrite Z.mod_mul, Z.div_mul, Z.eqb_refl, IH by lia. f_equal. lia.
Qed.

Lemma norm_num_scaled m e z : m mod 10 <> 0 -> 0 <= z -> norm_num (m * 10 ^ z) e = JNum m (e + z).
Proof.
  intros Hm Hz. assert (m <> 0) by (intros ->; done).
  pose proof (Z.pow_pos_nonneg 10 z). unfold norm_num. rewrite (proj2 (Z.eqb_neq _ _)) by nia.
  rewrite strip_zeros_spec; [done|done|]. split; [done|].
  rewrite Nat2Z.inj_succ, Z2Nat.id by apply Z.log2_nonneg.
  apply Z.lt_succ_r, Z.log2_le_pow2; [nia|].
  assert (2 ^ z <= 10 ^ z) by (apply Z.pow_le_mono_l; lia). nia.
Qed.

Lemma digits_value_app a b :
  digits_value (a ++ b) = digits_value a * 10 ^ Z.of_nat (length b) + digits_value b.
Proof.
  unfold digits_value. rewrite foldl_app. generalize (foldl (fun v c => v * 10 + (c - 48)) 0 a).
  induction b as [|c b IH] using rev_ind; intros v; cbn; [lia|].
  rewrite !foldl_snoc, IH, length_app, Nat2Z.inj_add, Z.pow_add_r by lia. cbn. lia.
Qed.

Lemma digits_value_zeros z : digits_value (zeros z) = 0.
Proof.
  unfold zeros. induction (Z.to_nat z) as [|n IH]; [done|]. change (replicate (S n) 48) with ([48] ++ replicate n 48).
  rewrite digits_value_app, IH. done.
Qed.

Lemma zeros_digits z : Forall (fun c => is_digit c = true) (zeros z).
Proof. unfold zeros. induction (Z.to_nat z); by constructor. Qed.

Lemma zeros_length z : 0 <= z -> Z.of_nat (length (zeros z)) = z.
Proof. intros. unfold zeros. rewrite length_replicate. lia. Qed.

(** What may follow a value. *)
Definition stop (s : jsstr) : Prop :=
  match s with [] => True | c :: _ => c = 44 \/ c = 93 \/ c = 125 end.

Definition no_digit (s : jsstr) : Prop := match s with [] => True | c :: _ => is_digit c = false end.

Lemma stop_no_digit s : stop s -> no_digit s.
Proof. destruct s as [|c s]; [done|]. intros [->|[-> | ->]]; done. Qed.

Lemma span_app p ds s :
  Forall (fun c => p c = true) ds -> match s with [] => True | c :: _ => p c = false end ->
  span p (ds ++ s) = (ds, s).
Proof.
  induction 1 as [|c ds Hc _ IH]; intros Hs; cbn.
  - destruct s as [|x s]; [done|]. cbn. by rewrite Hs.
  - by rewrite Hc, IH.
Qed.

Lemma read_exp_stop s : stop s -> read_exp s = Some (0, s).
Proof. destruct s as [|c s]; [done|]. intros [->|[-> | ->]]; done. Qed.

Lemma read_exp_str x s : stop s -> read_exp (exp_str x ++ s) = Some (x, s).
Proof.
  intros Hs. unfold exp_str. destruct (dec_nonneg_spec (Z.abs x)) as (Hne & Hd & Hv & _); [lia|].
  cbn [read_exp app]. rewrite Z.eqb_refl. cbn [orb].
  destruct (Z.ltb_spec x 0); cbn [Z.eqb Pos.eqb];
    rewrite (span_app _ _ _ Hd (stop_no_digit s Hs)), Hv;
    destruct (dec_nonneg (Z.abs x)) as [|d ds]; try done; do 2 f_equal; lia.
Qed.

Lemma read_frac_app fs s :
  fs <> [] -> Forall (fun c => is_digit c = true) fs -> no_digit s -> read_frac (46 :: fs ++ s) = Some (fs, s).
Proof.
  intros Hne Hd Hs. cbn [read_frac]. rewrite Z.eqb_refl, (span_app _ _ _ Hd Hs). by destruct fs.
Qed.

(** An integer part, what [read_frac] and [read_exp] make of the rest. *)
Lemma read_unsigned_app neg ip s fs s1 x s2 :
  ip <> [] -> Forall (fun c => is_digit c = true) ip -> (head ip <> Some 48 \/ ip = [48]) -> no_digit s ->
  read_frac s = Some (fs, s1) -> read_exp s1 = Some (x, s2) ->
  read_unsigned neg (ip ++ s) =
    Some (norm_num ((if neg then Z.opp else id) (digits_value (ip ++ fs))) (x - Z.of_nat (length fs)), s2).
Proof.
  intros Hne Hd Hh Hs Hf Hx. unfold read_unsigned. rewrite (span_app _ _ _ Hd Hs).
  destruct ip as [|d ds]; [done|]. assert ((d =? 48) && bool_decide (ds <> []) = false) as ->.
  { destruct (Z.eqb_spec d 48) as [->|]; [|done]. destruct Hh as [Hh|[= ->]]; [|done]. by destruct Hh. }
  rewrite Hf. cbn [mbind option_bind]. rewrite Hx. cbn [mbind option_bind]. by destruct neg.
Qed.

Lemma dec_nonneg_pos m :
  0 < m -> exists d ds, dec_nonneg m = d :: ds /\ d <> 48 /\ is_digit d = true /\ Forall (fun c => is_digit c = true) ds /\ digits_value (d :: ds) = m.
Proof.
  intros Hm. destruct (dec_nonneg_spec m) as (Hne & Hd & Hv & Hh); [lia|].
  destruct (dec_nonneg m) as [|d ds]; [done|]. apply Forall_cons in Hd as [Hd Hds].
  destruct Hh as [|Hh]; [lia|]. exists d, ds. split_and!; try done. intros ->. by apply Hh.
Qed.

Lemma neg_scale (neg : bool) m z :
  (if neg then Z.opp else id) (m * 10 ^ z) = (if neg then Z.opp else id) m * 10 ^ z.
Proof. destruct neg; cbn; lia. Qed.

Lemma neg_mod10 (neg : bool) m : m mod 10 <> 0 -> (if neg then Z.opp else id) m mod 10 <> 0.
Proof. destruct neg; cbn; [|done]. intros H E. apply H. apply Z.mod_divide in E; [|lia].
  apply Z.mod_divide; [lia|]. by apply Z.divide_opp_r. Qed.

(** The number [m] read with [z] zeros appended and the exponent lowered by [z]. *)
Lemma norm_signed (neg : bool) m e m' e' z :
  m mod 10 <> 0 -> m' = m * 10 ^ z -> e' + z = e -> 0 <= z ->
  norm_num ((if neg then Z.opp else id) m') e' = JNum ((if neg then Z.opp else id) m) e.
Proof.
  intros H10 -> <- Hz. rewrite neg_scale. apply norm_num_scaled; [by apply neg_mod10|done].
Qed.

Section print_number.
Context (neg : bool) (m e d : Z) (ds s : jsstr).
Hypotheses (H10 : m mod 10 <> 0) (Hd : d <> 48)
  (Hall : Forall (fun c => is_digit c = true) (d :: ds)) (Hv : digits_value (d :: ds) = m) (Hs : stop s).
Let k : Z := Z.of_nat (length (d :: ds)).

Lemma read_integer_form :
  0 <= e -> read_unsigned neg ((d :: ds ++ zeros e) ++ s) = Some (JNum ((if neg then Z.opp else id) m) e, s).
Proof.
  intros He. rewrite (read_unsigned_app neg _ s [] s 0 s); auto using stop_no_digit, read_exp_stop.
  - rewrite app_nil_r. erewrite (norm_signed neg m e _ _ e); [done|done| |cbn; lia|done].
    change (d :: ds ++ zeros e) with ((d :: ds) ++ zeros e).
    rewrite digits_value_app, digits_value_zeros, Hv, zeros_length by lia. lia.
  - change (d :: ds ++ zeros e) with ((d :: ds) ++ zeros e). apply Forall_app. split; [done|apply zeros_digits].
  - left. cbn. congruence.
  - by destruct s as [|c s']; [|destruct Hs as [->|[-> | ->]]].
Qed.

Lemma read_fraction_form n :
  0 < n < k -> e = n - k ->
  read_unsigned neg ((take (Z.to_nat n) (d :: ds) ++ 46 :: drop (Z.to_nat n) (d :: ds)) ++ s)
    = Some (JNum ((if neg then Z.opp else id) m) e, s).
Proof.
  intros Hn He. unfold k in *. rewrite <- app_assoc. cbn [app].
  assert (Hl : length (drop (Z.to_nat n) (d :: ds)) = (length (d :: ds) - Z.to_nat n)%nat) by apply length_drop.
  rewrite (read_unsigned_app neg _ _ (drop (Z.to_nat n) (d :: ds)) s 0 s); auto using read_exp_stop, Forall_take; try done.
  - rewrite take_drop. erewrite (norm_signed neg m e _ _ 0); [done|done|rewrite Hv; lia|lia|done].
  - intros E%(f_equal length). rewrite length_take in E. cbn in E. lia.
  - left. destruct (Z.to_nat n) eqn:E; [lia|]. cbn. congruence.
  - apply read_frac_app; auto using Forall_drop, stop_no_digit.
    intros E. rewrite E in Hl. cbn in Hl, Hn. lia.
Qed.

Lemma read_small_form z :
  0 <= z -> e = - z - k ->
  read_unsigned neg ((48 :: 46 :: zeros z ++ d :: ds) ++ s) = Some (JNum ((if neg then Z.opp else id) m) e, s).
Proof.
  intros Hz He. unfold k in *.
  change ((48 :: 46 :: zeros z ++ d :: ds) ++ s) with ([48] ++ 46 :: (zeros z ++ d :: ds) ++ s).
  rewrite (read_unsigned_app neg [48] _ (zeros z ++ d :: ds) s 0 s); auto using read_exp_stop; try done.
  - erewrite (norm_signed neg m e _ _ 0); [done|done| |rewrite length_app, Nat2Z.inj_add, zeros_length by done; lia|done].
    rewrite !digits_value_app, digits_value_zeros, Hv. change (digits_value [48]) with 0. lia.
  - apply read_frac_app; auto using stop_no_digit; [by destruct (zeros z)|].
    apply Forall_app. split; [apply zeros_digits|done].
Qed.

Lemma read_exponent_form :
  read_unsigned neg
    (match d :: ds with
     | [d] => d :: exp_str (k + e - 1)
     | d :: ds' => d :: 46 :: ds' ++ exp_str (k + e - 1)
     | [] => []
     end ++ s) = Some (JNum ((if neg then Z.opp else id) m) e, s).
Proof.
  apply Forall_cons in Hall as [Hd1 Hds]. destruct ds as [|d' ds'].
  - change ((d :: exp_str (k + e - 1)) ++ s) with ([d] ++ exp_str (k + e - 1) ++ s).
    rewrite (read_unsigned_app neg [d] _ [] (exp_str (k + e - 1) ++ s) (k + e - 1) s);
      auto using read_exp_str; try done; [|left; cbn; congruence].
    rewrite app_nil_r. erewrite (norm_signed neg m e _ _ 0); [done|done|rewrite Hv; lia|unfold k; cbn; lia|done].
  - cbn [app]. rewrite <- (app_assoc ds').
    change (d :: 46 :: d' :: ds' ++ exp_str (k + e - 1) ++ s)
      with ([d] ++ 46 :: (d' :: ds') ++ exp_str (k + e - 1) ++ s).
    rewrite (read_unsigned_app neg [d] _ (d' :: ds') (exp_str (k + e - 1) ++ s) (k + e - 1) s);
      auto using read_exp_str; try done; [|left; cbn; congruence|by apply read_frac_app].
    erewrite (norm_signed neg m e _ _ 0); [done|done|cbn [app]; rewrite Hv; lia|unfold k; cbn; lia|done].
Qed.

End print_number.

Lemma read_num_str_pos neg m e s :
  0 < m -> m mod 10 <> 0 -> stop s ->
  read_unsigned neg (num_str_pos m e ++ s) = Some (JNum ((if neg then Z.opp else id) m) e, s).
Proof.
  intros Hm H10 Hs. destruct (dec_nonneg_pos m Hm) as (d & ds & E & Hd & Hdd & Hds & Hv).
  assert (Hall : Forall (fun c => is_digit c = true) (d :: ds)) by (by constructor).
  pose proof (read_exponent_form neg m e d ds s H10 Hd Hall Hv Hs) as Hexp.
  unfold num_str_pos. rewrite E. set (k := Z.of_nat (length (d :: ds))) in *.
  destruct (Z.leb_spec k (k + e)), (Z.leb_spec (k + e) 21); cbn [andb]; rewrite ?andb_false_r.
  - replace (k + e - k) with e by lia. apply read_integer_form; auto with lia.
  - rewrite (proj2 (Z.leb_gt (k + e) 0)), andb_false_r by lia. exact Hexp.
  - destruct (Z.ltb_spec 0 (k + e)); cbn [andb].
    + apply read_fraction_form; auto; lia.
    + destruct (Z.ltb_spec (-6) (k + e)); cbn [andb]; [|exact Hexp].
      rewrite (proj2 (Z.leb_le _ _)) by lia. apply read_small_form; auto; lia.
  - rewrite (proj2 (Z.leb_gt (k + e) 0)), andb_false_r by lia. exact Hexp.
Qed.

Lemma num_str_pos_head m e : 0 < m -> exists c t, num_str_pos m e = c :: t /\ is_digit c = true.
Proof.
  intros Hm. destruct (dec_nonneg_pos m Hm) as (d & ds & E & _ & Hd & _). unfold num_str_pos. rewrite E.
  destruct (_ && _); [by do 2 eexists|]. destruct (Z.ltb_spec 0 (Z.of_nat (length (d :: ds)) + e)); cbn [andb].
  1: destruct (_ <=? _). 1: destruct (Z.to_nat (Z.of_nat (length (d :: ds)) + e)) eqn:En; [lia|by do 2 eexists].
  all: destruct (_ && _); [by do 2 eexists|destruct ds; by do 2 eexists].
Qed.

(** A number's text: it starts like a number, and it is read back. *)
Lemma num_str_head m e : num_wf m e -> exists c t, num_str m e = c :: t /\ (is_digit c = true \/ c = 45).
Proof.
  intros _. unfold num_str. destruct (Z.eqb_spec m 0); [do 2 eexists; split; [done|by left]|].
  destruct (Z.ltb_spec m 0); [do 2 eexists; split; [done|by right]|].
  destruct (num_str_pos_head m e) as (c & t & -> & Hc); [lia|]. do 2 eexists. split; [done|by left].
Qed.

Lemma digit_not_minus c : is_digit c = true -> (c =? 45) = false.
Proof. rewrite digit_bounds. intros. apply Z.eqb_neq. lia. Qed.

Lemma read_num_str m e s : num_wf m e -> stop s -> read_number (num_str m e ++ s) = Some (JNum m e, s).
Proof.
  intros Hwf Hs. unfold num_str. destruct (Z.eqb_spec m 0) as [->|Hm].
  - destruct Hwf as [[_ ->]|]; [|done]. cbn. destruct s as [|c s]; [done|]. by destruct Hs as [->|[-> | ->]].
  - destruct Hwf as [[? _]|H10]; [done|]. destruct (Z.ltb_spec m 0).
    + cbn [app read_number]. rewrite Z.eqb_refl, read_num_str_pos; [|lia| |done].
      * do 2 f_equal. cbn. f_equal. lia.
      * by apply (neg_mod10 true).
    + destruct (num_str_pos_head m e) as (c & t & E & Hc); [lia|].
      pose proof (read_num_str_pos false m e s ltac:(lia) H10 Hs) as Hr. rewrite E in Hr |- *.
      cbn [app read_number]. rewrite digit_not_minus by done. exact Hr.
Qed.

(** ** Texts are read back *)

Fixpoint jsize (v : json) : nat :=
  match v with
  | JArr l => S (list_sum (List.map (fun v => S (jsize v)) l))
  | JObj o => S (list_sum (List.map (fun p => S (jsize p.2)) o))
  | _ => 1
  end.

(** Values that parsing can give: numbers in normal form, strings of units,
    objects with distinct names, enumerated as created. *)
Fixpoint json_wf (v : json) : Prop :=
  match v with
  | JNull | JBool _ => True
  | JNum m e => num_wf m e
  | JStr s => wf_str s
  | JArr l => foldr (fun v P => json_wf v /\ P) True l
  | JObj o => NoDup o.*1 /\ Forall (fun k => ~ is_index k /\ wf_str k) o.*1 /\
              foldr (fun p P => json_wf p.2 /\ P) True o
  end.

Lemma hex_value_lower d : 0 <= d < 16 -> hex_value (hex_lower d) = Some d.
Proof.
  intros Hd. unfold hex_lower, hex_value. destruct (Z.ltb_spec d 10).
  - rewrite (proj2 (digit_bounds _)) by lia. f_equal. lia.
  - assert (is_digit (87 + d) = false) as ->.
    { apply not_true_iff_false. rewrite digit_bounds. lia. }
    rewrite !(proj2 (Z.leb_le _ _)) by lia. cbn. f_equal. lia.
Qed.

(** One unit of a literal is read per unit of fuel. *)
Lemma read_quote_unit c k s :
  is_unit c -> read_string (S k) (quote_unit c ++ s) = ('(t, r) ← read_string k s; Some (c :: t, r)).
Proof.
  intros Hc. unfold quote_unit.
  destruct (Z.eqb_spec c 34) as [->|]; [done|]. destruct (Z.eqb_spec c 92) as [->|]; [done|].
  destruct (Z.eqb_spec c 8) as [->|]; [done|]. destruct (Z.eqb_spec c 12) as [->|]; [done|].
  destruct (Z.eqb_spec c 10) as [->|]; [done|]. destruct (Z.eqb_spec c 13) as [->|]; [done|].
  destruct (Z.eqb_spec c 9) as [->|]; [done|]. destruct (Z.ltb_spec c 32) as [Hlt|].
  - unfold is_unit in Hc. pose proof (Z.div_mod c 16). pose proof (Z.mod_pos_bound c 16).
    assert (0 <= c / 16 < 2) by (split; [apply Z.div_pos; lia|apply Z.div_lt_upper_bound; lia]).
    cbn [app read_string Z.eqb Pos.eqb orb read_unicode].
    rewrite !hex_value_lower by lia. cbn [hex_value is_digit Z.leb Z.compare Pos.compare Pos.compare_cont andb mbind option_bind].
    replace ((48 - 48) * 4096 + (48 - 48) * 256 + c / 16 * 16 + c mod 16) with c by lia. done.
  - cbn [app read_string]. rewrite (proj2 (Z.eqb_neq c 34)), (proj2 (Z.eqb_neq c 92)) by done.
    by rewrite (proj2 (Z.ltb_ge c 32)) by done.
Qed.

Lemma read_quoted s k r :
  wf_str s -> (length s < k)%nat -> read_string k ((s ≫= quote_unit) ++ 34 :: r) = Some (s, r).
Proof.
  intros Hs. revert k; induction Hs as [|c s Hc _ IH]; intros k Hk.
  - destruct k; [lia|]. done.
  - destruct k as [|k]; [lia|]. cbn [mbind list_bind]. rewrite <- app_assoc, read_quote_unit by done.
    rewrite IH by (cbn in Hk; lia). done.
Qed.

Lemma quote_length s : (length s <= length (s ≫= quote_unit))%nat.
Proof.
  induction s as [|c s IH]; [done|]. cbn [mbind list_bind]. rewrite length_app. cbn [length].
  assert (1 <= length (quote_unit c))%nat; [|lia]. unfold quote_unit. repeat case_match; cbn; lia.
Qed.

(** The literal after its opening quote, with the fuel [parse_value] gives it. *)
Lemma read_literal s r :
  wf_str s ->
  read_string (length ((s ≫= quote_unit) ++ 34 :: r)) ((s ≫= quote_unit) ++ 34 :: r) = Some (s, r).
Proof.
  intros Hs. apply read_quoted; [done|].
  rewrite !length_app. pose proof (quote_length s). cbn. lia.
Qed.

Lemma json_head v :
  json_wf v -> exists c t, stringify v = c :: t /\ is_json_space c = false /\ c <> 93.
Proof.
  destruct v as [|[]|m e|s|l|o]; intros Hwf; try (do 2 eexists; split; [reflexivity|split; done]).
  destruct (num_str_head m e Hwf) as (c & t & E & Hc). exists c, t. split; [exact E|].
  unfold is_json_space. destruct Hc as [Hc%digit_bounds| ->]; [|done].
  rewrite !(proj2 (Z.eqb_neq c _)) by lia. split; [done|lia].
Qed.

Lemma skip_ws_id c t : is_json_space c = false -> skip_ws (c :: t) = c :: t.
Proof. intros H. unfold skip_ws. cbn. by rewrite H. Qed.

Definition reads (v : json) : Prop :=
  forall fuel r, (jsize v <= fuel)%nat -> stop r -> parse_value fuel (stringify v ++ r) = Some (v, r).

Lemma parse_elements_spec l r fuel :
  l <> [] -> Forall reads l -> (list_sum (List.map (fun v => S (jsize v)) l) <= fuel)%nat ->
  parse_elements fuel (join [44] (List.map stringify l) ++ 93 :: r) = Some (l, r).
Proof.
  intros Hne Hl. revert fuel; induction Hl as [|v l Hv _ IH]; intros fuel Hf; [done|].
  cbn in Hf. destruct fuel as [|k]; [lia|]. cbn [parse_elements]. destruct l as [|v' l].
  - cbn [List.map join]. rewrite Hv by (cbn; auto; lia). done.
  - change (join [44] (List.map stringify (v :: v' :: l)))
      with (stringify v ++ 44 :: join [44] (List.map stringify (v' :: l))).
    rewrite <- app_assoc. cbn [app]. rewrite Hv by (cbn; auto; lia).
    cbn [mbind option_bind]. rewrite skip_ws_id by done. cbn [Z.eqb Pos.eqb].
    rewrite IH by (done || (cbn in *; lia)). done.
Qed.

Definition member_str (p : jsstr * json) : jsstr := quote p.1 ++ 58 :: stringify p.2.

Lemma parse_members_spec o acc r fuel :
  o <> [] -> Forall (fun p => wf_str p.1 /\ reads p.2) o -> NoDup (acc ++ o).*1 ->
  (list_sum (List.map (fun p => S (jsize p.2)) o) <= fuel)%nat ->
  parse_members fuel acc (join [44] (List.map member_str o) ++ 125 :: r) = Some (acc ++ o, r).
Proof.
  intros Hne Ho. revert acc fuel; induction Ho as [|[n v] o [Hn Hv] _ IH]; intros acc fuel Hnd Hf; [done|].
  cbn in Hf, Hn, Hv. destruct fuel as [|k]; [lia|]. cbn [parse_members].
  assert (Hnew : obj_set acc n v = acc ++ [(n, v)]).
  { apply obj_set_new. rewrite fmap_app in Hnd. apply NoDup_app in Hnd as (_ & Hd & _).
    intros Hin. apply (Hd _ Hin). left. }
  assert (Hacc : acc ++ (n, v) :: o = (acc ++ [(n, v)]) ++ o) by (by rewrite <- app_assoc).
  destruct o as [|p o].
  - cbn [List.map join]. unfold member_str, quote. cbn [app fst snd]. rewrite skip_ws_id by done.
    cbn [Z.eqb Pos.eqb]. rewrite <- !app_assoc. cbn [app]. rewrite read_literal by done. cbn [mbind option_bind].
    rewrite skip_ws_id by done. cbn [Z.eqb Pos.eqb]. rewrite Hv by (cbn; auto; lia).
    cbn [mbind option_bind]. rewrite skip_ws_id, Hnew by done. done.
  - change (join [44] (List.map member_str ((n, v) :: p :: o)))
      with (member_str (n, v) ++ 44 :: join [44] (List.map member_str (p :: o))).
    unfold member_str at 1, quote. cbn [app fst snd]. rewrite skip_ws_id by done.
    cbn [Z.eqb Pos.eqb]. rewrite <- !app_assoc. cbn [app]. rewrite read_literal by done. cbn [mbind option_bind].
    rewrite skip_ws_id by done. cbn [Z.eqb Pos.eqb].
    rewrite Hv by (cbn; auto; lia). cbn [mbind option_bind]. rewrite skip_ws_id, Hnew by done.
    cbn [Z.eqb Pos.eqb]. rewrite IH, Hacc; [done|done| |cbn in *; lia]. by rewrite <- Hacc.
Qed.

Lemma members_str_members o :
  NoDup o.*1 -> Forall (fun k => ~ is_index k) o.*1 ->
  members_str (List.map (fun p => (p.1, stringify p.2)) o) = join [44] (List.map member_str o).
Proof.
  intros Hnd Hi. unfold members_str, obj_keys. f_equal.
  assert ((List.map (fun p => (p.1, stringify p.2)) o).*1 = o.*1) as ->
    by (clear; induction o as [|p o IH]; [done|]; cbn; by rewrite IH).
  rewrite enum_order_id by done.
  assert (Hsub : forall o', (forall p, p ∈ o' -> obj_get (List.map (fun p => (p.1, stringify p.2)) o) p.1
      = Some (stringify p.2)) ->
    (fun k => quote k ++ 58 :: default [] (obj_get (List.map (fun p => (p.1, stringify p.2)) o) k)) <$> o'.*1
      = List.map member_str o').
  { induction o' as [|p o' IH]; intros Hp; [done|]. cbn. rewrite (Hp p) by left. cbn. f_equal.
    apply IH. intros. apply Hp. by right. }
  apply Hsub. clear Hsub Hi. induction o as [|[n v] o IH]; intros p Hp; [by apply not_elem_of_nil in Hp|].
  cbn in Hnd. apply NoDup_cons in Hnd as [Hn Hnd]. cbn. apply elem_of_cons in Hp as [->|Hp].
  - by rewrite decide_True.
  - rewrite decide_False; [by apply IH|]. intros ->. apply Hn, list_elem_of_fmap. by exists p.
Qed.

Lemma list_sum_in {A} (f : A -> nat) l x : x ∈ l -> (f x <= list_sum (List.map f l))%nat.
Proof.
  induction l as [|y l IH]; [by intros ?%not_elem_of_nil|]. cbn [List.map list_sum].
  change (list_sum (f y :: List.map f l)) with (f y + list_sum (List.map f l))%nat.
  intros [->|Hx%IH]%elem_of_cons; lia.
Qed.

Lemma foldr_and {A} (P : A -> Prop) l : foldr (fun v Q => P v /\ Q) True l <-> Forall P l.
Proof.
  induction l as [|x l IH]; cbn; [split; [constructor|done]|]. rewrite Forall_cons, IH. done.
Qed.

Lemma reads_wf n v : (jsize v <= n)%nat -> json_wf v -> reads v.
Proof.
  revert v; induction n as [|n IH]; intros v Hn Hwf; [destruct v; cbn in Hn; lia|].
  intros fuel r Hf Hs. destruct fuel as [|k]; [destruct v; cbn in Hf; lia|].
  destruct (json_head v Hwf) as (c & t & E & Hc & _).
  destruct v as [|[]|m e|s|l|o]; try done.
  - (* number *)
    destruct (num_str_head m e Hwf) as (c' & t' & E' & Hc').
    pose proof (read_num_str m e r Hwf Hs) as Hr. cbn [parse_value stringify]. rewrite E' in Hr |- *.
    cbn [app] in Hr |- *. assert (E2 : c' = c) by (cbn in E; congruence). subst c'.
    rewrite skip_ws_id by done.
    assert (Hb : 45 <= c <= 57) by (destruct Hc' as [Hc'%digit_bounds| ->]; lia).
    rewrite !(proj2 (Z.eqb_neq c _)) by lia. exact Hr.
  - (* string *)
    cbn [parse_value stringify quote app]. rewrite skip_ws_id by done. cbn [Z.eqb Pos.eqb].
    rewrite <- app_assoc. cbn [app]. by rewrite read_literal.
  - (* array *)
    cbn [parse_value stringify app]. rewrite skip_ws_id by done. cbn [Z.eqb Pos.eqb].
    rewrite <- app_assoc. cbn [app json_wf] in *. apply foldr_and in Hwf.
    destruct l as [|v l]; [done|].
    assert (exists c t, join [44] (List.map stringify (v :: l)) ++ 93 :: r = c :: t /\
      is_json_space c = false /\ c <> 93) as (c1 & t1 & E1 & H1 & H2).
    { apply Forall_inv in Hwf as (c1 & t1 & E1 & H1)%json_head. exists c1. cbn. rewrite E1.
      destruct (List.map stringify l); cbn; by eexists. }
    rewrite E1, skip_ws_id, (proj2 (Z.eqb_neq c1 93)) by done. rewrite <- E1.
    rewrite parse_elements_spec; [done|done| |cbn in *; lia].
    rewrite Forall_forall in Hwf |- *. intros x Hx. apply IH; [|by apply Hwf].
    pose proof (list_sum_in (fun v => S (jsize v)) _ x Hx). cbn in Hn, H. lia.
  - (* object *)
    cbn [parse_value stringify app]. rewrite skip_ws_id by done. cbn [Z.eqb Pos.eqb].
    rewrite <- app_assoc. cbn [app json_wf] in *. destruct Hwf as (Hnd & Hk & Hwf).
    apply foldr_and in Hwf. rewrite members_str_members; [|done|by eapply Forall_impl; [exact Hk|intros ? []]].
    destruct o as [|p o]; [done|].
    assert (exists t, join [44] (List.map member_str (p :: o)) ++ 125 :: r = 34 :: t) as [t1 E1].
    { cbn. destruct (List.map member_str o); cbn; by eexists. }
    rewrite E1, skip_ws_id by done. cbn [Z.eqb Pos.eqb]. rewrite <- E1.
    rewrite parse_members_spec; [done|done| |done|cbn in *; lia].
    rewrite Forall_forall in Hwf |- *. rewrite Forall_forall in Hk. intros x Hx. split.
    + apply Hk, list_elem_of_fmap. by exists x.
    + apply IH; [|by apply Hwf]. pose proof (list_sum_in (fun p => S (jsize p.2)) _ x Hx).
      cbn in Hn, H. lia.
Qed.

(** A text has at least as many units as the fuel its value needs. *)
Lemma join_length_sum {A} (f : A -> jsstr) (g : A -> nat) l :
  Forall (fun x => (g x <= length (f x))%nat) l ->
  (list_sum (List.map (fun x => S (g x)) l) <= length (join [44%Z] (List.map f l)) + 1)%nat.
Proof.
  induction 1 as [|x l Hx _ IH]; [cbn; lia|]. cbn [List.map].
  change (list_sum (S (g x) :: List.map (fun x => S (g x)) l))
    with (S (g x) + list_sum (List.map (fun x => S (g x)) l))%nat.
  destruct l as [|y l]; [cbn in *; lia|]. cbn [List.map] in *.
  change (join [44] (f x :: f y :: List.map f l)) with (f x ++ 44 :: join [44] (f y :: List.map f l)).
  rewrite length_app. cbn [length]. lia.
Qed.

Lemma jsize_length n v : (jsize v <= n)%nat -> json_wf v -> (jsize v <= length (stringify v))%nat.
Proof.
  revert v; induction n as [|n IH]; intros v Hn Hwf; [destruct v; cbn in Hn; lia|].
  destruct (json_head v Hwf) as (c & t & E & _).
  destruct v as [|b|m e|s|l|o]; try (rewrite E; cbn; lia); cbn [json_wf] in Hwf.
  - apply foldr_and in Hwf. assert (Hl : Forall (fun v => jsize v <= length (stringify v))%nat l).
    { rewrite Forall_forall in Hwf |- *. intros x Hx. apply IH; [|by apply Hwf].
      pose proof (list_sum_in (fun v => S (jsize v)) _ x Hx). cbn in Hn, H. lia. }
    pose proof (join_length_sum stringify jsize l Hl). cbn. rewrite length_app. cbn. lia.
  - destruct Hwf as (Hnd & Hk & Hwf). apply foldr_and in Hwf.
    assert (Hl : Forall (fun p => jsize p.2 <= length (member_str p))%nat o).
    { rewrite Forall_forall in Hwf |- *. intros x Hx. assert (jsize x.2 <= length (stringify x.2))%nat.
      { apply IH; [|by apply Hwf]. pose proof (list_sum_in (fun p => S (jsize p.2)) _ x Hx). cbn in Hn, H. lia. }
      unfold member_str. rewrite length_app. cbn. lia. }
    pose proof (join_length_sum member_str (fun p => jsize p.2) o Hl). cbn [stringify].
    rewrite members_str_members; [|done|by eapply Forall_impl; [exact Hk|intros ? []]].
    cbn. rewrite length_app. cbn. lia.
Qed.

(** What [JSON.stringify] writes, [JSON.parse] reads back. *)
Lemma parse_stringify v : json_wf v -> json_parse (stringify v) = Some v.
Proof.
  intros Hwf. unfold json_parse. pose proof (jsize_length _ v (le_n _) Hwf).
  rewrite <- (app_nil_r (stringify v)) at 2. rewrite (reads_wf _ v (le_n _) Hwf) by (done || lia). done.
Qed.

(** ** Integers and thousandths *)

Lemma strip_zeros_value fuel m e :
  m <> 0 -> let '(m', e') := strip_zeros fuel m e in m = m' * 10 ^ (e' - e) /\ e <= e' /\ m' <> 0.
Proof.
  revert m e; induction fuel as [|k IH]; intros m e Hm; cbn [strip_zeros].
  { rewrite Z.sub_diag. lia. }
  destruct (Z.eqb_spec (m mod 10) 0) as [H|]; [|rewrite Z.sub_diag; lia].
  pose proof (Z.div_mod m 10 ltac:(lia)). specialize (IH (m / 10) (e + 1) ltac:(lia)).
  destruct (strip_zeros k (m / 10) (e + 1)) as [m' e']. destruct IH as (E & He & Hm').
  split_and!; [|lia|done]. replace (e' - e) with (Z.succ (e' - (e + 1))) by lia.
  rewrite Z.pow_succ_r by lia. lia.
Qed.

Lemma strip_zeros_done fuel m e :
  m <> 0 -> Z.abs m < 10 ^ Z.of_nat fuel -> (strip_zeros fuel m e).1 mod 10 <> 0.
Proof.
  revert m e; induction fuel as [|k IH]; intros m e Hm Hf; cbn [strip_zeros].
  { cbn in *. lia. }
  destruct (Z.eqb_spec (m mod 10) 0) as [H|]; [|done].
  pose proof (Z.div_mod m 10 ltac:(lia)). rewrite Nat2Z.inj_succ, Z.pow_succ_r in Hf by lia.
  apply IH; lia.
Qed.

Lemma norm_num_wf m e : json_wf (norm_num m e).
Proof.
  unfold norm_num. destruct (Z.eqb_spec m 0) as [->|Hm]; [by left|].
  pose proof (strip_zeros_done (S (Z.to_nat (Z.log2 (Z.abs m)))) m e Hm) as H.
  destruct (strip_zeros _ m e) as [m' e']. right. apply H.
  rewrite Nat2Z.inj_succ, Z2Nat.id by apply Z.log2_nonneg.
  apply Z.lt_le_trans with (2 ^ Z.succ (Z.log2 (Z.abs m))); [apply Z.log2_spec; lia|].
  apply Z.pow_le_mono_l. lia.
Qed.

Lemma as_scaled_norm m k : 0 <= k -> as_scaled k (norm_num m (- k)) = Some m.
Proof.
  intros Hk. unfold norm_num. destruct (Z.eqb_spec m 0) as [->|Hm].
  { cbn. destruct k; done. }
  pose proof (strip_zeros_value (S (Z.to_nat (Z.log2 (Z.abs m)))) m (- k) Hm) as H.
  destruct (strip_zeros _ m (- k)) as [m' e']. destruct H as (E & He & _). cbn.
  rewrite (proj2 (Z.leb_le _ _)) by lia. f_equal. rewrite E. f_equal. f_equal. lia.
Qed.

Lemma as_int_JInt n : as_int (JInt n) = Some n.
Proof. apply (as_scaled_norm n 0). lia. Qed.
Lemma as_milli_JMilli n : as_milli (JMilli n) = Some n.
Proof. apply (as_scaled_norm n 3). lia. Qed.

(** ** Texts are strings of units *)

(** Strings of literal units. *)
Ltac units := repeat (apply Forall_cons_2; [done|]); apply Forall_nil_2.

Lemma join_wf sep ps : wf_str sep -> Forall wf_str ps -> wf_str (join sep ps).
Proof.
  intros Hs. induction 1 as [|p ps Hp Hps IH]; [constructor|]. destruct ps as [|q ps]; [done|].
  change (join sep (p :: q :: ps)) with (p ++ sep ++ join sep (q :: ps)).
  apply Forall_app; split; [done|]. by apply Forall_app.
Qed.

Lemma digits_wf s : Forall (fun c => is_digit c = true) s -> wf_str s.
Proof. intros H. eapply Forall_impl; [exact H|]. intros c Hc%digit_bounds. unfold is_unit. lia. Qed.

Lemma dec_nonneg_wf n : 0 <= n -> wf_str (dec_nonneg n).
Proof. intros Hn. apply digits_wf. by destruct (dec_nonneg_spec n Hn) as (_ & ? & _). Qed.

Lemma exp_str_wf x : wf_str (exp_str x).
Proof.
  unfold exp_str. apply Forall_cons_2; [done|]. apply Forall_cons_2; [by destruct (x <? 0)|]. apply dec_nonneg_wf. lia.
Qed.

Lemma num_str_pos_wf m e : 0 <= m -> wf_str (num_str_pos m e).
Proof.
  intros Hm. pose proof (dec_nonneg_wf m Hm) as Hd. unfold num_str_pos. pose proof (fun z => digits_wf _ (zeros_digits z)) as Hz.
  destruct (_ && _); [apply Forall_app; split; [done|apply Hz]|]. destruct (_ && _).
  { apply Forall_app; split; [by apply Forall_take|]. apply Forall_cons_2; [done|by apply Forall_drop]. }
  destruct (_ && _); [do 2 (apply Forall_cons_2; [done|]); apply Forall_app; split; [apply Hz|done]|].
  destruct (dec_nonneg m) as [|d [|d' ds]]; [constructor|apply Forall_cons in Hd as [? ?]..].
  - apply Forall_cons_2; [done|apply exp_str_wf].
  - apply Forall_cons_2; [done|]. apply Forall_cons_2; [done|]. apply Forall_app; split; [done|apply exp_str_wf].
Qed.

Lemma num_str_wf m e : wf_str (num_str m e).
Proof.
  unfold num_str. destruct (m =? 0); [units|]. destruct (Z.ltb_spec m 0).
  - apply Forall_cons_2; [done|]. apply num_str_pos_wf. lia.
  - apply num_str_pos_wf. lia.
Qed.

Lemma hex_lower_unit d : 0 <= d < 16 -> is_unit (hex_lower d).
Proof. unfold hex_lower, is_unit. zcases. Qed.

Lemma quote_wf s : wf_str s -> wf_str (quote s).
Proof.
  intros Hs. unfold quote. apply Forall_cons_2; [done|]. apply Forall_app; split; [|units].
  induction Hs as [|c s Hc _ IH]; [constructor|]. cbn. apply Forall_app; split; [|done].
  unfold quote_unit. repeat case_match; try units. apply Z.ltb_lt in H6. unfold is_unit in Hc.
  pose proof (Z.div_pos c 16). pose proof (Z.div_lt_upper_bound c 16 16). pose proof (Z.mod_pos_bound c 16).
  repeat (apply Forall_cons_2; [first [done|apply hex_lower_unit; lia]|]). constructor.
Qed.

Lemma stringify_wf n v : (jsize v <= n)%nat -> json_wf v -> wf_str (stringify v).
Proof.
  revert v; induction n as [|n IH]; intros v Hn Hwf; [destruct v; cbn in Hn; lia|].
  destruct v as [|[]|m e|s|l|o]; cbn [stringify].
  1-3: units.
  - apply num_str_wf.
  - by apply quote_wf.
  - apply foldr_and in Hwf. apply Forall_cons_2; [done|]. apply Forall_app; split; [|units].
    apply join_wf; [units|]. apply Forall_forall. intros t. rewrite list_elem_of_In, in_map_iff.
    intros (x & <- & Hx%list_elem_of_In). rewrite Forall_forall in Hwf. apply IH; [|by apply Hwf].
    pose proof (list_sum_in (fun v => S (jsize v)) _ x Hx). cbn in Hn, H. lia.
  - destruct Hwf as (Hnd & Hk & Hwf). apply foldr_and in Hwf.
    rewrite members_str_members; [|done|by eapply Forall_impl; [exact Hk|intros ? []]].
    apply Forall_cons_2; [done|]. apply Forall_app; split; [|units].
    apply join_wf; [units|]. apply Forall_forall. intros t. rewrite list_elem_of_In, in_map_iff.
    intros (x & <- & Hx%list_elem_of_In). rewrite Forall_forall in Hwf. rewrite Forall_forall in Hk. unfold member_str.
    apply Forall_app; split.
    + apply quote_wf. apply Hk, list_elem_of_fmap. by exists x.
    + apply Forall_cons_2; [done|]. apply IH; [|by apply Hwf].
      pose proof (list_sum_in (fun p => S (jsize p.2)) _ x Hx). cbn in Hn, H. lia.
Qed.
