(* ===== verification/JsValue.v ===== *)
(** * JSON values as JavaScript values

    Reading a property of a parsed value and [String] of one. *)

From S2P Require Import Prelude JsString JsObject Json.

Local Open Scope Z_scope.

Module JsValue.

(** [v[k]] for a name that is neither inherited nor a string's: [None] throws. *)
Definition prop (v : json) (k : string) : option (option json) :=
  match v with
  | JNull => None
  | JObj o => Some (obj_get o (js k))
  | _ => Some None
  end.

(** [v[k]] for a computed name. *)
Definition prop_str (v : json) (k : jsstr) : option (option json) :=
  match v with
  | JNull => None
  | JObj o => Some (obj_get o k)
  | _ => Some None
  end.

(** [String(v)]; the elements of an array are joined, [null] ones empty. *)
Fixpoint to_string (v : json) : jsstr :=
  match v with
  | JNull => js "null"
  | JBool true => js "true"
  | JBool false => js "false"
  | JNum m e => num_str m e
  | JStr s => s
  | JArr l => join [44] (List.map (fun x => match x with JNull => [] | _ => to_string x end) l)
  | JObj _ => js "[object Object]"
  end.

Definition opt_string (v : option json) : jsstr := from_option to_string (js "undefined") v.

End JsValue.
