(* ===== verification/UriCodec.v ===== *)
(** * [escape], [unescape], [encodeURIComponent] and [decodeURIComponent]

    The global functions of the language (ECMAScript 5, 15.1.3 and B.2) that the
    bookmark, settings and cookie code calls; [None] is a thrown [URIError]. *)

From S2P Require Import Prelude JsString.

Local Open Scope Z_scope.

Definition hex_upper (d : Z) : Z := if d <? 10 then 48 + d else 55 + d.
Definition hex2 (c : Z) : jsstr := [hex_upper (c / 16 mod 16); hex_upper (c mod 16)].
Definition hex4 (c : Z) : jsstr := hex2 (c / 256) ++ hex2 (c mod 256).

Definition is_alnum (c : Z) : bool :=
  is_digit c || ((65 <=? c) && (c <=? 90)) || ((97 <=? c) && (c <=? 122)).

Definition mem (c : Z) (s : jsstr) : bool := bool_decide (c ∈ s).

(** ** [escape] and [unescape] *)

Definition escape_keeps (c : Z) : bool := is_alnum c || mem c (js "@*_+-./").

Definition escape_unit (c : Z) : jsstr :=
  if escape_keeps c then [c]
  else if c <? 256 then 37 :: hex2 c
  else 37 :: 117 :: hex4 c.

Definition escape (s : jsstr) : jsstr := s ≫= escape_unit.

Definition read_hex2 (a b : Z) : option Z :=
  x ← hex_value a; y ← hex_value b; Some (x * 16 + y).

Definition read_hex4 (a b c d : Z) : option Z :=
  x ← read_hex2 a b; y ← read_hex2 c d; Some (x * 256 + y).

(** [unescape] scans left to right; [skip] counts the units of a decoded
    sequence that are still to be passed over. *)
Definition unescape_at (s : jsstr) : option (Z * nat) :=
  match s with
  | x :: y :: r =>
      if x =? 37 then
        if y =? 117 then
          match r with
          | a :: b :: c :: d :: _ => v ← read_hex4 a b c d; Some (v, 5%nat)
          | _ => None
          end
        else
          match r with
          | b :: _ => v ← read_hex2 y b; Some (v, 2%nat)
          | [] => None
          end
      else None
  | _ => None
  end.

Fixpoint unescape_aux (skip : nat) (s : jsstr) : jsstr :=
  match s with
  | [] => []
  | x :: s' =>
      match skip with
      | S k => unescape_aux k s'
      | O =>
          match unescape_at s with
          | Some (v, k) => v :: unescape_aux k s'
          | None => x :: unescape_aux 0 s'
          end
      end
  end.
Definition unescape (s : jsstr) : jsstr := unescape_aux 0 s.

(** ** [encodeURIComponent] *)

Definition uri_keeps (c : Z) : bool := is_alnum c || mem c (js "-_.!~*'()").

Definition pct (b : Z) : jsstr := 37 :: hex2 b.

Definition utf8_bytes (v : Z) : list Z :=
  if v <? 128 then [v]
  else if v <? 2048 then [192 + v / 64; 128 + v mod 64]
  else if v <? 65536 then [224 + v / 4096; 128 + v / 64 mod 64; 128 + v mod 64]
  else [240 + v / 262144; 128 + v / 4096 mod 64; 128 + v / 64 mod 64; 128 + v mod 64].

Definition high_surrogate (c : Z) : bool := (55296 <=? c) && (c <=? 56319).
Definition low_surrogate (c : Z) : bool := (56320 <=? c) && (c <=? 57343).

Fixpoint encodeURIComponent (s : jsstr) : option jsstr :=
  match s with
  | [] => Some []
  | c :: s' =>
      if uri_keeps c then r ← encodeURIComponent s'; Some (c :: r)
      else if low_surrogate c then None
      else if high_surrogate c then
        match s' with
        | d :: s'' =>
            if low_surrogate d then
              r ← encodeURIComponent s'';
              Some ((utf8_bytes ((c - 55296) * 1024 + (d - 56320) + 65536) ≫= pct) ++ r)
            else None
        | [] => None
        end
      else r ← encodeURIComponent s'; Some ((utf8_bytes c ≫= pct) ++ r)
  end.

(** ** [decodeURIComponent] *)

(** Read [%XX] off the front. *)
Definition read_pct (s : jsstr) : option (Z * jsstr) :=
  match s with
  | x :: a :: b :: s' => if x =? 37 then v ← read_hex2 a b; Some (v, s') else None
  | _ => None
  end.

(** Read [n] continuation octets onto the value [v]. *)
Fixpoint read_cont (n : nat) (v : Z) (s : jsstr) : option (Z * jsstr) :=
  match n with
  | O => Some (v, s)
  | S m =>
      '(b, s') ← read_pct s;
      if (128 <=? b) && (b <? 192) then read_cont m (v * 64 + (b - 128)) s' else None
  end.

(** The code units of a scalar value. *)
Definition scalar_units (v : Z) : jsstr :=
  if v <? 65536 then [v]
  else [55296 + (v - 65536) / 1024; 56320 + (v - 65536) mod 1024].

(** One escape sequence: an ASCII octet, or a lead octet and its continuations,
    neither overlong, nor a surrogate, nor above [U+10FFFF]. *)
Definition read_sequence (s : jsstr) : option (jsstr * jsstr) :=
  '(b, s1) ← read_pct s;
  if b <? 128 then Some ([b], s1)
  else if b <? 192 then None
  else if b <? 224 then
    '(v, s2) ← read_cont 1 (b - 192) s1;
    if 128 <=? v then Some (scalar_units v, s2) else None
  else if b <? 240 then
    '(v, s2) ← read_cont 2 (b - 224) s1;
    if (2048 <=? v) && negb (high_surrogate v || low_surrogate v) then Some (scalar_units v, s2) else None
  else if b <? 248 then
    '(v, s2) ← read_cont 3 (b - 240) s1;
    if (65536 <=? v) && (v <? 1114112) then Some (scalar_units v, s2) else None
  else None.

Fixpoint decode_aux (fuel : nat) (s : jsstr) : option jsstr :=
  match fuel with
  | O => match s with [] => Some [] | _ => None end
  | S k =>
      match s with
      | [] => Some []
      | c :: s' =>
          if c =? 37 then
            '(us, rest) ← read_sequence s; r ← decode_aux k rest; Some (us ++ r)
          else r ← decode_aux k s'; Some (c :: r)
      end
  end.

(** Every step consumes a unit, so the length is enough fuel. *)
Definition decodeURIComponent (s : jsstr) : option jsstr := decode_aux (length s) s.

(** ** Lemmas: hexadecimal digits *)

Lemma hex_value_upper d : 0 <= d < 16 -> hex_value (hex_upper d) = Some d.
Proof.
  intros H. assert (Hd : d ∈ seqZ 0 16) by (apply elem_of_seqZ; lia).
  assert (Forall (fun d => hex_value (hex_upper d) = Some d) (seqZ 0 16)) as HF
    by (vm_compute; repeat constructor).
  exact (proj1 (Forall_forall _ _) HF d Hd).
Qed.

Lemma read_hex2_hex2 c x y : 0 <= c < 256 -> hex2 c = [x; y] -> read_hex2 x y = Some c.
Proof.
  intros H [= <- <-]. unfold read_hex2.
  rewrite !hex_value_upper by (apply Z.mod_pos_bound; lia). cbn. f_equal.
  pose proof (Z.div_mod c 16). rewrite (Z.mod_small (c / 16)); [lia|].
  split; [apply Z.div_pos; lia|apply Z.div_lt_upper_bound; lia].
Qed.

Lemma read_pct_pct b s : is_byte b -> read_pct (pct b ++ s) = Some (b, s).
Proof.
  intros H. unfold pct, hex2. cbn. erewrite read_hex2_hex2; [done|exact H|done].
Qed.

(** ** [unescape] undoes [escape] *)

Lemma unescape_plain c s : c <> 37 -> unescape (c :: s) = c :: unescape s.
Proof.
  intros H. unfold unescape. cbn [unescape_aux].
  assert (unescape_at (c :: s) = None) as ->; [|done].
  destruct s; cbn; [done|]. by rewrite (proj2 (Z.eqb_neq c 37)).
Qed.

Lemma unescape_hex2 c s : is_byte c -> unescape (37 :: hex2 c ++ s) = c :: unescape s.
Proof.
  intros H. unfold unescape, hex2. cbn [app].
  set (x := hex_upper (c / 16 mod 16)). set (y := hex_upper (c mod 16)).
  assert (Hx : x <> 117).
  { unfold x, hex_upper. pose proof (Z.mod_pos_bound (c / 16) 16). zcases. }
  assert (Hr : read_hex2 x y = Some c) by (by apply read_hex2_hex2).
  cbn [unescape_aux].
  assert (unescape_at (37 :: x :: y :: s) = Some (c, 2%nat)) as ->; [|done].
  cbn. rewrite (proj2 (Z.eqb_neq x 117)) by done. by rewrite Hr.
Qed.

Lemma unescape_hex4 c s : is_unit c -> unescape (37 :: 117 :: hex4 c ++ s) = c :: unescape s.
Proof.
  intros H. unfold unescape, hex4, hex2. cbn [app].
  assert (forall x y z w, hex2 (c / 256) = [x; y] -> hex2 (c mod 256) = [z; w] ->
    read_hex4 x y z w = Some c) as Hr.
  { intros x y z w H1 H2. unfold read_hex4. unfold is_unit in H.
    rewrite (read_hex2_hex2 (c / 256) x y), (read_hex2_hex2 (c mod 256) z w).
    - cbn. f_equal. pose proof (Z.div_mod c 256). lia.
    - apply Z.mod_pos_bound. lia.
    - done.
    - split; [apply Z.div_pos; lia|apply Z.div_lt_upper_bound; lia].
    - done. }
  set (x := hex_upper (c / 256 / 16 mod 16)). set (y := hex_upper (c / 256 mod 16)).
  set (z := hex_upper (c mod 256 / 16 mod 16)). set (w := hex_upper (c mod 256 mod 16)).
  cbn [unescape_aux]. assert (unescape_at (37 :: 117 :: x :: y :: z :: w :: s) = Some (c, 5%nat)) as ->; [|done].
  cbn. by rewrite Hr.
Qed.

Lemma escape_keeps_not_pct c : escape_keeps c = true -> c <> 37.
Proof. intros H ->. by vm_compute in H. Qed.

Lemma escape_cons c s : escape (c :: s) = escape_unit c ++ escape s.
Proof. done. Qed.

Lemma unescape_escape_str s : wf_str s -> unescape (escape s) = s.
Proof.
  induction 1 as [|c s Hc _ IH]; [done|]. rewrite escape_cons. unfold escape_unit.
  destruct (escape_keeps c) eqn:E.
  - cbn [app]. rewrite unescape_plain by (by apply escape_keeps_not_pct). by rewrite IH.
  - destruct (Z.ltb_spec c 256).
    + rewrite <- app_comm_cons, unescape_hex2 by (unfold is_byte, is_unit in *; lia). by rewrite IH.
    + rewrite <- !app_comm_cons, unescape_hex4 by done. by rewrite IH.
Qed.

(** The output of [escape] is made of units it keeps, ["%"], ["u"] and digits:
    it holds none of the separators of a bookmark. *)
Lemma hex_upper_alnum d : 0 <= d < 16 -> is_alnum (hex_upper d) = true.
Proof.
  intros H. assert (Hd : d ∈ seqZ 0 16) by (apply elem_of_seqZ; lia).
  assert (Forall (fun d => is_alnum (hex_upper d) = true) (seqZ 0 16)) as HF
    by (vm_compute; repeat constructor).
  exact (proj1 (Forall_forall _ _) HF d Hd).
Qed.

Lemma hex2_alnum c : Forall (fun x => is_alnum x = true) (hex2 c).
Proof. unfold hex2. repeat constructor; apply hex_upper_alnum, Z.mod_pos_bound; lia. Qed.

Lemma escape_units s c : c ∈ escape s -> escape_keeps c = true \/ c = 37.
Proof.
  unfold escape. rewrite list_elem_of_bind. intros (x & Hx & _).
  assert (Hh : forall y, Forall (fun x => is_alnum x = true) y -> c ∈ y -> escape_keeps c = true).
  { intros y Hy Hc. unfold escape_keeps. by rewrite (proj1 (Forall_forall _ _) Hy c Hc). }
  unfold escape_unit in Hx. destruct (escape_keeps x) eqn:E.
  - apply list_elem_of_singleton in Hx as ->. by left.
  - destruct (x <? 256); apply elem_of_cons in Hx as [->|Hx]; auto; left.
    + by apply (Hh (hex2 x)), Hx; apply hex2_alnum.
    + apply elem_of_cons in Hx as [->|Hx]; [done|].
      apply (Hh (hex4 x)), Hx. apply Forall_app; split; apply hex2_alnum.
Qed.

(** ** [decodeURIComponent] undoes [encodeURIComponent] *)

Lemma uri_keeps_not_pct c : uri_keeps c = true -> c <> 37.
Proof. intros H ->. by vm_compute in H. Qed.

Lemma decode_aux_more fuel fuel' s r :
  (fuel <= fuel')%nat -> decode_aux fuel s = Some r -> decode_aux fuel' s = Some r.
Proof.
  revert fuel' s r; induction fuel as [|k IH]; intros fuel' s r Hle H; cbn in H.
  - destruct s; [|done]. injection H as <-. by destruct fuel'.
  - destruct fuel' as [|k']; [lia|]. cbn. destruct s as [|c s']; [done|].
    destruct (c =? 37).
    + destruct (read_sequence (c :: s')) as [[us rest]|]; [|done]. cbn in *.
      destruct (decode_aux k rest) as [r'|] eqn:E; [|done].
      rewrite (IH k' rest r') by (done || lia). done.
    + destruct (decode_aux k s') as [r'|] eqn:E; [|done]. by rewrite (IH k' s' r') by (done || lia).
Qed.

(** The continuation octets of a value, read back. *)
Lemma read_cont_step n v d s :
  0 <= d < 64 -> read_cont (S n) v (pct (128 + d) ++ s) = read_cont n (v * 64 + d) s.
Proof.
  intros Hd. cbn [read_cont]. rewrite read_pct_pct by (unfold is_byte; lia).
  cbn. rewrite (proj2 (Z.leb_le 128 _)), (proj2 (Z.ltb_lt _ 192)) by lia. cbn.
  by replace (128 + d - 128) with d by lia.
Qed.

Definition scalar (v : Z) : Prop := 0 <= v < 1114112 /\ ~ (55296 <= v <= 57343).

Lemma surrogate_false v : scalar v -> high_surrogate v || low_surrogate v = false.
Proof.
  intros [_ H]. apply not_true_iff_false. unfold high_surrogate, low_surrogate.
  rewrite orb_true_iff, !andb_true_iff, !Z.leb_le. lia.
Qed.

Lemma read_sequence_utf8 v s :
  scalar v -> read_sequence ((utf8_bytes v ≫= pct) ++ s) = Some (scalar_units v, s).
Proof.
  intros Hv. pose proof (surrogate_false v Hv) as Hsur. destruct Hv as [Hv _].
  unfold utf8_bytes, read_sequence.
  pose proof (Z.mod_pos_bound v 64). pose proof (Z.mod_pos_bound (v / 64) 64).
  pose proof (Z.mod_pos_bound (v / 4096) 64).
  destruct (Z.ltb_spec v 128); [|destruct (Z.ltb_spec v 2048); [|destruct (Z.ltb_spec v 65536)]];
    cbn [mbind list_bind]; rewrite ?app_nil_r, <- ?app_assoc.
  - rewrite read_pct_pct by (unfold is_byte; lia). cbn.
    rewrite (proj2 (Z.ltb_lt v 128)) by lia. unfold scalar_units.
    by rewrite (proj2 (Z.ltb_lt v 65536)) by lia.
  - assert (2 <= v / 64 < 32) by (Z.div_mod_to_equations; lia).
    rewrite read_pct_pct by (unfold is_byte; lia). cbn [mbind option_bind].
    rewrite (proj2 (Z.ltb_ge _ 128)), (proj2 (Z.ltb_ge _ 192)), (proj2 (Z.ltb_lt _ 224)) by lia.
    rewrite read_cont_step by lia. cbn.
    replace ((192 + v / 64 - 192) * 64 + v mod 64) with v by (Z.div_mod_to_equations; lia).
    by rewrite (proj2 (Z.leb_le 128 v)) by lia.
  - assert (0 <= v / 4096 < 16) by (Z.div_mod_to_equations; lia).
    rewrite read_pct_pct by (unfold is_byte; lia). cbn [mbind option_bind].
    rewrite (proj2 (Z.ltb_ge _ 128)), (proj2 (Z.ltb_ge _ 192)), (proj2 (Z.ltb_ge _ 224)),
      (proj2 (Z.ltb_lt _ 240)) by lia.
    rewrite !read_cont_step by lia. cbn.
    replace (((224 + v / 4096 - 224) * 64 + v / 64 mod 64) * 64 + v mod 64) with v
      by (Z.div_mod_to_equations; lia).
    by rewrite (proj2 (Z.leb_le 2048 v)), Hsur by lia.
  - assert (0 <= v / 262144 < 5) by (Z.div_mod_to_equations; lia).
    rewrite read_pct_pct by (unfold is_byte; lia). cbn [mbind option_bind].
    rewrite (proj2 (Z.ltb_ge _ 128)), (proj2 (Z.ltb_ge _ 192)), (proj2 (Z.ltb_ge _ 224)),
      (proj2 (Z.ltb_ge _ 240)), (proj2 (Z.ltb_lt _ 248)) by lia.
    rewrite !read_cont_step by lia. cbn.
    replace ((((240 + v / 262144 - 240) * 64 + v / 4096 mod 64) * 64 + v / 64 mod 64) * 64 + v mod 64)
      with v by (Z.div_mod_to_equations; lia).
    by rewrite (proj2 (Z.leb_le 65536 v)), (proj2 (Z.ltb_lt v 1114112)) by lia.
Qed.

(** A sequence starts with ["%"], so one step of the decoder reads it. *)
Lemma decode_aux_sequence v k s r :
  scalar v -> decode_aux k s = Some r ->
  decode_aux (S k) ((utf8_bytes v ≫= pct) ++ s) = Some (scalar_units v ++ r).
Proof.
  intros Hv Hr.
  assert (exists t, (utf8_bytes v ≫= pct) ++ s = 37 :: t) as [t Ht].
  { unfold utf8_bytes. repeat case_match; eexists; reflexivity. }
  pose proof (read_sequence_utf8 v s Hv) as Hs. rewrite Ht in *. cbn [decode_aux].
  rewrite Z.eqb_refl. rewrite Hs. cbn. by rewrite Hr.
Qed.

Lemma pct_bytes_length bs : length (bs ≫= pct) = (3 * length bs)%nat.
Proof. induction bs as [|b bs IH]; [done|]. cbn. rewrite IH. lia. Qed.

Lemma utf8_bytes_length v : (1 <= length (utf8_bytes v))%nat.
Proof. unfold utf8_bytes. repeat case_match; cbn; lia. Qed.

Lemma surrogate_pair_units c d :
  high_surrogate c = true -> low_surrogate d = true ->
  let v := (c - 55296) * 1024 + (d - 56320) + 65536 in
  scalar v /\ scalar_units v = [c; d].
Proof.
  unfold high_surrogate, low_surrogate, scalar, scalar_units. intros Hc Hd. zprop. cbn.
  split; [lia|]. rewrite (proj2 (Z.ltb_ge _ 65536)) by lia.
  f_equal; [|f_equal]; Z.div_mod_to_equations; lia.
Qed.

Lemma encode_decode_fuel n s r :
  (length s <= n)%nat -> wf_str s -> encodeURIComponent s = Some r ->
  exists fuel, (fuel <= length r)%nat /\ decode_aux fuel r = Some s.
Proof.
  revert s r; induction n as [|n IH]; intros s r Hn Hwf H.
  { destruct s; [|cbn in Hn; lia]. injection H as <-. by exists 0%nat. }
  destruct s as [|c s]; [injection H as <-; by exists 0%nat|]. cbn [encodeURIComponent] in H.
  apply Forall_cons in Hwf as [Hc Hwf]. cbn in Hn.
  destruct (uri_keeps c) eqn:Ek.
  { destruct (encodeURIComponent s) as [r'|] eqn:E; [|done]. injection H as <-.
    destruct (IH s r') as (k & Hk & Hd); [lia|done..|]. exists (S k). split; [cbn; lia|].
    cbn. rewrite (proj2 (Z.eqb_neq c 37)) by (by apply uri_keeps_not_pct). by rewrite Hd. }
  destruct (low_surrogate c) eqn:El; [done|]. destruct (high_surrogate c) eqn:Eh.
  - destruct s as [|d s]; [done|]. destruct (low_surrogate d) eqn:Ed; [|done].
    destruct (encodeURIComponent s) as [r'|] eqn:E; [|done]. injection H as <-.
    apply Forall_cons in Hwf as [Hd Hwf]. cbn in Hn.
    destruct (surrogate_pair_units c d Eh Ed) as [Hv Hu].
    destruct (IH s r') as (k & Hk & Hdec); [lia|done..|]. exists (S k). split.
    + rewrite length_app, pct_bytes_length. pose proof (utf8_bytes_length ((c - 55296) * 1024 + (d - 56320) + 65536)). lia.
    + rewrite (decode_aux_sequence _ k r' s) by done. by rewrite Hu.
  - destruct (encodeURIComponent s) as [r'|] eqn:E; [|done]. injection H as <-.
    destruct (IH s r') as (k & Hk & Hdec); [lia|done..|]. exists (S k). split.
    + rewrite length_app, pct_bytes_length. pose proof (utf8_bytes_length c). lia.
    + rewrite (decode_aux_sequence c k r' s) by
        (done || (unfold scalar, is_unit, high_surrogate, low_surrogate in *;
         apply andb_false_iff in El, Eh; rewrite !Z.leb_gt in *; lia)).
      unfold scalar_units. unfold is_unit in Hc. by rewrite (proj2 (Z.ltb_lt c 65536)) by lia.
Qed.

Lemma decodeURIComponent_encode s r :
  wf_str s -> encodeURIComponent s = Some r -> decodeURIComponent r = Some s.
Proof.
  intros Hwf H. destruct (encode_decode_fuel (length s) s r) as (k & Hk & Hd); [done..|].
  by eapply decode_aux_more.
Qed.

(** The output of [encodeURIComponent] holds only units it keeps and ["%"]. *)
Lemma encodeURIComponent_units n s r c :
  (length s <= n)%nat -> encodeURIComponent s = Some r -> c ∈ r -> uri_keeps c = true \/ c = 37.
Proof.
  revert s r; induction n as [|n IH]; intros s r Hn H Hin.
  { destruct s; [|cbn in Hn; lia]. injection H as <-. by apply not_elem_of_nil in Hin. }
  assert (Hp : forall bs, c ∈ bs ≫= pct -> uri_keeps c = true \/ c = 37).
  { intros bs. rewrite list_elem_of_bind. intros (b & Hb & _).
    unfold pct in Hb. apply elem_of_cons in Hb as [->|Hb]; [by right|left].
    unfold uri_keeps. by rewrite (proj1 (Forall_forall _ _) (hex2_alnum b) c Hb). }
  destruct s as [|x s]; [injection H as <-; by apply not_elem_of_nil in Hin|].
  cbn [encodeURIComponent] in H. cbn in Hn. destruct (uri_keeps x) eqn:Ek.
  { destruct (encodeURIComponent s) as [r'|] eqn:E; [|done]. injection H as <-.
    apply elem_of_cons in Hin as [->|Hin]; [by left|]. eapply (IH s r'); [lia|done|done]. }
  destruct (low_surrogate x); [done|]. destruct (high_surrogate x).
  - destruct s as [|d s]; [done|]. destruct (low_surrogate d); [|done].
    destruct (encodeURIComponent s) as [r'|] eqn:E; [|done]. injection H as <-.
    apply elem_of_app in Hin as [Hin|Hin]; [by eapply Hp|]. cbn in Hn. eapply (IH s r'); [lia|done|done].
  - destruct (encodeURIComponent s) as [r'|] eqn:E; [|done]. injection H as <-.
    apply elem_of_app in Hin as [Hin|Hin]; [by eapply Hp|]. eapply (IH s r'); [lia|done|done].
Qed.

(** What can be encoded, encodes piecewise. *)
Lemma encodeURIComponent_app n s t r :
  (length s <= n)%nat -> encodeURIComponent s = Some r ->
  encodeURIComponent (s ++ t) = app r <$> encodeURIComponent t.
Proof.
  revert s r; induction n as [|n IH]; intros s r Hn H.
  { destruct s; [|cbn in Hn; lia]. injection H as <-. cbn. by destruct (encodeURIComponent t). }
  destruct s as [|c s]; [injection H as <-; cbn; by destruct (encodeURIComponent t)|].
  cbn [length] in Hn. rewrite <- app_comm_cons. cbn [encodeURIComponent] in H |- *. destruct (uri_keeps c).
  { destruct (encodeURIComponent s) as [r'|] eqn:E; [|done]. injection H as <-. rewrite (IH s r') by (done || lia).
    by destruct (encodeURIComponent t). }
  destruct (low_surrogate c); [done|]. destruct (high_surrogate c).
  - destruct s as [|d s]; [done|]. rewrite <- app_comm_cons. destruct (low_surrogate d); [|done].
    destruct (encodeURIComponent s) as [r'|] eqn:E; [|done]. injection H as <-. cbn [length] in Hn.
    rewrite (IH s r') by (done || lia). destruct (encodeURIComponent t); [|done]. cbn. by rewrite <- app_assoc.
  - destruct (encodeURIComponent s) as [r'|] eqn:E; [|done]. injection H as <-. rewrite (IH s r') by (done || lia).
    destruct (encodeURIComponent t); [|done]. cbn. by rewrite <- app_assoc.
Qed.

Lemma encodeURIComponent_kept s : Forall (fun c => uri_keeps c = true) s -> encodeURIComponent s = Some s.
Proof. induction 1 as [|c s Hc _ IH]; [done|]. cbn [encodeURIComponent]. by rewrite Hc, IH. Qed.
