(* ===== verification/Cookie.v ===== *)
(** * The cookie plugin ([files/jquery-cookie-1.4.1.js])

    [$.cookie] writes [document.cookie] and reads it back, with names and values
    percent-encoded; [$.removeCookie] writes an expired cookie.  The browser's
    store is a list of cookies in the order of their creation; setting
    [document.cookie] follows RFC 6265, section 5, for a page at the path [/]; a cookie without a name is
    ignored, and reading the empty key gives all cookies.
    The [domain] and [secure] options, which no caller passes, are left out. *)

From S2P Require Import Prelude JsString JsObject Json JsValue UriCodec.
Import JsValue.

Local Open Scope Z_scope.

Module Cookie.

(** ** [document.cookie] *)

(** Times in milliseconds; [None] for a cookie of the session. *)
Record Crumb := mkCrumb {
  ck_name : jsstr; ck_value : jsstr; ck_path : jsstr; ck_expires : option Z }.

Abbreviation Jar := (list Crumb).

(** The string assigned to [document.cookie]: its first part and its attributes. *)
Record SetCookie := mkSet { sc_pair : jsstr; sc_expires : option Z; sc_path : option jsstr }.

Definition alive (now : Z) (c : Crumb) : bool :=
  bool_decide (ck_path c = js "/") && match ck_expires c with Some e => now <? e | None => true end.

Definition pair (c : Crumb) : jsstr := ck_name c ++ 61 :: ck_value c.

Definition document_cookie (now : Z) (jar : Jar) : jsstr :=
  join (js "; ") (pair <$> List.filter (alive now) jar).

(** Spaces and tabs around a name or value are dropped. *)
Definition is_wsp (c : Z) : bool := (c =? 32) || (c =? 9).
Definition trim (s : jsstr) : jsstr := rev (span is_wsp (rev (span is_wsp s).2)).2.

(** The name and value of the part before the first [;]; [None] without a [=] or with an empty name, when
    the browser ignores the whole string (RFC 6265, section 5.2). *)
Definition split_pair (s : jsstr) : option (jsstr * jsstr) :=
  match split_char 61 (default [] (head (split_char 59 s))) with
  | p :: ((_ :: _) as ps) =>
      match trim p with [] => None | n => Some (n, trim (join [61] ps)) end
  | _ => None
  end.

Definition same (c d : Crumb) : bool := bool_decide ((ck_name c, ck_path c) = (ck_name d, ck_path d)).

(** A cookie replaces the one of its name and path; an expired one removes it. *)
Definition store (now : Z) (sc : SetCookie) (jar : Jar) : Jar :=
  match split_pair (sc_pair sc) with
  | Some (n, v) =>
      let c := mkCrumb n v (default (js "/") (sc_path sc)) (sc_expires sc) in
      if match sc_expires sc with Some e => e <=? now | None => false end
      then List.filter (fun d => negb (same d c)) jar
      else if existsb (same c) jar then (fun d => if same c d then c else d) <$> jar
      else jar ++ [c]
  | None => jar
  end.

(** ** The plugin *)

Record Config := mkConfig { raw : bool; as_json : bool }.

(** [expires] in days. *)
Record Options := mkOptions { op_expires : option Z; op_path : option jsstr }.

(** [s.replace(/ab/g, 'c')] for a pattern of two literal units. *)
Fixpoint replace_pair (a b c : Z) (s : jsstr) : jsstr :=
  match s with
  | x :: ((y :: r) as s') =>
      if (x =? a) && (y =? b) then c :: replace_pair a b c r else x :: replace_pair a b c s'
  | _ => s
  end.

Section Plugin.
Context (config : Config).

(** [None] is a thrown [URIError]. *)
Definition encode (s : jsstr) : option jsstr := if raw config then Some s else encodeURIComponent s.
Definition decode (s : jsstr) : option jsstr := if raw config then Some s else decodeURIComponent s.

Definition stringifyCookieValue (value : json) : option jsstr :=
  encode (if as_json config then stringify value else to_string value).

(** A quoted value is unescaped; [None] is [undefined], also when decoding or parsing throws. *)
Definition parseCookieValue (s : jsstr) : option json :=
  let s := if bool_decide (indexOf [34] s = Some 0%nat)
           then replace_pair 92 92 92 (replace_pair 92 34 34 (removelast (drop 1 s))) else s in
  s ← decodeURIComponent (replace_all 43 [32] s);
  if as_json config then json_parse s else Some (JStr s).

Definition read (s : jsstr) (converter : option (option json -> option json)) : option json :=
  let value := if raw config then Some (JStr s) else parseCookieValue s in
  match converter with Some f => f value | None => value end.

(** [document.cookie ? document.cookie.split('; ') : []] *)
Definition cookies (doc : jsstr) : list jsstr := match doc with [] => [] | _ => split_str (js "; ") doc end.

Definition name_value (cookie : jsstr) : option (jsstr * jsstr) :=
  match split_char 61 cookie with
  | p :: ps => n ← decode p; Some (n, join [61] ps)
  | [] => None
  end.

(** The loop for a key: [None] is a [URIError], [Some None] is [undefined]. *)
Fixpoint find_cookie (key : jsstr) (converter : option (option json -> option json)) (l : list jsstr)
    : option (option json) :=
  match l with
  | [] => Some None
  | c :: l' =>
      nv ← name_value c;
      if bool_decide (key = nv.1) then Some (read nv.2 converter) else find_cookie key converter l'
  end.

(** The loop without a key: the cookies that decode. *)
Fixpoint all_cookies (acc : list (jsstr * json)) (l : list jsstr) : option (list (jsstr * json)) :=
  match l with
  | [] => Some acc
  | c :: l' =>
      nv ← name_value c;
      all_cookies (match read nv.2 None with Some v => obj_set acc nv.1 v | None => acc end) l'
  end.

(** [$.cookie()], and [$.cookie(key)]: with an empty key it is the object of all cookies, too. *)
Definition cookie_all (now : Z) (jar : Jar) : option (list (jsstr * json)) :=
  all_cookies [] (cookies (document_cookie now jar)).
Definition cookie_get (now : Z) (key : jsstr) (jar : Jar) : option (option json) :=
  match key with
  | [] => Some ∘ JObj <$> cookie_all now jar
  | _ => find_cookie key None (cookies (document_cookie now jar))
  end.

(** The expiry, written by [toUTCString] in whole seconds. *)
Definition expiry (now days : Z) : Z := 1000 * ((now + days * 86400000) / 1000).

(** [$.cookie(key, value, options)]: the jar it leaves, [None] for a [URIError]. *)
Definition cookie_set (now : Z) (key : jsstr) (value : json) (options : Options) (jar : Jar) : option Jar :=
  k ← encode key;
  v ← stringifyCookieValue value;
  Some (store now (mkSet (k ++ 61 :: v) (expiry now <$> op_expires options) (op_path options)) jar).

(** JavaScript's truth of what [$.cookie] returns. *)
Definition defined_truthy (v : option json) : bool := match v with Some v => truthy v | None => false end.

(** [$.removeCookie(key, options)]: the jar and the result. *)
Definition removeCookie (now : Z) (key : jsstr) (options : Options) (jar : Jar) : option (Jar * bool) :=
  found ← cookie_get now key jar;
  match found with
  | None => Some (jar, false)
  | Some _ =>
      jar' ← cookie_set now key (JStr []) (mkOptions (Some (-1)) (op_path options)) jar;
      left ← cookie_get now key jar';
      Some (jar', negb (defined_truthy left))
  end.

End Plugin.

(** ** Lemmas: what the encoding leaves out *)

Lemma encoded_clean s r c :
  encodeURIComponent s = Some r -> uri_keeps c = false -> c <> 37 -> c ∉ r.
Proof. intros H Hk Hc Hin. destruct (encodeURIComponent_units (length s) s r c) as [?|?]; [lia|done..|congruence|done]. Qed.

Lemma span_wsp s : 32 ∉ s -> 9 ∉ s -> (span is_wsp s).2 = s.
Proof.
  destruct s as [|c s]; [done|]. rewrite !not_elem_of_cons. intros [H1 _] [H2 _]. cbn. unfold is_wsp.
  by rewrite (proj2 (Z.eqb_neq c 32)), (proj2 (Z.eqb_neq c 9)) by done.
Qed.

Lemma trim_id s : 32 ∉ s -> 9 ∉ s -> trim s = s.
Proof.
  intros H1 H2. unfold trim. rewrite (span_wsp s) by done.
  rewrite span_wsp, rev_involutive; [done|by rewrite list_elem_of_In, <- in_rev, <- list_elem_of_In..].
Qed.

Lemma split_pair_clean k v :
  k <> [] -> Forall (fun c => (c ∉ k) /\ (c ∉ v)) [61; 59; 32; 9] -> split_pair (k ++ 61 :: v) = Some (k, v).
Proof.
  intros Hne. rewrite !Forall_cons. intros ([K1 V1] & [K2 V2] & [K3 V3] & [K4 V4] & _). unfold split_pair.
  rewrite (split_char_id 59).
  2:{ rewrite elem_of_app, elem_of_cons. intros [?|[?|?]]; done. }
  cbn [head default from_option id]. rewrite split_char_app, split_char_id by done. cbn [join]. rewrite !trim_id by done. by destruct k.
Qed.

Lemma encoded_nonempty k r : wf_str k -> encodeURIComponent k = Some r -> k <> [] -> r <> [].
Proof.
  intros Hk He Hne ->. pose proof (decodeURIComponent_encode k [] Hk He) as H. vm_compute in H. by injection H as <-.
Qed.

(** ** The cookies the plugin writes *)

(** Names are encoded and not empty, values hold no [;]. *)
Definition crumb_ok (c : Crumb) : Prop :=
  ck_path c = js "/" /\ (59 ∉ ck_value c) /\ exists n, wf_str n /\ n <> [] /\ encodeURIComponent n = Some (ck_name c).

Definition jar_ok (jar : Jar) : Prop := Forall crumb_ok jar /\ NoDup (ck_name <$> jar).

Definition crumb_name (c : Crumb) : jsstr := default [] (decodeURIComponent (ck_name c)).

Lemma crumb_name_encode c : crumb_ok c -> encodeURIComponent (crumb_name c) = Some (ck_name c).
Proof.
  intros (_ & _ & n & Hn & _ & He). unfold crumb_name. by rewrite (decodeURIComponent_encode n _ Hn He).
Qed.

Lemma crumb_name_inj c d : crumb_ok c -> crumb_ok d -> crumb_name c = crumb_name d <-> ck_name c = ck_name d.
Proof.
  intros Hc Hd. split; intros E; [|unfold crumb_name; by rewrite E].
  apply crumb_name_encode in Hc, Hd. congruence.
Qed.

Section Reading.
Context (config : Config) (Hraw : raw config = false).

Lemma name_value_pair c : crumb_ok c -> name_value config (pair c) = Some (crumb_name c, ck_value c).
Proof.
  intros (_ & _ & n & Hn & _ & He). unfold name_value, pair, decode, crumb_name. rewrite Hraw.
  rewrite split_char_app by (by eapply encoded_clean).
  rewrite (decodeURIComponent_encode n _ Hn He). cbn. by rewrite join_split_char.
Qed.

Lemma find_pairs key conv l :
  Forall crumb_ok l ->
  find_cookie config key conv (pair <$> l) =
  Some (c ← List.find (fun c => bool_decide (key = crumb_name c)) l; read config (ck_value c) conv).
Proof.
  induction 1 as [|c l Hc _ IH]; [done|]. cbn [fmap list_fmap find_cookie List.find].
  rewrite name_value_pair by done. cbn. by case_bool_decide.
Qed.

Lemma cookies_document now jar :
  Forall crumb_ok jar -> cookies (document_cookie now jar) = pair <$> List.filter (alive now) jar.
Proof.
  intros H. unfold document_cookie.
  assert (Hf : Forall (fun p => 59 ∉ p) (pair <$> List.filter (alive now) jar)).
  { rewrite Forall_fmap, Forall_forall. intros c [Hc _]%list_elem_of_In%filter_In. cbn.
    rewrite Forall_forall in H. destruct (H c) as (_ & Hv & n & _ & _ & He); [by apply list_elem_of_In|].
    unfold pair. rewrite elem_of_app, elem_of_cons. intros [?|[?|?]]; [|done..]. by apply (encoded_clean n _ 59 He). }
  destruct (List.filter (alive now) jar) as [|c l] eqn:E; [done|].
  rewrite <- (split_str_join 59 [32] (pair <$> c :: l)) at 2 by done. unfold cookies.
  destruct (join _ _) eqn:Ej; [|done]. exfalso. revert Ej. clear. cbn [fmap list_fmap].
  generalize (pair <$> l). unfold pair. intros [|q ps]; cbn; by destruct (ck_name c).
Qed.

(** The cookie a key finds. *)
Definition find_crumb (now : Z) (key : jsstr) (jar : Jar) : option Crumb :=
  List.find (fun c => alive now c && bool_decide (key = crumb_name c)) jar.

Lemma find_filter {A} (p q : A -> bool) l : List.find q (List.filter p l) = List.find (fun x => p x && q x) l.
Proof. induction l as [|x l IH]; [done|]. cbn. destruct (p x); cbn; [by destruct (q x)|done]. Qed.

Lemma cookie_get_crumb now key jar :
  jar_ok jar -> key <> [] -> cookie_get config now key jar = Some (c ← find_crumb now key jar; read config (ck_value c) None).
Proof.
  intros [H _] Hne. assert (E : cookie_get config now key jar = find_cookie config key None (cookies (document_cookie now jar)))
    by (by destruct key). rewrite E. rewrite cookies_document by done. rewrite find_pairs, find_filter; [done|].
  rewrite Forall_forall in H |- *. intros c [Hc _]%list_elem_of_In%filter_In. by apply H, list_elem_of_In.
Qed.

Lemma find_crumb_spec now key jar c :
  jar_ok jar -> find_crumb now key jar = Some c <-> c ∈ jar /\ alive now c = true /\ crumb_name c = key.
Proof.
  intros [Hok Hnd]. unfold find_crumb. split.
  - intros [Hin Hp]%find_some. apply andb_true_iff in Hp as [Ha Hk]. apply bool_decide_eq_true in Hk.
    by rewrite list_elem_of_In.
  - intros (Hin & Ha & Hk). induction jar as [|d jar IH]; [by apply not_elem_of_nil in Hin|]. cbn.
    apply Forall_cons in Hok as [Hd Hok]. rewrite fmap_cons in Hnd. apply NoDup_cons in Hnd as [Hn Hnd].
    apply elem_of_cons in Hin as [->|Hin]; [by rewrite Ha, bool_decide_eq_true_2|].
    rewrite (bool_decide_eq_false_2 (key = crumb_name d)), andb_false_r; [by apply IH|].
    intros ->. apply Hn. apply crumb_name_inj in Hk; [|by eapply Forall_forall in Hok|done].
    rewrite <- Hk. by apply list_elem_of_fmap_2.
Qed.

End Reading.

(** ** Storing *)

Lemma same_names c d : ck_path c = js "/" -> crumb_ok d -> same c d = bool_decide (ck_name c = ck_name d).
Proof.
  intros Hc (Hd & _). unfold same. rewrite Hc, Hd. apply bool_decide_ext. split; [by intros [= ->]|by intros ->].
Qed.

Section Store.
Context (jar : Jar) (Hjar : jar_ok jar) (c : Crumb) (Hc : ck_path c = js "/").

(** The cookies of other names. *)
Definition others : Jar := List.filter (fun d => negb (same d c)) jar.
Definition put : Jar := if existsb (same c) jar then (fun d => if same c d then c else d) <$> jar else jar ++ [c].

Lemma jar_crumb d : d ∈ jar -> crumb_ok d.
Proof. intros Hd. destruct Hjar as [H _]. by eapply Forall_forall in H. Qed.

Lemma same_in d : d ∈ jar -> same c d = bool_decide (ck_name c = ck_name d).
Proof. intros Hd. by apply same_names, jar_crumb. Qed.

Lemma same_sym d : same d c = same c d.
Proof. unfold same. apply bool_decide_ext. split; by intros ->. Qed.

Lemma elem_of_others d : d ∈ others <-> d ∈ jar /\ ck_name d <> ck_name c.
Proof.
  unfold others. rewrite !list_elem_of_In, filter_In, <- !list_elem_of_In, same_sym.
  split; intros [Hd H]; split; try done; revert H; rewrite same_in by done; case_bool_decide; cbn; congruence.
Qed.

Lemma elem_of_put d : d ∈ put <-> d = c \/ d ∈ others.
Proof.
  rewrite elem_of_others. unfold put. destruct (existsb (same c) jar) eqn:E.
  - apply existsb_exists in E as (e & He%list_elem_of_In & Hs). rewrite list_elem_of_fmap. split.
    + intros (x & -> & Hx). rewrite same_in by done. case_bool_decide; [by left|right; by split].
    + intros [->|[Hd Hn]]; [exists e; by rewrite Hs|]. exists d. rewrite same_in by done.
      by rewrite bool_decide_eq_false_2.
  - rewrite elem_of_app, list_elem_of_singleton. split; [intros [Hd| ->]; [|by left]|intros [->|[??]]; auto].
    right. split; [done|]. intros Hn. apply not_true_iff_false in E. apply E, existsb_exists. exists d.
    rewrite <- list_elem_of_In. split; [done|]. rewrite same_in by done. by apply bool_decide_eq_true.
Qed.

Lemma others_ok : jar_ok others.
Proof.
  split.
  - apply Forall_forall. intros d [Hd _]%elem_of_others. by apply jar_crumb.
  - eapply sublist_NoDup; [apply Hjar|]. unfold others. apply fmap_sublist. clear. induction jar as [|d l IH]; [done|].
    cbn. destruct (negb _); by constructor.
Qed.

Lemma put_ok : crumb_ok c -> jar_ok put.
Proof.
  intros Hok. split.
  - apply Forall_forall. intros d [->|Hd]%elem_of_put; [done|]. eapply Forall_forall; [|done]. apply others_ok.
  - destruct Hjar as [_ H2]. unfold put. destruct (existsb (same c) jar) eqn:E.
    + replace (ck_name <$> _) with (ck_name <$> jar); [done|]. rewrite <- list_fmap_compose.
      apply list_fmap_ext. intros i d Hd%list_elem_of_lookup_2. cbn. rewrite same_in by done. by case_bool_decide.
    + rewrite fmap_app. cbn. apply NoDup_app. split; [done|]. split; [|apply NoDup_singleton].
      intros n (d & -> & Hd)%list_elem_of_fmap Hn%list_elem_of_singleton. apply not_true_iff_false in E.
      apply E, existsb_exists. exists d. rewrite <- list_elem_of_In. by rewrite same_in, bool_decide_eq_true_2.
Qed.

(** What each key finds afterwards. *)
Lemma find_put now key :
  crumb_ok c -> find_crumb now key put =
    if decide (key = crumb_name c) then if alive now c then Some c else None else find_crumb now key jar.
Proof.
  intros Hok. apply option_eq. intros d. rewrite find_crumb_spec by (by apply put_ok). rewrite elem_of_put, elem_of_others.
  pose proof (jar_crumb d) as Hd.
  destruct (decide (key = crumb_name c)) as [->|Hne].
  - split.
    + intros ([->|[Hin Hn]] & Ha & Hk); [by rewrite Ha|]. apply crumb_name_inj in Hk; auto. done.
    + destruct (alive now c) eqn:Ea; [|done]. intros [= <-]. auto.
  - rewrite find_crumb_spec by done. split.
    + intros ([->|[Hin Hn]] & Ha & Hk); [congruence|done].
    + intros (Hin & Ha & Hk). split; [|done]. right. split; [done|]. intros Hn. apply Hne. rewrite <- Hk.
      by apply crumb_name_inj; auto.
Qed.

Lemma find_others now key :
  crumb_ok c -> find_crumb now key others = if decide (key = crumb_name c) then None else find_crumb now key jar.
Proof.
  intros Hok. apply option_eq. intros d. rewrite find_crumb_spec by apply others_ok. rewrite elem_of_others.
  pose proof (jar_crumb d) as Hd.
  destruct (decide (key = crumb_name c)) as [->|Hne].
  - split; [|done]. intros ([Hin Hn] & Ha & Hk). apply crumb_name_inj in Hk; auto. done.
  - rewrite find_crumb_spec by done. split; [naive_solver|].
    intros (Hin & Ha & Hk). repeat split; try done. intros Hn. apply Hne. rewrite <- Hk.
    by apply crumb_name_inj; auto.
Qed.

End Store.

(** ** Writing, reading back, removing *)

Section Laws.
Context (config : Config) (Hraw : raw config = false).

(** A cookie without a name is ignored. *)
Lemma store_nameless now v e p jar : store now (mkSet (61 :: v) e p) jar = jar.
Proof.
  unfold store, split_pair. cbn [sc_pair].
  assert (Hs : exists r, default [] (head (split_char 59 (61 :: v))) = 61 :: r).
  { cbn [split_char]. destruct (split_char 59 v) as [|q qs]; cbn; by eexists. }
  destruct Hs as [r ->]. cbn [split_char]. rewrite Z.eqb_refl. by destruct (split_char 61 r).
Qed.

(** The values that survive encoding, and what reading gives for them. *)
Definition value_ok (v : json) : Prop := if as_json config then json_wf v else wf_str (to_string v).
Definition cookie_value (v : json) : json := if as_json config then v else JStr (to_string v).

Lemma read_written v ev :
  value_ok v -> stringifyCookieValue config v = Some ev -> read config ev None = Some (cookie_value v).
Proof.
  unfold value_ok, stringifyCookieValue, encode, read, parseCookieValue, cookie_value. rewrite Hraw. intros Hv He.
  assert (Hq : 34 ∉ ev) by (by eapply encoded_clean).
  rewrite bool_decide_eq_false_2.
  2:{ destruct ev as [|x ev]; [done|]. apply not_elem_of_cons in Hq as [Hx _].
      cbn [indexOf starts_with]. rewrite (proj2 (Z.eqb_neq _ _) Hx). cbn [andb]. by destruct (indexOf _ ev). }
  replace (replace_all 43 [32] ev) with ev.
  2:{ assert (Hp : 43 ∉ ev) by (by eapply encoded_clean). unfold replace_all. clear -Hp.
      induction ev as [|x ev IH]; [done|]. apply not_elem_of_cons in Hp as [Hx Hp]. rewrite bind_cons, <- IH by done.
      by rewrite (proj2 (Z.eqb_neq x 43)). }
  destruct (as_json config).
  - rewrite (decodeURIComponent_encode _ _ (stringify_wf (jsize v) v (le_n _) Hv) He). cbn. by apply parse_stringify.
  - by rewrite (decodeURIComponent_encode _ _ Hv He).
Qed.

(** The cookie that a write stores. *)
Definition written (now days : Z) (ek ev : jsstr) : Crumb := mkCrumb ek ev (js "/") (Some (expiry now days)).

Lemma cookie_set_store now key v days jar jar' :
  wf_str key -> key <> [] -> cookie_set config now key v (mkOptions (Some days) (Some (js "/"))) jar = Some jar' ->
  exists ek ev, stringifyCookieValue config v = Some ev /\ crumb_ok (written now days ek ev) /\
    crumb_name (written now days ek ev) = key /\
    jar' = if expiry now days <=? now then others jar (written now days ek ev) else put jar (written now days ek ev).
Proof.
  intros Hk Hne. unfold cookie_set. destruct (encode config key) as [ek|] eqn:Ek; [|done].
  destruct (stringifyCookieValue config v) as [ev|] eqn:Ev; [|done]. cbn [mbind option_bind]. intros [= <-].
  exists ek, ev. unfold stringifyCookieValue, encode in *. rewrite Hraw in *. split; [done|]. split_and!.
  - split; [done|]. split; [by eapply encoded_clean|]. by exists key.
  - unfold crumb_name. cbn [ck_name written]. by rewrite (decodeURIComponent_encode key _ Hk Ek).
  - unfold store. cbn [sc_pair sc_expires sc_path fmap option_fmap option_map op_expires op_path].
    rewrite split_pair_clean; [reflexivity|by eapply encoded_nonempty|].
    repeat (constructor; [split; by eapply encoded_clean|]). constructor.
Qed.

Lemma alive_written now now' days ek ev : alive now' (written now days ek ev) = (now' <? expiry now days).
Proof. done. Qed.

(** A value is read back until it expires; the other cookies are as before. *)
Lemma cookie_set_get now key v days jar jar' :
  jar_ok jar -> wf_str key -> key <> [] -> value_ok v ->
  cookie_set config now key v (mkOptions (Some days) (Some (js "/"))) jar = Some jar' ->
  jar_ok jar' /\
  forall now' key', key' <> [] -> cookie_get config now' key' jar' =
    if decide (key' = key) then
      Some (if (now <? expiry now days) && (now' <? expiry now days) then Some (cookie_value v) else None)
    else cookie_get config now' key' jar.
Proof.
  intros Hj Hk Hne Hv H. destruct (cookie_set_store _ _ _ _ _ _ Hk Hne H) as (ek & ev & He & Hc & Hn & ->).
  pose proof (read_written v ev Hv He) as Hr.
  rewrite Z.leb_antisym. destruct (now <? expiry now days); cbn [negb andb].
  - split; [by apply put_ok|]. intros now' key' Hne'. rewrite !cookie_get_crumb by (done || by apply put_ok).
    rewrite find_put, Hn, alive_written by done. destruct (decide _); [|done]. destruct (now' <? _); [|done].
    cbn [mbind option_bind ck_value written]. by rewrite Hr.
  - split; [by apply others_ok|]. intros now' key' Hne'. rewrite !cookie_get_crumb by (done || by apply others_ok).
    rewrite find_others, Hn by done. by destruct (decide _).
Qed.

Lemma expiry_past now : (now <? expiry now (-1)) = false.
Proof. unfold expiry. apply Z.ltb_ge. pose proof (Z.mul_div_le (now + -1 * 86400000) 1000). lia. Qed.

(** Time only takes cookies away. *)
Lemma cookie_get_later now now' key jar :
  jar_ok jar -> key <> [] -> now <= now' -> cookie_get config now key jar = Some None -> cookie_get config now' key jar = Some None.
Proof.
  intros Hj Hne Hle. rewrite !cookie_get_crumb by done. intros [= H]. f_equal.
  destruct (find_crumb now' key jar) as [c|] eqn:E; [|done]. apply find_crumb_spec in E as (Hin & Ha & Hn); [|done].
  rewrite (proj2 (find_crumb_spec now key jar c Hj)) in H; [exact H|]. split; [done|]. split; [|done].
  unfold alive in *. destruct (bool_decide _); [|done]. destruct (ck_expires c); [|done]. cbn in *.
  apply Z.ltb_lt. apply Z.ltb_lt in Ha. lia.
Qed.

(** The key has a value. *)
Definition found (r : option (option json)) : bool := match r with Some (Some _) => true | _ => false end.

Lemma removeCookie_get now key opts jar :
  jar_ok jar -> wf_str key -> key <> [] -> encodeURIComponent key <> None -> op_path opts = Some (js "/") ->
  exists jar', removeCookie config now key opts jar =
      Some (jar', found (cookie_get config now key jar)) /\ jar_ok jar' /\
    forall now' key', key' <> [] -> now <= now' -> cookie_get config now' key' jar' =
      if decide (key' = key) then Some None else cookie_get config now' key' jar.
Proof.
  intros Hj Hk Hne He Hp. unfold removeCookie. destruct (cookie_get config now key jar) as [[v|]|] eqn:Eg.
  - cbn [mbind option_bind]. rewrite Hp.
    assert (exists jar', cookie_set config now key (JStr []) (mkOptions (Some (-1)) (Some (js "/"))) jar = Some jar')
      as [jar' Es].
    { unfold cookie_set, stringifyCookieValue, encode. rewrite Hraw. destruct (encodeURIComponent key); [|done].
      cbn [mbind option_bind]. by destruct (as_json config); eexists. }
    rewrite Es. cbn [mbind option_bind]. apply cookie_set_get in Es as [Hj' Hg]; [|done..|].
    2:{ unfold value_ok. destruct (as_json config); repeat constructor. }
    rewrite expiry_past in Hg. rewrite Hg, decide_True by done. exists jar'. split; [done|]. split; [done|].
    intros now' key' Hne' _. by rewrite Hg.
  - exists jar. split; [done|]. split; [done|].
    intros now' key' _ Hle. destruct (decide (key' = key)) as [->|]; [|done]. by eapply cookie_get_later.
  - rewrite cookie_get_crumb in Eg; done.
Qed.

(** C27: the plugin's cookies form a store, for keys that are not empty: a cookie written for a number of days
    is read back, as written, until its expiry (rounded down to a second) and not after;
    removing a key leaves nothing under it, now or later, and reports
    whether there was something; neither changes what any other key reads.  With the empty key, writing leaves the
    cookies as they are, since a browser ignores a cookie without a name, and reading
    gives the object of all cookies. *)
Theorem cookie_store_laws now key v days jar :
  jar_ok jar -> wf_str key -> value_ok v -> encodeURIComponent key <> None -> 0 < days ->
  if decide (key = []) then
    (forall jar', cookie_set config now key v (mkOptions (Some days) (Some (js "/"))) jar = Some jar' -> jar' = jar) /\
    cookie_get config now key jar = Some ∘ JObj <$> cookie_all config now jar
  else
  (forall jar', cookie_set config now key v (mkOptions (Some days) (Some (js "/"))) jar = Some jar' ->
    jar_ok jar' /\
    forall now' key', key' <> [] -> now <= now' -> cookie_get config now' key' jar' =
      if decide (key' = key) then Some (if now' <? expiry now days then Some (cookie_value v) else None)
      else cookie_get config now' key' jar) /\
  exists jar', removeCookie config now key (mkOptions (Some days) (Some (js "/"))) jar =
      Some (jar', found (cookie_get config now key jar)) /\ jar_ok jar' /\
    forall now' key', key' <> [] -> now <= now' -> cookie_get config now' key' jar' =
      if decide (key' = key) then Some None else cookie_get config now' key' jar.
Proof.
  intros Hj Hk Hv He Hd. destruct (decide (key = [])) as [->|Hne]; [split; [|done]|split; [|by apply removeCookie_get]].
  - intros jar'. unfold cookie_set, encode. rewrite Hraw.
    assert (E : encodeURIComponent [] = Some []) by (vm_compute; reflexivity). rewrite E. cbn [mbind option_bind].
    destruct (stringifyCookieValue config v) as [ev|]; [|done]. cbn [mbind option_bind]. intros [= <-].
    apply store_nameless.
  - intros jar' H. destruct (cookie_set_get _ _ _ _ _ _ Hj Hk Hne Hv H) as [Hj' Hg]. split; [done|].
    intros now' key' Hne' Hle. rewrite Hg by done. destruct (decide _); [|done]. do 2 f_equal.
    destruct (Z.ltb_spec now' (expiry now days)); [|by rewrite andb_false_r].
    by rewrite (proj2 (Z.ltb_lt now (expiry now days))) by lia.
Qed.

End Laws.

(** A jar with another cookie, and [login] written for 12 days at time 0. *)
Definition sample_jar : Jar := [mkCrumb (js "theme") (js "dark") (js "/") None].

Lemma sample_jar_ok : jar_ok sample_jar.
Proof.
  split; [|apply NoDup_singleton]. apply Forall_singleton. split; [done|].
  split; [|exists (js "theme"); split; [repeat constructor; done|split; [done|reflexivity]]].
  apply (bool_decide_unpack _). vm_compute. exact I.
Qed.

Lemma cookie_store_laws_witness :
  exists jar', cookie_set (mkConfig false false) 0 (js "login") (JStr (js "a:b c"))
    (mkOptions (Some 12) (Some (js "/"))) sample_jar = Some jar' /\
  cookie_get (mkConfig false false) 1036799999 (js "login") jar' = Some (Some (JStr (js "a:b c"))) /\
  cookie_get (mkConfig false false) 1036800000 (js "login") jar' = Some None.
Proof.
  destruct (cookie_store_laws (mkConfig false false) eq_refl 0 (js "login") (JStr (js "a:b c")) 12 sample_jar)
    as [H _].
  - exact sample_jar_ok.
  - repeat constructor; done.
  - repeat constructor; done.
  - done.
  - lia.
  - eexists. split; [vm_compute; reflexivity|]. edestruct H as [_ Hg]; [vm_compute; reflexivity|]. split.
    + rewrite Hg by (discriminate || lia). vm_compute. reflexivity.
    + rewrite Hg by (discriminate || lia). vm_compute. reflexivity.
Defined.

End Cookie.
