(* ===== verification/Backbone.v ===== *)
(** * Events and models of [files/backbone.js]

    What the application uses of Backbone: objects with listeners ([on], [once],
    [off], [trigger], [listenTo], [stopListening]) and models whose [set] fires
    the change events.  Callbacks and contexts are named by numbers; [trigger]
    gives the bindings it calls, in order.  The listeners of the application do
    not set the model they listen to, so [set] is modelled for such listeners. *)

From S2P Require Import Prelude JsString JsObject.

Local Open Scope Z_scope.

(** ** [Backbone.Events] *)

Module Events.

(** [{callback, context}]; [b_original] is the [_callback] of a wrapper made by [once]. *)
Record binding := mkBinding { b_callback : nat; b_original : option nat; b_context : option nat }.

#[global] Instance binding_eq_dec : EqDecision binding.
Proof. solve_decision. Defined.

(** [_events] *)
Abbreviation table := (list (jsstr * list binding)).

(** [eventsApi]: a name with white space stands for several. *)
Fixpoint split_spaces (s : jsstr) : list jsstr :=
  match s with
  | [] => [[]]
  | x :: s' =>
      match split_spaces s' with
      | p :: ps =>
          if is_space x then
            match s' with y :: _ => if is_space y then p :: ps else [] :: p :: ps | [] => [] :: p :: ps end
          else (x :: p) :: ps
      | [] => [[x]]
      end
  end.
Definition names (name : jsstr) : list jsstr := if existsb is_space name then split_spaces name else [name].

Definition bindings (t : table) (name : jsstr) : list binding := default [] (obj_get t name).

(** One name of [on]: the binding goes to the end. *)
Definition on1 (b : binding) (t : table) (name : jsstr) : table := obj_set t name (bindings t name ++ [b]).

Definition on (name : jsstr) (callback : nat) (context : option nat) (t : table) : table :=
  foldl (on1 (mkBinding callback None context)) t (names name).

(** [once] binds, for each name, a fresh wrapper that remembers the callback. *)
Definition once (name : jsstr) (wrapper : jsstr -> nat) (callback : nat) (context : option nat) (t : table) : table :=
  foldl (fun t n => on1 (mkBinding (wrapper n) (Some callback) context) t n) t (names name).

(** The bindings [off] retains under a name; [None] is an absent argument. *)
Definition retained (callback context : option nat) (b : binding) : bool :=
  match callback with Some c => negb (bool_decide (c = b_callback b)) && negb (bool_decide (Some c = b_original b)) | None => false end ||
  match context with Some c => negb (bool_decide (Some c = b_context b)) | None => false end.

Definition off1 (callback context : option nat) (t : table) (name : jsstr) : table :=
  match obj_get t name with
  | Some events =>
      match (match callback, context with None, None => [] | _, _ => List.filter (retained callback context) events end) with
      | [] => obj_delete t name
      | retain => obj_set t name retain
      end
  | None => t
  end.

(** [off] of a name without white space; an empty one counts as absent. *)
Definition off_name (callback context : option nat) (t : table) (name : jsstr) : table :=
  match name, callback, context with
  | [], None, None => []
  | [], _, _ => foldl (off1 callback context) t (obj_keys t)
  | _, _, _ => off1 callback context t name
  end.

Definition off (name : option jsstr) (callback context : option nat) (t : table) : table :=
  match name with
  | None => off_name callback context t []
  | Some n => foldl (off_name callback context) t (names n)
  end.

(** A call of a binding: the wrapper of [once] removes itself first. *)
Definition fire (name : jsstr) (b : binding) (t : table) : table :=
  match b_original b with Some _ => off (Some name) (Some (b_callback b)) None t | None => t end.

(** [trigger]: the bindings of the name, then those of ["all"]. *)
Definition trigger1 (t : table) (name : jsstr) : list binding := bindings t name ++ bindings t (js "all").
Definition trigger (name : jsstr) (t : table) : list binding := names name ≫= trigger1 t.

(** [self.listenTo(obj, name, callback)] and [self.stopListening(obj)], on the table of [obj]. *)
Definition listenTo (self : nat) (name : jsstr) (callback : nat) (t : table) : table := on name callback (Some self) t.
Definition stopListening (self : nat) (t : table) : table := off None None (Some self) t.

(** *** Lemmas *)

Lemma bindings_set t n l m : bindings (obj_set t n l) m = if decide (n = m) then l else bindings t m.
Proof.
  unfold bindings. destruct (decide (n = m)) as [->|Hne]; [by rewrite obj_get_set|]. by rewrite obj_get_set_ne.
Qed.

Lemma bindings_off1 c x t n m :
  bindings (off1 c x t n) m =
  if decide (n = m) then
    match c, x with None, None => [] | _, _ => List.filter (retained c x) (bindings t m) end
  else bindings t m.
Proof.
  unfold off1. set (f l := match c, x with None, None => [] | _, _ => List.filter (retained c x) l end).
  assert (Hf : f [] = []) by (unfold f; by destruct c, x).
  change (bindings (match obj_get t n with Some events => match f events with [] => obj_delete t n | (_ :: _) as retain => obj_set t n retain end
    | None => t end) m = if decide (n = m) then f (bindings t m) else bindings t m).
  destruct (obj_get t n) as [l|] eqn:E.
  - destruct (decide (n = m)) as [<-|Hne].
    + unfold bindings at 2. rewrite E. cbn [default from_option id].
      destruct (f l) as [|b bs]; [unfold bindings; by rewrite obj_get_delete|by rewrite bindings_set, decide_True].
    + destruct (f l); unfold bindings; [by rewrite obj_get_delete_ne|by rewrite obj_get_set_ne].
  - destruct (decide (n = m)) as [<-|]; [|done]. unfold bindings. by rewrite E.
Qed.

Lemma names_plain n : existsb is_space n = false -> names n = [n].
Proof. intros H. unfold names. by rewrite H. Qed.

(** Dropping by a key that every name of the table is asked about. *)
Lemma bindings_off_keys c x ks t m :
  NoDup ks -> (c, x) <> (None, None) ->
  bindings (foldl (off1 c x) t ks) m =
  if decide (m ∈ ks) then List.filter (retained c x) (bindings t m) else bindings t m.
Proof.
  intros Hnd Hcx. revert t. induction Hnd as [|k ks Hk _ IH]; intros t; [by rewrite decide_False by apply not_elem_of_nil|].
  cbn [foldl]. rewrite IH, bindings_off1.
  assert (Hm : match c, x with None, None => [] | _, _ => List.filter (retained c x) (bindings t m) end
    = List.filter (retained c x) (bindings t m)) by (by destruct c, x).
  rewrite Hm. destruct (decide (k = m)) as [->|Hne].
  - rewrite decide_False by done. by rewrite decide_True by left.
  - destruct (decide (m ∈ ks)); [by rewrite decide_True by (by right)|].
    rewrite decide_False; [done|]. rewrite elem_of_cons. intros [?|?]; congruence.
Qed.

(** The binding that [once] makes is gone after its call. *)
Lemma once_fires_once t name w callback context :
  existsb is_space name = false -> name <> [] ->
  Forall (fun b => b_callback b <> w /\ b_original b <> Some w) (bindings t name) ->
  let b := mkBinding w (Some callback) context in
  bindings (once name (fun _ => w) callback context t) name = bindings t name ++ [b] /\
  bindings (fire name b (once name (fun _ => w) callback context t)) name = bindings t name.
Proof.
  intros Hn Hne Hf b.
  assert (Ho : once name (fun _ => w) callback context t = obj_set t name (bindings t name ++ [b])).
  { unfold once. by rewrite names_plain by done. }
  rewrite Ho. split; [by rewrite bindings_set, decide_True|]. unfold fire, off. cbn [b_original b b_callback].
  rewrite names_plain by done. cbn [foldl]. unfold off_name. destruct name as [|x name]; [done|].
  rewrite bindings_off1, bindings_set, !decide_True by done. rewrite List.filter_app.
  assert (Hr : retained (Some w) None b = false).
  { unfold retained. rewrite orb_false_r. cbn [b_callback b]. by rewrite bool_decide_eq_true_2. }
  cbn [List.filter]. rewrite Hr, app_nil_r. clear Ho. revert Hf. generalize (bindings t (x :: name)). intros bs Hf.
  induction Hf as [|c l [H1 H2] _ IH]; [done|]. cbn [List.filter].
  assert (Hc : retained (Some w) None c = true).
  { unfold retained. rewrite orb_false_r. rewrite !bool_decide_eq_false_2 by congruence. done. }
  rewrite Hc. by f_equal.
Qed.

(** An object's listeners.  [listenTo] adds a listener that is called last for its
    event and for no other; [stopListening] removes exactly the listeners of that
    object, for every event, and the rest are called in their order; a listener bound
    by [once] is called last and is gone after the call. *)
Theorem listeners_follow t self name callback w :
  obj_wf t -> existsb is_space name = false -> name <> [] -> name <> js "all" ->
  Forall (fun b => b_callback b <> w /\ b_original b <> Some w) (bindings t name) ->
  (trigger name (listenTo self name callback t) =
     bindings t name ++ mkBinding callback None (Some self) :: bindings t (js "all")) /\
  (forall m, m <> name -> existsb is_space m = false -> trigger m (listenTo self name callback t) = trigger m t) /\
  (forall m, existsb is_space m = false ->
     trigger m (stopListening self t) = List.filter (fun b => negb (bool_decide (Some self = b_context b))) (trigger m t)) /\
  (forall b, b ∈ trigger name (stopListening self (listenTo self name callback t)) -> b_context b <> Some self) /\
  (let b := mkBinding w (Some callback) (Some self) in
   bindings (once name (fun _ => w) callback (Some self) t) name = bindings t name ++ [b] /\
   bindings (fire name b (once name (fun _ => w) callback (Some self) t)) name = bindings t name).
Proof.
  intros Hwf Hn Hne Hall Hw.
  assert (Hon : forall m, bindings (listenTo self name callback t) m =
    if decide (name = m) then bindings t m ++ [mkBinding callback None (Some self)] else bindings t m).
  { intros m. unfold listenTo, on. rewrite names_plain by done. cbn [foldl]. unfold on1. rewrite bindings_set.
    by destruct (decide (name = m)) as [->|]. }
  assert (Hoff : forall t m, obj_wf t -> existsb is_space m = false -> trigger m (stopListening self t) =
    List.filter (fun b => negb (bool_decide (Some self = b_context b))) (trigger m t)).
  { clear. intros t m Hwf Hm. unfold trigger. rewrite names_plain by done. cbn [mbind list_bind]. rewrite !app_nil_r.
    unfold trigger1. rewrite List.filter_app. unfold stopListening, off, off_name.
    assert (Hk : forall n, bindings (foldl (off1 None (Some self)) t (obj_keys t)) n =
      List.filter (fun b => negb (bool_decide (Some self = b_context b))) (bindings t n)).
    { intros n. rewrite bindings_off_keys by (done || by apply NoDup_enum_order).
      destruct (decide (n ∈ obj_keys t)) as [_|Hn]; [done|]. unfold bindings.
      rewrite elem_of_obj_keys in Hn. by destruct (obj_get t n) as [l|]; [destruct Hn|]. }
    by rewrite !Hk. }
  split_and!.
  - unfold trigger. rewrite names_plain by done. cbn [mbind list_bind]. rewrite app_nil_r. unfold trigger1.
    rewrite !Hon, decide_True, decide_False by done. by rewrite <- app_assoc.
  - intros m Hm' Hm. unfold trigger. rewrite names_plain by done. cbn [mbind list_bind]. rewrite !app_nil_r. unfold trigger1.
    rewrite !Hon. by rewrite !decide_False by congruence.
  - intros m. by apply Hoff.
  - intros b. rewrite Hoff; [|unfold listenTo, on; rewrite names_plain by done; by apply obj_set_wf|done].
    intros [_ Hb]%list_elem_of_In%filter_In. apply negb_true_iff, bool_decide_eq_false in Hb. congruence.
  - by apply once_fires_once.
Qed.

(** The table of a view that listens to two events of the model. *)
Lemma listeners_follow_witness :
  trigger (js "change") (stopListening 1 (listenTo 2 (js "change") 9 (listenTo 1 (js "change") 7 []))) = [mkBinding 9 None (Some 2%nat)].
Proof.
  destruct (listeners_follow (listenTo 2 (js "change") 9 (listenTo 1 (js "change") 7 [])) 1 (js "reset") 8 9) as (_ & _ & H & _).
  - repeat apply obj_set_wf. apply NoDup_nil_2.
  - reflexivity.
  - discriminate.
  - apply (bool_decide_unpack _). vm_compute. exact I.
  - apply (bool_decide_unpack _). vm_compute. exact I.
  - rewrite H by reflexivity. reflexivity.
Defined.

End Events.

(** ** [Backbone.Model] *)

Module Model.
Section Model.

(** Values of attributes; [None] is [undefined], and the equality is that of [_.isEqual]. *)
Context {V : Type} `{!EqDecision V}.

Abbreviation attrs := (list (jsstr * option V)).

Record model := mkModel { m_attributes : attrs; m_previous : attrs; m_changed : attrs }.

Definition attr_get (o : attrs) (k : jsstr) : option V := mjoin (obj_get o k).
Definition get (m : model) (attr : jsstr) : option V := attr_get (m_attributes m) attr.

(** One turn of the loop of [set], on [current], [this.changed] and [changes]. *)
Definition set_one (unset : bool) (prev : attrs) (given : attrs) (st : attrs * attrs * list jsstr) (attr : jsstr) : attrs * attrs * list jsstr :=
  let '(current, changed, changes) := st in
  let val := attr_get given attr in
  let changes := if bool_decide (attr_get current attr = val) then changes else changes ++ [attr] in
  let changed := if bool_decide (attr_get prev attr = val) then obj_delete changed attr else obj_set changed attr val in
  (if unset then obj_delete current attr else obj_set current attr val, changed, changes).

(** [set(attrs, {unset, silent})] and the events it triggers, for listeners that do not
    set the model again: [_changing] is false at the call and the loop on [_pending] turns
    once. *)
Definition set (unset silent : bool) (given : attrs) (m : model) : model * list jsstr :=
  let prev := m_attributes m in
  let '(current, changed, changes) := foldl (set_one unset prev given) (prev, [], []) (obj_keys given) in
  (mkModel current prev changed,
   if silent then [] else map (app (js "change:")) changes ++ match changes with [] => [] | _ => [js "change"] end).

Definition set_key (key : jsstr) (val : option V) : model -> model * list jsstr := set false false [(key, val)].
Definition unset (attr : jsstr) : model -> model * list jsstr := set true false [(attr, None)].
Definition clear (m : model) : model * list jsstr :=
  set true false (foldl (fun o key => obj_set o key None) [] (obj_keys (m_attributes m))) m.

(** [_.defaults({}, attrs, defaults)]: the attributes that are undefined take the default. *)
Definition defaults (given dflt : attrs) : attrs :=
  foldl (fun o k => match attr_get o k with Some _ => o | None => obj_set o k (attr_get dflt k) end)
    (foldl (fun o k => obj_set o k (attr_get given k)) [] (obj_keys given)) (obj_keys dflt).

(** The constructor. *)
Definition new_model (given dflt : attrs) : model :=
  let '(m, _) := set false false (defaults given dflt) (mkModel [] [] []) in mkModel (m_attributes m) (m_previous m) [].

Definition hasChanged (attr : option jsstr) (m : model) : bool :=
  match attr with
  | None => negb (bool_decide (m_changed m = []))
  | Some a => bool_decide (obj_get (m_changed m) a <> None)
  end.
Definition previous (attr : jsstr) (m : model) : option V := attr_get (m_previous m) attr.

(** [changedAttributes(diff)] outside a [set] *)
Definition changedAttributes (diff : attrs) (m : model) : attrs :=
  foldl (fun o a => let val := attr_get diff a in
    if bool_decide (attr_get (m_attributes m) a = val) then o else obj_set o a val) [] (obj_keys diff).

(** The answer of [fetch]: the attributes are set, then ["sync"] is triggered. *)
Definition fetched (resp : attrs) (m : model) : model * list jsstr :=
  let '(m', events) := set false false resp m in (m', events ++ [js "sync"]).

(** *** Lemmas *)

Lemma attr_get_set o k v j : attr_get (obj_set o k v) j = if decide (k = j) then v else attr_get o j.
Proof.
  unfold attr_get. destruct (decide (k = j)) as [->|Hne]; [by rewrite obj_get_set; destruct v|]. by rewrite obj_get_set_ne.
Qed.

Lemma attr_get_delete o k j : attr_get (obj_delete o k) j = if decide (k = j) then None else attr_get o j.
Proof.
  unfold attr_get. destruct (decide (k = j)) as [->|Hne]; [by rewrite obj_get_delete|]. by rewrite obj_get_delete_ne.
Qed.

(** The value that an attribute has after [set]. *)
Definition after (un : bool) (given cur : attrs) (k : jsstr) : option V :=
  if bool_decide (k ∈ obj_keys given) then (if un then None else attr_get given k) else attr_get cur k.

(** The keys of the given attributes that differ from the current ones, in their order. *)
Definition differing (given cur : attrs) : list jsstr :=
  List.filter (fun k => negb (bool_decide (attr_get cur k = attr_get given k))) (obj_keys given).

Lemma set_loop un prev given ks cur chd chs :
  NoDup ks -> (forall k, k ∈ ks -> attr_get cur k = attr_get prev k) ->
  let '(cur', chd', chs') := foldl (set_one un prev given) (cur, chd, chs) ks in
  (forall k, attr_get cur' k = if decide (k ∈ ks) then (if un then None else attr_get given k) else attr_get cur k) /\
  (forall k, obj_get chd' k = if decide (k ∈ ks) then
     (if bool_decide (attr_get prev k = attr_get given k) then None else Some (attr_get given k)) else obj_get chd k) /\
  chs' = chs ++ List.filter (fun k => negb (bool_decide (attr_get prev k = attr_get given k))) ks.
Proof.
  intros Hnd. revert cur chd chs. induction Hnd as [|a ks Ha _ IH]; intros cur chd chs Hp; cbn [foldl List.filter].
  { split_and!; [intros k..|by rewrite app_nil_r]; by rewrite decide_False by apply not_elem_of_nil. }
  unfold set_one at 2. rewrite (Hp a) by left.
  set (cur1 := if un then obj_delete cur a else obj_set cur a (attr_get given a)).
  set (chd1 := if bool_decide _ then obj_delete chd a else _). set (chs1 := if bool_decide _ then chs else _).
  assert (Hc1 : forall k, attr_get cur1 k = if decide (a = k) then (if un then None else attr_get given k) else attr_get cur k).
  { intros k. unfold cur1. destruct un; rewrite ?attr_get_delete, ?attr_get_set; by destruct (decide (a = k)) as [->|]. }
  specialize (IH cur1 chd1 chs1). destruct (foldl _ _ ks) as [[cur' chd'] chs'].
  destruct IH as (I1 & I2 & I3).
  { intros k Hk. rewrite Hc1, decide_False by (intros ->; done). apply Hp. by right. }
  split_and!.
  - intros k. rewrite I1, Hc1. destruct (decide (k ∈ ks)) as [Hk|Hk].
    + by rewrite decide_True by (by right).
    + destruct (decide (a = k)) as [->|Hne]; [by rewrite decide_True by left|].
      rewrite decide_False; [done|]. rewrite elem_of_cons. intros [?|?]; congruence.
  - intros k. rewrite I2. destruct (decide (k ∈ ks)) as [Hk|Hk]; [by rewrite decide_True by (by right)|].
    unfold chd1. destruct (decide (a = k)) as [->|Hne].
    + rewrite decide_True by left. destruct (bool_decide _); [by rewrite obj_get_delete|by rewrite obj_get_set].
    + rewrite decide_False by (rewrite elem_of_cons; intros [?|?]; congruence).
      destruct (bool_decide _); [by rewrite obj_get_delete_ne|by rewrite obj_get_set_ne].
  - rewrite I3. unfold chs1. destruct (bool_decide _); [done|]. by rewrite <- app_assoc.
Qed.

Lemma set_spec un silent given m :
  obj_wf given ->
  (forall k, get (set un silent given m).1 k = after un given (m_attributes m) k) /\
  (forall k, obj_get (m_changed (set un silent given m).1) k =
     if bool_decide (k ∈ differing given (m_attributes m)) then Some (attr_get given k) else None) /\
  m_previous (set un silent given m).1 = m_attributes m /\
  (set un silent given m).2 =
    (let d := differing given (m_attributes m) in
     if silent then [] else map (app (js "change:")) d ++ match d with [] => [] | _ => [js "change"] end).
Proof.
  intros Hwf. pose proof (set_loop un (m_attributes m) given (obj_keys given) (m_attributes m) [] [] (NoDup_enum_order _ Hwf)
    (fun _ _ => eq_refl)) as H.
  unfold set. destruct (foldl _ _ _) as [[cur chd] chs]. destruct H as (H1 & H2 & H3). cbn [fst snd m_previous m_changed].
  split_and!; [|intros k; rewrite H2|done|by rewrite H3].
  - intros k. unfold get. cbn [m_attributes]. rewrite H1. unfold after. by rewrite bool_decide_decide; destruct (decide _).
  - unfold differing. destruct (decide (k ∈ obj_keys given)) as [Hk|Hk].
    + destruct (bool_decide (attr_get _ k = _)) eqn:E.
      * rewrite bool_decide_eq_false_2; [done|]. rewrite list_elem_of_In, filter_In, E. by intros [_ ?].
      * rewrite bool_decide_eq_true_2; [done|]. rewrite list_elem_of_In, filter_In, E, <- list_elem_of_In. done.
    + rewrite bool_decide_eq_false_2; [done|]. rewrite list_elem_of_In, filter_In, <- list_elem_of_In. by intros [? _].
Qed.

Lemma differing_nil given cur : (forall k, k ∈ obj_keys given -> attr_get cur k = attr_get given k) -> differing given cur = [].
Proof.
  intros H. unfold differing. assert (Hs : forall k, k ∈ obj_keys given -> k ∈ obj_keys given) by done. revert Hs.
  generalize (obj_keys given) at 1 3. intros ks. induction ks as [|k ks IH]; intros Hs; [done|]. cbn [List.filter].
  rewrite bool_decide_eq_true_2 by (apply H, Hs; left). cbn [negb]. apply IH. intros j Hj. apply Hs. by right.
Qed.

(** A new model holds the attributes given, when it has no defaults. *)
Lemma copy_get (given : attrs) ks o k :
  attr_get (foldl (fun o k => obj_set o k (attr_get given k)) o ks) k = if bool_decide (k ∈ ks) then attr_get given k else attr_get o k.
Proof.
  revert o. induction ks as [|j ks IH]; intros o; [done|]. cbn [foldl]. rewrite IH, attr_get_set.
  destruct (decide (j = k)) as [->|Hne].
  - rewrite (bool_decide_eq_true_2 (k ∈ k :: ks)) by left. by destruct (bool_decide _).
  - rewrite (bool_decide_ext (k ∈ j :: ks) (k ∈ ks)); [done|]. rewrite elem_of_cons. split; [intros [?|?]; congruence|by right].
Qed.

Lemma copy_wf (given : attrs) ks o : obj_wf o -> obj_wf (foldl (fun o k => obj_set o k (attr_get given k)) o ks).
Proof. revert o. induction ks as [|j ks IH]; intros o Ho; [done|]. cbn [foldl]. by apply IH, obj_set_wf. Qed.

Lemma set_wf un silent given m : obj_wf (m_attributes m) -> obj_wf (m_attributes (set un silent given m).1).
Proof.
  intros H. unfold set. generalize (obj_keys given), (@nil (jsstr * option V)), (@nil jsstr). intros ks.
  assert (G : forall prev cur chd chs, obj_wf cur -> obj_wf (foldl (set_one un prev given) (cur, chd, chs) ks).1.1).
  { induction ks as [|k ks IH]; intros prev cur chd chs Hc; [done|]. cbn [foldl]. unfold set_one at 2. apply IH.
    destruct un; [by apply obj_delete_wf|by apply obj_set_wf]. }
  intros chd chs. specialize (G (m_attributes m) (m_attributes m) chd chs H).
  by destruct (foldl _ _ ks) as [[cur chd'] chs'].
Qed.

Lemma keys_missing (o : attrs) k : k ∉ obj_keys o -> attr_get o k = None.
Proof. rewrite elem_of_obj_keys. intros H. unfold attr_get. by destruct (obj_get o k); [destruct H|]. Qed.

Lemma new_model_spec given : obj_wf given ->
  obj_wf (m_attributes (new_model given [])) /\ forall k, get (new_model given []) k = attr_get given k.
Proof.
  intros Hwf. assert (Hd : obj_wf (defaults given [])) by apply copy_wf, NoDup_nil_2.
  assert (Hg : forall k, attr_get (defaults given []) k = attr_get given k).
  { intros k. unfold defaults. change (obj_keys []) with (@nil jsstr). cbn [foldl]. rewrite copy_get.
    destruct (bool_decide _) eqn:E; [done|]. apply bool_decide_eq_false in E. symmetry. by apply keys_missing. }
  unfold new_model. pose proof (set_spec false false (defaults given []) (mkModel [] [] []) Hd) as [H _].
  pose proof (set_wf false false (defaults given []) (mkModel [] [] []) (NoDup_nil_2)) as Hw.
  destruct (set _ _ _ _) as [m ev]. cbn [fst m_attributes] in *. split; [done|]. intros k.
  change (get m k = attr_get given k). rewrite H. unfold after. cbn [m_attributes].
  destruct (bool_decide _) eqn:E; [apply Hg|]. apply bool_decide_eq_false in E.
  rewrite <- Hg. symmetry. by apply keys_missing.
Qed.

(** Without a ["change"] no attribute has changed. *)
Lemma set_quiet given m :
  obj_wf given -> js "change" ∉ (set false false given m).2 -> forall k, get (set false false given m).1 k = get m k.
Proof.
  intros Hwf. destruct (set_spec false false given m Hwf) as (H1 & _ & _ & H4). rewrite H4. cbn zeta.
  intros Hn k. rewrite H1. unfold after. destruct (bool_decide (k ∈ obj_keys given)) eqn:Hk; [|done].
  apply bool_decide_eq_true in Hk. destruct (decide (get m k = attr_get given k)) as [|Hv]; [done|].
  destruct Hn. apply elem_of_app. right.
  assert (Hin : k ∈ differing given (m_attributes m)).
  { unfold differing. rewrite list_elem_of_In, filter_In, <- list_elem_of_In, negb_true_iff, bool_decide_eq_false. done. }
  destruct (differing _ _); [by apply not_elem_of_nil in Hin|]. left.
Qed.

(** C37: a model's attributes and its change events.  [set] gives every attribute named its value and keeps
    the others; it triggers ["change:"] with an attribute exactly for those whose value really differs, in the
    order of the object given, followed by ["change"] when there is one; [changed] holds these attributes with their
    new values and [previous] what they were; and to set the same attributes again triggers nothing. *)
Theorem set_fires_changes (given : attrs) m :
  obj_wf given ->
  let '(m', events) := set false false given m in
  (forall k, get m' k = if bool_decide (k ∈ obj_keys given) then attr_get given k else get m k) /\
  (forall k, previous k m' = get m k) /\
  (forall k, js "change:" ++ k ∈ events <-> k ∈ obj_keys given /\ get m k <> attr_get given k) /\
  (js "change" ∈ events <-> exists k, k ∈ obj_keys given /\ get m' k <> get m k) /\
  (forall k, hasChanged (Some k) m' = negb (bool_decide (get m' k = get m k))) /\
  (set false false given m').2 = [].
Proof.
  intros Hwf. destruct (set_spec false false given m Hwf) as (H1 & H2 & H3 & H4).
  destruct (set false false given m) as [m' events] eqn:E. cbn [fst snd] in *. unfold after in H1.
  assert (Hd : forall k, k ∈ differing given (m_attributes m) <-> k ∈ obj_keys given /\ get m k <> attr_get given k).
  { intros k. unfold differing. rewrite list_elem_of_In, filter_In, <- list_elem_of_In, negb_true_iff, bool_decide_eq_false. done. }
  assert (Hne : forall k l, js "change:" ++ l <> js "change" /\ (js "change:" ++ k = js "change:" ++ l -> k = l)).
  { intros k l. split; [discriminate|]. apply app_inv_head. }
  split_and!.
  - exact H1.
  - intros k. unfold previous. by rewrite H3.
  - intros k. rewrite <- Hd, H4. cbn zeta. rewrite elem_of_app, (list_elem_of_fmap (app (js "change:"))). split.
    + intros [(l & Hl & Hin)|Hin]; [by apply Hne in Hl as ->|].
      destruct (differing _ _); [by apply not_elem_of_nil in Hin|]. apply list_elem_of_singleton in Hin. by apply Hne in Hin.
    + intros Hk. left. by exists k.
  - rewrite H4. cbn zeta. rewrite elem_of_app, (list_elem_of_fmap (app (js "change:"))). split.
    + intros [(l & Hl & _)|Hin]; [symmetry in Hl; by apply Hne in Hl|].
      destruct (differing _ _) as [|k l] eqn:Ed; [by apply not_elem_of_nil in Hin|]. exists k.
      destruct (proj1 (Hd k)) as [Hk Hv]; [left|]. split; [done|]. rewrite H1, bool_decide_eq_true_2 by done. congruence.
    + intros (k & Hk & Hv). right. rewrite H1, bool_decide_eq_true_2 in Hv by done.
      assert (Hin : k ∈ differing given (m_attributes m)) by (apply Hd; done).
      destruct (differing _ _); [by apply not_elem_of_nil in Hin|]. left.
  - intros k. unfold hasChanged. rewrite H2, H1. destruct (bool_decide (k ∈ differing _ _)) eqn:Ek.
    + apply bool_decide_eq_true, Hd in Ek as [Hk Hv]. rewrite (bool_decide_eq_true_2 _ Hk).
      rewrite bool_decide_eq_true_2 by done. by rewrite bool_decide_eq_false_2 by congruence.
    + apply bool_decide_eq_false in Ek. rewrite Hd in Ek. rewrite bool_decide_eq_false_2 by (intros Hx; by apply Hx).
      destruct (bool_decide (k ∈ obj_keys given)) eqn:Hk; [|by rewrite bool_decide_eq_true_2].
      apply bool_decide_eq_true in Hk. rewrite bool_decide_eq_true_2; [done|].
      destruct (decide (get m k = attr_get given k)) as [|Hv]; [done|]. destruct Ek. done.
  - rewrite (proj2 (proj2 (proj2 (set_spec false false given m' Hwf)))). rewrite differing_nil; [done|].
    intros k Hk. fold (get m' k). by rewrite H1, bool_decide_eq_true_2.
Qed.

End Model.
Arguments model V : clear implicits.

(** The first answer of the server to a model with defaults. *)
Lemma set_fires_changes_witness :
  let m := new_model (V := Z) [] [(js "pattern", Some 1); (js "names", Some 0)] in
  (set false false [(js "pattern", Some 1); (js "names", Some 5)] m).2 = [js "change:names"; js "change"] /\
  (set false false [(js "pattern", Some 1); (js "names", Some 5)]
     (set false false [(js "pattern", Some 1); (js "names", Some 5)] m).1).2 = [].
Proof.
  intros m. split; [vm_compute; reflexivity|].
  pose proof (set_fires_changes [(js "pattern", Some 1); (js "names", Some 5)] m) as H.
  destruct (set false false _ m) as [m' ev]. apply H. apply (bool_decide_unpack _). vm_compute. exact I.
Defined.

End Model.
