(* ===== verification/Collection.v ===== *)
(** * Collections of models ([Backbone.Collection] of [files/backbone.js])

    A collection keeps its models in order and an index [_byId] of them by their
    [cid]s and their [id]s.  Models are shared by reference: they are named by
    their [cid], and [c_objs] holds what each one is.  A model whose id is [undefined] or [null] has none: it
    is indexed by its [cid] only.  Collections here have no
    comparator, as in the application, and models have no defaults and no
    [validate]; [add] is never switched off in the options.  The index is right for any calls
    with plain ids, except one: [set] given the same model without id twice, for which see [set_twice]. *)

From S2P Require Import Prelude JsString JsObject Backbone.

Local Open Scope Z_scope.

Module Collection.
Section Collection.

(** [id_key] is the property name of an id, and nothing for [null]. *)
Context {V : Type} `{!EqDecision V} (id_key : V -> option jsstr).

Abbreviation attrs := (list (jsstr * option V)).
Abbreviation model := (Model.model V).

Record collection := mkCollection {
  c_objs : list (jsstr * model);       (** every model made, by its [cid] *)
  c_models : list jsstr;
  c_length : nat;
  c_byId : list (jsstr * jsstr);
  c_next : nat }.                      (** the counter of [_.uniqueId] *)

Definition uniqueId (n : nat) : jsstr := js "c" ++ num_to_str (Z.of_nat n).

(** [model.id], and the property name of an id that is not [null] *)
Definition id_attr (c : collection) (cid : jsstr) : option V := m ← obj_get (c_objs c) cid; Model.get m (js "id").
Definition id_of (m : model) : option jsstr := v ← Model.get m (js "id"); id_key v.
Definition model_id (c : collection) (cid : jsstr) : option jsstr := m ← obj_get (c_objs c) cid; id_of m.

(** Any id as a property name *)
Definition prop_name (id : option V) : jsstr := from_option (fun v => default (js "null") (id_key v)) (js "undefined") id.

Definition set_objs (objs : list (jsstr * model)) (c : collection) : collection :=
  mkCollection objs (c_models c) (c_length c) (c_byId c) (c_next c).
Definition set_byId (byId : list (jsstr * jsstr)) (c : collection) : collection :=
  mkCollection (c_objs c) (c_models c) (c_length c) byId (c_next c).

(** [_reset] *)
Definition reset_state (c : collection) : collection := mkCollection (c_objs c) [] 0 [] (c_next c).
Definition empty_collection : collection := mkCollection [] [] 0 [] 0.

(** An element of the arrays given: a model, or the attributes of one. *)
Inductive arg := AModel (cid : jsstr) | AAttrs (given : attrs).

(** [get]: a string has neither [id] nor [cid], a model reads as ["[object Object]"]. *)
Definition or_else {A} (x y : option A) : option A := match x with Some _ => x | None => y end.
Definition get_id (c : collection) (k : jsstr) : option jsstr :=
  or_else (obj_get (c_byId c) k) (obj_get (c_byId c) (js "undefined")).
Definition get_model (c : collection) (cid : jsstr) : option jsstr :=
  or_else (obj_get (c_byId c) (js "[object Object]"))
    (or_else (obj_get (c_byId c) (prop_name (id_attr c cid))) (obj_get (c_byId c) cid)).
Definition get (c : collection) (a : arg) : option jsstr :=
  match a with
  | AModel cid => get_model c cid
  | AAttrs given => v ← Model.attr_get given (js "id"); k ← id_key v; get_id c k
  end.

(** The id that attributes give *)
Definition id_given (given : attrs) : option jsstr := v ← Model.attr_get given (js "id"); id_key v.

(** Events: the [cid] of the model that triggers it, or none for the collection, and the name. *)
Abbreviation event := (option jsstr * jsstr)%type.

(** [_prepareModel] of attributes *)
Definition prepareModel (a : arg) (c : collection) : jsstr * collection :=
  match a with
  | AModel cid => (cid, c)
  | AAttrs given =>
      let cid := uniqueId (c_next c) in
      (cid, mkCollection (obj_set (c_objs c) cid (Model.new_model given [])) (c_models c) (c_length c) (c_byId c) (S (c_next c)))
  end.

(** [_addReference]: the index. *)
Definition addReference (cid : jsstr) (c : collection) : collection :=
  let byId := obj_set (c_byId c) cid cid in
  set_byId (match model_id c cid with Some k => obj_set byId k cid | None => byId end) c.

(** [_onModelEvent] of ["change:id"]: the index follows. *)
Definition reindex (cid : jsstr) (previous : option V) (c : collection) : collection :=
  let byId := obj_delete (c_byId c) (prop_name previous) in
  set_byId (match model_id c cid with Some k => obj_set byId k cid | None => byId end) c.

(** [model.set(attrs)] of a model of the collection. *)
Definition set_on (silent : bool) (cid : jsstr) (given : attrs) (c : collection) : collection * list event :=
  match obj_get (c_objs c) cid with
  | Some m =>
      let '(m', events) := Model.set false silent given m in
      let c1 := set_objs (obj_set (c_objs c) cid m') c in
      (if bool_decide (js "change:id" ∈ events) then reindex cid (Model.get m (js "id")) c1 else c1, pair (Some cid) <$> events)
  | None => (c, [])
  end.

(** [models.splice(indexOf(model), 1)]; an index of -1 is the last place. *)
Definition splice_out (cid : jsstr) (l : list jsstr) : list jsstr :=
  match list_find (cid =.) l with Some (i, _) => delete i l | None => delete (length l - 1)%nat l end.

Definition remove1 (silent : bool) (st : collection * list event) (a : arg) : collection * list event :=
  let '(c, events) := st in
  match get c a with
  | Some cid =>
      (mkCollection (c_objs c) (splice_out cid (c_models c)) (c_length c - 1)
         (obj_delete (obj_delete (c_byId c) (prop_name (id_attr c cid))) cid) (c_next c),
       events ++ (if silent then [] else [(Some cid, js "remove")]))
  | None => (c, events)
  end.
Definition remove (silent : bool) (args : list arg) (c : collection) : collection * list event :=
  foldl (remove1 silent) (c, []) args.

Record options := mkOptions { o_merge : bool; o_remove : bool; o_at : option nat; o_silent : bool }.

(** The variables of the loop of [set]; [s_map] holds the keys of [modelMap]. *)
Record set_state := mkSet {
  s_coll : collection; s_toAdd : list jsstr; s_map : list jsstr; s_order : list jsstr; s_events : list event }.

Definition attributes_of (c : collection) (a : arg) : attrs :=
  match a with AModel cid => from_option Model.m_attributes [] (obj_get (c_objs c) cid) | AAttrs given => given end.

(** The end of a turn: the model takes its place in the order unless its id was seen. *)
Definition place (o : options) (cid : jsstr) (st : set_state) : set_state :=
  let name := prop_name (id_attr (s_coll st) cid) in
  let isNew := bool_decide (model_id (s_coll st) cid = None) in
  let order := if o_remove o && (isNew || negb (bool_decide (name ∈ s_map st))) then s_order st ++ [cid] else s_order st in
  mkSet (s_coll st) (s_toAdd st) (name :: s_map st) order (s_events st).

Definition set_turn (o : options) (st : set_state) (a : arg) : set_state :=
  let c := s_coll st in
  match get c a with
  | Some existing =>
      let map := if o_remove o then existing :: s_map st else s_map st in
      let '(c', events) := if o_merge o then set_on (o_silent o) existing (attributes_of c a) c else (c, []) in
      place o existing (mkSet c' (s_toAdd st) map (s_order st) (s_events st ++ events))
  | None =>
      let '(cid, c') := prepareModel a c in
      place o cid (mkSet (addReference cid c') (s_toAdd st ++ [cid]) (s_map st) (s_order st) (s_events st))
  end.

(** [models.splice(at + i, 0, toAdd[i])] for each. *)
Definition splice_in (at_ : nat) (toAdd l : list jsstr) : list jsstr := take at_ l ++ toAdd ++ drop at_ l.

Definition put_models (o : options) (toAdd order : list jsstr) (c : collection) : collection :=
  match toAdd, order with
  | [], [] => c
  | _, _ =>
      mkCollection (c_objs c)
        (match o_at o with
         | Some at_ => splice_in at_ toAdd (c_models c)
         | None => if o_remove o then order else c_models c ++ toAdd
         end)
        (c_length c + length toAdd) (c_byId c) (c_next c)
  end.

Definition set (o : options) (args : list arg) (c : collection) : collection * list event :=
  let st := foldl (set_turn o) (mkSet c [] [] [] []) args in
  let c1 := s_coll st in
  let toRemove := List.filter (fun cid => negb (bool_decide (cid ∈ s_map st))) (take (c_length c1) (c_models c1)) in
  let '(c2, removed) := if o_remove o then remove (o_silent o) (AModel <$> toRemove) c1 else (c1, []) in
  (put_models o (s_toAdd st) (s_order st) c2,
   s_events st ++ removed ++
   if o_silent o then []
   else ((fun cid => (Some cid, js "add")) <$> s_toAdd st) ++ match s_order st with [] => [] | _ => [(None, js "sort")] end).

Definition add (at_ : option nat) (silent : bool) : list arg -> collection -> collection * list event :=
  set (mkOptions false false at_ silent).
Definition update : list arg -> collection -> collection * list event := set (mkOptions true true None false).

Definition reset (args : list arg) (c : collection) : collection * list event :=
  let '(c', _) := add None true args (reset_state c) in (c', [(None, js "reset")]).

Definition push (a : arg) (c : collection) : collection * list event := add (Some (c_length c)) false [a] c.
Definition unshift (a : arg) (c : collection) : collection * list event := add (Some 0%nat) false [a] c.
Definition at_index (c : collection) (i : nat) : option jsstr := c_models c !! i.
Definition pop (c : collection) : collection * list event :=
  match at_index c (c_length c - 1) with Some cid => remove false [AModel cid] c | None => (c, []) end.
Definition shift (c : collection) : collection * list event :=
  match at_index c 0 with Some cid => remove false [AModel cid] c | None => (c, []) end.

(** [create], up to the request that saves the model. *)
Definition create (given : attrs) (c : collection) : collection * list event :=
  let '(cid, c') := prepareModel (AAttrs given) c in add None false [AModel cid] c'.

Definition matches (given : attrs) (c : collection) (cid : jsstr) : bool :=
  match obj_get (c_objs c) cid with
  | Some m => forallb (fun key => bool_decide (Model.attr_get given key = Model.get m key)) (obj_keys given)
  | None => false
  end.
Definition where_ (given : attrs) (c : collection) : list jsstr :=
  match given with [] => [] | _ => List.filter (matches given c) (c_models c) end.
Definition findWhere (given : attrs) (c : collection) : option jsstr :=
  match given with [] => None | _ => List.find (matches given c) (c_models c) end.
Definition pluck (attr : jsstr) (c : collection) : list (option V) :=
  (fun cid => m ← obj_get (c_objs c) cid; Model.get m attr) <$> c_models c.

(** ** The index *)

(** Ids that are not taken for a [cid], for [undefined], for [null] or for a name that objects inherit. *)
Definition plain_id (k : jsstr) : Prop :=
  (forall n, k <> uniqueId n) /\ (k <> js "undefined" /\ k <> js "null") /\ k <> js "[object Object]" /\ ~ inherited k.

(** The index is that of the models [tied] to the collection. *)
Record index_ok (tied : list jsstr) (c : collection) : Prop := {
  ix_nodup : NoDup tied;
  ix_obj : forall cid, cid ∈ tied -> is_Some (obj_get (c_objs c) cid);
  ix_iff : forall k cid, obj_get (c_byId c) k = Some cid <-> cid ∈ tied /\ (k = cid \/ model_id c cid = Some k);
  ix_cid : forall cid m, obj_get (c_objs c) cid = Some m -> exists n, (n < c_next c)%nat /\ cid = uniqueId n;
  ix_plain : forall cid k, model_id c cid = Some k -> plain_id k;
  ix_wf : forall cid m, obj_get (c_objs c) cid = Some m -> obj_wf (Model.m_attributes m) }.

(** A property name is that of the id, or one no plain id has. *)
Lemma name_cases (i : option V) :
  i ≫= id_key = Some (prop_name i) \/ (i ≫= id_key = None /\ (prop_name i = js "undefined" \/ prop_name i = js "null")).
Proof.
  destruct i as [v|]; unfold prop_name; cbn [mbind option_bind from_option]; [|right; split; [done|by left]].
  destruct (id_key v); cbn [default from_option]; [by left|right; split; [done|by right]].
Qed.

Lemma model_id_attr c cid : model_id c cid = id_attr c cid ≫= id_key.
Proof. unfold model_id, id_attr, id_of. by destruct (obj_get (c_objs c) cid). Qed.

Lemma prop_name_cases c cid :
  model_id c cid = Some (prop_name (id_attr c cid)) \/
  (model_id c cid = None /\ (prop_name (id_attr c cid) = js "undefined" \/ prop_name (id_attr c cid) = js "null")).
Proof. rewrite model_id_attr. apply name_cases. Qed.

Lemma uniqueId_inj n m : uniqueId n = uniqueId m -> n = m.
Proof. intros H%app_inv_head. apply num_to_str_inj in H; lia. Qed.

Section Index.
Context (tied : list jsstr) (c : collection) (H : index_ok tied c).

Lemma tied_cid cid : cid ∈ tied -> exists n, (n < c_next c)%nat /\ cid = uniqueId n.
Proof. intros Hc. destruct (ix_obj _ _ H cid Hc) as [m Hm]. by apply (ix_cid _ _ H cid m). Qed.

(** Names that are neither a [cid] nor a plain id are not in the index. *)
Lemma not_indexed k : (forall n, k <> uniqueId n) -> ~ plain_id k -> obj_get (c_byId c) k = None.
Proof.
  intros Hu Hp. destruct (obj_get (c_byId c) k) as [cid|] eqn:E; [|done].
  apply (ix_iff _ _ H) in E as [Hc [->|Hi]]; [by destruct (tied_cid cid Hc) as (n & _ & ?); destruct (Hu n)|].
  by destruct Hp; apply (ix_plain _ _ H cid).
Qed.

Lemma undefined_not_indexed : obj_get (c_byId c) (js "undefined") = None.
Proof. apply not_indexed; [intros n; discriminate|by intros (_ & [Hu _] & _)]. Qed.

Lemma null_not_indexed : obj_get (c_byId c) (js "null") = None.
Proof. apply not_indexed; [intros n; discriminate|by intros (_ & [_ Hu] & _)]. Qed.

(** The name of an id of a model that has none is not in the index. *)
Lemma no_name_not_indexed (i : option V) : i ≫= id_key = None -> obj_get (c_byId c) (prop_name i) = None.
Proof.
  intros Hn. destruct (name_cases i) as [E|(_ & [->| ->])]; [congruence|apply undefined_not_indexed|apply null_not_indexed].
Qed.
Lemma no_id_not_indexed cid : model_id c cid = None -> obj_get (c_byId c) (prop_name (id_attr c cid)) = None.
Proof. rewrite model_id_attr. apply no_name_not_indexed. Qed.

Lemma object_not_indexed : obj_get (c_byId c) (js "[object Object]") = None.
Proof. apply not_indexed; [intros n; discriminate|by intros (_ & _ & Hu & _)]. Qed.

(** An id names at most one model. *)
Lemma id_unique k c1 c2 : c1 ∈ tied -> c2 ∈ tied -> model_id c c1 = Some k -> model_id c c2 = Some k -> c1 = c2.
Proof.
  intros H1 H2 E1 E2. assert (G1 : obj_get (c_byId c) k = Some c1) by (apply (ix_iff _ _ H); eauto).
  assert (G2 : obj_get (c_byId c) k = Some c2) by (apply (ix_iff _ _ H); eauto). congruence.
Qed.

Lemma get_id_iff k cid : plain_id k -> get_id c k = Some cid <-> cid ∈ tied /\ model_id c cid = Some k.
Proof.
  intros Hp. unfold get_id. rewrite undefined_not_indexed.
  assert (E : or_else (obj_get (c_byId c) k) None = obj_get (c_byId c) k) by (by destruct (obj_get _ k)). rewrite E.
  rewrite (ix_iff _ _ H). split; [|by intros [??]; eauto]. intros [Hc [->|Hi]]; [|done].
  destruct (tied_cid cid Hc) as (n & _ & ->). by destruct (proj1 Hp n).
Qed.

(** A [cid] names its own model only. *)
Lemma byId_cid m cid : is_Some (obj_get (c_objs c) m) -> obj_get (c_byId c) m = Some cid <-> cid ∈ tied /\ cid = m.
Proof.
  intros [o Ho]. rewrite (ix_iff _ _ H). split; [|by intros [? ->]; eauto]. intros [Hc [->|Hi]]; [done|]. exfalso.
  destruct (ix_cid _ _ H m o Ho) as (n & _ & ->). by destruct (proj1 (ix_plain _ _ H _ _ Hi) n).
Qed.

Lemma byId_id k cid : plain_id k -> obj_get (c_byId c) k = Some cid <-> cid ∈ tied /\ model_id c cid = Some k.
Proof.
  intros Hp. rewrite (ix_iff _ _ H). split; [|by intros [??]; eauto]. intros [Hc [->|Hi]]; [|done].
  destruct (tied_cid cid Hc) as (n & _ & ->). by destruct (proj1 Hp n).
Qed.

(** The models an element of the arrays stands for: with its id, or itself. *)
Definition stands_for (a : arg) (cid : jsstr) : Prop :=
  match a with
  | AModel m => cid = m \/ exists k, model_id c m = Some k /\ model_id c cid = Some k
  | AAttrs given => exists k, id_given given = Some k /\ model_id c cid = Some k
  end.

Definition plain_arg (a : arg) : Prop :=
  match a with
  | AModel m => is_Some (obj_get (c_objs c) m)
  | AAttrs given => obj_wf given /\ forall k, id_given given = Some k -> plain_id k
  end.

Lemma get_Some a cid : plain_arg a -> get c a = Some cid -> cid ∈ tied /\ stands_for a cid.
Proof.
  destruct a as [m|given]; cbn [get stands_for plain_arg].
  - intros Hm. unfold get_model. rewrite object_not_indexed. cbn [or_else].
    destruct (obj_get (c_byId c) (prop_name (id_attr c m))) as [c'|] eqn:E; cbn [or_else].
    + destruct (prop_name_cases c m) as [Em|[Em _]]; [|by rewrite no_id_not_indexed in E].
      intros [= ->]. apply byId_id in E as [??]; [|by apply (ix_plain _ _ H m)]. eauto 6.
    + intros [? ->]%byId_cid; [|done]. by split; [|left].
  - intros [_ Hp]. unfold id_given in *. destruct (Model.attr_get given _) as [v|]; cbn [mbind option_bind] in *; [|done].
    destruct (id_key v) as [k|]; cbn [mbind option_bind]; [|done]. intros [??]%get_id_iff; [|by apply Hp]. eauto.
Qed.

Lemma get_None a : plain_arg a -> get c a = None -> forall cid, cid ∈ tied -> ~ stands_for a cid.
Proof.
  destruct a as [m|given]; cbn [get stands_for plain_arg].
  - intros Hm. unfold get_model. rewrite object_not_indexed. cbn [or_else]. intros Hg cid Hc [->|(k & E1 & E2)].
    + assert (X : obj_get (c_byId c) m = Some m) by (by apply byId_cid). rewrite X in Hg. by destruct (obj_get _ (prop_name _)).
    + assert (X : obj_get (c_byId c) k = Some cid) by (apply byId_id; [by apply (ix_plain _ _ H m)|done]).
      destruct (prop_name_cases c m) as [E|[E _]]; rewrite E1 in E; [|done]. injection E as ->. by rewrite X in Hg.
  - intros [_ Hp] Hg cid Hc (k & Ek & Ei). assert (X : get_id c k = Some cid) by (apply get_id_iff; eauto).
    unfold id_given in Ek. destruct (Model.attr_get given _) as [v|]; cbn [mbind option_bind] in *; [|done]. rewrite Ek in Hg. cbn [mbind option_bind] in Hg. by rewrite X in Hg.
Qed.

End Index.

(** Only what the index answers matters. *)
Lemma index_ext tied c c' :
  c_objs c' = c_objs c -> c_next c' = c_next c -> (forall k, obj_get (c_byId c') k = obj_get (c_byId c) k) ->
  index_ok tied c -> index_ok tied c'.
Proof.
  intros E1 E2 E3 []. constructor; unfold model_id in *; rewrite ?E1, ?E2; try done.
  intros k cid. by rewrite E3.
Qed.

Lemma index_perm tied tied' c : tied ≡ₚ tied' -> index_ok tied c -> index_ok tied' c.
Proof.
  intros Hp []. constructor; try done; [by rewrite <- Hp|intros cid; rewrite <- Hp; apply ix_obj0|].
  intros k cid. rewrite <- Hp. apply ix_iff0.
Qed.

Lemma index_add tied c cid :
  index_ok tied c -> is_Some (obj_get (c_objs c) cid) -> cid ∉ tied ->
  (forall k c', model_id c cid = Some k -> c' ∈ tied -> model_id c c' <> Some k) ->
  index_ok (tied ++ [cid]) (addReference cid c).
Proof.
  intros H Ho Hn Hid. assert (Hcid : forall k, model_id c k <> Some cid).
  { intros k Hk. destruct Ho as [o Ho]. destruct (ix_cid _ _ H cid o Ho) as (n & _ & ->). by destruct (proj1 (ix_plain _ _ H _ _ Hk) n). }
  constructor; unfold addReference, set_byId; cbn [c_objs c_byId c_next];
    [|intros c' [?| ->%list_elem_of_singleton]%elem_of_app; [by apply (ix_obj _ _ H)|done]| |apply H|apply H|apply H].
  - apply NoDup_app. split; [apply H|]. split; [|apply NoDup_singleton]. by intros x Hx ->%list_elem_of_singleton.
  - intros k c'. change (model_id (mkCollection _ _ _ _ _) c') with (model_id c c'). rewrite elem_of_app, list_elem_of_singleton.
    assert (G : obj_get (match model_id c cid with Some k0 => obj_set (obj_set (c_byId c) cid cid) k0 cid | None => obj_set (c_byId c) cid cid end) k =
      if decide (k = cid \/ model_id c cid = Some k) then Some cid else obj_get (c_byId c) k).
    { destruct (model_id c cid) as [k0|] eqn:Ek.
      - destruct (decide (k0 = k)) as [->|Hk]; [by rewrite obj_get_set, decide_True by (by right)|].
        rewrite obj_get_set_ne by done. destruct (decide (cid = k)) as [->|Hc]; [by rewrite obj_get_set, decide_True by (by left)|].
        rewrite obj_get_set_ne by done. rewrite decide_False; [done|]. intros [->|[= ->]]; done.
      - destruct (decide (cid = k)) as [->|Hc]; [by rewrite obj_get_set, decide_True by (by left)|].
        rewrite obj_get_set_ne by done. rewrite decide_False; [done|]. intros [->|?]; done. }
    rewrite G. destruct (decide (k = cid \/ model_id c cid = Some k)) as [Hk|Hk].
    + split; [intros [= <-]; eauto|]. intros [[Hc'| ->] Hor]; [|done]. exfalso.
      destruct Hk as [->|Hk]; [destruct Hor as [->|Hor]; [done|by destruct (Hcid c')]|].
      destruct Hor as [->|Hor]; [|by destruct (Hid k c')].
      destruct (tied_cid _ _ H c' Hc') as (n & _ & ->). by destruct (proj1 (ix_plain _ _ H _ _ Hk) n).
    + rewrite (ix_iff _ _ H). split; [by intros [??]; eauto|]. intros [[?| ->] ?]; [done|]. tauto.
Qed.

Lemma index_remove tied c cid :
  index_ok tied c -> cid ∈ tied ->
  index_ok (List.filter (fun x => negb (bool_decide (x = cid))) tied)
    (set_byId (obj_delete (obj_delete (c_byId c) (prop_name (id_attr c cid))) cid) c).
Proof.
  intros H Hc. assert (Hin : forall x, x ∈ List.filter (fun x => negb (bool_decide (x = cid))) tied <-> x ∈ tied /\ x <> cid).
  { intros x. by rewrite list_elem_of_In, filter_In, <- list_elem_of_In, negb_true_iff, bool_decide_eq_false. }
  constructor; cbn [set_byId c_objs c_byId c_next]; [|intros x [Hx _]%Hin; by apply (ix_obj _ _ H)| |apply H|apply H|apply H].
  - apply base.NoDup_ListNoDup, List.NoDup_filter, base.NoDup_ListNoDup, H.
  - intros k x. change (model_id (mkCollection _ _ _ _ _) x) with (model_id c x). rewrite Hin.
    destruct (decide (cid = k)) as [->|Hk].
    { rewrite obj_get_delete. split; [done|]. intros [[Hx Hne] [->|Hi]]; [done|].
      destruct (tied_cid _ _ H k Hc) as (n & _ & ->). by destruct (proj1 (ix_plain _ _ H _ _ Hi) n). }
    rewrite obj_get_delete_ne by done. destruct (decide (prop_name (id_attr c cid) = k)) as [<-|Hp].
    + rewrite obj_get_delete. split; [done|]. intros [[Hx Hne] Hor]. exfalso.
      assert (G : obj_get (c_byId c) (prop_name (id_attr c cid)) = Some x) by (apply (ix_iff _ _ H); done).
      destruct (prop_name_cases c cid) as [Ek|[Ek _]]; [|by rewrite (no_id_not_indexed _ _ H) in G].
      apply (byId_id _ _ H) in G as [_ Hi]; [|by apply (ix_plain _ _ H cid)]. apply Hne. by eapply (id_unique _ _ H).
    + rewrite obj_get_delete_ne by done. rewrite (ix_iff _ _ H). split; [|tauto]. intros [Hx Hor]. split; [|done]. split; [done|].
      intros ->. destruct Hor as [?|Hi]; [congruence|]. apply Hp. destruct (prop_name_cases c cid) as [E|[E _]]; congruence.
Qed.

(** A model set to attributes with the same id. *)
Lemma index_set_objs tied c cid m m' :
  index_ok tied c -> obj_get (c_objs c) cid = Some m -> id_of m' = id_of m -> obj_wf (Model.m_attributes m') ->
  index_ok tied (set_objs (obj_set (c_objs c) cid m') c) /\
  forall x, model_id (set_objs (obj_set (c_objs c) cid m') c) x = model_id c x.
Proof.
  intros H Hm Hid Hw. assert (Hx : forall x, model_id (set_objs (obj_set (c_objs c) cid m') c) x = model_id c x).
  { intros x. unfold model_id. cbn [set_objs c_objs]. destruct (decide (cid = x)) as [<-|Hne].
    - rewrite obj_get_set, Hm. exact Hid.
    - by rewrite obj_get_set_ne. }
  split; [|done]. constructor; cbn [set_objs c_objs c_byId c_next].
  - apply H.
  - intros x Hin. destruct (decide (cid = x)) as [<-|Hne]; [by rewrite obj_get_set; eauto|]. rewrite obj_get_set_ne by done. by apply (ix_obj _ _ H).
  - intros k x. fold (set_objs (obj_set (c_objs c) cid m') c). rewrite Hx. apply H.
  - intros x o. destruct (decide (cid = x)) as [<-|Hne]; [intros _; by apply (ix_cid _ _ H cid m)|]. rewrite obj_get_set_ne by done. apply H.
  - intros x k. fold (set_objs (obj_set (c_objs c) cid m') c). rewrite Hx. apply H.
  - intros x o. destruct (decide (cid = x)) as [<-|Hne]; [rewrite obj_get_set; by intros [= <-]|]. rewrite obj_get_set_ne by done. apply H.
Qed.

Lemma index_reindex tied c cid previous :
  index_ok tied c -> cid ∈ tied -> previous ≫= id_key = model_id c cid -> index_ok tied (reindex cid previous c).
Proof.
  intros H Hc Hpr. apply (index_ext tied c); [done..| |done]. intros j. unfold reindex.
  destruct (model_id c cid) as [k|] eqn:Hk; cbn [set_byId c_byId].
  - destruct (name_cases previous) as [E|[E _]]; [|congruence]. assert (prop_name previous = k) as -> by congruence.
    destruct (decide (k = j)) as [<-|Hne].
    + rewrite obj_get_set. symmetry. apply (ix_iff _ _ H). eauto.
    + by rewrite obj_get_set_ne, obj_get_delete_ne.
  - destruct (decide (prop_name previous = j)) as [<-|Hne]; [|by rewrite obj_get_delete_ne].
    by rewrite obj_get_delete, (no_name_not_indexed _ _ H).
Qed.

(** What stays the same about the models while a collection is updated. *)
Definition same_ids (c c' : collection) : Prop :=
  forall x, is_Some (obj_get (c_objs c) x) -> is_Some (obj_get (c_objs c') x) /\ model_id c' x = model_id c x.

Lemma same_ids_refl c : same_ids c c.
Proof. by intros x Hx. Qed.
Lemma same_ids_trans c c1 c2 : same_ids c c1 -> same_ids c1 c2 -> same_ids c c2.
Proof. intros H1 H2 x [Hx <-]%H1. by apply H2. Qed.

Lemma given_id tied c a cid :
  index_ok tied c -> plain_arg c a -> stands_for c a cid -> id_given (attributes_of c a) = model_id c cid.
Proof.
  destruct a as [m|given]; cbn [plain_arg stands_for attributes_of].
  - intros H [o Ho] Hs. rewrite Ho. cbn [from_option].
    assert (E : model_id c m = id_given (Model.m_attributes o)) by (unfold model_id; by rewrite Ho).
    rewrite <- E. destruct Hs as [->|(k & -> & ->)]; done.
  - intros _ _ (v & -> & ->). done.
Qed.

Lemma set_on_ok tied c a cid silent :
  index_ok tied c -> plain_arg c a -> cid ∈ tied -> stands_for c a cid ->
  let c' := (set_on silent cid (attributes_of c a) c).1 in
  index_ok tied c' /\ same_ids c c' /\ c_models c' = c_models c /\ c_length c' = c_length c.
Proof.
  intros H Ha Hc Hs c'. pose proof (given_id _ _ _ _ H Ha Hs) as Hgid.
  assert (Hwf : obj_wf (attributes_of c a)).
  { destruct a as [m|given]; cbn [plain_arg attributes_of] in *; [|apply Ha]. destruct Ha as [o Ho]. rewrite Ho. by apply (ix_wf _ _ H m). }
  destruct (ix_obj _ _ H cid Hc) as [m Hm]. unfold c', set_on. rewrite Hm. clear c'.
  pose proof (Model.set_spec false silent (attributes_of c a) m Hwf) as [Hget _].
  pose proof (Model.set_wf false silent (attributes_of c a) m (ix_wf _ _ H cid m Hm)) as Hw.
  destruct (Model.set _ _ _ m) as [m' events]. cbn [fst] in *.
  assert (Em : model_id c cid = id_of m) by (unfold model_id; by rewrite Hm).
  assert (Hid : id_of m' = id_of m).
  { unfold id_of at 1. rewrite Hget. unfold Model.after. unfold id_given in Hgid. destruct (bool_decide _); [congruence|done]. }
  destruct (index_set_objs tied c cid m m' H Hm Hid Hw) as [H1 Hsame]. set (c1 := set_objs _ c) in *.
  assert (S1 : same_ids c c1).
  { intros x Hx. split; [|apply Hsame]. unfold c1. cbn. destruct (decide (cid = x)) as [<-|]; [by rewrite obj_get_set; eauto|]. by rewrite obj_get_set_ne. }
  destruct (bool_decide _); [|done]. split; [|done]. apply index_reindex; [done..|]. by rewrite Hsame, Em.
Qed.

(** A model without an id is given one that no other model of the collection has. *)
Lemma index_names tied c cid m m' k :
  index_ok tied c -> cid ∈ tied -> obj_get (c_objs c) cid = Some m -> id_of m = None -> id_of m' = Some k ->
  plain_id k -> (forall x, x ∈ tied -> model_id c x <> Some k) -> obj_wf (Model.m_attributes m') ->
  let c' := reindex cid (Model.get m (js "id")) (set_objs (obj_set (c_objs c) cid m') c) in index_ok tied c' /\ model_id c' cid = Some k.
Proof.
  intros H Hc Hm Hid Hk Hp Hf Hw c'.
  assert (Hx : forall x, model_id c' x = if decide (cid = x) then Some k else model_id c x).
  { intros x. unfold model_id. cbn. destruct (decide (cid = x)) as [<-|Hne]; [by rewrite obj_get_set|by rewrite obj_get_set_ne]. }
  assert (Hc0 : model_id c cid = None) by (unfold model_id; by rewrite Hm).
  assert (Hb : forall j, obj_get (c_byId c') j = if decide (k = j) then Some cid else obj_get (c_byId c) j).
  { intros j. unfold c', reindex. fold c'. change (model_id _ cid) with (model_id c' cid). rewrite Hx, decide_True by done.
    cbn [set_byId set_objs c_byId]. destruct (decide (k = j)) as [<-|Hne]; [by rewrite obj_get_set|].
    rewrite obj_get_set_ne by done. destruct (decide (prop_name (Model.get m (js "id")) = j)) as [<-|Hu]; [|by rewrite obj_get_delete_ne].
    by rewrite obj_get_delete, (no_name_not_indexed _ _ H). }
  assert (Ho : c_objs c' = obj_set (c_objs c) cid m') by done.
  split; [|by rewrite Hx, decide_True]. constructor.
  - apply H.
  - intros x Hin. rewrite Ho. destruct (decide (cid = x)) as [<-|Hne]; [by rewrite obj_get_set; eauto|]. rewrite obj_get_set_ne by done. by apply (ix_obj _ _ H).
  - intros j x. rewrite Hb, Hx. destruct (decide (k = j)) as [<-|Hne].
    + split; [intros [= <-]; rewrite decide_True; eauto|]. intros [Ht [<-|Hi]].
      * destruct (tied_cid _ _ H k Ht) as (n & _ & E). by destruct (proj1 Hp n).
      * destruct (decide (cid = x)) as [->|Hn]; [done|]. by destruct (Hf x Ht).
    + rewrite (ix_iff _ _ H). destruct (decide (cid = x)) as [<-|Hn]; [|done]. rewrite Hc0. split; intros [? [?|?]]; (split; [done|]); [by left|done|by left|congruence].
  - intros x o. rewrite Ho. destruct (decide (cid = x)) as [<-|Hne]; [intros _; by apply (ix_cid _ _ H cid m)|]. rewrite obj_get_set_ne by done. apply H.
  - intros x j. rewrite Hx. destruct (decide (cid = x)); [by intros [= <-]|apply H].
  - intros x o. rewrite Ho. destruct (decide (cid = x)) as [<-|Hne]; [rewrite obj_get_set; by intros [= <-]|]. rewrite obj_get_set_ne by done. apply H.
Qed.

Lemma set_on_names tied c cid given k :
  index_ok tied c -> cid ∈ tied -> model_id c cid = None -> obj_wf given -> id_given given = Some k ->
  plain_id k -> (forall x, x ∈ tied -> model_id c x <> Some k) ->
  let c' := (set_on false cid given c).1 in
  index_ok tied c' /\ model_id c' cid = Some k /\ c_models c' = c_models c /\ c_length c' = c_length c /\
  exists m, obj_get (c_objs c) cid = Some m /\ obj_get (c_objs c') cid = Some (Model.set false false given m).1.
Proof.
  intros H Hc Hn Hwf Hv Hp Hf. cbv zeta. destruct (ix_obj _ _ H cid Hc) as [m Hm].
  assert (Hid : id_of m = None) by (unfold model_id in Hn; by rewrite Hm in Hn).
  destruct (Model.set_spec false false given m Hwf) as (Hget & _ & _ & Hev). cbv zeta in Hev.
  pose proof (Model.set_wf false false given m (ix_wf _ _ H cid m Hm)) as Hw.
  assert (Hkey : js "id" ∈ obj_keys given) by (apply elem_of_obj_keys; unfold id_given, Model.attr_get in Hv; by destruct (obj_get given _)).
  unfold set_on. rewrite Hm. destruct (Model.set false false given m) as [m' events] eqn:Es. cbn [fst snd] in *.
  assert (Hid' : id_of m' = Some k).
  { unfold id_of. rewrite Hget. unfold Model.after. by rewrite bool_decide_eq_true_2. }
  rewrite bool_decide_eq_true_2.
  - destruct (index_names tied c cid m m' k) as [H1 H2]; [done..|]. split_and!; [exact H1|exact H2|done|done|].
    exists m. split; [done|]. rewrite Es. apply obj_get_set.
  - rewrite Hev. apply elem_of_app. left. apply list_elem_of_In, in_map_iff. exists (js "id"). split; [done|].
    apply filter_In. split; [by apply list_elem_of_In|]. apply negb_true_iff, bool_decide_eq_false. intros E.
    unfold id_of, Model.get in Hid. unfold id_given in Hv. congruence.
Qed.

Lemma index_prepare tied c given :
  index_ok tied c -> obj_wf given -> (forall k, id_given given = Some k -> plain_id k) ->
  let cid := uniqueId (c_next c) in let c' := (prepareModel (AAttrs given) c).2 in
  index_ok tied c' /\ (cid ∉ tied) /\ is_Some (obj_get (c_objs c') cid) /\
  model_id c' cid = id_given given /\ forall x, x <> cid -> obj_get (c_objs c') x = obj_get (c_objs c) x.
Proof.
  intros H Hw Hp cid c'. destruct (Model.new_model_spec given Hw) as [Hw' Hg].
  assert (Hne : forall x, x <> cid -> obj_get (c_objs c') x = obj_get (c_objs c) x) by (intros x Hx; cbn; by rewrite obj_get_set_ne).
  assert (Hnew : obj_get (c_objs c') cid = Some (Model.new_model given [])) by (cbn; by rewrite obj_get_set).
  assert (Hid : model_id c' cid = id_given given) by (unfold model_id; rewrite Hnew; cbn; unfold id_of; by rewrite Hg).
  assert (Hold : forall x m, obj_get (c_objs c) x = Some m -> x <> cid).
  { intros x m Hx ->. destruct (ix_cid _ _ H cid m Hx) as (n & Hn & ?%uniqueId_inj). lia. }
  assert (Ht : forall x, x ∈ tied -> x <> cid) by (intros x Hx; destruct (ix_obj _ _ H x Hx); eauto).
  assert (Hmid : forall x, x <> cid -> model_id c' x = model_id c x) by (intros x Hx; unfold model_id; by rewrite Hne).
  split; [|split; [by intros Hx%Ht|split; [eauto|done]]]. constructor.
  - apply H.
  - intros x Hx. rewrite Hne by auto. by apply (ix_obj _ _ H).
  - intros k x. change (c_byId c') with (c_byId c). rewrite (ix_iff _ _ H). split; intros [Hx ?]; by rewrite Hmid in * by auto.
  - intros x m. change (c_next c') with (S (c_next c)). destruct (decide (x = cid)) as [->|Hx]; [intros _; exists (c_next c); split; [lia|done]|].
    rewrite Hne by done. intros (n & Hn & ->)%(ix_cid _ _ H). exists n. split; [lia|done].
  - intros x k. destruct (decide (x = cid)) as [->|Hx]; [|rewrite Hmid by done; apply H].
    rewrite Hid. apply Hp.
  - intros x m. destruct (decide (x = cid)) as [->|Hx]; [rewrite Hnew; by intros [= <-]|]. rewrite Hne by done. apply H.
Qed.
(** ** Removing models *)

Lemma splice_out_filter cid l : NoDup l -> cid ∈ l -> splice_out cid l = List.filter (fun x => negb (bool_decide (x = cid))) l.
Proof.
  intros Hnd Hin. unfold splice_out. assert (Hkeep : forall l, cid ∉ l -> List.filter (fun x => negb (bool_decide (x = cid))) l = l).
  { clear. intros l. induction l as [|x l IH]; [done|]. intros [Hx Hl]%not_elem_of_cons. cbn. rewrite bool_decide_eq_false_2 by done.
    cbn. by rewrite IH. }
  induction Hnd as [|x l Hx Hnd IH]; [by apply not_elem_of_nil in Hin|]. cbn [list_find List.filter].
  destruct (decide (cid = x)) as [<-|Hne].
  - rewrite bool_decide_eq_true_2 by done. cbn. by rewrite Hkeep.
  - rewrite bool_decide_eq_false_2 by done. cbn [negb]. apply elem_of_cons in Hin as [|Hin]; [done|]. rewrite <- IH by done.
    destruct (list_find (cid =.) l) as [[i y]|] eqn:E; cbn; [done|]. apply list_find_None in E. rewrite Forall_forall in E. by destruct (E cid Hin).
Qed.

Definition without (cids l : list jsstr) : list jsstr := List.filter (fun x => negb (bool_decide (x ∈ cids))) l.

Lemma elem_of_without cids l x : x ∈ without cids l <-> x ∈ l /\ x ∉ cids.
Proof. unfold without. by rewrite list_elem_of_In, filter_In, <- list_elem_of_In, negb_true_iff, bool_decide_eq_false. Qed.

Lemma without_last l x : x ∉ l -> without [x] (l ++ [x]) = l.
Proof.
  intros Hx. unfold without. rewrite List.filter_app. cbn [List.filter]. rewrite (bool_decide_eq_true_2 (x ∈ [x])) by left. cbn [negb].
  rewrite app_nil_r. induction l as [|y l IH]; [done|]. apply not_elem_of_cons in Hx as [Hne Hx]. cbn [List.filter].
  rewrite bool_decide_eq_false_2 by (rewrite list_elem_of_singleton; congruence). cbn [negb]. by rewrite IH.
Qed.

Lemma NoDup_without cids l : NoDup l -> NoDup (without cids l).
Proof. intros H. apply base.NoDup_ListNoDup, List.NoDup_filter, base.NoDup_ListNoDup, H. Qed.

(** The models of [c] and the [extra] ones being added are indexed. *)
Record coll_ok (extra : list jsstr) (c : collection) : Prop := {
  ck_index : index_ok (c_models c ++ extra) c;
  ck_length : c_length c = length (c_models c) }.

Lemma remove1_ok extra silent c ev a :
  coll_ok extra c -> plain_arg c a -> (forall cid, get c a = Some cid -> cid ∈ c_models c) ->
  let c' := (remove1 silent (c, ev) a).1 in
  coll_ok extra c' /\ c_objs c' = c_objs c /\
  c_models c' = match get c a with Some cid => without [cid] (c_models c) | None => c_models c end.
Proof.
  intros [H Hl] Ha Hin. cbn [remove1]. destruct (get c a) as [cid|] eqn:E; [|done]. cbn [fst c_objs c_models].
  pose proof (Hin cid eq_refl) as Hc. assert (Hnd : NoDup (c_models c)) by (by apply ix_nodup, NoDup_app in H as [? _]).
  assert (Hx : cid ∉ extra) by (apply ix_nodup, NoDup_app in H as (_ & Hd & _); by apply Hd).
  assert (Es : splice_out cid (c_models c) = without [cid] (c_models c)).
  { rewrite splice_out_filter by done. apply filter_ext. intros x. f_equal. apply bool_decide_ext. by rewrite list_elem_of_singleton. }
  split; [|split; [done|exact Es]]. constructor; cbn [c_models c_length].
  - assert (Hc' : cid ∈ c_models c ++ extra) by (apply elem_of_app; by left).
    apply (index_ext _ (set_byId (obj_delete (obj_delete (c_byId c) (prop_name (id_attr c cid))) cid) c)); [done..|].
    pose proof (index_remove _ c cid H Hc') as G. rewrite List.filter_app, <- splice_out_filter in G by done.
    assert (Ee : List.filter (fun x => negb (bool_decide (x = cid))) extra = extra).
    { clear -Hx. induction extra as [|x l IH]; [done|]. apply not_elem_of_cons in Hx as [Hx1 Hx2]. cbn.
      rewrite bool_decide_eq_false_2 by done. cbn. by rewrite IH. }
    by rewrite Ee in G.
  - rewrite Hl. unfold splice_out. destruct (list_find (cid =.) (c_models c)) as [[i y]|] eqn:Ef.
    + rewrite length_delete; [done|]. apply list_find_Some in Ef as (Hi & _). by rewrite Hi.
    + apply list_find_None in Ef. rewrite Forall_forall in Ef. by destruct (Ef cid Hc).
Qed.

Lemma get_own tied c cid : index_ok tied c -> cid ∈ tied -> get c (AModel cid) = Some cid.
Proof.
  intros H Hc. pose proof (ix_obj _ _ H cid Hc) as Ho. destruct (get c (AModel cid)) as [c'|] eqn:E.
  - apply (get_Some _ _ H) in E as [Hc' [->|(k & E1 & E2)]]; [done| |done]. f_equal. by apply (id_unique _ _ H k).
  - destruct (get_None _ _ H (AModel cid) Ho E cid Hc). by left.
Qed.

(** Removing models of the collection leaves the others, in their order. *)
Lemma remove_ok extra silent cids c ev :
  coll_ok extra c -> NoDup cids -> Forall (.∈ c_models c) cids ->
  let c' := (foldl (remove1 silent) (c, ev) (AModel <$> cids)).1 in
  coll_ok extra c' /\ c_objs c' = c_objs c /\ c_models c' = without cids (c_models c).
Proof.
  intros Hok Hnd. revert c ev Hok. induction Hnd as [|cid cids Hc _ IH]; intros c ev Hok Hin.
  { split_and!; [done..|]. cbn. unfold without. symmetry. generalize (c_models c). intros l. induction l as [|x l IHl]; [done|]. cbn.
    by f_equal. }
  apply Forall_cons in Hin as [Hcid Hin]. assert (Hg : get c (AModel cid) = Some cid).
  { apply (get_own (c_models c ++ extra)); [apply Hok|apply elem_of_app; by left]. }
  assert (Hp : plain_arg c (AModel cid)) by (apply (ix_obj _ _ (ck_index _ _ Hok)), elem_of_app; by left).
  destruct (remove1_ok extra silent c ev (AModel cid) Hok Hp) as (H1 & H2 & H3); [congruence|]. rewrite Hg in H3.
  cbn [fmap list_fmap foldl]. destruct (remove1 silent (c, ev) (AModel cid)) as [c1 ev1]. cbn [fst] in *.
  destruct (IH c1 ev1 H1) as (G1 & G2 & G3).
  { rewrite H3. rewrite Forall_forall in *. intros x Hx. apply elem_of_without. split; [by apply Hin|].
    rewrite list_elem_of_singleton. congruence. }
  split_and!; [done|congruence|]. rewrite G3, H3. unfold without.
  generalize (c_models c). intros l. induction l as [|x l IHl]; [done|]. cbn [List.filter].
  rewrite (bool_decide_ext (x ∈ [cid]) (x = cid)) by apply list_elem_of_singleton.
  destruct (decide (x = cid)) as [->|Hx].
  - rewrite !bool_decide_eq_true_2 by (done || left). cbn [negb]. exact IHl.
  - rewrite (bool_decide_eq_false_2 (x = cid)) by done. cbn [negb List.filter].
    rewrite (bool_decide_ext (x ∈ cid :: cids) (x ∈ cids)) by (rewrite elem_of_cons; split; [intros [?|?]; congruence|by right]).
    destruct (bool_decide (x ∈ cids)); cbn [negb]; [exact IHl|by f_equal].
Qed.
(** ** The loop of [set] *)

Section SetLoop.
Context (o : options) (c0 : collection).

Record loop_ok (st : set_state) : Prop := {
  lo_index : index_ok (c_models c0 ++ s_toAdd st) (s_coll st);
  lo_models : c_models (s_coll st) = c_models c0;
  lo_length : c_length (s_coll st) = c_length c0;
  lo_ids : same_ids c0 (s_coll st) }.

(** The order being built, after the elements [seen], for all models but [except]. *)
Record order_ok (seen : list arg) (except : option jsstr) (st : set_state) : Prop := {
  oo_nodup : NoDup (s_order st);
  oo_iff : forall x, Some x <> except ->
    x ∈ s_order st <-> x ∈ s_toAdd st \/ (x ∈ c_models c0 /\ x ∈ s_map st);
  oo_tied : forall x, x ∈ s_order st -> x ∈ c_models c0 ++ s_toAdd st;
  oo_ids : forall k, plain_id k -> k ∈ s_map st <-> exists x, x ∈ s_order st /\ model_id (s_coll st) x = Some k;
  oo_none : forall x, x ∈ s_order st -> model_id (s_coll st) x = None -> AModel x ∈ seen \/ obj_get (c_objs c0) x = None }.

Definition order_inv (seen : list arg) (st : set_state) : Prop :=
  if o_remove o then order_ok seen None st else s_order st = [].

Lemma place_loop cid st : loop_ok st -> loop_ok (place o cid st).
Proof. by intros []. Qed.

Lemma place_order seen cid st :
  o_remove o = true -> loop_ok st -> order_ok seen (Some cid) st ->
  cid ∈ s_toAdd st \/ (cid ∈ c_models c0 /\ cid ∈ s_map st) ->
  (model_id (s_coll st) cid = None -> (cid ∉ s_order st) /\ (AModel cid ∈ seen \/ obj_get (c_objs c0) cid = None)) ->
  order_ok seen None (place o cid st).
Proof.
  intros Hr [H _ _ _] [O1 O2 O3 O4 O5] Hcid Hnone.
  assert (Ht : cid ∈ c_models c0 ++ s_toAdd st) by (apply elem_of_app; tauto).
  unfold place. pose proof (prop_name_cases (s_coll st) cid) as Hcase. set (name := prop_name _) in *.
  set (i := model_id (s_coll st) cid) in *. rewrite Hr. cbn [andb].
  assert (Hu : forall x, x ∈ c_models c0 -> name <> x).
  { intros x Hx. destruct (tied_cid _ _ H x) as (n & _ & ->); [apply elem_of_app; by left|].
    destruct Hcase as [Hi|[_ [->| ->]]]; [|discriminate..]. apply (ix_plain _ _ H) in Hi. apply Hi. }
  assert (Hiff : forall x, x ∈ s_order st \/ x = cid <-> x ∈ s_toAdd st \/ (x ∈ c_models c0 /\ x ∈ name :: s_map st)).
  { intros x. destruct (decide (x = cid)) as [->|Hx].
    - split; [|by right]. intros _. rewrite elem_of_cons. tauto.
    - rewrite O2 by congruence. rewrite elem_of_cons. split; [intros [[?|[??]]|?]; [by left|right; split; [done|by right]|done]|].
      intros [?|[Hm [He|?]]]; [by left; left| |by left; right]. by destruct (Hu x Hm). }
  assert (Hnew : cid ∉ s_order st -> (forall k, plain_id k -> k ∈ name :: s_map st <-> k ∈ s_map st \/ i = Some k) ->
    (i = None -> AModel cid ∈ seen \/ obj_get (c_objs c0) cid = None) ->
    order_ok seen None (mkSet (s_coll st) (s_toAdd st) (name :: s_map st) (s_order st ++ [cid]) (s_events st))).
  { intros Hn Hk Hs. constructor; cbn [s_order s_toAdd s_map s_coll].
    - apply NoDup_app. split; [done|]. split; [|apply NoDup_singleton]. by intros x Hx ->%list_elem_of_singleton.
    - intros x _. rewrite elem_of_app, list_elem_of_singleton. apply Hiff.
    - intros x [Hx| ->%list_elem_of_singleton]%elem_of_app; [by apply O3|done].
    - intros k Hp. rewrite Hk, (O4 k Hp) by done. split.
      + intros [(x & Hx & Ex)|Ek]; [exists x; rewrite elem_of_app; tauto|]. exists cid. rewrite elem_of_app, list_elem_of_singleton. tauto.
      + intros (x & [Hx| ->%list_elem_of_singleton]%elem_of_app & Ex); [left; eauto|by right].
    - intros x [Hx| ->%list_elem_of_singleton]%elem_of_app; [by apply O5|done]. }
  destruct i as [k|] eqn:Ei.
  - destruct Hcase as [[= <-]|[? _]]; [|done]. assert (Hp : plain_id k) by (by apply (ix_plain _ _ H cid)).
    rewrite (bool_decide_eq_false_2 (Some k = None)) by done. cbn [orb]. destruct (bool_decide (k ∈ s_map st)) eqn:Ek; cbn [negb].
    + apply bool_decide_eq_true in Ek. destruct (proj1 (O4 k Hp) Ek) as (x & Hx & Ex).
      assert (x = cid) as ->. { apply (id_unique _ _ H k); [by apply O3|done..]. }
      constructor; cbn [s_order s_toAdd s_map s_coll]; [done| |done| |done].
      * intros x _. rewrite <- Hiff. split; [by left|by intros [?| ->]].
      * intros k' Hp'. rewrite elem_of_cons, <- O4 by done. split; [by intros [->|?]|by right].
    + apply bool_decide_eq_false in Ek. apply Hnew; [| |done].
      * intros Hin. apply Ek, O4; [done|]. eauto.
      * intros k' _. rewrite elem_of_cons. split; [intros [->|?]; [by right|by left]|intros [?|[= ->]]; [by right|by left]].
  - rewrite bool_decide_eq_true_2 by done. cbn [orb]. destruct (Hnone eq_refl) as [Hn Hs]. apply Hnew; [done| |done].
    assert (Hnp : ~ plain_id name) by (destruct Hcase as [?|[_ [->| ->]]]; [done|by intros (_ & [? ?] & _)..]).
    intros k' Hp'. rewrite elem_of_cons. split; [intros [->|?]; [done|by left]|intros [?|?]; [by right|done]].
Qed.

(** A turn; [set] must not have seen the element before when it is a model without an id. *)

Section Turn.
Context (seen : list arg) (st : set_state) (a : arg).
Context (L : loop_ok st) (Hord : order_inv seen st) (Ha : plain_arg c0 a) 
  (Hseen : forall m, o_remove o = true -> a = AModel m -> model_id c0 m = None -> AModel m ∉ seen).

Lemma plain_later : plain_arg (s_coll st) a.
Proof. destruct a as [m|given]; [by destruct (lo_ids _ L m Ha)|exact Ha]. Qed.

Lemma turn_existing cid : get (s_coll st) a = Some cid -> loop_ok (set_turn o st a) /\ order_inv (a :: seen) (set_turn o st a).
Proof.
  intros Eg. pose proof plain_later as Ha'. destruct L as [H Em El Hs]. unfold set_turn. rewrite Eg.
  destruct (get_Some _ _ H a cid Ha' Eg) as [Hc Hst].
  set (r := if o_merge o then set_on _ cid _ _ else _).
  assert (G : index_ok (c_models c0 ++ s_toAdd st) r.1 /\ same_ids (s_coll st) r.1 /\ c_models r.1 = c_models (s_coll st) /\ c_length r.1 = c_length (s_coll st)).
  { unfold r. destruct (o_merge o); [by apply set_on_ok|]. split_and!; [done|by intros x|done..]. }
  destruct r as [c' events]. cbn [fst] in G. destruct G as (G1 & G2 & G3 & G4).
  match goal with |- loop_ok (place o cid ?s1) /\ _ => set (st1 := s1) end.
  assert (L1 : loop_ok st1). { constructor; cbn [st1 s_coll s_toAdd]; [done|congruence..|by eapply same_ids_trans]. }
  split; [by apply place_loop|]. unfold order_inv in *. destruct (o_remove o) eqn:Er; [|by unfold place; rewrite Er].
  destruct Hord as [O1 O2 O3 O4 O5].
  assert (Hid : forall x, x ∈ c_models c0 ++ s_toAdd st -> model_id c' x = model_id (s_coll st) x).
  { intros x Hx. by apply G2, (ix_obj _ _ H). }
  apply place_order; [done|done| | |].
  - constructor; cbn [st1 s_coll s_toAdd s_map s_order]; [done| |done| |].
    + intros x Hx. rewrite O2, elem_of_cons by done. split; [tauto|]. intros [?|[? [->|?]]]; [by left|done|by right].
    + intros k Hp. rewrite elem_of_cons. split.
      * intros [->|Hk]; [destruct (tied_cid _ _ H cid Hc) as (n & _ & ->); by destruct (proj1 Hp n)|].
         apply O4 in Hk as (x & Hx & Ex); [|done]. exists x. rewrite Hid by (by apply O3). done.
      * intros (x & Hx & Ex). right. apply O4; [done|]. exists x. rewrite <- Hid by (by apply O3). done.
    + intros x Hx. rewrite Hid by (by apply O3). intros [?|?]%O5; [left; by right|by right|done].
  - cbn [st1 s_toAdd s_map]. apply elem_of_app in Hc as [Hc|Hc]; [right; split; [done|left]|by left].
  - cbn [st1 s_coll s_order]. rewrite Hid by done. intros Hn. assert (a = AModel cid) as ->.
    { destruct a as [m|given]; cbn [stands_for] in Hst; [destruct Hst as [->|(k & _ & ?)]; [done|congruence]|].
      destruct Hst as (v & _ & ?). congruence. }
    split; [|left; left]. intros Hin. destruct Ha as [m Hm].
    destruct (O5 cid Hin Hn) as [Hin'|Hn']; [|congruence]. destruct (Hs cid ltac:(by eexists)) as [_ Hi0].
    by destruct (Hseen cid ltac:(done) eq_refl ltac:(congruence)).
Qed.

(** The model made or given is not tied yet, nor is its id. *)
Lemma prepare_new :
  get (s_coll st) a = None ->
  let r := prepareModel a (s_coll st) in
  index_ok (c_models c0 ++ s_toAdd st) r.2 /\ (r.1 ∉ c_models c0 ++ s_toAdd st) /\ is_Some (obj_get (c_objs r.2) r.1) /\
  (forall k c', model_id r.2 r.1 = Some k -> c' ∈ c_models c0 ++ s_toAdd st -> model_id r.2 c' <> Some k) /\
  same_ids (s_coll st) r.2 /\ c_models r.2 = c_models (s_coll st) /\ c_length r.2 = c_length (s_coll st) /\
  (a = AModel r.1 \/ obj_get (c_objs c0) r.1 = None).
Proof.
  intros Eg. pose proof plain_later as Ha'. destruct L as [H Em El Hs].
  pose proof (get_None _ _ H a Ha' Eg) as Hno.
  destruct a as [m|given]; intros r.
  - unfold r. cbn [prepareModel fst snd]. split_and!; [done| |done| |by intros x|done|done|by left].
    + intros Hm. apply (Hno m Hm). by left.
    + intros k c' E1 Hc' E2. apply (Hno c' Hc'). right. eauto.
  - destruct (index_prepare _ _ given H (proj1 Ha) (proj2 Ha)) as (I1 & I2 & I3 & I4 & I5).
    change r.1 with (uniqueId (c_next (s_coll st))). change r.2 with (prepareModel (AAttrs given) (s_coll st)).2.
    assert (Hold : forall x, is_Some (obj_get (c_objs (s_coll st)) x) -> x <> uniqueId (c_next (s_coll st))).
    { intros x [m Hx] ->. destruct (ix_cid _ _ H _ m Hx) as (n & Hn & ?%uniqueId_inj). lia. }
    assert (Hsame : same_ids (s_coll st) (prepareModel (AAttrs given) (s_coll st)).2).
    { intros x Hx. unfold model_id. rewrite I5 by (by apply Hold). done. }
    split_and!; [done..| |done|done|done|].
    + intros k c' E1 Hc' E2. rewrite I4 in E1. apply (Hno c' Hc').
      exists k. split; [done|]. rewrite <- E2. symmetry. apply Hsame. by apply (ix_obj _ _ H).
    + right. destruct (obj_get (c_objs c0) _) as [m|] eqn:E; [|done].
      destruct (Hs (uniqueId (c_next (s_coll st)))) as [Hx _]; [eauto|]. by apply Hold in Hx.
Qed.

Lemma turn_new : get (s_coll st) a = None -> loop_ok (set_turn o st a) /\ order_inv (a :: seen) (set_turn o st a).
Proof.
  intros Eg. pose proof (prepare_new Eg) as G. destruct L as [H Em El Hs]. unfold set_turn. rewrite Eg.
  destruct (prepareModel a (s_coll st)) as [cid c']. cbn [fst snd] in G. destruct G as (G1 & G2 & G3 & G4 & G5 & G6 & G7 & G8).
  match goal with |- loop_ok (place o cid ?s1) /\ _ => set (st1 := s1) end.
  assert (L1 : loop_ok st1).
  { constructor; cbn [st1 s_coll s_toAdd addReference set_byId c_models c_length]; [|congruence..|].
    - rewrite app_assoc. by apply index_add.
    - apply (same_ids_trans _ (s_coll st)); [done|]. exact G5. }
  split; [by apply place_loop|]. unfold order_inv in *. destruct (o_remove o) eqn:Er; [|by unfold place; rewrite Er].
  destruct Hord as [O1 O2 O3 O4 O5].
  assert (Hid : forall x, x ∈ s_order st -> model_id (addReference cid c') x = model_id (s_coll st) x).
  { intros x Hx. change (model_id (addReference cid c') x) with (model_id c' x). by apply G5, (ix_obj _ _ H), O3. }
  apply place_order; [done|done| | |].
  - constructor; cbn [st1 s_coll s_toAdd s_map s_order]; [done| | | |].
    + intros x Hx. rewrite O2, elem_of_app, list_elem_of_singleton by done. split; [tauto|]. intros [[?| ->]|?]; [by left|done|by right].
    + intros x Hx. rewrite app_assoc, elem_of_app. left. by apply O3.
    + intros k Hp. rewrite O4 by done. split; intros (x & Hx & Ex); exists x; (split; [done|]); [by rewrite Hid|by rewrite <- Hid].
    + intros x Hx. rewrite Hid by done. intros [?|?]%O5; [left; by right|by right|done].
  - cbn [st1 s_toAdd]. left. apply elem_of_app. right. by apply list_elem_of_singleton.
  - cbn [st1 s_order]. intros _. split; [intros Hin; by apply G2, O3|]. destruct G8 as [->|?]; [left; left|by right].
Qed.

Lemma turn_ok : loop_ok (set_turn o st a) /\ order_inv (a :: seen) (set_turn o st a).
Proof. destruct (get (s_coll st) a) as [cid|] eqn:E; [by apply (turn_existing cid)|by apply turn_new]. Qed.

End Turn.

(** The models without an id that are given *)
Definition idless_args (args : list arg) : list jsstr :=
  omap (fun a => match a with AModel m => if bool_decide (model_id c0 m = None) then Some m else None | AAttrs _ => None end) args.

Lemma elem_of_idless m args : m ∈ idless_args args <-> AModel m ∈ args /\ model_id c0 m = None.
Proof.
  unfold idless_args. rewrite list_elem_of_omap. split.
  - intros ([x|x] & Hx & E); [|done]. destruct (bool_decide (model_id c0 x = None)) eqn:Ex; [|done].
    injection E as <-. by apply bool_decide_eq_true in Ex.
  - intros [Hm E]. exists (AModel m). by rewrite bool_decide_eq_true_2.
Qed.

(** Each of them is given once. *)
Definition given_once (args : list arg) : Prop := o_remove o = true -> NoDup (idless_args args).

Lemma loop_run seen args st :
  loop_ok st -> order_inv seen st -> Forall (plain_arg c0) args -> given_once args ->
  (forall m, o_remove o = true -> m ∈ idless_args args -> AModel m ∉ seen) ->
  loop_ok (foldl (set_turn o) st args) /\ exists seen', order_inv seen' (foldl (set_turn o) st args).
Proof.
  intros L Ho Hp. revert seen st L Ho. induction Hp as [|a args Ha _ IH]; intros seen st L Ho Hnd Hseen; [eauto|]. cbn [foldl].
  destruct (turn_ok seen st a L Ho Ha) as [L1 Ho1]; [intros m Hr -> Hm; apply Hseen, elem_of_idless; [done|split; [left|done]]|].
  apply (IH (a :: seen)); [done|done| |].
  - intros Hr. specialize (Hnd Hr). unfold idless_args in Hnd. cbn [omap list_omap] in Hnd.
    destruct a as [m|given]; [|exact Hnd]. destruct (bool_decide _); [|exact Hnd]. by apply NoDup_cons in Hnd as [_ ?].
  - intros m Hr Hm [<-|Hin]%elem_of_cons.
    + pose proof (Hnd Hr) as Hn. apply elem_of_idless in Hm as Hm'. destruct Hm' as [_ Em].
      unfold idless_args in Hn. cbn [omap list_omap] in Hn. rewrite bool_decide_eq_true_2 in Hn by done. apply NoDup_cons in Hn as [Hn _]. by apply Hn.
    + revert Hin. apply Hseen; [done|]. apply elem_of_idless in Hm as [? ?]. apply elem_of_idless. split; [by right|done].
Qed.

End SetLoop.

(** [set] keeps the collection indexed. *)
Lemma set_ok o args c :
  coll_ok [] c -> Forall (plain_arg c) args -> given_once o c args ->
  coll_ok [] (set o args c).1 /\ same_ids c (set o args c).1.
Proof.
  intros [H Hl] Hp Hnd. rewrite app_nil_r in H.
  destruct (loop_run o c [] args (mkSet c [] [] [] [])) as [[I Em El Hs] [seen Ho]]; [| |done|done|by intros m _ _ ?%not_elem_of_nil|].
  { constructor; cbn; [by rewrite app_nil_r|done|done|apply same_ids_refl]. }
  { unfold order_inv. destruct (o_remove o); [|done]. constructor; cbn; [constructor| | | |]; try (intros x ?%not_elem_of_nil; done).
    - intros x _. rewrite !elem_of_nil. tauto.
    - intros k _. split; [by intros ?%not_elem_of_nil|by intros (x & ?%not_elem_of_nil & _)]. }
  unfold set. set (st := foldl _ _ args) in *.
  set (toRemove := List.filter _ _).
  assert (Er : toRemove = without (s_map st) (c_models c)).
  { unfold toRemove, without. rewrite El, Em, Hl. by rewrite firstn_all. }
  set (r := if o_remove o then _ else _).
  assert (G : coll_ok (s_toAdd st) r.1 /\ c_objs r.1 = c_objs (s_coll st) /\
    c_models r.1 = if o_remove o then without toRemove (c_models c) else c_models c).
  { assert (Hok : coll_ok (s_toAdd st) (s_coll st)) by (constructor; [by rewrite Em|congruence]).
    unfold r. destruct (o_remove o); [|done]. unfold remove. rewrite <- Em. apply remove_ok; [done| |].
    - rewrite Er. apply NoDup_without. by apply ix_nodup, NoDup_app in I as [? _].
    - rewrite Er, Em. apply Forall_forall. intros x Hx. by apply elem_of_without in Hx as [? _]. }
  destruct r as [c2 removed]. cbn [fst] in *. destruct G as ([G1 G2] & G3 & G4).
  assert (Hs2 : same_ids c c2) by (intros x Hx; unfold model_id; rewrite G3; by apply Hs).
  assert (Hord : o_remove o = true -> s_order st ≡ₚ c_models c2 ++ s_toAdd st).
  { intros Hr. unfold order_inv in Ho. rewrite Hr in Ho, G4. destruct Ho as [O1 O2 O3 O4 O5].
    apply NoDup_Permutation; [done|apply G1|]. intros x. rewrite O2 by done. rewrite elem_of_app, G4, Er, !elem_of_without.
    split; [intros [?|[??]]; [by right|left; split; [done|tauto]]|]. intros [[Hx Hy]|?]; [|by left].
    right. split; [done|]. destruct (decide (x ∈ s_map st)); [done|]. destruct Hy. done. }
  assert (Hput : forall l, l ≡ₚ c_models c2 ++ s_toAdd st ->
    coll_ok [] (mkCollection (c_objs c2) l (c_length c2 + length (s_toAdd st)) (c_byId c2) (c_next c2))).
  { intros l Hperm. constructor; cbn [c_models c_length].
    - rewrite app_nil_r. apply (index_perm (c_models c2 ++ s_toAdd st)); [done|]. by apply (index_ext _ c2).
    - rewrite Hperm, length_app. lia. }
  split; [|by unfold put_models; destruct (s_toAdd st), (s_order st)].
  assert (Hcase : (s_toAdd st = [] /\ put_models o (s_toAdd st) (s_order st) c2 = c2) \/
    exists l, l ≡ₚ c_models c2 ++ s_toAdd st /\
      put_models o (s_toAdd st) (s_order st) c2 = mkCollection (c_objs c2) l (c_length c2 + length (s_toAdd st)) (c_byId c2) (c_next c2)).
  { assert (Hl2 : (match o_at o with Some at_ => splice_in at_ (s_toAdd st) (c_models c2)
      | None => if o_remove o then s_order st else c_models c2 ++ s_toAdd st end) ≡ₚ c_models c2 ++ s_toAdd st).
    { destruct (o_at o) as [n|]; [|destruct (o_remove o); [by apply Hord|done]]. unfold splice_in.
      rewrite (Permutation_app_comm (s_toAdd st)), app_assoc. by rewrite take_drop. }
    unfold put_models. destruct (s_toAdd st), (s_order st); [by left|right; eauto..]. }
  destruct Hcase as [[E ->]|(l & Hperm & ->)]; [|by apply Hput]. rewrite E in G1. by constructor.
Qed.

(** ** Every operation *)

Inductive op :=
  | OAdd (at_ : option nat) (silent : bool) (args : list arg) | OUpdate (args : list arg) | OReset (args : list arg)
  | ORemove (silent : bool) (a : arg) | OCreate (given : attrs) | OPush (a : arg) | OUnshift (a : arg) | OPop | OShift.

Definition run_op (x : op) (c : collection) : collection * list event :=
  match x with
  | OAdd at_ silent args => add at_ silent args c
  | OUpdate args => update args c
  | OReset args => reset args c
  | ORemove silent a => remove silent [a] c
  | OCreate given => create given c
  | OPush a => push a c
  | OUnshift a => unshift a c
  | OPop => pop c
  | OShift => shift c
  end.

(** The arguments of an operation: models made, or attributes with plain ids.  [set] is not given a model without an id
    twice: it would put it in the collection twice ([set_twice]). *)
Definition plain_args (c : collection) (args : list arg) : Prop := Forall (plain_arg c) args.
Definition plain_op (c : collection) (x : op) : Prop :=
  match x with
  | OAdd _ _ args | OReset args => plain_args c args
  | OUpdate args => plain_args c args /\ NoDup (idless_args c args)
  | ORemove _ a | OPush a | OUnshift a => plain_arg c a
  | OCreate given => plain_arg c (AAttrs given)
  | OPop | OShift => True
  end.

Inductive reachable : collection -> Prop :=
  | reach_empty : reachable empty_collection
  | reach_step c x : reachable c -> plain_op c x -> reachable (run_op x c).1.

Lemma ok_empty : coll_ok [] empty_collection.
Proof.
  constructor; [|done]. constructor; cbn; [apply NoDup_nil_2|by intros ? ?%not_elem_of_nil| |done|done|done].
  intros k cid. split; [done|by intros [?%not_elem_of_nil _]].
Qed.

Lemma plain_one c a : plain_arg c a -> plain_args c [a].
Proof. intros H. by repeat constructor. Qed.

Lemma add_ok at_ silent args c : coll_ok [] c -> plain_args c args -> coll_ok [] (add at_ silent args c).1.
Proof. intros H Hp. by apply set_ok. Qed.

Lemma remove_one_ok silent a c : coll_ok [] c -> plain_arg c a -> coll_ok [] (remove silent [a] c).1.
Proof.
  intros H Hp. destruct (remove1_ok [] silent c [] a H Hp) as (G & _); [|exact G].
  intros cid Hg. apply (get_Some _ _ (ck_index _ _ H)) in Hg as [Hc _]; [|done]. by rewrite app_nil_r in Hc.
Qed.

Lemma remove_at_ok i c : coll_ok [] c -> coll_ok [] (match at_index c i with Some cid => remove false [AModel cid] c | None => (c, []) end).1.
Proof.
  intros H. destruct (at_index c i) as [cid|] eqn:E; [|done]. apply remove_one_ok; [done|].
  apply (ix_obj _ _ (ck_index _ _ H)), elem_of_app. left. by apply list_elem_of_lookup_2 in E.
Qed.

Lemma reset_state_ok c : coll_ok [] c -> coll_ok [] (reset_state c).
Proof.
  intros [H _]. constructor; [|done]. constructor; cbn; [apply NoDup_nil_2|by intros ??%not_elem_of_nil| |apply H..].
  intros k cid. split; [done|by intros [?%not_elem_of_nil _]].
Qed.

Lemma reset_ok args c : coll_ok [] c -> plain_args c args -> coll_ok [] (reset args c).1.
Proof.
  intros H Hp. unfold reset. pose proof (add_ok None true args (reset_state c) (reset_state_ok c H) Hp) as G.
  by destruct (add _ _ _ _).
Qed.

Lemma create_ok given c : coll_ok [] c -> plain_arg c (AAttrs given) -> coll_ok [] (create given c).1.
Proof.
  intros [H Hl] [Hw Hp]. destruct (index_prepare _ _ given H Hw Hp) as (I1 & _ & I3 & _).
  unfold create. change (prepareModel (AAttrs given) c) with (uniqueId (c_next c), (prepareModel (AAttrs given) c).2).
  apply add_ok; [by constructor|]. by apply plain_one.
Qed.

(** A created model is the last one. *)
Lemma create_spec given c :
  coll_ok [] c -> plain_arg c (AAttrs given) -> Model.attr_get given (js "id") = None ->
  let c' := (create given c).1 in
  c_models c' = c_models c ++ [uniqueId (c_next c)] /\
  c_objs c' = obj_set (c_objs c) (uniqueId (c_next c)) (Model.new_model given []).
Proof.
  intros [H Hl] [Hw Hp] Hid. rewrite app_nil_r in H. destruct (index_prepare _ _ given H Hw Hp) as (I1 & I2 & I3 & I4 & _).
  cbv zeta. unfold create, add, set. cbn [prepareModel] in *. set (cid := uniqueId (c_next c)) in *. set (c1 := mkCollection _ _ _ _ _) in *.
  cbn [foldl o_remove]. unfold set_turn. cbn [s_coll].
  destruct (get c1 (AModel cid)) as [x|] eqn:E.
  - exfalso. apply (get_Some _ _ I1 (AModel cid)) in E as [Hx [->|(k & E1 & _)]]; [done| |exact I3]. rewrite I4 in E1. unfold id_given in E1. by rewrite Hid in E1.
  - done.
Qed.

Lemma run_op_ok x c : coll_ok [] c -> plain_op c x -> coll_ok [] (run_op x c).1.
Proof.
  intros H Hp. destruct x; cbn [run_op plain_op] in *;
    [by apply add_ok|apply set_ok; [done|apply Hp|intros _; apply Hp]|by apply reset_ok|by apply remove_one_ok|by apply create_ok
    |by apply add_ok; [|apply plain_one]..|by apply remove_at_ok|by apply remove_at_ok].
Qed.

Lemma reachable_ok c : reachable c -> coll_ok [] c.
Proof. induction 1; [apply ok_empty|by apply run_op_ok]. Qed.

(** *** [reset] *)

Definition attr_of (c : collection) (k cid : jsstr) : option V := m ← obj_get (c_objs c) cid; Model.get m k.
Definition id_args (l : list attrs) : list jsstr := omap id_given l.

(** Attributes with new ids become new models, in their order. *)
Lemma add_loop c0 o l st k :
  o_remove o = false -> loop_ok c0 st -> s_order st = [] -> Forall (fun given => plain_arg c0 (AAttrs given)) l ->
  NoDup (id_args l) -> (forall cid, cid ∈ c_models c0 ++ s_toAdd st -> forall i, model_id (s_coll st) cid = Some i -> i ∉ id_args l) ->
  exists new, s_toAdd (foldl (set_turn o) st (AAttrs <$> l)) = s_toAdd st ++ new /\
    (attr_of (s_coll (foldl (set_turn o) st (AAttrs <$> l))) k <$> new) = (fun given => Model.attr_get given k) <$> l /\
    forall cid, is_Some (obj_get (c_objs (s_coll st)) cid) ->
      obj_get (c_objs (s_coll (foldl (set_turn o) st (AAttrs <$> l)))) cid = obj_get (c_objs (s_coll st)) cid.
Proof.
  intros Hr L Ho Hp. revert st L Ho. induction Hp as [|given l Hg _ IH]; intros st L Ho Hnd Hids.
  { exists []. split_and!; [by rewrite app_nil_r|done|done]. }
  assert (Hg' : plain_arg (s_coll st) (AAttrs given)) by exact Hg.
  assert (Eg : get (s_coll st) (AAttrs given) = None).
  { destruct (get (s_coll st) (AAttrs given)) as [cid|] eqn:E; [|done]. exfalso.
    destruct (get_Some _ _ (lo_index _ _ L) _ _ Hg' E) as [Hc (v & Ev & Ei)].
    apply (Hids cid Hc _ Ei). unfold id_args. cbn [omap list_omap]. rewrite Ev. cbn. left. }
  assert (Hoi : order_inv o c0 [] st) by (unfold order_inv; by rewrite Hr).
  destruct (turn_new o c0 [] st (AAttrs given) L Hoi Hg ltac:(done) Eg) as [L1 Ho1].
  set (cid := uniqueId (c_next (s_coll st))). set (st1 := set_turn o st (AAttrs given)) in *.
  assert (Eadd : s_toAdd st1 = s_toAdd st ++ [cid]) by (unfold st1, set_turn; by rewrite Eg).
  assert (Eobj : c_objs (s_coll st1) = obj_set (c_objs (s_coll st)) cid (Model.new_model given [])) by (unfold st1, set_turn; by rewrite Eg).
  assert (Hold : forall x, is_Some (obj_get (c_objs (s_coll st)) x) -> x <> cid).
  { intros x [m Hx] ->. destruct (ix_cid _ _ (lo_index _ _ L) _ m Hx) as (n & Hn & ?%uniqueId_inj). lia. }
  assert (Enew : forall j, attr_of (s_coll st1) j cid = Model.attr_get given j).
  { intros j. unfold attr_of. rewrite Eobj, obj_get_set. cbn. by apply Model.new_model_spec, Hg. }
  unfold order_inv in Ho1. rewrite Hr in Ho1. cbn [fmap list_fmap foldl]. fold st1.
  destruct (IH st1 L1 Ho1) as (new & N1 & N2 & N3).
  { unfold id_args in Hnd. cbn [omap list_omap] in Hnd. destruct (id_given given); [by apply NoDup_cons in Hnd as [_ ?]|done]. }
  { intros x Hx i Hi Hin. rewrite Eadd, app_assoc, elem_of_app, list_elem_of_singleton in Hx. destruct Hx as [Hx| ->].
    - apply (Hids x Hx i).
      + rewrite <- Hi. unfold model_id. rewrite Eobj, obj_get_set_ne; [done|]. symmetry. by apply Hold, (ix_obj _ _ (lo_index _ _ L)).
      + unfold id_args. cbn [omap list_omap]. destruct (id_given given); [by right|done].
    - assert (Hi' : id_given given = Some i).
      { unfold id_given. rewrite <- Enew, <- Hi. unfold attr_of, model_id, id_of. by destruct (obj_get (c_objs (s_coll st1)) cid). }
      unfold id_args in Hnd. cbn [omap list_omap] in Hnd. rewrite Hi' in Hnd. apply NoDup_cons in Hnd as [Hn _]. by apply Hn. }
  exists (cid :: new). split_and!.
  - by rewrite N1, Eadd, <- app_assoc.
  - cbn [fmap list_fmap]. f_equal; [|exact N2]. rewrite <- Enew. unfold attr_of. rewrite N3; [done|]. rewrite Eobj, obj_get_set. eauto.
  - intros x Hx. rewrite N3; rewrite Eobj, obj_get_set_ne; try done; symmetry; by apply Hold.
Qed.

Lemma reset_attrs l c k :
  coll_ok [] c -> Forall (fun given => plain_arg c (AAttrs given)) l -> NoDup (id_args l) ->
  pluck k (reset (AAttrs <$> l) c).1 = (fun given => Model.attr_get given k) <$> l.
Proof.
  intros H Hp Hnd. pose proof (reset_state_ok c H) as [H0 _]. rewrite app_nil_r in H0.
  set (o := mkOptions false false None true).
  destruct (add_loop (reset_state c) o l (mkSet (reset_state c) [] [] [] []) k) as (new & N1 & N2 & _); [done| |done|done|done|by intros ??%not_elem_of_nil|].
  { constructor; [exact H0|done|done|apply same_ids_refl]. }
  unfold reset, add, set. fold o. set (st := foldl _ _ _) in *. cbn [o_remove o o_silent]. unfold pluck, put_models.
  assert (Hlo : loop_ok (reset_state c) st /\ exists seen, order_inv o (reset_state c) seen st).
  { apply (loop_run o (reset_state c) []); [by constructor|done| |done|done].
    apply Forall_fmap. eapply Forall_impl; [exact Hp|]. done. }
  destruct Hlo as [[_ Em _ _] [seen Ho]]. unfold order_inv in Ho. cbn [o_remove o] in Ho. rewrite Ho. cbn in N1.
  destruct (s_toAdd st) as [|x xs] eqn:Ea; cbn [fst c_models c_objs o_at o o_remove]; rewrite Em; cbn [c_models reset_state app].
  - rewrite <- N1 in N2. cbn in *. done.
  - rewrite N1. exact N2.
Qed.

(** C31: a collection is indexed.  Whatever sequence of [add], [set], [reset], [remove], [create], [push], [unshift],
    [pop] and [shift] built it, provided that ids are plain (not the name of a [cid], ["undefined"], ["null"],
    ["[object Object]"] or a name objects inherit) and that no call of [set] is given the same model without an id twice
    ([set_twice] shows what happens then): no model is in it twice and [length] counts them; [get] of an id finds the
    one model of the collection that has it, and nothing when there is none; [get] of a model of the collection finds
    that model.  And [reset] with attributes of distinct ids replaces the models by new ones
    with these attributes, in their order. *)
Theorem collection_indexed c :
  reachable c ->
  NoDup (c_models c) /\ c_length c = length (c_models c) /\
  (forall k cid, plain_id k -> get_id c k = Some cid <-> cid ∈ c_models c /\ model_id c cid = Some k) /\
  (forall k c1 c2, c1 ∈ c_models c -> c2 ∈ c_models c -> model_id c c1 = Some k -> model_id c c2 = Some k -> c1 = c2) /\
  (forall cid, cid ∈ c_models c -> get c (AModel cid) = Some cid) /\
  (forall l k, Forall (fun given => plain_arg c (AAttrs given)) l -> NoDup (id_args l) ->
     pluck k (reset (AAttrs <$> l) c).1 = (fun given => Model.attr_get given k) <$> l).
Proof.
  intros Hr. pose proof (reachable_ok c Hr) as [H Hl]. rewrite app_nil_r in H. split_and!.
  - apply H.
  - done.
  - intros k cid Hp. by apply get_id_iff.
  - intros k c1 c2. by apply (id_unique _ _ H).
  - intros cid. by apply (get_own (c_models c)).
  - intros l k Hp Hnd. apply reset_attrs; [by apply reachable_ok|done|done].
Qed.

End Collection.

(** A collection of numbers: two models, the second one replaced by a model with its id. *)
Definition sample_attrs (id v : Z) : list (jsstr * option Z) := [(js "id", Some id); (js "v", Some v)].
Definition sample_key (id : Z) : option jsstr := Some (js "x" ++ num_to_str id).

Lemma sample_plain id v : 0 <= id -> plain_arg sample_key empty_collection (AAttrs (sample_attrs id v)).
Proof.
  intros Hid. split; [apply (bool_decide_unpack _); vm_compute; exact I|]. intros x. cbn. intros [= <-]. split; [|split; [split|split]].
  - intros n. discriminate.
  - discriminate.
  - discriminate.
  - discriminate.
  - intros H. unfold inherited, object_prototype in H. repeat (apply elem_of_cons in H as [H|H]; [discriminate H|]). by apply not_elem_of_nil in H.
Qed.

Lemma collection_indexed_witness :
  let c := (run_op sample_key (OUpdate [AAttrs (sample_attrs 2 8); AAttrs (sample_attrs 3 9)])
              (run_op sample_key (OReset [AAttrs (sample_attrs 1 5); AAttrs (sample_attrs 2 6)]) empty_collection).1).1 in
  c_length c = 2%nat /\ c_length c = length (c_models c) /\ pluck (js "v") c = [Some 8; Some 9].
Proof.
  intros c. assert (Hr : reachable sample_key c).
  { apply reach_step; [apply reach_step; [apply reach_empty|]|]; 
      [|split; [|apply NoDup_nil_2]]; repeat (apply Forall_cons_2; [by apply sample_plain|]); apply Forall_nil_2. }
  destruct (collection_indexed sample_key c Hr) as (_ & Hl & _).
  split; [vm_compute; reflexivity|]. split; [exact Hl|]. vm_compute. reflexivity.
Defined.

(** [set] given the same model without an id twice: the model is in the collection twice, with a [length] of 1. *)
Lemma set_twice :
  let c := (run_op sample_key (OAdd None false [AAttrs [(js "v", Some 5)]]) empty_collection).1 in
  let c' := (update sample_key [AModel (js "c0"); AModel (js "c0")] c).1 in
  reachable sample_key c /\ c_models c = [js "c0"] /\ c_models c' = [js "c0"; js "c0"] /\ c_length c' = 1%nat.
Proof.
  intros c c'. split; [|vm_compute; done]. apply reach_step; [apply reach_empty|]. apply Forall_singleton.
  split; [apply (bool_decide_unpack _); vm_compute; exact I|done].
Qed.

End Collection.
