(* ===== verification/LiveModel.v ===== *)
(** * Models with their listeners ([Backbone.Model.set] of [files/backbone.js])

    [set] triggers its events while it runs: a listener may set the model again, and may throw.  A
    running [set] is marked by [_changing], changes that still have to be announced by [_pending].
    The listeners act on the model and on a state [T] of their own; what they do for an event is a
    parameter.  The loop that announces changes until none is pending takes fuel.

    For listeners that only look at the model ([observe]) the effect is that of [Model.set]; a
    listener that throws leaves the model marked as changing, and no later [set] announces anything. *)

From S2P Require Import Prelude JsString JsObject Backbone.

Local Open Scope Z_scope.

Module Live.
Section Live.

Context {V : Type} `{!EqDecision V} {T E : Type}.

Record live := mkLive { lv_model : Model.model V; lv_changing : bool; lv_pending : bool }.

Inductive outcome := Normal | Raised (e : E) | Endless.

(** What the listeners of an event do, and the exception that one of them throws. *)
Abbreviation listeners := (jsstr -> live * T -> (live * T) * option E).

Definition set_pending (p : bool) (l : live) : live := mkLive (lv_model l) (lv_changing l) p.
Definition set_rest (l : live) : live := mkLive (lv_model l) false false.

(** Events one after the other, up to an exception. *)
Fixpoint trigger_all (f : listeners) (names : list jsstr) (s : live * T) : (live * T) * option E :=
  match names with
  | [] => (s, None)
  | n :: names' => match f n s with (s', None) => trigger_all f names' s' | r => r end
  end.

(** [while (this._pending)] and the end of [set]. *)
Fixpoint announce (f : listeners) (fuel : nat) (s : live * T) : (live * T) * outcome :=
  if lv_pending s.1 then
    match fuel with
    | O => (s, Endless)
    | S fuel' =>
        match f (js "change") (set_pending false s.1, s.2) with
        | (s', None) => announce f fuel' s'
        | (s', Some e) => (s', Raised e)
        end
    end
  else ((set_rest s.1, s.2), Normal).

Definition is_nil {A} (l : list A) : bool := match l with [] => true | _ => false end.

Definition set (f : listeners) (fuel : nat) (unset silent : bool) (given : list (jsstr * option V)) (s : live * T)
    : (live * T) * outcome :=
  let '(l, t) := s in
  let m := lv_model l in
  let changing := lv_changing l in
  let prev := if changing then Model.m_previous m else Model.m_attributes m in
  let '(current, changed, changes) :=
    foldl (Model.set_one unset prev given) (Model.m_attributes m, if changing then Model.m_changed m else [], []) (obj_keys given) in
  let pending := lv_pending l || (negb silent && negb (is_nil changes)) in
  let s1 := (mkLive (Model.mkModel current prev changed) true pending, t) in
  match trigger_all f (if silent then [] else map (app (js "change:")) changes) s1 with
  | (s2, Some e) => (s2, Raised e)
  | (s2, None) =>
      if changing then (s2, Normal)
      else if silent then ((set_rest s2.1, s2.2), Normal)
      else announce f fuel s2
  end.

(** ** Listeners that look only *)

Definition observe (f : jsstr -> Model.model V -> T -> T * option E) : listeners :=
  fun n s => let '(t, e) := f n (lv_model s.1) s.2 in ((s.1, t), e).

Fixpoint observe_all (f : jsstr -> Model.model V -> T -> T * option E) (names : list jsstr) (m : Model.model V) (t : T) : T * option E :=
  match names with
  | [] => (t, None)
  | n :: names' => match f n m t with (t', None) => observe_all f names' m t' | r => r end
  end.

Lemma trigger_observe f names l t :
  trigger_all (observe f) names (l, t) = let '(t', e) := observe_all f names (lv_model l) t in ((l, t'), e).
Proof.
  revert t. induction names as [|n names IH]; intros t; [done|]. cbn [trigger_all observe_all]. unfold observe. cbn [fst snd].
  destruct (f n (lv_model l) t) as [t' [e|]]; [done|apply IH].
Qed.

Lemma observe_all_app f ns1 ns2 m t :
  observe_all f (ns1 ++ ns2) m t = match observe_all f ns1 m t with (t', None) => observe_all f ns2 m t' | r => r end.
Proof.
  revert t. induction ns1 as [|n ns1 IH]; intros t; [done|]. cbn [app observe_all]. destruct (f n m t) as [t' [e|]]; [done|apply IH].
Qed.

(** At rest, [set] is [Model.set] and its events reach the listeners in order; an exception leaves the model
    set, and marked as changing. *)
Lemma set_observed f fuel un silent given m t :
  (0 < fuel)%nat ->
  let '(m', events) := Model.set un silent given m in
  match observe_all f events m' t with
  | (t', None) => set (observe f) fuel un silent given (mkLive m false false, t) = ((mkLive m' false false, t'), Normal)
  | (t', Some e) => exists p, set (observe f) fuel un silent given (mkLive m false false, t) = ((mkLive m' true p, t'), Raised e)
  end.
Proof.
  intros Hf. unfold set, Model.set. cbn [lv_model lv_changing lv_pending orb].
  destruct (foldl (Model.set_one un (Model.m_attributes m) given) _ _) as [[current changed] changes].
  set (m' := Model.mkModel current _ changed). destruct silent; cbn [negb andb]; [by cbn|].
  rewrite trigger_observe. cbn [lv_model]. rewrite observe_all_app.
  destruct (observe_all f (map (app (js "change:")) changes) m' t) as [t1 [e|]]; [eauto|].
  destruct changes as [|c changes]; cbn [is_nil negb observe_all].
  - destruct fuel; done.
  - destruct fuel as [|fuel]; [lia|]. cbn [announce lv_pending fst].
    assert (Ho : observe f (js "change") (set_pending false (mkLive m' true true), t1) =
      let '(t2, e) := f (js "change") m' t1 in ((mkLive m' true false, t2), e)) by done.
    cbn [snd]. rewrite Ho. destruct (f (js "change") m' t1) as [t2 [e|]]; [eauto|]. destruct fuel; done.
Qed.

(** While the model is marked as changing, listeners of ["change"] hear nothing, and the mark stays. *)
Lemma set_stuck f fuel un silent given m p t :
  (forall k m t, f (js "change:" ++ k) m t = (t, None)) ->
  exists m' p', set (observe f) fuel un silent given (mkLive m true p, t) = ((mkLive m' true p', t), Normal).
Proof.
  intros Hf. unfold set. cbn [lv_model lv_changing lv_pending].
  destruct (foldl _ _ _) as [[current changed] changes]. rewrite trigger_observe.
  assert (H : forall l m t, observe_all f (map (app (js "change:")) l) m t = (t, None)).
  { clear -Hf. induction l as [|k l IH]; intros m t; [done|]. cbn [map observe_all]. by rewrite Hf. }
  destruct silent; [cbn [observe_all]|rewrite H]; eauto.
Qed.

End Live.
Arguments live V : clear implicits.
Arguments outcome E : clear implicits.
End Live.
