(* ===== verification/JqEvent.v ===== *)
(** * Event handlers of elements ([jQuery.event] of [files/jquery-2.1.1.js])

    The handlers that the page binds to its elements, how an event finds them, and what removes them.
    Elements and handlers are types of the client; a handler is known by its [guid].  The page that
    handlers act on is a state with a [dom]: the registry of the handlers, the ancestors of an
    element, whether it is disabled, and Sizzle's answer to whether it matches a selector.

    An event goes up the path of its target as the browser fixed it; an element whose last handler has
    been removed has no listener.  Types with hooks of their own ([mouseenter], [load],
    [beforeunload]) and data of handlers are left out; the namespaces are words, for which the
    regular expression made of them asks for a subsequence. *)

From stdpp Require Import gmap.
From S2P Require Import Prelude JsString JsObject Backbone.

Local Open Scope Z_scope.

Module JqEvent.
Section JqEvent.

Context {Elt H : Type} `{!EqDecision Elt, !Countable Elt, !EqDecision H}.

(** ** The registry *)

(** [handleObj] *)
Record handleObj := mkHandle {
  ho_origType : jsstr; ho_namespaces : list jsstr; ho_selector : option jsstr; ho_handler : H }.

(** An array of handlers with its [delegateCount]. *)
Record queue := mkQueue { q_handlers : list handleObj; q_delegates : nat }.
Definition no_queue : queue := mkQueue [] 0.

(** [data_priv.get(elem).events] *)
Abbreviation events := (list (jsstr * queue)).
Abbreviation registry := (gmap Elt events).

(** [special.delegateType]: the types that do not bubble. *)
Definition special_type (delegated : bool) (type : jsstr) : jsstr :=
  if delegated then
    if bool_decide (type = js "focus") then js "focusin"
    else if bool_decide (type = js "blur") then js "focusout" else type
  else type.

(** [types.match(rnotwhite)], or one empty word. *)
Definition words (types : jsstr) : list jsstr :=
  match List.filter (fun w => match w with [] => false | _ => true end) (Events.split_spaces types) with
  | [] => [[]]
  | ws => ws
  end.

(** [rtypenamespace]: up to the first dot, and what follows it as sorted namespaces; a word that ends with its first dot
    does not match. *)
Definition type_namespaces (w : jsstr) : jsstr * list jsstr :=
  let '(t, r) := span (fun c => negb (c =? ch ".")) w in
  match r with
  | [] => (t, [])
  | [_] => ([], [])
  | _ :: ns => (t, sort_strings (split_char (ch ".") ns))
  end.

(** An empty selector counts as absent. *)
Definition selector_of (selector : option jsstr) : option jsstr := match selector with Some [] => None | s => s end.
Definition is_delegated (selector : option jsstr) : bool := bool_decide (selector <> None).

Definition events_at (r : registry) (e : Elt) : events := default [] (r !! e).
Definition queue_at (r : registry) (e : Elt) (type : jsstr) : queue := default no_queue (obj_get (events_at r e) type).
Definition handlers_at (r : registry) (e : Elt) (type : jsstr) : list handleObj := q_handlers (queue_at r e type).

(** [handlers.splice(handlers.delegateCount++, 0, handleObj)] or [handlers.push(handleObj)] *)
Definition put (ho : handleObj) (q : queue) : queue :=
  match ho_selector ho with
  | Some _ => mkQueue (take (q_delegates q) (q_handlers q) ++ ho :: drop (q_delegates q) (q_handlers q)) (S (q_delegates q))
  | None => mkQueue (q_handlers q ++ [ho]) (q_delegates q)
  end.

(** ** [jQuery.event.add] *)

Definition add1 (e : Elt) (handler : H) (selector : option jsstr) (r : registry) (w : jsstr) : registry :=
  let '(t, ns) := type_namespaces w in
  match t with
  | [] => r
  | _ =>
      let type := special_type (is_delegated selector) t in
      <[e := obj_set (events_at r e) type (put (mkHandle t ns selector handler) (queue_at r e type))]> r
  end.

Definition add (e : Elt) (types : jsstr) (handler : H) (selector : option jsstr) (r : registry) : registry :=
  foldl (add1 e handler (selector_of selector)) r (rev (words types)).

(** ** [jQuery.event.remove] *)

Fixpoint subseq (xs ys : list jsstr) : bool :=
  match xs, ys with
  | [], _ => true
  | _ :: _, [] => false
  | x :: xs', y :: ys' => if bool_decide (x = y) then subseq xs' ys' else subseq xs ys'
  end.

(** Whether a handler is removed; [origType] is absent when the types are mapped. *)
Definition removes (origType : option jsstr) (ns : list jsstr) (handler : option H) (selector : option jsstr) (ho : handleObj) : bool :=
  match origType with Some t => bool_decide (t = ho_origType ho) | None => true end &&
  match handler with Some h => bool_decide (h = ho_handler ho) | None => true end &&
  subseq ns (ho_namespaces ho) &&
  match selector with
  | Some s => bool_decide (Some s = ho_selector ho) || (bool_decide (s = js "**") && is_delegated (ho_selector ho))
  | None => true
  end.

(** The handlers of one type. *)
Definition remove_type (drop_ : handleObj -> bool) (type : jsstr) (evs : events) : events :=
  match obj_get evs type with
  | Some q =>
      let keep := List.filter (fun ho => negb (drop_ ho)) (q_handlers q) in
      let gone := List.filter (fun ho => drop_ ho && is_delegated (ho_selector ho)) (q_handlers q) in
      match q_handlers q, keep with
      | _ :: _, [] => obj_delete evs type
      | _, _ => obj_set evs type (mkQueue keep (q_delegates q - length gone))
      end
  | None => evs
  end.

(** The events of an element, which are forgotten when there are none left. *)
Definition set_events (e : Elt) (evs : events) (r : registry) : registry := match evs with [] => delete e r | _ => <[e := evs]> r end.

Definition remove1 (e : Elt) (handler : option H) (selector : option jsstr) (r : registry) (w : jsstr) : registry :=
  match r !! e with
  | None => r
  | Some evs =>
      let '(t, ns) := type_namespaces w in
      let type k := special_type (is_delegated selector) k in
      set_events e
        match t with
        | [] => foldl (fun evs k => remove_type (removes None ns handler selector) (type k) evs) evs (obj_keys evs)
        | _ => remove_type (removes (Some t) ns handler selector) (type t) evs
        end r
  end.

Definition remove (e : Elt) (types : jsstr) (handler : option H) (selector : option jsstr) (r : registry) : registry :=
  foldl (remove1 e handler (selector_of selector)) r (rev (words types)).

(** [jQuery.cleanData(elems)] *)
Definition cleanData (elems : list Elt) (r : registry) : registry := foldl (fun r e => delete e r) r elems.

(** ** [jQuery.event.dispatch] *)

Record event := mkEvent { ev_type : jsstr; ev_target : Elt; ev_button : Z }.

(** What the page is to the dispatch; [d_matches s this cur sel] is [jQuery.find(sel, this, null, [cur]).length]. *)
Record dom (S : Type) := mkDom {
  d_registry : S -> registry;
  d_ancestors : S -> Elt -> list Elt;
  d_disabled : S -> Elt -> bool;
  d_matches : S -> Elt -> Elt -> jsstr -> bool }.
Arguments d_registry {S}.
Arguments d_ancestors {S}.
Arguments d_disabled {S}.
Arguments d_matches {S}.

(** [for (; cur !== this; cur = cur.parentNode || this)] *)
Fixpoint climb (this : Elt) (chain : list Elt) : list Elt :=
  match chain with
  | [] => []
  | cur :: chain' => if bool_decide (cur = this) then [] else cur :: climb this chain'
  end.

Section Dispatch.
Context {S : Type} (D : dom S).

(** [jQuery.event.handlers]: the delegated handlers from the target upwards, then those of the element itself. *)
Definition handlers (this : Elt) (ev : event) (q : queue) (s : S) : list (Elt * list handleObj) :=
  let delegates := take (q_delegates q) (q_handlers q) in
  let is_click := bool_decide (ev_type ev = js "click") in
  let delegated cur :=
    if d_disabled D s cur && is_click then None
    else match List.filter (fun ho => d_matches D s this cur (default [] (ho_selector ho))) delegates with
         | [] => None
         | matches => Some (cur, matches)
         end in
  (if bool_decide (q_delegates q <> 0%nat) && (bool_decide (ev_button ev = 0) || negb is_click)
   then omap delegated (climb this (ev_target ev :: d_ancestors D s (ev_target ev))) else []) ++
  (if bool_decide (q_delegates q < length (q_handlers q))%nat then [(this, drop (q_delegates q) (q_handlers q))] else []).

(** What a handler tells the event: returning [false] stops the propagation as well. *)
Inductive verdict := Continue | StopPropagation | StopImmediate | Throws.

(** A handler, called with the element it matched. *)
Context (run : H -> Elt -> event -> S -> S * verdict).

(** Handlers of one element: the state, whether the propagation is stopped, and whether one threw. *)
Fixpoint run_handlers (ev : event) (cur : Elt) (hs : list handleObj) (stopped : bool) (s : S) : S * bool * bool :=
  match hs with
  | [] => (s, stopped, false)
  | ho :: hs' =>
      match run (ho_handler ho) cur ev s with
      | (s', Continue) => run_handlers ev cur hs' stopped s'
      | (s', StopPropagation) => run_handlers ev cur hs' true s'
      | (s', StopImmediate) => (s', true, false)
      | (s', Throws) => (s', stopped, true)
      end
  end.

Fixpoint run_queue (ev : event) (l : list (Elt * list handleObj)) (s : S) : S * bool :=
  match l with
  | [] => (s, false)
  | (cur, hs) :: l' =>
      match run_handlers ev cur hs false s with
      | (s', false, false) => run_queue ev l' s'
      | (s', stopped, _) => (s', stopped)
      end
  end.

Definition dispatch (this : Elt) (ev : event) (s : S) : S * bool :=
  run_queue ev (handlers this ev (queue_at (d_registry D s) this (ev_type ev)) s) s.

(** The browser calls the listener of each element of the path that still has one. *)
Fixpoint propagate (ev : event) (path : list Elt) (s : S) : S :=
  match path with
  | [] => s
  | e :: path' =>
      match obj_get (events_at (d_registry D s) e) (ev_type ev) with
      | Some _ => let '(s', stopped) := dispatch e ev s in if (stopped : bool) then s' else propagate ev path' s'
      | None => propagate ev path' s
      end
  end.

Definition fire (ev : event) (s : S) : S := propagate ev (ev_target ev :: d_ancestors D s (ev_target ev)) s.

End Dispatch.

(** ** Lemmas *)

Definition delegated (ho : handleObj) : bool := is_delegated (ho_selector ho).
Definition direct (ho : handleObj) : bool := negb (delegated ho).

(** The delegated handlers come first, and are counted. *)
Record queue_ok (q : queue) : Prop := {
  qk_split : q_handlers q = List.filter delegated (q_handlers q) ++ List.filter direct (q_handlers q);
  qk_count : q_delegates q = length (List.filter delegated (q_handlers q)) }.

Record registry_ok (r : registry) : Prop := {
  rk_wf : forall e, obj_wf (events_at r e);
  rk_queue : forall e t, queue_ok (queue_at r e t) }.

Lemma filter_direct_delegated l : List.filter direct (List.filter delegated l) = [].
Proof. apply filter_none. intros x [_ Hx]%list_elem_of_In%filter_In. unfold direct. by rewrite Hx. Qed.
Lemma filter_delegated_direct l : List.filter delegated (List.filter direct l) = [].
Proof. rewrite filter_comm. apply filter_direct_delegated. Qed.

Lemma no_queue_ok : queue_ok no_queue.
Proof. by split. Qed.

Lemma queue_take q : queue_ok q -> take (q_delegates q) (q_handlers q) = List.filter delegated (q_handlers q).
Proof. intros [Hs ->]. rewrite Hs at 2. by rewrite take_app_length. Qed.
Lemma queue_drop q : queue_ok q -> drop (q_delegates q) (q_handlers q) = List.filter direct (q_handlers q).
Proof. intros [Hs ->]. rewrite Hs at 2. by rewrite drop_app_length. Qed.

Lemma queue_parts q :
  queue_ok q -> q = mkQueue (List.filter delegated (q_handlers q) ++ List.filter direct (q_handlers q)) (length (List.filter delegated (q_handlers q))).
Proof. intros [Hs Hc]. rewrite <- Hs, <- Hc. by destruct q. Qed.

Lemma empty_ok : registry_ok ∅.
Proof. constructor; [intros e; apply NoDup_nil_2|intros e t; apply no_queue_ok]. Qed.

(** Binding a handler: it is the last of its kind. *)
Lemma put_handlers ho q :
  queue_ok q ->
  List.filter delegated (q_handlers (put ho q)) = List.filter delegated (q_handlers q) ++ (if delegated ho then [ho] else []) /\
  List.filter direct (q_handlers (put ho q)) = List.filter direct (q_handlers q) ++ (if delegated ho then [] else [ho]) /\
  queue_ok (put ho q).
Proof.
  intros Hq. unfold put. destruct (ho_selector ho) as [sel|] eqn:E.
  - assert (Hd : delegated ho = true) by (unfold delegated; by rewrite E). rewrite queue_take, queue_drop, Hd by done.
    assert (H1 : List.filter delegated (List.filter delegated (q_handlers q) ++ ho :: List.filter direct (q_handlers q)) =
      List.filter delegated (q_handlers q) ++ [ho]).
    { rewrite List.filter_app. cbn [List.filter]. rewrite Hd, filter_delegated_direct. f_equal.
      apply filter_all. by intros x [_ ?]%list_elem_of_In%filter_In. }
    assert (H2 : List.filter direct (List.filter delegated (q_handlers q) ++ ho :: List.filter direct (q_handlers q)) =
      List.filter direct (q_handlers q)).
    { rewrite List.filter_app. cbn [List.filter]. assert (Hx : direct ho = false) by (unfold direct; by rewrite Hd).
      rewrite Hx, filter_direct_delegated. apply filter_all. by intros x [_ ?]%list_elem_of_In%filter_In. }
    cbn [q_handlers]. rewrite H1, H2, app_nil_r. split_and!; [done|done|]. constructor; cbn [q_handlers q_delegates].
    + by rewrite H1, H2, <- app_assoc.
    + rewrite H1, length_app, (qk_count _ Hq). cbn. lia.
  - assert (Hd : delegated ho = false) by (unfold delegated; by rewrite E). cbn [q_handlers q_delegates]. rewrite !List.filter_app. cbn [List.filter].
    assert (Hx : direct ho = true) by (unfold direct; by rewrite Hd). rewrite Hd, Hx. split_and!; [done|done|].
    constructor; cbn [q_handlers q_delegates]; rewrite !List.filter_app; cbn [List.filter]; rewrite Hd, ?Hx.
    + rewrite app_nil_r, app_assoc. f_equal. apply Hq.
    + rewrite app_nil_r. apply Hq.
Qed.

(** Removing the handlers that [f] tells. *)
Definition strip (f : handleObj -> bool) (q : queue) : queue :=
  mkQueue (List.filter (fun ho => negb (f ho)) (q_handlers q))
    (q_delegates q - length (List.filter (fun ho => f ho && is_delegated (ho_selector ho)) (q_handlers q))).

Lemma filter_parts {A} (f g : A -> bool) l :
  (length (List.filter f (List.filter (fun x => negb (g x)) l)) + length (List.filter (fun x => g x && f x) l) = length (List.filter f l))%nat.
Proof. induction l as [|x l IH]; [done|]. cbn. destruct (g x), (f x) eqn:Ef; cbn; rewrite ?Ef; cbn; lia. Qed.

Lemma strip_ok f q : queue_ok q -> queue_ok (strip f q).
Proof.
  intros [Hs Hc]. constructor; cbn [strip q_handlers q_delegates].
  - rewrite Hs at 1. rewrite List.filter_app. by rewrite (filter_comm _ delegated), (filter_comm _ direct).
  - rewrite Hc. pose proof (filter_parts delegated f (q_handlers q)) as Hp. unfold delegated in *. lia.
Qed.

Lemma strip_nil f q : queue_ok q -> List.filter (fun ho => negb (f ho)) (q_handlers q) = [] -> strip f q = no_queue.
Proof.
  intros Hq En. pose proof (qk_count _ (strip_ok f q Hq)) as Hc. cbn [strip q_handlers q_delegates] in Hc. unfold strip. rewrite En in *.
  cbn in Hc. by rewrite Hc.
Qed.

Lemma remove_type_at f type evs t :
  queue_ok (default no_queue (obj_get evs type)) ->
  default no_queue (obj_get (remove_type f type evs) t) =
  if decide (type = t) then strip f (default no_queue (obj_get evs t)) else default no_queue (obj_get evs t).
Proof.
  intros Hq. unfold remove_type. destruct (obj_get evs type) as [q|] eqn:E; cbn [default from_option id] in Hq.
  - fold (strip f q). destruct (decide (type = t)) as [<-|Hne].
    + rewrite E. cbn [default from_option id]. destruct (q_handlers q) as [|x l] eqn:El; [by rewrite obj_get_set|].
      rewrite <- El. destruct (List.filter _ (q_handlers q)) eqn:Ef; [|by rewrite obj_get_set].
      rewrite obj_get_delete. cbn. symmetry. by apply strip_nil.
    + destruct (q_handlers q) as [|x l]; [by rewrite obj_get_set_ne|]. destruct (List.filter _ (x :: l)); [by rewrite obj_get_delete_ne|by rewrite obj_get_set_ne].
  - destruct (decide (type = t)) as [<-|Hne]; [|done]. by rewrite E.
Qed.

Lemma remove_type_wf f type evs : obj_wf evs -> obj_wf (remove_type f type evs).
Proof.
  intros Hw. unfold remove_type. destruct (obj_get evs type) as [q|]; [|done].
  destruct (q_handlers q); [by apply obj_set_wf|]. destruct (List.filter _ (_ :: _)); [by apply obj_delete_wf|by apply obj_set_wf].
Qed.

Lemma remove_types_wf f (g : jsstr -> jsstr) ks evs : obj_wf evs -> obj_wf (foldl (fun evs k => remove_type f (g k) evs) evs ks).
Proof. revert evs. induction ks as [|k ks IH]; intros evs Hw; [done|]. by apply IH, remove_type_wf. Qed.

Lemma remove_types_at f ks evs t :
  NoDup ks -> (forall k, queue_ok (default no_queue (obj_get evs k))) ->
  default no_queue (obj_get (foldl (fun evs k => remove_type f k evs) evs ks) t) =
  if decide (t ∈ ks) then strip f (default no_queue (obj_get evs t)) else default no_queue (obj_get evs t).
Proof.
  intros Hnd. revert evs. induction Hnd as [|k ks Hk _ IH]; intros evs Hq; [by rewrite decide_False by apply not_elem_of_nil|].
  cbn [foldl]. rewrite IH.
  - rewrite !remove_type_at by apply Hq. destruct (decide (k = t)) as [->|Hne].
    + rewrite decide_False by done. by rewrite decide_True by left.
    + destruct (decide (t ∈ ks)); [by rewrite decide_True by (by right)|]. rewrite decide_False; [done|].
      rewrite elem_of_cons. intros [?|?]; congruence.
  - intros j. rewrite remove_type_at by apply Hq. destruct (decide (k = j)); [apply strip_ok|]; apply Hq.
Qed.

(** *** Words *)

Lemma split_spaces_plain w : existsb is_space w = false -> Events.split_spaces w = [w].
Proof.
  induction w as [|x w IH]; [done|]. cbn [existsb]. intros [Hx Hw]%orb_false_iff. cbn [Events.split_spaces]. by rewrite (IH Hw), Hx.
Qed.

Lemma words_one w : existsb is_space w = false -> w <> [] -> words w = [w].
Proof. intros Hs Hne. unfold words. rewrite split_spaces_plain by done. by destruct w. Qed.

Lemma span_dot t r : ch "." ∉ t -> span (fun c => negb (c =? ch ".")) (t ++ ch "." :: r) = (t, ch "." :: r).
Proof.
  induction t as [|x t IH]; intros Ht; [done|]. apply not_elem_of_cons in Ht as [Hx Ht]. cbn [app span].
  rewrite (proj2 (Z.eqb_neq x (ch "."))) by congruence. cbn [negb]. by rewrite IH.
Qed.

(** A type with one namespace. *)
Lemma type_namespaces_one t ns : ch "." ∉ t -> ch "." ∉ ns -> ns <> [] -> type_namespaces (t ++ ch "." :: ns) = (t, [ns]).
Proof.
  intros Ht Hn Hne. unfold type_namespaces. rewrite span_dot by done. destruct ns as [|c ns]; [done|].
  by rewrite split_char_id.
Qed.

Lemma type_namespaces_plain t : ch "." ∉ t -> type_namespaces t = (t, []).
Proof.
  intros Ht. unfold type_namespaces. replace (span _ t) with (t, @nil Z); [done|]. symmetry.
  induction t as [|x t IH]; [done|]. apply not_elem_of_cons in Ht as [Hx Ht]. cbn [span].
  rewrite (proj2 (Z.eqb_neq x (ch "."))) by congruence. cbn [negb]. by rewrite IH.
Qed.

Lemma subseq_one x l : subseq [x] l = bool_decide (x ∈ l).
Proof.
  induction l as [|y l IH]; [done|]. cbn [subseq]. destruct (decide (x = y)) as [->|Hxy].
  - rewrite (bool_decide_eq_true_2 (y = y)) by done. rewrite (bool_decide_eq_true_2 (y ∈ y :: l)) by left. by destruct l.
  - rewrite (bool_decide_eq_false_2 (x = y)) by done. rewrite IH. apply bool_decide_ext. rewrite elem_of_cons. split; [by right|intros [?|?]; congruence].
Qed.

(** *** Binding and removing *)

Lemma events_at_insert r e evs e' : events_at (<[e := evs]> r) e' = if decide (e = e') then evs else events_at r e'.
Proof. unfold events_at. rewrite lookup_insert. by destruct (decide (e = e')). Qed.

Lemma events_at_set r e evs e' : events_at (set_events e evs r) e' = if decide (e = e') then evs else events_at r e'.
Proof.
  destruct evs as [|q evs]; [|apply events_at_insert]. unfold set_events, events_at. destruct (decide (e = e')) as [<-|Hne].
  - by rewrite lookup_delete_eq.
  - by rewrite lookup_delete_ne.
Qed.

Lemma add1_at e h sel r w t ns e' t' :
  type_namespaces w = (t, ns) -> t <> [] ->
  queue_at (add1 e h sel r w) e' t' =
  if decide (e = e' /\ special_type (is_delegated sel) t = t') then put (mkHandle t ns sel h) (queue_at r e' t') else queue_at r e' t'.
Proof.
  intros Hw Ht. unfold add1. rewrite Hw. destruct t as [|c t]; [done|]. unfold queue_at at 1. rewrite events_at_insert.
  destruct (decide (e = e')) as [<-|Hne]; [|by rewrite decide_False by (by intros [? _])].
  destruct (decide (special_type (is_delegated sel) (c :: t) = t')) as [<-|Hne].
  - rewrite decide_True by done. by rewrite obj_get_set.
  - rewrite decide_False by (by intros [_ ?]). by rewrite obj_get_set_ne.
Qed.

Lemma add1_ok e h sel r w : registry_ok r -> registry_ok (add1 e h sel r w).
Proof.
  intros [Hw Hq]. destruct (type_namespaces w) as [t ns] eqn:E. destruct (decide (t = [])) as [->|Ht]; [unfold add1; by rewrite E|].
  constructor.
  - intros e'. unfold add1. rewrite E. destruct t as [|c t]; [done|]. rewrite events_at_insert. destruct (decide (e = e')) as [<-|]; [|apply Hw].
    apply obj_set_wf, Hw.
  - intros e' t'. rewrite (add1_at _ _ _ _ _ _ _ _ _ E Ht). destruct (decide _); [apply put_handlers|]; apply Hq.
Qed.

Lemma bind_ok e types h sel r : registry_ok r -> registry_ok (add e types h sel r).
Proof. intros Hr. unfold add. revert r Hr. induction (rev (words types)) as [|w ws IH]; intros r Hr; [done|]. by apply IH, add1_ok. Qed.

(** Removing everything under one namespace. *)
Lemma remove_namespace r e ns :
  registry_ok r -> existsb is_space ns = false -> ch "." ∉ ns -> ns <> [] ->
  let r' := remove e (ch "." :: ns) None None r in
  registry_ok r' /\
  forall e' t, queue_at r' e' t = if decide (e = e') then strip (fun ho => bool_decide (ns ∈ ho_namespaces ho)) (queue_at r e' t) else queue_at r e' t.
Proof.
  intros [Hw Hq] Hs Hd Hne. cbv zeta. unfold remove. rewrite words_one by done. cbn [rev app foldl].
  assert (Et : type_namespaces (ch "." :: ns) = ([], [ns])) by (apply (type_namespaces_one [] ns); [apply not_elem_of_nil|done|done]).
  unfold remove1. destruct (r !! e) as [evs|] eqn:Ee.
  - rewrite Et. cbn [selector_of is_delegated]. set (f := removes _ _ _ _).
    set (evs' := foldl _ evs (obj_keys evs)).
    assert (Hevs : obj_wf evs) by (pose proof (Hw e) as H0; unfold events_at in H0; by rewrite Ee in H0).
    assert (Hqs : forall k, queue_ok (default no_queue (obj_get evs k))).
    { intros k. pose proof (Hq e k) as H0. unfold queue_at, events_at in H0. by rewrite Ee in H0. }
    assert (Hat : forall t, default no_queue (obj_get evs' t) = strip f (default no_queue (obj_get evs t))).
    { intros t. unfold evs'. change (fun evs0 k => remove_type f (special_type _ k) evs0) with (fun evs0 k => remove_type f k evs0).
      rewrite remove_types_at; [|by apply NoDup_enum_order|done]. destruct (decide _) as [_|Hn]; [done|].
      rewrite elem_of_obj_keys in Hn. by destruct (obj_get evs t); [destruct Hn|]. }
    assert (Hf : forall q, strip f q = strip (fun ho => bool_decide (ns ∈ ho_namespaces ho)) q).
    { intros q. unfold strip. assert (Hx : forall ho, f ho = bool_decide (ns ∈ ho_namespaces ho)).
      { intros ho. unfold f, removes. by rewrite subseq_one, andb_true_r. }
      f_equal; [|do 2 f_equal]; apply filter_ext; intros ho; by rewrite Hx. }
    assert (Hall : forall e' t, queue_at (set_events e evs' r) e' t =
      if decide (e = e') then strip (fun ho => bool_decide (ns ∈ ho_namespaces ho)) (queue_at r e' t) else queue_at r e' t).
    { intros e' t. unfold queue_at at 1. rewrite events_at_set. destruct (decide (e = e')) as [<-|]; [|done]. rewrite Hat, Hf. unfold queue_at, events_at. by rewrite Ee. }
    split; [|exact Hall]. constructor.
    + intros e'. rewrite events_at_set. destruct (decide (e = e')) as [<-|]; [|apply Hw]. by apply remove_types_wf.
    + intros e' t. rewrite Hall. destruct (decide _); [apply strip_ok|]; apply Hq.
  - split; [by constructor|]. intros e' t. destruct (decide (e = e')) as [<-|]; [|done]. unfold queue_at, events_at. by rewrite Ee.
Qed.

(** *** Dispatch *)

(** A handler on each element, without a selector. *)
Definition lone (t : jsstr) (h : H) : queue := mkQueue [mkHandle t [] None h] 0.

Lemma propagate_step {S} (D : dom S) run ev e path s :
  propagate D run ev (e :: path) s = let '(s', stopped) := dispatch D run e ev s in if (stopped : bool) then s' else propagate D run ev path s'.
Proof. cbn [propagate]. destruct (obj_get _ _) eqn:E; [done|]. unfold dispatch, queue_at. by rewrite E. Qed.

Lemma propagate_one {S} (D : dom S) run ev e path s t h :
  queue_at (d_registry D s) e (ev_type ev) = lone t h ->
  propagate D run ev (e :: path) s =
  match run h e ev s with (s', Continue) | (s', Throws) => propagate D run ev path s' | (s', _) => s' end.
Proof.
  intros He. rewrite propagate_step. unfold dispatch. rewrite He. change (handlers D e ev _ s) with [(e, q_handlers (lone t h))].
  cbn [run_queue lone q_handlers run_handlers ho_handler]. by destruct (run h e ev s) as [s' []].
Qed.

Lemma propagate_none {S} (D : dom S) run ev e path s :
  queue_at (d_registry D s) e (ev_type ev) = no_queue -> propagate D run ev (e :: path) s = propagate D run ev path s.
Proof. intros He. rewrite propagate_step. unfold dispatch. by rewrite He. Qed.

Lemma propagate_skip {S} (D : dom S) run ev e path s :
  obj_get (events_at (d_registry D s) e) (ev_type ev) = None -> propagate D run ev (e :: path) s = propagate D run ev path s.
Proof. intros He. apply propagate_none. unfold queue_at. by rewrite He. Qed.

Lemma propagate_lone {S} (D : dom S) run ev e path s t h :
  obj_get (events_at (d_registry D s) e) (ev_type ev) = Some (lone t h) ->
  propagate D run ev (e :: path) s =
  match run h e ev s with (s', Continue) | (s', Throws) => propagate D run ev path s' | (s', _) => s' end.
Proof. intros He. apply (propagate_one D run ev e path s t h). unfold queue_at. by rewrite He. Qed.

(** A type, without namespaces. *)
Definition is_plain (t : jsstr) : bool :=
  negb (existsb is_space t) && negb (existsb (Z.eqb (ch ".")) t) && match t with [] => false | _ => true end.

Lemma is_plain_spec t : is_plain t = true -> existsb is_space t = false /\ (ch "." ∉ t) /\ t <> [].
Proof.
  unfold is_plain. intros [[H1%negb_true_iff H2%negb_true_iff]%andb_true_iff H3]%andb_true_iff. split_and!; [done| |by destruct t].
  intros Hin. assert (Hx : existsb (Z.eqb (ch ".")) t = true); [|congruence].
  apply existsb_exists. exists (ch "."). split; [by apply list_elem_of_In|apply Z.eqb_refl].
Qed.

(** Binding to such a type. *)
Lemma events_at_add r e t h e' :
  is_plain t = true ->
  events_at (add e t h None r) e' =
  if decide (e = e') then obj_set (events_at r e) t (put (mkHandle t [] None h) (queue_at r e t)) else events_at r e'.
Proof.
  intros (Hs & Hd & Hne)%is_plain_spec. unfold add. rewrite words_one by done. cbn [rev app foldl selector_of]. unfold add1.
  rewrite type_namespaces_plain by done. destruct t as [|c t]; [done|]. apply events_at_insert.
Qed.

Lemma queue_at_add r e t h e' t' :
  is_plain t = true ->
  queue_at (add e t h None r) e' t' = if decide (e = e' /\ t = t') then put (mkHandle t [] None h) (queue_at r e' t') else queue_at r e' t'.
Proof.
  intros (Hs & Hd & Hne)%is_plain_spec. unfold add. rewrite words_one by done. cbn [rev app foldl selector_of]. rewrite (add1_at _ _ _ _ _ t []); [done| |done].
  by apply type_namespaces_plain.
Qed.

Lemma remove_type_ext f g type evs : (forall ho, f ho = g ho) -> remove_type f type evs = remove_type g type evs.
Proof.
  intros Hf. unfold remove_type. destruct (obj_get evs type) as [q|]; [|done]. cbv zeta.
  rewrite (filter_ext (fun ho => negb (f ho)) (fun ho => negb (g ho))) by (intros ho; by rewrite Hf).
  by rewrite (filter_ext (fun ho => f ho && is_delegated (ho_selector ho)) (fun ho => g ho && is_delegated (ho_selector ho))) by (intros ho; by rewrite Hf).
Qed.

Lemma events_at_unbind r e e' :
  events_at (remove e [] None None r) e' =
  if decide (e = e') then foldl (fun evs k => remove_type (fun _ => true) k evs) (events_at r e) (obj_keys (events_at r e)) else events_at r e'.
Proof.
  unfold remove, remove1. change (rev (words [])) with [@nil Z]. cbn [foldl selector_of].
  assert (Ev : events_at r e = default [] (r !! e)) by done. rewrite Ev. destruct (r !! e) as [evs|] eqn:Ee.
  - change (type_namespaces []) with (@nil Z, @nil jsstr). cbv beta iota zeta. rewrite events_at_set. destruct (decide _); [|done]. cbn [default from_option id].
    generalize (obj_keys evs) as ks. intros ks. revert evs Ee Ev. clear. intros evs _ _. revert evs. induction ks as [|k ks IH]; intros evs; [done|].
    cbn [foldl]. rewrite IH. f_equal. apply remove_type_ext. intros ho. unfold removes. by destruct (ho_namespaces ho).
  - destruct (decide (e = e')) as [<-|]; [|done]. by rewrite Ev.
Qed.

Lemma events_at_clean l r e : events_at (cleanData l r) e = if decide (e ∈ l) then [] else events_at r e.
Proof.
  unfold cleanData. revert r. induction l as [|x l IH]; intros r; [done|]. cbn [foldl]. rewrite IH. unfold events_at at 1.
  destruct (decide (e ∈ l)); [by rewrite decide_True by (by right)|]. destruct (decide (e = x)) as [->|Hne].
  - by rewrite lookup_delete_eq, decide_True by left.
  - rewrite lookup_delete_ne by done. rewrite decide_False; [done|]. rewrite elem_of_cons. tauto.
Qed.

End JqEvent.

Arguments handleObj H : clear implicits.
Arguments queue H : clear implicits.
Arguments event Elt : clear implicits.
Arguments dom Elt H {_ _} S.
Arguments mkDom {Elt H _ _ S}.
Arguments d_registry {Elt H _ _ S}.
Arguments d_ancestors {Elt H _ _ S}.
Arguments d_disabled {Elt H _ _ S}.
Arguments d_matches {Elt H _ _ S}.
Abbreviation registry E H := (gmap E (list (jsstr * queue H))).
End JqEvent.
