(* ===== verification/Callbacks.v ===== *)
(** * Lists of callbacks and deferreds ([jQuery.Callbacks] and [jQuery.Deferred] of [files/jquery-2.1.1.js])

    A deferred is three lists of callbacks; a list calls its callbacks in a loop that the
    callbacks may lengthen, and calls those that come too late at once.  The callbacks are code of the
    client: while one runs, it may add callbacks to any list, resolve, reject or notify, return, or
    throw; so may the code outside of any callback.  What the client does is a sequence of choices,
    and [step] is what jQuery then does, one call at a time, with the calls under way as a stack.

    The context of a call is part of its data.  [remove] and [empty] of a list, which a deferred does
    not offer, and [then] and [when], which make further deferreds, are left out. *)

From S2P Require Import Prelude.

Local Open Scope nat_scope.

Module Callbacks.
Section Callbacks.

Context {D U : Type} `{!EqDecision U}.

(** ** [jQuery.Callbacks] *)

Inductive which := Done | Fail | Progress.
Inductive dstate := Pending | Resolved | Rejected.

#[global] Instance which_eq : EqDecision which.
Proof. solve_decision. Defined.
#[global] Instance dstate_eq : EqDecision dstate.
Proof. solve_decision. Defined.

(** A client's callback, or one of a deferred's own. *)
Inductive fn := User (u : U) | SetState (s : dstate) | Disable (w : which) | Lock (w : which).

#[global] Instance fn_eq : EqDecision fn.
Proof. solve_decision. Defined.

Record options := mkOptions { o_once : bool; o_memory : bool; o_unique : bool; o_stopOnFalse : bool }.

(** The variables of the closure; a list that is [undefined] is [None], as are a [stack] and a [memory] that are falsy. *)
Record cbs := mkCbs {
  cb_options : options; cb_list : option (list fn); cb_stack : option (list D); cb_memory : option D;
  cb_fired : bool; cb_firing : bool; cb_start : nat; cb_length : nat; cb_index : nat }.

Definition new_callbacks (o : options) : cbs := mkCbs o (Some []) (if o_once o then None else Some []) None false false 0 0 0.

(** [fire(data)] up to its loop. *)
Definition begin_fire (d : D) (c : cbs) : cbs :=
  mkCbs (cb_options c) (cb_list c) (cb_stack c) (if o_memory (cb_options c) then Some d else None) true true
    0 (length (default [] (cb_list c))) (cb_start c).

(** The callback of the loop's next turn. *)
Definition current (c : cbs) : option fn := l ← cb_list c; if cb_index c <? cb_length c then l !! cb_index c else None.

(** The end of a turn; a [break] ends the loop. *)
Definition advance (returned_false : bool) (c : cbs) : cbs :=
  if returned_false && o_stopOnFalse (cb_options c)
  then mkCbs (cb_options c) (cb_list c) (cb_stack c) None (cb_fired c) (cb_firing c) (cb_start c) (cb_length c) (cb_length c)
  else mkCbs (cb_options c) (cb_list c) (cb_stack c) (cb_memory c) (cb_fired c) (cb_firing c) (cb_start c) (cb_length c) (S (cb_index c)).

Definition disable (c : cbs) : cbs :=
  mkCbs (cb_options c) None None None (cb_fired c) (cb_firing c) (cb_start c) (cb_length c) (cb_index c).

(** After the loop: the list, and the data of the [fire] that follows. *)
Definition end_fire (c : cbs) : cbs * option D :=
  let c := mkCbs (cb_options c) (cb_list c) (cb_stack c) (cb_memory c) (cb_fired c) false (cb_start c) (cb_length c) (cb_index c) in
  match cb_list c, cb_stack c with
  | None, _ => (c, None)
  | Some _, Some [] => (c, None)
  | Some l, Some (d :: ds) => (mkCbs (cb_options c) (Some l) (Some ds) (cb_memory c) (cb_fired c) false (cb_start c) (cb_length c) (cb_index c), Some d)
  | Some _, None =>
      match cb_memory c with
      | Some _ => (mkCbs (cb_options c) (Some []) None (cb_memory c) (cb_fired c) false (cb_start c) (cb_length c) (cb_index c), None)
      | None => (disable c, None)
      end
  end.

Definition push (o : options) (l : list fn) (f : fn) : list fn := if o_unique o && bool_decide (f ∈ l) then l else l ++ [f].

(** [self.add(...)]: the list, and the data of the [fire] that follows. *)
Definition add (fs : list fn) (c : cbs) : cbs * option D :=
  match cb_list c with
  | None => (c, None)
  | Some l =>
      let l' := foldl (push (cb_options c)) l fs in
      if cb_firing c
      then (mkCbs (cb_options c) (Some l') (cb_stack c) (cb_memory c) (cb_fired c) true (cb_start c) (length l') (cb_index c), None)
      else match cb_memory c with
           | Some d => (mkCbs (cb_options c) (Some l') (cb_stack c) (cb_memory c) (cb_fired c) false (length l) (cb_length c) (cb_index c), Some d)
           | None => (mkCbs (cb_options c) (Some l') (cb_stack c) None (cb_fired c) false (cb_start c) (cb_length c) (cb_index c), None)
           end
  end.

Definition lock (c : cbs) : cbs :=
  match cb_memory c with
  | Some _ => mkCbs (cb_options c) (cb_list c) None (cb_memory c) (cb_fired c) (cb_firing c) (cb_start c) (cb_length c) (cb_index c)
  | None => disable c
  end.

(** [self.fireWith(...)]: the list, and the data of the [fire] that follows. *)
Definition fireWith (d : D) (c : cbs) : cbs * option D :=
  match cb_list c with
  | Some _ =>
      if negb (cb_fired c) || bool_decide (is_Some (cb_stack c)) then
        if cb_firing c
        then (mkCbs (cb_options c) (cb_list c) ((fun s => s ++ [d]) <$> cb_stack c) (cb_memory c) (cb_fired c) true (cb_start c) (cb_length c) (cb_index c), None)
        else (c, Some d)
      else (c, None)
  | None => (c, None)
  end.

(** ** [jQuery.Deferred] *)

(** The calls under way: a loop of a list with its data, and a client's callback. *)
Inductive frame := Firing (w : which) (d : D) | Running (u : U).

(** The lists, the state, the calls under way; and what happened: the client's callbacks called with their data, those
    added, the calls of [resolve] and [reject]. *)
Record deferred := mkDeferred {
  df_done : cbs; df_fail : cbs; df_progress : cbs; df_state : dstate; df_frames : list frame;
  df_called : list (which * (U * D)); df_added : list (which * U); df_settles : list (which * D) }.

Definition list_of (w : which) (m : deferred) : cbs := match w with Done => df_done m | Fail => df_fail m | Progress => df_progress m end.
Definition put (w : which) (c : cbs) (m : deferred) : deferred :=
  match w with
  | Done => mkDeferred c (df_fail m) (df_progress m) (df_state m) (df_frames m) (df_called m) (df_added m) (df_settles m)
  | Fail => mkDeferred (df_done m) c (df_progress m) (df_state m) (df_frames m) (df_called m) (df_added m) (df_settles m)
  | Progress => mkDeferred (df_done m) (df_fail m) c (df_state m) (df_frames m) (df_called m) (df_added m) (df_settles m)
  end.
Definition set_state (s : dstate) (m : deferred) : deferred :=
  mkDeferred (df_done m) (df_fail m) (df_progress m) s (df_frames m) (df_called m) (df_added m) (df_settles m).
Definition set_frames (fs : list frame) (m : deferred) : deferred :=
  mkDeferred (df_done m) (df_fail m) (df_progress m) (df_state m) fs (df_called m) (df_added m) (df_settles m).
Definition log_call (w : which) (u : U) (d : D) (m : deferred) : deferred :=
  mkDeferred (df_done m) (df_fail m) (df_progress m) (df_state m) (df_frames m) (df_called m ++ [(w, (u, d))]) (df_added m) (df_settles m).
Definition log_added (w : which) (us : list U) (m : deferred) : deferred :=
  mkDeferred (df_done m) (df_fail m) (df_progress m) (df_state m) (df_frames m) (df_called m) (df_added m ++ (pair w <$> us)) (df_settles m).
Definition log_settle (w : which) (d : D) (m : deferred) : deferred :=
  mkDeferred (df_done m) (df_fail m) (df_progress m) (df_state m) (df_frames m) (df_called m) (df_added m)
    (match w with Progress => df_settles m | _ => df_settles m ++ [(w, d)] end).

Definition other (w : which) : which := match w with Done => Fail | Fail => Done | Progress => Progress end.
Definition final (w : which) : dstate := match w with Done => Resolved | Fail => Rejected | Progress => Pending end.

Definition once_memory : options := mkOptions true true false false.
Definition memory_only : options := mkOptions false true false false.

(** What a deferred adds to its own lists. *)
Definition own (w : which) : list fn := match w with Progress => [] | _ => [SetState (final w); Disable (other w); Lock Progress] end.

Definition new_deferred : deferred :=
  mkDeferred (add (own Done) (new_callbacks once_memory)).1 (add (own Fail) (new_callbacks once_memory)).1 (new_callbacks memory_only) Pending [] [] [] [].

(** A list, and the call of [fire] if there is one. *)
Definition call (w : which) (r : cbs * option D) (m : deferred) : deferred :=
  match r with
  | (c, Some d) => set_frames (Firing w d :: df_frames m) (put w (begin_fire d c) m)
  | (c, None) => put w c m
  end.

(** ** Choices *)

Inductive choice :=
  | Add (w : which) (us : list U)        (** [done], [fail], [progress] *)
  | FireWith (w : which) (d : D)         (** [resolve], [reject], [notify] *)
  | Return (returned_false : bool)
  | Raise (caught : nat)                 (** an exception, caught after so many further calls *)
  | Loop.                                (** jQuery goes on *)

(** Whether the client's code is running, inside a callback or outside of any. *)
Definition client (fs : list frame) : bool := match fs with Firing _ _ :: _ => false | _ => true end.

(** One turn of a loop. *)
Definition turn (w : which) (d : D) (fs : list frame) (m : deferred) : deferred :=
  let c := list_of w m in
  match current c with
  | Some (User u) => log_call w u d (set_frames (Running u :: Firing w d :: fs) m)
  | Some (SetState s) => set_state s (put w (advance false c) m)
  | Some (Disable w') => let m := put w (advance false c) m in put w' (disable (list_of w' m)) m
  | Some (Lock w') => let m := put w (advance false c) m in put w' (lock (list_of w' m)) m
  | None => call w (end_fire c) (set_frames fs m)
  end.

Definition step (m : deferred) (ch : choice) : option deferred :=
  match ch, df_frames m with
  | Add w us, fs => if client fs then Some (log_added w us (call w (add (User <$> us) (list_of w m)) m)) else None
  | FireWith w d, fs => if client fs then Some (log_settle w d (call w (fireWith d (list_of w m)) m)) else None
  | Return b, Running _ :: Firing w d :: fs => Some (put w (advance b (list_of w m)) (set_frames (Firing w d :: fs) m))
  | Raise k, Running _ :: fs => if client (drop k fs) then Some (set_frames (drop k fs) m) else None
  | Loop, Firing w d :: fs => Some (turn w d fs m)
  | _, _ => None
  end.

Fixpoint run (chs : list choice) (m : deferred) : option deferred :=
  match chs with [] => Some m | ch :: chs' => m' ← step m ch; run chs' m' end.

(** The client's callbacks of a list that were called, and those that were added. *)
Definition called (w : which) (m : deferred) : list (U * D) := omap (fun p => if decide (p.1 = w) then Some p.2 else None) (df_called m).
Definition added (w : which) (m : deferred) : list U := omap (fun p => if decide (p.1 = w) then Some p.2 else None) (df_added m).

(** ** The invariant *)

Definition is_firing (w : which) (f : frame) : bool := match f with Firing w' _ => bool_decide (w' = w) | Running _ => false end.

(** A loop is called by the client's code, a callback by a loop. *)
Fixpoint frames_ok (fs : list frame) : Prop :=
  match fs with
  | [] => True
  | Firing _ _ :: fs' => client fs' = true /\ frames_ok fs'
  | Running _ :: fs' => client fs' = false /\ frames_ok fs'
  end.

Definition no_frame (w : which) (m : deferred) : Prop := List.filter (is_firing w) (df_frames m) = [].
Definition on_top (w : which) (m : deferred) : bool := match df_frames m with f :: _ => is_firing w f | [] => false end.

(** A list that has not fired. *)
Definition fresh (w : which) (m : deferred) : Prop :=
  list_of w m = mkCbs once_memory (Some (own w ++ (User <$> added w m))) None None false false 0 0 0 /\ called w m = [] /\ no_frame w m.

(** A list that never will. *)
Definition dead (w : which) (m : deferred) : Prop :=
  cb_list (list_of w m) = None /\ called w m = [] /\ no_frame w m.

(** A list in its loop: [pre] have been called, [ints] and [vs] are to come. *)
Record firing (w : which) (d : D) (pre ints : list fn) (vs : list U) (m : deferred) : Prop := {
  fi_list : exists i, list_of w m = mkCbs once_memory (Some (pre ++ ints ++ (User <$> vs))) None (Some d) true true 0
      (length (pre ++ ints ++ (User <$> vs))) i /\ length pre = if on_top w m then i else S i;
  fi_ints : exists k, ints = drop k (own w);
  fi_top : ints <> [] -> on_top w m = true;
  fi_added : added w m = (called w m).*1 ++ vs;
  fi_data : Forall (fun p => p.2 = d) (called w m);
  fi_once : (length (List.filter (is_firing w) (df_frames m)) <= 1)%nat;
  fi_frames : forall d', Firing w d' ∈ df_frames m -> d' = d;
  fi_other : if (1 <? length ints)%nat then fresh (other w) m else dead (other w) m;
  fi_state : df_state m = if (2 <? length ints)%nat then Pending else final w }.

Record settled (w : which) (d : D) (m : deferred) : Prop := {
  se_list : exists n i, list_of w m = mkCbs once_memory (Some []) None (Some d) true false 0 n i;
  se_called : called w m = (fun u => (u, d)) <$> added w m;
  se_frames : no_frame w m;
  se_other : dead (other w) m;
  se_state : df_state m = final w }.

Inductive phase (m : deferred) : Prop :=
  | ph_pending : fresh Done m -> fresh Fail m -> df_state m = Pending -> df_settles m = [] -> phase m
  | ph_firing w d pre ints vs : w <> Progress -> firing w d pre ints vs m -> head (df_settles m) = Some (w, d) -> phase m
  | ph_settled w d : w <> Progress -> settled w d m -> head (df_settles m) = Some (w, d) -> phase m.

(** The progress list has only callbacks of the client. *)
Definition only_users (m : deferred) : Prop := Forall (fun f => exists u, f = User u) (default [] (cb_list (df_progress m))).

Record inv (m : deferred) : Prop := { in_frames : frames_ok (df_frames m); in_users : only_users m; in_phase : phase m }.

(** ** Lemmas *)

Lemma list_of_put w c m w' : list_of w' (put w c m) = if decide (w' = w) then c else list_of w' m.
Proof. by destruct w, w'. Qed.
Lemma frames_put w c m : df_frames (put w c m) = df_frames m.
Proof. by destruct w. Qed.
Lemma called_put w c m w' : called w' (put w c m) = called w' m.
Proof. by destruct w. Qed.
Lemma added_put w c m w' : added w' (put w c m) = added w' m.
Proof. by destruct w. Qed.
Lemma state_put w c m : df_state (put w c m) = df_state m.
Proof. by destruct w. Qed.
Lemma settles_put w c m : df_settles (put w c m) = df_settles m.
Proof. by destruct w. Qed.

Lemma called_log w u d m w' : called w' (log_call w u d m) = called w' m ++ (if decide (w = w') then [(u, d)] else []).
Proof. unfold called. cbn [log_call df_called]. rewrite omap_app. cbn. by destruct (decide (w = w')). Qed.

Lemma added_log w us m w' : added w' (log_added w us m) = added w' m ++ (if decide (w = w') then us else []).
Proof.
  unfold added. cbn [log_added df_added]. rewrite omap_app. f_equal. induction us as [|u us IH]; cbn; [by destruct (decide _)|].
  rewrite IH. by destruct (decide (w = w')).
Qed.

Lemma foldl_push l us : foldl (push once_memory) l (User <$> us) = l ++ (User <$> us).
Proof.
  revert l. induction us as [|u us IH]; intros l; cbn [fmap list_fmap foldl]; [by rewrite app_nil_r|].
  rewrite IH. unfold push. cbn [once_memory o_unique andb]. by rewrite <- app_assoc.
Qed.

(** What does not concern the two lists that settle. *)
Lemma phase_keep m m' :
  (forall w, w <> Progress -> list_of w m' = list_of w m /\ called w m' = called w m /\ added w m' = added w m /\ on_top w m' = on_top w m /\
     List.filter (is_firing w) (df_frames m') `sublist_of` List.filter (is_firing w) (df_frames m)) ->
  df_state m' = df_state m -> df_settles m' = df_settles m -> phase m -> phase m'.
Proof.
  intros Hw Hs Ht. assert (Hn : forall w, w <> Progress -> no_frame w m -> no_frame w m').
  { intros w Hp Hn. destruct (Hw w Hp) as (_ & _ & _ & _ & Hf). unfold no_frame in *. rewrite Hn in Hf. by apply sublist_nil_r in Hf. }
  assert (Hfresh : forall w, w <> Progress -> fresh w m -> fresh w m').
  { intros w Hp (F1 & F2 & F3). destruct (Hw w Hp) as (E1 & E2 & E3 & _ & _). split_and!; [by rewrite E1, E3|by rewrite E2|by apply Hn]. }
  assert (Hdead : forall w, w <> Progress -> dead w m -> dead w m').
  { intros w Hp (F1 & F2 & F3). destruct (Hw w Hp) as (E1 & E2 & _). split_and!; [by rewrite E1|by rewrite E2|by apply Hn]. }
  assert (Ho : forall w, w <> Progress -> other w <> Progress) by (by intros []).
  intros [P1 P2 P3 P4|w d pre ints vs Hp [F1 F2 F3 F4 F5 F6 F7 F8 F9] P4|w d Hp [S1 S2 S3 S4 S5] P4].
  - apply ph_pending; [by apply Hfresh|by apply Hfresh|by rewrite Hs|by rewrite Ht].
  - apply (ph_firing _ w d pre ints vs); [done| |by rewrite Ht]. destruct (Hw w Hp) as (E1 & E2 & E3 & E4 & E5).
    constructor; rewrite ?E1, ?E2, ?E3, ?E4, ?Hs; try done.
    + apply sublist_length in E5. lia.
    + intros d' Hd. apply F7. assert (Hx : Firing w d' ∈ List.filter (is_firing w) (df_frames m')).
      { apply list_elem_of_In, filter_In. split; [by apply list_elem_of_In|]. cbn. by apply bool_decide_eq_true_2. }
      apply (elem_of_sublist _ _ _ Hx) in E5 as Hx'. clear Hx. rename Hx' into Hx. apply list_elem_of_In, filter_In in Hx as [Hx _]. by apply list_elem_of_In.
    + destruct (1 <? length ints)%nat; auto.
  - apply (ph_settled _ w d); [done| |by rewrite Ht]. destruct (Hw w Hp) as (E1 & E2 & E3 & E4 & E5).
    constructor; rewrite ?E1, ?E2, ?E3, ?Hs; auto.
Qed.

Lemma client_top m w : client (df_frames m) = true -> on_top w m = false.
Proof. unfold on_top. by destruct (df_frames m) as [|[]]. Qed.

(** A list that is called leaves the others alone. *)
Lemma list_of_call w r m w' : w' <> w -> list_of w' (call w r m) = list_of w' m.
Proof. intros Hne. destruct r as [c [d|]]; cbn [call]; (change (list_of w' (set_frames ?fs ?x)) with (list_of w' x) || idtac); rewrite list_of_put; by rewrite decide_False. Qed.
Lemma called_call w r m w' : called w' (call w r m) = called w' m.
Proof. destruct r as [c [d|]]; apply called_put. Qed.
Lemma added_call w r m w' : added w' (call w r m) = added w' m.
Proof. destruct r as [c [d|]]; apply added_put. Qed.
Lemma state_call w r m : df_state (call w r m) = df_state m.
Proof. destruct r as [c [d|]]; apply state_put. Qed.
Lemma settles_call w r m : df_settles (call w r m) = df_settles m.
Proof. destruct r as [c [d|]]; apply settles_put. Qed.
Lemma frames_call w r m : df_frames (call w r m) = match r.2 with Some d => Firing w d :: df_frames m | None => df_frames m end.
Proof. destruct r as [c [d|]]; [done|apply frames_put]. Qed.

Lemma frames_ok_call w r m : client (df_frames m) = true -> frames_ok (df_frames m) -> frames_ok (df_frames (call w r m)).
Proof. intros Hc Hf. rewrite frames_call. destruct r as [c [d|]]; [by split|done]. Qed.

(** Calling the progress list from the client's code, or from the end of its own loop. *)
Lemma phase_progress r m : client (df_frames m) = true -> phase m -> phase (call Progress r m).
Proof.
  intros Hc. apply phase_keep; [|apply state_call|apply settles_call]. intros w Hw.
  rewrite called_call, added_call. split_and!; [by apply list_of_call|done|done| |].
  - rewrite (client_top m) by done. unfold on_top. rewrite frames_call. destruct r as [c [d|]]; [cbn; by apply bool_decide_eq_false_2|by apply client_top].
  - rewrite frames_call. destruct r as [c [d|]]; [|done]. cbn [snd List.filter is_firing]. by rewrite bool_decide_eq_false_2.
Qed.

Definition users_of (c : cbs) : Prop := Forall (fun f => exists u : U, f = User u) (default [] (cb_list c)).

Lemma users_add us c : users_of c -> users_of (add (User <$> us) c).1.
Proof.
  unfold users_of, add. destruct (cb_list c) as [l|] eqn:El; [|cbn; by rewrite El]. intros Hu.
  assert (Hl : Forall (fun f => exists u : U, f = User u) (foldl (push (cb_options c)) l (User <$> us))).
  { revert l El Hu. clear. intros l _. revert l. induction us as [|u us IH]; intros l Hu; [done|]. cbn [fmap list_fmap foldl]. apply IH.
    unfold push. destruct (_ && _); [done|]. apply Forall_app. split; [done|]. constructor; [by eexists|done]. }
  destruct (cb_firing c); [done|]. by destruct (cb_memory c).
Qed.
Lemma users_fireWith d c : users_of c -> users_of (fireWith d c).1.
Proof. unfold users_of, fireWith. intros Hu. destruct (cb_list c) eqn:E; [|cbn; by rewrite E]. destruct (_ || _); [|cbn; by rewrite E]. destruct (cb_firing c); [done|cbn; by rewrite E]. Qed.
Lemma users_end c : users_of c -> users_of (end_fire c).1.
Proof. unfold users_of, end_fire. intros Hu. cbn. destruct (cb_list c) as [l|]; [|done]. destruct (cb_stack c) as [[|]|]; [done|done|]. destruct (cb_memory c); constructor. Qed.
Lemma users_advance b c : users_of c -> users_of (advance b c).
Proof. unfold advance. by destruct (_ && _). Qed.
Lemma users_lock c : users_of c -> users_of (lock c).
Proof. unfold users_of, lock. destruct (cb_memory c); [done|]. intros _. constructor. Qed.

Lemma users_call w r m : only_users m -> (w = Progress -> users_of r.1) -> only_users (call w r m).
Proof. intros Hu Hr. unfold only_users. destruct r as [c [d|]]; destruct w; try exact Hu; by apply Hr. Qed.

(** *** The client adds callbacks *)

Section Adding.
Context (w : which) (us : list U) (m : deferred) (Hc : client (df_frames m) = true).

Definition adding : deferred := log_added w us (call w (add (User <$> us) (list_of w m)) m).

Lemma adding_called w' : called w' adding = called w' m.
Proof. apply called_call. Qed.
Lemma adding_added w' : added w' adding = added w' m ++ (if decide (w = w') then us else []).
Proof. unfold adding. by rewrite added_log, added_call. Qed.
Lemma adding_other w' : w' <> w -> list_of w' adding = list_of w' m.
Proof. intros Hne. by apply list_of_call. Qed.

(** A list that does not fire now. *)
Lemma adding_quiet c' : add (User <$> us) (list_of w m) = (c', None) -> df_frames adding = df_frames m /\ list_of w adding = c'.
Proof.
  intros E. unfold adding. rewrite E. split; [apply frames_put|]. change (list_of w (put w c' m) = c'). rewrite list_of_put. by rewrite decide_True.
Qed.

Lemma add_fresh w' : w' <> Progress -> df_frames adding = df_frames m -> fresh w' m -> fresh w' adding.
Proof.
  intros Hp Hf (F1 & F2 & F3). unfold fresh, no_frame. rewrite adding_called, adding_added, Hf. split_and!; [|done|done].
  destruct (decide (w = w')) as [<-|Hne]; [|by rewrite adding_other, app_nil_r by done].
  assert (E : add (User <$> us) (list_of w m) = (mkCbs once_memory (Some (own w ++ (User <$> added w m ++ us))) None None false false 0 0 0, None)).
  { unfold add. rewrite F1. cbn [cb_list cb_options cb_firing cb_memory]. rewrite foldl_push. by rewrite fmap_app, app_assoc. }
  by destruct (adding_quiet _ E).
Qed.

Lemma add_dead_list : cb_list (list_of w m) = None -> add (User <$> us) (list_of w m) = (list_of w m, None).
Proof. intros E. unfold add. by rewrite E. Qed.

Lemma add_dead w' : (w' <> w -> df_frames adding = df_frames m \/ exists d, df_frames adding = Firing w d :: df_frames m) -> dead w' m -> dead w' adding.
Proof.
  intros Hf (F1 & F2 & F3). unfold dead. rewrite adding_called. destruct (decide (w' = w)) as [->|Hne].
  - destruct (adding_quiet _ (add_dead_list F1)) as [E1 E2]. unfold no_frame. by rewrite E1, E2.
  - rewrite adding_other by done. split_and!; [done|done|]. unfold no_frame in *. destruct (Hf Hne) as [-> |[d ->]]; [done|].
    cbn [List.filter is_firing]. by rewrite bool_decide_eq_false_2 by congruence.
Qed.

Lemma add_firing w0 d pre vs : w <> Progress -> w0 <> Progress -> firing w0 d pre [] vs m -> exists vs', firing w0 d pre [] vs' adding.
Proof.
  intros Hp Hp0 [F1 F2 F3 F4 F5 F6 F7 F8 F9]. destruct F1 as (i & F1 & Hi). cbn [length Nat.ltb Nat.leb] in F8, F9. rewrite client_top in Hi by done.
  destruct (decide (w = w0)) as [<-|Hne].
  - assert (E : add (User <$> us) (list_of w m) =
      (mkCbs once_memory (Some (pre ++ [] ++ (User <$> vs ++ us))) None (Some d) true true 0 (length (pre ++ [] ++ (User <$> vs ++ us))) i, None)).
    { unfold add. rewrite F1. cbn [cb_list cb_options cb_firing cb_memory cb_stack cb_fired cb_start cb_index]. rewrite foldl_push. cbn [app].
      by rewrite fmap_app, app_assoc. }
    destruct (adding_quiet _ E) as [E1 E2]. exists (vs ++ us). constructor.
    + exists i. rewrite E2. split; [done|]. unfold on_top. rewrite E1. fold (on_top w m). by rewrite client_top.
    + done.
    + done.
    + rewrite adding_called, adding_added, decide_True, F4 by done. by rewrite app_assoc.
    + by rewrite adding_called.
    + by rewrite E1.
    + by rewrite E1.
    + cbn. apply add_dead; [|done]. intros _. by left.
    + rewrite <- F9. apply state_call.
  - assert (Hw : w = other w0) by (by destruct w, w0).
    assert (Hd : cb_list (list_of w m) = None) by (rewrite Hw; apply F8). destruct (adding_quiet _ (add_dead_list Hd)) as [E1 E2]. exists vs. constructor.
    + exists i. rewrite adding_other by done. split; [done|]. unfold on_top. rewrite E1. fold (on_top w0 m). by rewrite client_top.
    + done.
    + done.
    + by rewrite adding_called, adding_added, decide_False, app_nil_r.
    + by rewrite adding_called.
    + by rewrite E1.
    + by rewrite E1.
    + cbn. apply add_dead; [|done]. intros _. by left.
    + rewrite <- F9. apply state_call.
Qed.

Lemma add_settled w0 d : w <> Progress -> w0 <> Progress -> settled w0 d m -> settled w0 d adding \/ exists vs, firing w0 d [] [] vs adding.
Proof.
  intros Hp Hp0 [S1 S2 S3 S4 S5]. destruct S1 as (n & i & S1). destruct (decide (w = w0)) as [<-|Hne].
  - right. exists us. assert (E : add (User <$> us) (list_of w m) = (mkCbs once_memory (Some (User <$> us)) None (Some d) true false 0 n i, Some d)).
    { unfold add. rewrite S1. cbn [cb_list cb_options cb_firing cb_memory cb_stack cb_fired cb_start cb_index cb_length]. by rewrite foldl_push. }
    assert (Ef : df_frames adding = Firing w d :: df_frames m) by (unfold adding; rewrite E; done).
    assert (El : list_of w adding = begin_fire d (mkCbs once_memory (Some (User <$> us)) None (Some d) true false 0 n i)).
    { unfold adding. rewrite E. change (list_of w (put w (begin_fire d (mkCbs once_memory (Some (User <$> us)) None (Some d) true false 0 n i)) m) =
        begin_fire d (mkCbs once_memory (Some (User <$> us)) None (Some d) true false 0 n i)). rewrite list_of_put. by rewrite decide_True. }
    constructor.
    + exists 0. rewrite El. split; [done|]. unfold on_top. rewrite Ef. cbn [is_firing]. by rewrite bool_decide_eq_true_2.
    + exists 3. by destruct w.
    + done.
    + rewrite adding_called, adding_added, decide_True, S2 by done. rewrite <- list_fmap_compose. unfold compose. cbn. by rewrite list_fmap_id.
    + rewrite adding_called, S2. apply Forall_fmap, Forall_true. done.
    + rewrite Ef. cbn [List.filter is_firing]. rewrite bool_decide_eq_true_2 by done. rewrite S3. cbn. lia.
    + intros d' Hd. rewrite Ef, elem_of_cons in Hd. destruct Hd as [[= ->]|Hd]; [done|]. exfalso.
      assert (Hx : Firing w d' ∈ List.filter (is_firing w) (df_frames m)); [|rewrite S3 in Hx; by apply not_elem_of_nil in Hx].
      apply list_elem_of_In, filter_In. split; [by apply list_elem_of_In|]. cbn. by apply bool_decide_eq_true_2.
    + cbn. apply add_dead; [|done]. intros _. right. by exists d.
    + cbn. rewrite <- S5. apply state_call.
  - left. assert (Hw : w = other w0) by (by destruct w, w0).
    assert (Hd : cb_list (list_of w m) = None) by (rewrite Hw; apply S4). destruct (adding_quiet _ (add_dead_list Hd)) as [E1 E2]. constructor.
    + exists n, i. by rewrite adding_other.
    + by rewrite adding_called, adding_added, decide_False, app_nil_r.
    + unfold no_frame. by rewrite E1.
    + apply add_dead; [|done]. intros _. by left.
    + rewrite <- S5. apply state_call.
Qed.

Lemma inv_add : inv m -> inv adding.
Proof.
  intros [I1 I2 I3]. constructor.
  - by apply frames_ok_call.
  - apply (users_call w); [done|]. intros Hw. rewrite Hw. by apply users_add.
  - destruct (decide (w = Progress)) as [Hw|Hp].
    { unfold adding. rewrite Hw. apply (phase_keep (call Progress (add (User <$> us) (list_of Progress m)) m)); [|done|done|by apply phase_progress].
      intros w' Hw'. rewrite added_log, decide_False, app_nil_r by congruence. split_and!; done. }
    assert (Hse : df_settles adding = df_settles m) by apply settles_call.
    destruct I3 as [P1 P2 P3 P4|w0 d pre ints vs Hp0 Hf P4|w0 d Hp0 Hs P4].
    + assert (Hf : df_frames adding = df_frames m).
      { assert (Hfr : fresh w m) by (by destruct w). destruct Hfr as (F1 & _). unfold adding, add. rewrite F1. cbn [cb_list cb_firing cb_memory call]. apply frames_put. }
      apply ph_pending; [by apply add_fresh|by apply add_fresh| |by rewrite Hse]. rewrite <- P3. apply state_call.
    + assert (Hi : ints = []). { destruct ints; [done|]. pose proof (fi_top _ _ _ _ _ _ Hf ltac:(done)) as Ht. by rewrite client_top in Ht. }
      subst ints. destruct (add_firing w0 d pre vs Hp Hp0 Hf) as [vs' Hf']. apply (ph_firing _ w0 d pre [] vs'); [done|done|by rewrite Hse].
    + destruct (add_settled w0 d Hp Hp0 Hs) as [Hs'|[vs Hf]]; [apply (ph_settled _ w0 d)|apply (ph_firing _ w0 d [] [] vs)]; try done; by rewrite Hse.
Qed.
End Adding.

(** *** The client resolves, rejects or notifies *)

Lemma put_same w m : put w (list_of w m) m = m.
Proof. by destruct w, m. Qed.

(** A second attempt to settle is only remembered. *)
Lemma phase_settle_again w d m :
  df_settles m <> [] -> phase m -> phase (log_settle w d m).
Proof.
  intros Hne. assert (Hh : forall x, head (df_settles m) = Some x -> head (df_settles (log_settle w d m)) = Some x).
  { intros x Hx. destruct w; cbn [log_settle df_settles]; try done; by destruct (df_settles m). }
  intros [P1 P2 P3 P4|w0 d0 pre ints vs Hp0 [F1 F2 F3 F4 F5 F6 F7 F8 F9] P4|w0 d0 Hp0 [S1 S2 S3 S4 S5] P4]; [done| |].
  - apply (ph_firing _ w0 d0 pre ints vs); [done| |by apply Hh]. by constructor.
  - apply (ph_settled _ w0 d0); [done| |by apply Hh]. by constructor.
Qed.

(** The lists of a deferred that has settled, or is about to, do not fire again. *)
Lemma fireWith_late w d m :
  w <> Progress -> client (df_frames m) = true -> df_settles m <> [] -> phase m -> fireWith d (list_of w m) = (list_of w m, None).
Proof.
  intros Hp Hc Hne [P1 P2 P3 P4|w0 d0 pre ints vs Hp0 Hf P4|w0 d0 Hp0 [S1 S2 S3 S4 S5] P4]; [done| |].
  - assert (Hi : ints = []). { destruct ints; [done|]. pose proof (fi_top _ _ _ _ _ _ Hf ltac:(done)) as Ht. by rewrite client_top in Ht. }
    subst ints. destruct Hf as [(i & F1 & _) _ _ _ _ _ _ F8 _]. destruct (decide (w = w0)) as [->|Hw]; [unfold fireWith; by rewrite F1|].
    assert (w = other w0) as -> by (by destruct w, w0). unfold fireWith. by rewrite (proj1 F8).
  - destruct S1 as (n & i & S1). destruct (decide (w = w0)) as [->|Hw]; [unfold fireWith; by rewrite S1|].
    assert (w = other w0) as -> by (by destruct w, w0). unfold fireWith. by rewrite (proj1 S4).
Qed.

(** The first one fires its list. *)
Lemma phase_first w d m :
  w <> Progress -> fresh Done m -> fresh Fail m -> df_state m = Pending -> df_settles m = [] ->
  phase (log_settle w d (call w (fireWith d (list_of w m)) m)).
Proof.
  intros Hp P1 P2 P3 P4. assert (Hw : fresh w m) by (by destruct w). assert (Ho : fresh (other w) m) by (by destruct w).
  destruct Hw as (F1 & F2 & F3). assert (E : fireWith d (list_of w m) = (list_of w m, Some d)) by (unfold fireWith; by rewrite F1).
  rewrite E. set (m' := log_settle w d _).
  assert (El : list_of w m' = begin_fire d (list_of w m)).
  { change (list_of w (put w (begin_fire d (list_of w m)) m) = begin_fire d (list_of w m)). rewrite list_of_put. by rewrite decide_True. }
  assert (Ef : df_frames m' = Firing w d :: df_frames m) by done.
  assert (Ec : forall w', called w' m' = called w' m) by (intros w'; apply called_put).
  assert (Ea : forall w', added w' m' = added w' m) by (intros w'; apply added_put).
  assert (Es : df_settles m' = [(w, d)]).
  { unfold m'. cbn [log_settle df_settles]. assert (Es : df_settles (call w (list_of w m, Some d) m) = []) by (by rewrite settles_call). rewrite Es. by destruct w. }
  apply (ph_firing _ w d [] (own w) (added w m)); [done| |by rewrite Es].
  assert (Hlen : length (own w) = 3) by (by destruct w). constructor; rewrite ?Hlen.
  - exists 0. rewrite El, F1. split; [done|]. unfold on_top. rewrite Ef. cbn [is_firing]. by rewrite bool_decide_eq_true_2.
  - by exists 0.
  - intros _. unfold on_top. rewrite Ef. by apply bool_decide_eq_true_2.
  - by rewrite Ec, Ea, F2.
  - by rewrite Ec, F2.
  - rewrite Ef. cbn [List.filter is_firing]. rewrite bool_decide_eq_true_2 by done. rewrite F3. cbn. lia.
  - intros d' Hd. rewrite Ef, elem_of_cons in Hd. destruct Hd as [[= ->]|Hd]; [done|]. exfalso.
    assert (Hx : Firing w d' ∈ List.filter (is_firing w) (df_frames m)); [|rewrite F3 in Hx; by apply not_elem_of_nil in Hx].
    apply list_elem_of_In, filter_In. split; [by apply list_elem_of_In|]. cbn. by apply bool_decide_eq_true_2.
  - cbn. destruct Ho as (G1 & G2 & G3). unfold fresh, no_frame. rewrite Ec, Ea, Ef. split_and!; [|done|].
    + rewrite <- G1. change (list_of (other w) (put w (begin_fire d (list_of w m)) m) = list_of (other w) m). rewrite list_of_put. by rewrite decide_False by (by destruct w).
    + cbn [List.filter is_firing]. rewrite bool_decide_eq_false_2 by (by destruct w). exact G3.
  - cbn. rewrite <- P3. apply state_put.
Qed.

Lemma inv_fireWith w d m : inv m -> client (df_frames m) = true -> inv (log_settle w d (call w (fireWith d (list_of w m)) m)).
Proof.
  intros [I1 I2 I3] Hc. constructor.
  - by apply frames_ok_call.
  - apply (users_call w); [done|]. intros ->. by apply users_fireWith.
  - destruct (decide (w = Progress)) as [->|Hp].
    { apply (phase_keep (call Progress (fireWith d (list_of Progress m)) m)); [done|done|done|by apply phase_progress]. }
    destruct (decide (df_settles m = [])) as [He|Hne].
    + destruct I3 as [P1 P2 P3 P4|w0 d0 pre ints vs Hp0 Hf P4|w0 d0 Hp0 Hs P4]; [by apply phase_first|by rewrite He in P4|by rewrite He in P4].
    + rewrite fireWith_late by done. cbn [call]. rewrite put_same. by apply phase_settle_again.
Qed.

(** *** A turn of a loop *)

Lemma no_frame_in w d m : Firing w d ∈ df_frames m -> ~ no_frame w m.
Proof.
  intros Hin Hn. assert (Hx : Firing w d ∈ List.filter (is_firing w) (df_frames m)); [|rewrite Hn in Hx; by apply not_elem_of_nil in Hx].
  apply list_elem_of_In, filter_In. split; [by apply list_elem_of_In|]. by apply bool_decide_eq_true_2.
Qed.

(** A loop under way is that of the list that settles. *)
Lemma phase_loop w d m :
  w <> Progress -> Firing w d ∈ df_frames m -> phase m ->
  exists pre ints vs, firing w d pre ints vs m /\ head (df_settles m) = Some (w, d).
Proof.
  intros Hp Hf. pose proof (no_frame_in w d m Hf) as Hn.
  intros [P1 P2 P3 P4|w0 d0 pre ints vs Hp0 F P4|w0 d0 Hp0 [S1 S2 S3 S4 S5] P4].
  - destruct Hn. by destruct w; [apply P1|apply P2|].
  - destruct (decide (w = w0)) as [<-|Hw].
    + assert (d = d0) as <- by (by apply (fi_frames _ _ _ _ _ _ F)). by exists pre, ints, vs.
    + destruct Hn. assert (w = other w0) as -> by (by destruct w, w0). pose proof (fi_other _ _ _ _ _ _ F) as Ho. destruct (_ <? _)%nat; apply Ho.
  - destruct Hn. destruct (decide (w = w0)) as [<-|Hw]; [done|]. assert (w = other w0) as -> by (by destruct w, w0). apply S4.
Qed.

Lemma firing_current w d pre ints vs m : firing w d pre ints vs m -> on_top w m = true -> current (list_of w m) = head (ints ++ (User <$> vs)).
Proof.
  intros [(i & F1 & Hi) _ _ _ _ _ _ _ _] Ht. rewrite Ht in Hi. rewrite F1. unfold current. cbn [cb_list cb_index cb_length mbind option_bind].
  rewrite <- Hi. rewrite !length_app. destruct (ints ++ (User <$> vs)) as [|x l] eqn:E.
  - assert (El : length ints + length (User <$> vs) = 0) by (rewrite <- length_app, E; done). rewrite El, Nat.add_0_r. by rewrite Nat.ltb_irrefl.
  - assert (El : length ints + length (User <$> vs) = S (length l)) by (rewrite <- length_app, E; done). rewrite El.
    rewrite (proj2 (Nat.ltb_lt _ _)) by lia. rewrite lookup_app_r by lia. by rewrite Nat.sub_diag.
Qed.

(** One of the deferred's own callbacks. *)
Lemma firing_advance w d pre x ints vs m m' :
  firing w d pre (x :: ints) vs m -> on_top w m = true -> df_frames m' = df_frames m -> list_of w m' = advance false (list_of w m) ->
  called w m' = called w m -> added w m' = added w m ->
  (if (1 <? length ints)%nat then fresh (other w) m' else dead (other w) m') ->
  df_state m' = (if (2 <? length ints)%nat then Pending else final w) ->
  firing w d (pre ++ [x]) ints vs m'.
Proof.
  intros [(i & F1 & Hi) [k F2] F3 F4 F5 F6 F7 F8 F9] Ht Ef El Ec Ea Ho Hs. rewrite Ht in Hi.
  assert (Ht' : on_top w m' = true) by (unfold on_top; rewrite Ef; exact Ht).
  constructor; rewrite ?Ec, ?Ea, ?Ef; try done.
  - exists (S i). rewrite El, F1, Ht'. split; [|rewrite length_app; cbn; lia]. rewrite <- !app_assoc. done.
  - exists (S k). replace (S k) with (k + 1) by lia. rewrite <- drop_drop, <- F2. done.
Qed.

Lemma own_cases w k : w <> Progress ->
  drop k (own w) = [] \/ drop k (own w) = [SetState (final w); Disable (other w); Lock Progress] \/
  drop k (own w) = [Disable (other w); Lock Progress] \/ drop k (own w) = [Lock Progress].
Proof.
  intros Hp. destruct k as [|[|[|k]]]; destruct w; try done; cbn; auto; left; by destruct k.
Qed.

(** The three own callbacks: the state, the other list, the progress list. *)
Lemma turn_own w d fs pre x ints vs m :
  w <> Progress -> df_frames m = Firing w d :: fs -> firing w d pre (x :: ints) vs m -> on_top w m = true ->
  firing w d (pre ++ [x]) ints vs (turn w d fs m) /\ df_frames (turn w d fs m) = df_frames m /\ df_settles (turn w d fs m) = df_settles m /\
  (only_users m -> only_users (turn w d fs m)).
Proof.
  intros Hp Hf F Ht. destruct (fi_ints _ _ _ _ _ _ F) as [k Hk]. unfold turn. rewrite (firing_current _ _ _ _ _ _ F Ht). cbn [app head].
  set (m1 := put w (advance false (list_of w m)) m).
  assert (E1 : list_of w m1 = advance false (list_of w m)) by (unfold m1; rewrite list_of_put; by rewrite decide_True).
  assert (E2 : forall w', w' <> w -> list_of w' m1 = list_of w' m) by (intros w' Hne; unfold m1; rewrite list_of_put; by rewrite decide_False).
  assert (Ec : forall w', called w' m1 = called w' m) by (intros; apply called_put). assert (Ea : forall w', added w' m1 = added w' m) by (intros; apply added_put).
  assert (Ef : df_frames m1 = df_frames m) by apply frames_put. assert (Es : df_settles m1 = df_settles m) by apply settles_put.
  assert (Ew : other w <> w) by (by destruct w). assert (Eo : other w <> Progress) by (by destruct w).
  assert (Hu1 : only_users m -> only_users m1) by (unfold only_users, m1; by destruct w).
  pose proof (fi_other _ _ _ _ _ _ F) as Ho. pose proof (fi_state _ _ _ _ _ _ F) as Hs.
  destruct (own_cases w k Hp) as [Hd|[Hd|[Hd|Hd]]]; rewrite Hd in Hk; simplify_eq; cbn in Ho, Hs.
  - split_and!; [|done|done|done]. apply (firing_advance w d pre _ _ vs m); try done; [exact (Ec w)|exact (Ea w)|]. cbn. destruct Ho as (G1 & G2 & G3).
    unfold fresh, no_frame. split_and!; [|exact (eq_trans (Ec _) G2)|].
    + change (list_of (other w) m1 = mkCbs once_memory (Some (own (other w) ++ (User <$> added (other w) m1))) None None false false 0 0 0). by rewrite E2, Ea.
    + change (List.filter (is_firing (other w)) (df_frames m1) = []). by rewrite Ef.
  - assert (Hs1 : df_state m1 = df_state m) by apply state_put. destruct Ho as (G1 & G2 & G3).
    split_and!; [|by rewrite frames_put|by rewrite settles_put|intros Hu; destruct w; [by apply Hu1|by apply Hu1|done]].
    apply (firing_advance w d pre _ _ vs m); rewrite ?frames_put, ?called_put, ?added_put, ?state_put; try done.
    + rewrite list_of_put. by rewrite decide_False.
    + cbn. unfold dead, no_frame. rewrite frames_put, called_put, Ef, Ec, list_of_put, decide_True by done. done.
    + by rewrite Hs1, Hs.
  - assert (Hs1 : df_state m1 = df_state m) by apply state_put. destruct Ho as (G1 & G2 & G3).
    split_and!; [|by rewrite frames_put|by rewrite settles_put|].
    + apply (firing_advance w d pre _ _ vs m); rewrite ?frames_put, ?called_put, ?added_put, ?state_put; try done.
      * rewrite list_of_put. by rewrite decide_False.
      * cbn [length Nat.ltb Nat.leb]. unfold dead, no_frame. rewrite frames_put, called_put, Ef, Ec, list_of_put, decide_False, E2 by done. done.
      * by rewrite Hs1, Hs.
    + intros Hu. apply (users_lock (df_progress m1)). by apply Hu1.
Qed.

(** A callback of the client. *)
Lemma turn_user w d fs pre u vs m :
  w <> Progress -> df_frames m = Firing w d :: fs -> firing w d pre [] (u :: vs) m -> on_top w m = true ->
  firing w d (pre ++ [User u]) [] vs (log_call w u d (set_frames (Running u :: Firing w d :: fs) m)).
Proof.
  intros Hp Hf [(i & F1 & Hi) F2 F3 F4 F5 F6 F7 F8 F9] Ht. rewrite Ht in Hi. set (m' := log_call _ _ _ _).
  assert (Ec : forall w', called w' m' = called w' m ++ (if decide (w = w') then [(u, d)] else [])) by (intros; unfold m'; by rewrite called_log).
  assert (Ef : List.filter (is_firing w) (df_frames m') = List.filter (is_firing w) (df_frames m)) by (rewrite Hf; done).
  constructor.
  - exists i. split; [|cbn; rewrite length_app; cbn; lia]. rewrite <- app_assoc. exact F1.
  - done.
  - done.
  - change (added w m = (called w m').*1 ++ vs). rewrite Ec, decide_True, F4 by done. rewrite fmap_app, <- app_assoc. done.
  - rewrite Ec, decide_True by done. apply Forall_app. split; [done|]. by constructor.
  - by rewrite Ef.
  - intros d' Hd. apply F7. rewrite Hf. cbn in Hd. by apply elem_of_cons in Hd as [?|Hd].
  - cbn in F8 |- *. destruct F8 as (G1 & G2 & G3). unfold dead, no_frame. rewrite Ec, decide_False, app_nil_r by (by destruct w). split_and!; [done|done|].
    unfold no_frame in G3. rewrite Hf in G3. exact G3.
  - done.
Qed.

(** The end of the loop. *)
Lemma turn_end w d fs pre m :
  w <> Progress -> df_frames m = Firing w d :: fs -> firing w d pre [] [] m -> on_top w m = true ->
  end_fire (list_of w m) = (mkCbs once_memory (Some []) None (Some d) true false 0 (length pre) (length pre), None) /\
  settled w d (call w (end_fire (list_of w m)) (set_frames fs m)).
Proof.
  intros Hp Hf [(i & F1 & Hi) F2 F3 F4 F5 F6 F7 F8 F9] Ht. rewrite Ht in Hi. rewrite app_nil_r in F1.
  assert (E : end_fire (list_of w m) = (mkCbs once_memory (Some []) None (Some d) true false 0 (length pre) (length pre), None)) by (rewrite F1, <- Hi; done).
  split; [done|]. rewrite E. cbn [call]. constructor.
  - eexists _, _. rewrite list_of_put. by rewrite decide_True.
  - rewrite called_put, added_put. change (called w m = (fun u => (u, d)) <$> added w m). rewrite F4, app_nil_r. clear -F5.
    induction F5 as [|[u d'] l Hd _ IH]; [done|]. cbn in *. by rewrite <- IH, Hd.
  - unfold no_frame. rewrite frames_put. cbn [set_frames df_frames]. rewrite Hf in F6. cbn [List.filter is_firing] in F6.
    rewrite bool_decide_eq_true_2 in F6 by done. cbn in F6. apply length_zero_iff_nil. lia.
  - cbn in F8. destruct F8 as (G1 & G2 & G3). unfold dead, no_frame in *. rewrite frames_put, called_put, list_of_put, decide_False by (by destruct w).
    split_and!; [exact G1|done|]. rewrite Hf in G3. cbn [List.filter is_firing] in G3. by rewrite bool_decide_eq_false_2 in G3 by (by destruct w).
  - rewrite state_put. exact F9.
Qed.

Lemma current_in c f : current c = Some f -> f ∈ default [] (cb_list c).
Proof. unfold current. destruct (cb_list c) as [l|]; [|done]. cbn [mbind option_bind]. destruct (cb_index c <? cb_length c)%nat; [|done]. apply list_elem_of_lookup_2. Qed.

Lemma inv_turn w d fs m : inv m -> df_frames m = Firing w d :: fs -> inv (turn w d fs m).
Proof.
  intros [I1 I2 I3] Hf. pose proof I1 as I1'. rewrite Hf in I1'. destruct I1' as [Hc Hfs]. destruct (decide (w = Progress)) as [->|Hp].
  - unfold turn. cbn [list_of]. destruct (current (df_progress m)) as [f|] eqn:E.
    + pose proof I2 as Hu. unfold only_users in Hu. rewrite Forall_forall in Hu. destruct (Hu f (current_in _ _ E)) as [u ->].
      constructor; [done|exact I2|]. apply (phase_keep m); [|done|done|done]. intros w Hw. split_and!; try done.
      * by rewrite called_log, decide_False, app_nil_r by congruence.
      * unfold on_top. cbn. rewrite Hf. cbn. symmetry. by apply bool_decide_eq_false_2.
      * cbn [log_call df_frames set_frames]. rewrite Hf. done.
    + constructor.
      * by apply frames_ok_call.
      * apply users_call; [exact I2|]. intros _. by apply users_end.
      * apply phase_progress; [done|]. apply (phase_keep m); [|done|done|done]. intros w Hw. split_and!; try done.
        -- rewrite (client_top (set_frames fs m)) by done. unfold on_top. rewrite Hf. cbn. symmetry. by apply bool_decide_eq_false_2.
        -- rewrite Hf. cbn [set_frames df_frames List.filter is_firing]. by rewrite bool_decide_eq_false_2.
  - destruct (phase_loop w d m Hp ltac:(rewrite Hf; left) I3) as (pre & ints & vs & F & Hh).
    assert (Ht : on_top w m = true) by (unfold on_top; rewrite Hf; by apply bool_decide_eq_true_2).
    destruct ints as [|x ints]; cycle 1.
    { destruct (turn_own w d fs pre x ints vs m Hp Hf F Ht) as (F' & Ef & Es & Hu).
      constructor; [by rewrite Ef|by apply Hu|]. apply (ph_firing _ w d (pre ++ [x]) ints vs); [done|done|by rewrite Es]. }
    unfold turn. rewrite (firing_current _ _ _ _ _ _ F Ht). destruct vs as [|u vs]; cbn [app fmap list_fmap head].
    + destruct (turn_end w d fs pre m Hp Hf F Ht) as [E Hs]. constructor.
      * rewrite E. cbn [call]. by rewrite frames_put.
      * apply users_call; [exact I2|done].
      * apply (ph_settled _ w d); [done|done|]. by rewrite settles_call.
    + constructor; [done|exact I2|]. apply (ph_firing _ w d (pre ++ [User u]) [] vs); [done|by apply turn_user|done].
Qed.

(** *** A callback returns or throws *)

Lemma inv_return u w d fs b m : inv m -> df_frames m = Running u :: Firing w d :: fs -> inv (put w (advance b (list_of w m)) (set_frames (Firing w d :: fs) m)).
Proof.
  intros [I1 I2 I3] Hf. rewrite Hf in I1. destruct I1 as [_ I1]. constructor.
  - by rewrite frames_put.
  - unfold only_users. destruct w; [exact I2|exact I2|]. by apply users_advance.
  - assert (Hin : Firing w d ∈ df_frames m) by (rewrite Hf; right; by left). destruct (decide (w = Progress)) as [->|Hp].
    + apply (phase_keep m); [|done|done|done]. intros w Hw. split_and!; [by destruct w|done|done| |].
      * unfold on_top. rewrite frames_put, Hf. cbn. by apply bool_decide_eq_false_2.
      * rewrite frames_put, Hf. done.
    + destruct (phase_loop w d m Hp Hin I3) as (pre & ints & vs & F & Hh). apply (ph_firing _ w d pre ints vs); [done| |by rewrite settles_put].
      assert (Ht : on_top w m = false) by (unfold on_top; by rewrite Hf). set (m' := put _ _ _).
      assert (Ht' : on_top w m' = true) by (unfold on_top, m'; rewrite frames_put; cbn; by apply bool_decide_eq_true_2).
      assert (Hfil : forall w', List.filter (is_firing w') (df_frames m') = List.filter (is_firing w') (df_frames m)) by (intros w'; unfold m'; rewrite frames_put, Hf; done).
      destruct F as [(i & F1 & Hi) F2 F3 F4 F5 F6 F7 F8 F9]. rewrite Ht in Hi, F3.
      assert (ints = []) as -> by (destruct ints; [done|]; by specialize (F3 ltac:(done))). constructor.
      * exists (S i). rewrite Ht'. split; [|done]. unfold m'. rewrite list_of_put, decide_True, F1 by done. unfold advance. cbn. by rewrite andb_false_r.
      * done.
      * done.
      * unfold m'. by rewrite added_put, called_put.
      * unfold m'. by rewrite called_put.
      * by rewrite Hfil.
      * intros d' Hd. apply F7. rewrite Hf. unfold m' in Hd. rewrite frames_put in Hd. by right.
      * cbn in F8 |- *. unfold dead, no_frame in *. rewrite Hfil. unfold m'. rewrite called_put, list_of_put, decide_False by (by destruct w). done.
      * unfold m'. by rewrite state_put.
Qed.

Lemma frames_ok_drop k fs : frames_ok fs -> frames_ok (drop k fs).
Proof. revert fs. induction k as [|k IH]; intros fs Hf; [done|]. destruct fs as [|[] fs]; [done|apply IH, Hf|apply IH, Hf]. Qed.

Lemma inv_raise u k fs m : inv m -> df_frames m = Running u :: fs -> client (drop k fs) = true -> inv (set_frames (drop k fs) m).
Proof.
  intros [I1 I2 I3] Hf Hc. rewrite Hf in I1. destruct I1 as [_ I1]. constructor; [by apply frames_ok_drop|exact I2|].
  apply (phase_keep m); [|done|done|done]. intros w Hw. split_and!; try done.
  - rewrite (client_top (set_frames (drop k fs) m)) by done. unfold on_top. by rewrite Hf.
  - rewrite Hf. cbn [set_frames df_frames List.filter is_firing]. rewrite <- (firstn_skipn k fs) at 2. rewrite List.filter_app. by apply sublist_inserts_l.
Qed.

Lemma inv_new : inv new_deferred.
Proof. constructor; [done|constructor|]. by apply ph_pending. Qed.

Lemma inv_step m ch m' : inv m -> step m ch = Some m' -> inv m'.
Proof.
  intros I. unfold step. destruct ch as [w us|w d|b|k|]; destruct (df_frames m) as [|[w' d'|u] fs] eqn:Hf; try done.
  - intros [= <-]. apply inv_add; [by rewrite Hf|done].
  - intros [= <-]. apply inv_add; [by rewrite Hf|done].
  - intros [= <-]. apply inv_fireWith; [done|by rewrite Hf].
  - intros [= <-]. apply inv_fireWith; [done|by rewrite Hf].
  - destruct fs as [|[w d|] fs]; try done. intros [= <-]. by apply (inv_return u).
  - destruct (client (drop k fs)) eqn:Hc; [|done]. intros [= <-]. by apply (inv_raise u).
  - intros [= <-]. by apply inv_turn.
Qed.

Lemma inv_run chs m m' : inv m -> run chs m = Some m' -> inv m'.
Proof.
  revert m. induction chs as [|ch chs IH]; intros m I; cbn [run]; [by intros [= <-]|].
  destruct (step m ch) as [m1|] eqn:E; [|done]. cbn. apply IH. by eapply inv_step.
Qed.

(** *** Loops that no exception has left *)

Definition looping (m : deferred) : Prop := forall w, cb_firing (list_of w m) = true -> exists d, Firing w d ∈ df_frames m.

Lemma firing_add fs c : cb_firing (add fs c).1 = cb_firing c.
Proof. unfold add. destruct (cb_list c); [|done]. destruct (cb_firing c) eqn:E; [done|]. by destruct (cb_memory c). Qed.
Lemma firing_fireWith d c : cb_firing (fireWith d c).1 = cb_firing c.
Proof. unfold fireWith. destruct (cb_list c); [|done]. destruct (_ || _); [|done]. by destruct (cb_firing c) eqn:E. Qed.
Lemma firing_advance_flag b c : cb_firing (advance b c) = cb_firing c.
Proof. unfold advance. by destruct (_ && _). Qed.
Lemma firing_lock c : cb_firing (lock c) = cb_firing c.
Proof. unfold lock. by destruct (cb_memory c). Qed.
Lemma firing_end c : cb_firing (end_fire c).1 = false.
Proof. unfold end_fire. cbn. destruct (cb_list c); [|done]. destruct (cb_stack c) as [[|]|]; [done|done|]. by destruct (cb_memory c). Qed.

Lemma looping_call w r m : (forall w', w' <> w \/ cb_firing r.1 = true -> cb_firing (list_of w' m) = true -> exists d, Firing w' d ∈ df_frames m) ->
  (cb_firing r.1 = true -> cb_firing (list_of w m) = true) -> looping (call w r m).
Proof.
  intros Hm Hr w' Hw'. rewrite frames_call. destruct r as [c [d|]]; cbn [fst snd] in *.
  - destruct (decide (w' = w)) as [->|Hne]; [exists d; by left|]. rewrite list_of_call in Hw' by done. destruct (Hm w' ltac:(by left) Hw') as [d' Hd]. exists d'. by right.
  - cbn [call] in Hw'. rewrite list_of_put in Hw'. destruct (decide (w' = w)) as [->|Hne]; [|by apply Hm; [left|]]. apply Hm; [by right|]. by apply Hr.
Qed.

Lemma looping_put w c m : looping m -> (cb_firing c = true -> cb_firing (list_of w m) = true) -> looping (put w c m).
Proof. intros Hm Hc w'. rewrite list_of_put, frames_put. destruct (decide (w' = w)) as [->|]; [intros Hf; apply Hm, Hc, Hf|apply Hm]. Qed.

Lemma looping_step m ch m' : looping m -> (forall k, ch <> Raise k) -> step m ch = Some m' -> looping m'.
Proof.
  intros L Hr. unfold step. destruct ch as [w us|w d|b|k|]; [| | |by destruct (Hr k)|].
  - destruct (client _); [|done]. intros [= <-]. change (looping (call w (add (User <$> us) (list_of w m)) m)).
    apply looping_call; [intros w' _; apply L|by rewrite firing_add].
  - destruct (client _); [|done]. intros [= <-]. change (looping (call w (fireWith d (list_of w m)) m)).
    apply looping_call; [intros w' _; apply L|by rewrite firing_fireWith].
  - destruct (df_frames m) as [|[|u] [|[w d|] fs]] eqn:Hf; try done. intros [= <-]. apply looping_put; [|by rewrite firing_advance_flag].
    intros w' Hw'. destruct (L w' Hw') as [d' Hd]. exists d'. rewrite Hf in Hd. by apply elem_of_cons in Hd as [?|Hd].
  - destruct (df_frames m) as [|[w d|u] fs] eqn:Hf; try done. intros [= <-]. unfold turn. destruct (current _) as [[u|st|w'|w']|].
    + intros w' Hw'. destruct (L w' Hw') as [d' Hd]. exists d'. cbn. right. by rewrite <- Hf.
    + change (looping (put w (advance false (list_of w m)) m)). apply looping_put; [done|]. by rewrite firing_advance_flag.
    + apply looping_put; [apply looping_put; [done|by rewrite firing_advance_flag]|done].
    + apply looping_put; [apply looping_put; [done|by rewrite firing_advance_flag]|by rewrite firing_lock].
    + apply looping_call; [|by rewrite firing_end]. rewrite firing_end. intros w' [Hne|?] Hw'; [|done]. destruct (L w' Hw') as [d' Hd]. exists d'.
      cbn. rewrite Hf in Hd. apply elem_of_cons in Hd as [[= -> ->]|Hd]; [by destruct Hne|done].
Qed.

Lemma looping_run chs m m' : looping m -> (forall k, Raise k ∉ chs) -> run chs m = Some m' -> looping m'.
Proof.
  revert m. induction chs as [|ch chs IH]; intros m L Hr; cbn [run]; [by intros [= <-]|].
  destruct (step m ch) as [m1|] eqn:E; [|done]. cbn. apply IH; [|intros k Hk; apply (Hr k); by right].
  eapply looping_step; [done| |done]. intros k ->. apply (Hr k). by left.
Qed.

(** *** A list is in one loop at most *)

Definition labels (fs : list frame) : list which := omap (fun f => match f with Firing w _ => Some w | Running _ => None end) fs.

Record uniq (m : deferred) : Prop := {
  un_nodup : NoDup (labels (df_frames m));
  un_firing : forall w, w ∈ labels (df_frames m) -> cb_firing (list_of w m) = true }.

Lemma uniq_call w r m :
  NoDup (labels (df_frames m)) -> (forall w', w' <> w -> w' ∈ labels (df_frames m) -> cb_firing (list_of w' m) = true) ->
  (w ∈ labels (df_frames m) -> r.2 = None /\ cb_firing r.1 = true) -> uniq (call w r m).
Proof.
  intros Hn Ho Hw. constructor; rewrite frames_call; destruct r as [c [d|]]; cbn [fst snd] in *; try done.
  - cbn. constructor; [|done]. by intros [? _]%Hw.
  - intros w'. cbn [labels omap list_omap]. rewrite elem_of_cons. cbn [call]. change (list_of w' (set_frames ?fs ?x)) with (list_of w' x). rewrite list_of_put.
    destruct (decide (w' = w)); [done|]. intros [?|?]; [done|]. by apply Ho.
  - intros w' Hw'. cbn [call]. rewrite list_of_put. destruct (decide (w' = w)) as [->|]; [by apply Hw|by apply Ho].
Qed.

Lemma uniq_put w c m : uniq m -> cb_firing c = cb_firing (list_of w m) -> uniq (put w c m).
Proof.
  intros [H1 H2] Hc. constructor; rewrite frames_put; [done|]. intros w' Hw'. rewrite list_of_put.
  destruct (decide (w' = w)) as [->|]; [rewrite Hc|]; by apply H2.
Qed.

Lemma add_calls fs c : cb_firing c = true -> (add fs c).2 = None.
Proof. intros Hc. unfold add. destruct (cb_list c); [|done]. by rewrite Hc. Qed.
Lemma fireWith_calls d c : cb_firing c = true -> (fireWith d c).2 = None.
Proof. intros Hc. unfold fireWith. destruct (cb_list c); [|done]. destruct (_ || _); [|done]. by rewrite Hc. Qed.

Lemma uniq_turn w d fs m : uniq m -> df_frames m = Firing w d :: fs -> uniq (turn w d fs m).
Proof.
  intros Hu Hf. unfold turn. destruct (current _) as [[u|st|w'|w']|].
  - destruct Hu as [H1 H2]. rewrite Hf in H1, H2. by constructor.
  - assert (H1 : uniq (put w (advance false (list_of w m)) m)) by (apply uniq_put; [done|apply firing_advance_flag]). destruct H1. by constructor.
  - apply uniq_put; [apply uniq_put; [done|apply firing_advance_flag]|done].
  - apply uniq_put; [apply uniq_put; [done|apply firing_advance_flag]|apply firing_lock].
  - destruct Hu as [H1 H2]. rewrite Hf in H1, H2. cbn in H1. apply NoDup_cons in H1 as [Hw H1]. apply uniq_call; [done| |done].
    intros w' Hne Hw'. apply H2. cbn. by right.
Qed.

Lemma uniq_step m ch m' : uniq m -> step m ch = Some m' -> uniq m'.
Proof.
  intros Hu. pose proof Hu as [H1 H2]. unfold step. destruct ch as [w us|w d|b|k|].
  - destruct (client _); [|done]. intros [= <-]. assert (Hc : uniq (call w (add (User <$> us) (list_of w m)) m)); [|destruct Hc; by constructor].
    apply uniq_call; [done|intros w' _; apply H2|]. intros Hw%H2. by rewrite firing_add, add_calls.
  - destruct (client _); [|done]. intros [= <-]. assert (Hc : uniq (call w (fireWith d (list_of w m)) m)); [|destruct Hc; by constructor].
    apply uniq_call; [done|intros w' _; apply H2|]. intros Hw%H2. by rewrite firing_fireWith, fireWith_calls.
  - destruct (df_frames m) as [|[|u] [|[w d|] fs]] eqn:Hf; try done. intros [= <-]. apply uniq_put; [by constructor|apply firing_advance_flag].
  - destruct (df_frames m) as [|[|u] fs] eqn:Hf; try done. destruct (client _); [|done]. intros [= <-].
    assert (Hs : labels (drop k fs) `sublist_of` labels fs).
    { rewrite <- (take_drop k fs) at 2. unfold labels. rewrite omap_app. by apply sublist_inserts_l. }
    constructor; [by eapply sublist_NoDup|]. intros w Hw. apply H2. cbn. by eapply elem_of_sublist.
  - destruct (df_frames m) as [|[w d|u] fs] eqn:Hf; try done. intros [= <-]. by apply uniq_turn.
Qed.

Lemma uniq_run chs m m' : uniq m -> run chs m = Some m' -> uniq m'.
Proof.
  revert m. induction chs as [|ch chs IH]; intros m Hu; cbn [run]; [by intros [= <-]|].
  destruct (step m ch) as [m1|] eqn:E; [|done]. cbn. apply IH. by eapply uniq_step.
Qed.

(** *** Loops end when the callbacks return *)

(** What a list has still to do: the rest of its loop, and the loops that wait. *)
Definition pending (c : cbs) : nat := length (default [] (cb_stack c)) * (length (default [] (cb_list c)) + 2).
Definition weight (w : which) (m : deferred) : nat :=
  let c := list_of w m in (if decide (w ∈ labels (df_frames m)) then S (cb_length c - cb_index c) else 0) + pending c.
Definition calls_under_way (fs : list frame) : nat := length (List.filter (fun f => match f with Running _ => true | _ => false end) fs).
Definition work (m : deferred) : nat := weight Done m + weight Fail m + weight Progress m + calls_under_way (df_frames m).

Lemma work_less w m m' :
  (forall w', w' <> w -> weight w' m' <= weight w' m) -> weight w m' < weight w m -> calls_under_way (df_frames m') <= calls_under_way (df_frames m) ->
  work m' < work m.
Proof.
  intros Ho Hw Hc. unfold work. destruct w.
  - pose proof (Ho Fail ltac:(done)). pose proof (Ho Progress ltac:(done)). lia.
  - pose proof (Ho Done ltac:(done)). pose proof (Ho Progress ltac:(done)). lia.
  - pose proof (Ho Done ltac:(done)). pose proof (Ho Fail ltac:(done)). lia.
Qed.

Lemma weight_list w m m' :
  df_frames m' = df_frames m -> cb_length (list_of w m') = cb_length (list_of w m) -> cb_index (list_of w m') = cb_index (list_of w m) ->
  pending (list_of w m') <= pending (list_of w m) -> weight w m' <= weight w m.
Proof. intros Ef El Ei Hp. unfold weight. rewrite Ef, El, Ei. lia. Qed.

Lemma pending_lock c : pending (lock c) <= pending c.
Proof. unfold lock, pending. destruct (cb_memory c); cbn; lia. Qed.

Lemma current_lt c f : current c = Some f -> cb_index c < cb_length c.
Proof.
  unfold current. destruct (cb_list c); [|done]. cbn [mbind option_bind]. destruct (cb_index c <? cb_length c)%nat eqn:E; [|done]. intros _. by apply Nat.ltb_lt.
Qed.

(** A turn without a callback of the client, with its advance. *)
Lemma weight_advance w c m :
  w ∈ labels (df_frames m) -> c = list_of w m -> cb_index c < cb_length c -> weight w (put w (advance false c) m) < weight w m.
Proof.
  intros Hw -> Hlt. unfold weight. rewrite frames_put, list_of_put, !decide_True by done. unfold advance, pending. cbn. lia.
Qed.

Lemma weight_put w c m w' : w' <> w -> weight w' (put w c m) = weight w' m.
Proof. intros Hne. unfold weight. rewrite frames_put, list_of_put. by rewrite (decide_False (P := w' = w)). Qed.

Lemma weight_end w d fs m :
  uniq m -> df_frames m = Firing w d :: fs -> weight w (call w (end_fire (list_of w m)) (set_frames fs m)) < weight w m.
Proof.
  intros [Hn _] Hf. rewrite Hf in Hn. cbn in Hn. apply NoDup_cons in Hn as [Hn _].
  assert (Hw : weight w m = S (cb_length (list_of w m) - cb_index (list_of w m)) + pending (list_of w m)).
  { unfold weight. rewrite Hf. rewrite decide_True; [done|]. cbn. by left. }
  rewrite Hw. unfold weight. rewrite frames_call. cbn [set_frames df_frames].
  destruct (end_fire (list_of w m)) as [c [d'|]] eqn:E; cbn [snd call].
  - rewrite decide_True by (cbn; by left). change (list_of w (set_frames ?fs ?x)) with (list_of w x). rewrite list_of_put, decide_True by done.
    revert E. unfold end_fire, pending. cbn. destruct (cb_list (list_of w m)) as [l|]; [|done]. destruct (cb_stack (list_of w m)) as [[|d0 ds]|]; [done| |].
    + intros [= <- <-]. cbn. lia.
    + by destruct (cb_memory _).
  - rewrite decide_False by done. rewrite list_of_put, decide_True by done. assert (Hp : pending c <= pending (list_of w m)); [|lia].
    revert E. unfold end_fire, pending. cbn. destruct (cb_list (list_of w m)) as [l|] eqn:El; [|intros [= <-]; cbn; lia].
    destruct (cb_stack (list_of w m)) as [[|d0 ds]|]; [intros [= <-]; cbn; lia|done|]. destruct (cb_memory _); intros [= <-]; cbn; lia.
Qed.

Lemma weight_end_other w d fs m w' :
  df_frames m = Firing w d :: fs -> w' <> w -> weight w' (call w (end_fire (list_of w m)) (set_frames fs m)) <= weight w' m.
Proof.
  intros Hf Hne. unfold weight. rewrite list_of_call, frames_call by done. change (list_of w' (set_frames fs m)) with (list_of w' m). rewrite Hf.
  cbn [set_frames df_frames]. apply Nat.add_le_mono_r. destruct (decide (w' ∈ labels (Firing w d :: fs))) as [Hin|Hin]; [destruct (decide _); lia|].
  rewrite decide_False; [done|]. intros Hx. apply Hin. destruct (snd _); [|cbn; by right]. cbn in *. by apply elem_of_cons in Hx as [?|?]; [|right].
Qed.

(** One turn, with the call it makes. *)
Lemma go_on w d fs m :
  uniq m -> df_frames m = Firing w d :: fs ->
  exists chs m', Forall (fun ch => ch = Loop \/ ch = Return false) chs /\ run chs m = Some m' /\ work m' < work m.
Proof.
  intros Hu Hf. assert (Hw : w ∈ labels (df_frames m)) by (rewrite Hf; cbn; by left).
  assert (Hl : step m Loop = Some (turn w d fs m)) by (unfold step; by rewrite Hf).
  destruct (current (list_of w m)) as [f|] eqn:E; cycle 1.
  { exists [Loop], (turn w d fs m). split; [constructor; [by left|done]|]. cbn [run]. rewrite Hl. split; [done|]. unfold turn. rewrite E.
    apply (work_less w); [intros w' Hne; by apply (weight_end_other w d)|by apply (weight_end w d)|]. rewrite frames_call, Hf. by destruct (snd _). }
  pose proof (current_lt _ _ E) as Hlt. set (m1 := put w (advance false (list_of w m)) m).
  assert (Hw1 : weight w m1 < weight w m) by (by apply weight_advance). assert (Ho1 : forall w', w' <> w -> weight w' m1 <= weight w' m) by (intros w' Hne; unfold m1; by rewrite weight_put).
  assert (Hf1 : df_frames m1 = df_frames m) by apply frames_put.
  destruct f as [u|st|w'|w'].
  - exists [Loop; Return false], (put w (advance false (list_of w m)) (log_call w u d m)). split; [constructor; [by left|constructor; [by right|done]]|].
    cbn [run]. rewrite Hl. unfold turn. rewrite E. split; [cbn; destruct m as [c1 c2 c3 st fr cl ad se]; cbn in Hf; subst fr; by destruct w|].
    apply (work_less w); [intros w' Hne; rewrite weight_put by done; done| |by rewrite frames_put].
    apply (Nat.le_lt_trans _ (weight w m1)); [|done]. by apply weight_list; unfold m1; rewrite ?frames_put, ?list_of_put, ?decide_True.
  - exists [Loop], (turn w d fs m). split; [constructor; [by left|done]|]. cbn [run]. rewrite Hl. split; [done|]. unfold turn. rewrite E. fold m1.
    apply (work_less w); [done|done|]. change (calls_under_way (df_frames m1) <= calls_under_way (df_frames m)). by rewrite Hf1.
  - exists [Loop], (turn w d fs m). split; [constructor; [by left|done]|]. cbn [run]. rewrite Hl. split; [done|]. unfold turn. rewrite E. fold m1. cbv zeta.
    apply (Nat.le_lt_trans _ (work m1)); [|apply (work_less w); [done|done|by rewrite Hf1]].
    assert (Hx : forall x, weight x (put w' (disable (list_of w' m1)) m1) <= weight x m1); [|unfold work; rewrite frames_put; pose proof (Hx Done); pose proof (Hx Fail); pose proof (Hx Progress); lia].
    intros x. apply weight_list; rewrite ?frames_put, ?list_of_put; try done; destruct (decide (x = w')) as [->|]; try done. cbn. lia.
  - exists [Loop], (turn w d fs m). split; [constructor; [by left|done]|]. cbn [run]. rewrite Hl. split; [done|]. unfold turn. rewrite E. fold m1. cbv zeta.
    apply (Nat.le_lt_trans _ (work m1)); [|apply (work_less w); [done|done|by rewrite Hf1]].
    assert (Hx : forall x, weight x (put w' (lock (list_of w' m1)) m1) <= weight x m1); [|unfold work; rewrite frames_put; pose proof (Hx Done); pose proof (Hx Fail); pose proof (Hx Progress); lia].
    intros x. apply weight_list; rewrite ?frames_put, ?list_of_put; try done; destruct (decide (x = w')) as [->|]; try done;
      [unfold lock; by destruct (cb_memory _)..|apply pending_lock].
Qed.

Lemma go_back u w d fs m :
  df_frames m = Running u :: Firing w d :: fs -> exists m', step m (Return false) = Some m' /\ work m' < work m.
Proof.
  intros Hf. eexists. unfold step. rewrite Hf. split; [done|]. unfold work.
  assert (Hc : S (calls_under_way (df_frames (put w (advance false (list_of w m)) (set_frames (Firing w d :: fs) m)))) = calls_under_way (df_frames m)) by (rewrite frames_put, Hf; done).
  assert (Hx : forall x, weight x (put w (advance false (list_of w m)) (set_frames (Firing w d :: fs) m)) <= weight x m).
  { intros x. unfold weight. rewrite frames_put, Hf, list_of_put. change (labels (Running u :: ?l)) with (labels l). cbn [set_frames df_frames].
    destruct (decide (x = w)) as [->|]; [|done]. unfold advance, pending. cbn. destruct (decide _); lia. }
  pose proof (Hx Done). pose proof (Hx Fail). pose proof (Hx Progress). lia.
Qed.

Lemma run_app chs chs' m m' : run chs m = Some m' -> run (chs ++ chs') m = run chs' m'.
Proof. revert m. induction chs as [|ch chs IH]; intros m; cbn [run app]; [by intros [= ->]|]. destruct (step m ch); [|done]. cbn. apply IH. Qed.

Lemma drains m : inv m -> uniq m -> exists chs m', Forall (fun ch => ch = Loop \/ ch = Return false) chs /\ run chs m = Some m' /\ df_frames m' = [].
Proof.
  induction m as [m IH] using (induction_ltof1 _ work). unfold ltof in IH. intros Hi Hu. destruct (df_frames m) as [|f fs] eqn:Hf; [by exists [], m|].
  assert (H1 : exists chs m', Forall (fun ch => ch = Loop \/ ch = Return false) chs /\ run chs m = Some m' /\ work m' < work m).
  { destruct f as [w d|u]; [by apply (go_on w d fs)|]. pose proof (in_frames _ Hi) as Hok. rewrite Hf in Hok. destruct Hok as [Hc _].
    destruct fs as [|[w d|] fs]; try done. destruct (go_back u w d fs m Hf) as (m' & Hs & Hl). exists [Return false], m'.
    split; [constructor; [by right|done]|]. cbn [run]. by rewrite Hs. }
  destruct H1 as (chs & m1 & Hc & Hr & Hl). destruct (IH m1 Hl (inv_run _ _ _ Hi Hr) (uniq_run _ _ _ Hu Hr)) as (chs' & m' & Hc' & Hr' & Hf').
  exists (chs ++ chs'), m'. split; [by apply Forall_app|]. by rewrite (run_app _ _ _ _ Hr).
Qed.

Lemma fresh_prefix w m : fresh w m \/ dead w m -> exists vs, added w m = (called w m).*1 ++ vs.
Proof. intros [(_ & -> & _)|(_ & -> & _)]; by exists (added w m). Qed.

(** C10: a deferred settles once.  Whatever the client does, inside callbacks and outside of them, with loops in loops and callbacks that
    throw: the callbacks of [done] and [fail] are called in the order in which they were added, each at
    most once, with the data of the first [resolve] or [reject], and only those of the list it names; whenever the client's code is
    running the state is what that first call made it.  When no callback threw and no call is under way, every callback of the list that
    settled has been called, however late it was added; and calls do end when the callbacks just return. *)
Theorem deferred_settles_once chs m :
  run chs new_deferred = Some m ->
  (forall w, w <> Progress -> (exists vs, added w m = (called w m).*1 ++ vs) /\
     forall u d, (u, d) ∈ called w m -> head (df_settles m) = Some (w, d)) /\
  (client (df_frames m) = true -> df_state m = match head (df_settles m) with Some (w, _) => final w | None => Pending end) /\
  ((forall k, Raise k ∉ chs) -> df_frames m = [] ->
     forall w d, head (df_settles m) = Some (w, d) -> called w m = (fun u => (u, d)) <$> added w m) /\
  (exists chs' m', Forall (fun ch => ch = Loop \/ ch = Return false) chs' /\ run chs' m = Some m' /\ df_frames m' = []).
Proof.
  intros Hr. pose proof (inv_run _ _ _ inv_new Hr) as Hi. assert (Hu : uniq m) by (eapply uniq_run; [|done]; constructor; [constructor|by intros w ?%not_elem_of_nil]).
  split_and!; [| | |by apply drains].
  - intros w Hp. destruct (in_phase _ Hi) as [P1 P2 P3 P4|w0 d pre ints vs Hp0 F P4|w0 d Hp0 S P4].
    + assert (Hw : fresh w m) by (by destruct w). split; [apply fresh_prefix; by left|]. destruct Hw as (_ & -> & _). by intros u d ?%not_elem_of_nil.
    + destruct (decide (w = w0)) as [->|Hne].
      * split; [exists vs; apply F|]. intros u d' Hin. pose proof (fi_data _ _ _ _ _ _ F) as Hd. rewrite Forall_forall in Hd. by rewrite (Hd _ Hin : d' = d).
      * assert (w = other w0) as -> by (by destruct w, w0). pose proof (fi_other _ _ _ _ _ _ F) as Ho.
        assert (Hx : fresh (other w0) m \/ dead (other w0) m) by (destruct (1 <? length ints)%nat; auto). split; [by apply fresh_prefix|].
        destruct Hx as [(_ & -> & _)|(_ & -> & _)]; by intros u d' ?%not_elem_of_nil.
    + destruct (decide (w = w0)) as [->|Hne].
      * rewrite (se_called _ _ _ S). split; [exists []; rewrite app_nil_r, <- list_fmap_compose; by rewrite list_fmap_id|].
        intros u d' (u' & [= -> ->] & _)%list_elem_of_fmap. done.
      * assert (w = other w0) as -> by (by destruct w, w0). pose proof (se_other _ _ _ S) as Ho. split; [apply fresh_prefix; by right|].
        destruct Ho as (_ & -> & _). by intros u d' ?%not_elem_of_nil.
  - intros Hc. destruct (in_phase _ Hi) as [P1 P2 P3 P4|w0 d pre ints vs Hp0 F P4|w0 d Hp0 S P4]; rewrite P4; [done| |apply S].
    rewrite (fi_state _ _ _ _ _ _ F). destruct ints as [|x ints]; [done|]. pose proof (fi_top _ _ _ _ _ _ F ltac:(done)) as Ht. by rewrite client_top in Ht.
  - intros Hn Hf w d Hs. destruct (in_phase _ Hi) as [P1 P2 P3 P4|w0 d0 pre ints vs Hp0 F P4|w0 d0 Hp0 S P4].
    + by rewrite P4 in Hs.
    + exfalso. assert (L : looping m) by (eapply looping_run; [|done|done]; by intros []). destruct (fi_list _ _ _ _ _ _ F) as (i & E & _).
      destruct (L w0) as [d' Hd]; [by rewrite E|]. rewrite Hf in Hd. by apply not_elem_of_nil in Hd.
    + rewrite P4 in Hs. injection Hs as -> ->. apply S.
Qed.
End Callbacks.

(** ** Runs *)

(** The callback 1 tries to reject and adds the callback 2; the callback 3 comes when all is over. *)
Definition settling : list (choice (D := nat) (U := nat)) :=
  [Add Done [1]; FireWith Done 7; Loop; Loop; Loop; Loop; FireWith Fail 8; Add Done [2]; Return false; Loop; Return false; Loop;
   Add Done [3]; Loop; Return false; Loop].

Lemma deferred_settles_once_witness :
  exists m, run settling new_deferred = Some m /\ df_state m = Resolved /\ called Done m = [(1, 7); (2, 7); (3, 7)].
Proof.
  assert (E : match run settling new_deferred with
    | Some m => bool_decide (df_frames m = [] /\ head (df_settles m) = Some (Done, 7) /\ added Done m = [1; 2; 3]) | None => false end = true) by (vm_compute; reflexivity).
  destruct (run settling new_deferred) as [m|] eqn:Hr; [|discriminate E]. apply bool_decide_eq_true in E as (Hf & Hs & Ha).
  destruct (deferred_settles_once settling m Hr) as (_ & Hst & Hq & _). exists m. split; [reflexivity|]. split.
  - rewrite Hst, Hs; [reflexivity|]. rewrite Hf. reflexivity.
  - rewrite (Hq ltac:(intros k; unfold settling; rewrite !elem_of_cons, elem_of_nil; intuition discriminate) Hf Done 7 Hs), Ha. reflexivity.
Defined.

(** A callback that throws leaves its list in a loop that nothing goes on with: those added later are never called. *)
Definition thrown : list (choice (D := nat) (U := nat)) := [Add Done [1]; FireWith Done 7; Loop; Loop; Loop; Loop; Raise 1; Add Done [2]].

Lemma throw_loses_callbacks :
  exists m, run thrown new_deferred = Some m /\ df_frames m = [] /\ df_state m = Resolved /\ called Done m = [(1, 7)] /\ added Done m = [1; 2].
Proof. eexists. split; [vm_compute; reflexivity|]. by vm_compute. Qed.

End Callbacks.
