(* ===== verification/View.v ===== *)
(** * The events of a view ([Backbone.View] of [files/backbone.js])

    A view binds the methods that its table of events names to its element, through jQuery and under a
    namespace of its own.  A view here has an element from the start ([el] is given, or
    [_ensureElement] makes one); a method is known by its name. *)

From stdpp Require Import gmap.
From S2P Require Import Prelude JsString JsObject Backbone JqEvent.
Import JqEvent.

Local Open Scope Z_scope.

Module View.
Section View.

(** [bind cid name] is the method of a view, bound to it. *)
Context {Elt H : Type} `{!EqDecision Elt, !Countable Elt, !EqDecision H} (bind : nat -> jsstr -> H).

Abbreviation registry := (JqEvent.registry Elt H).
Abbreviation handleObj := (JqEvent.handleObj H).

(** [events] is absent when [_.result] gives nothing; [v_methods] are the names of the methods there are. *)
Record view := mkView { v_cid : nat; v_el : Elt; v_events : option (list (jsstr * jsstr)); v_methods : list jsstr }.

Definition cid (v : view) : jsstr := js "view" ++ num_to_str (Z.of_nat (v_cid v)).
Definition namespace (v : view) : jsstr := js "delegateEvents" ++ cid v.

Definition is_line_end (c : Z) : bool := (c =? 10) || (c =? 13) || (c =? 8232) || (c =? 8233).

(** [delegateEventSplitter]: a word, spaces, and the rest of the line. *)
Definition parse_key (key : jsstr) : option (jsstr * jsstr) :=
  let '(name, r) := span (fun c => negb (is_space c)) key in
  let selector := (span is_space r).2 in
  match name with
  | [] => None
  | _ => if existsb is_line_end selector then None else Some (name, selector)
  end.

Definition undelegateEvents (v : view) (r : registry) : registry := JqEvent.remove (v_el v) (ch "." :: namespace v) None None r.

(** One turn of the loop: the registry, or an exception when the key has no event. *)
Definition delegate_key (v : view) (table : list (jsstr * jsstr)) (r : registry) (key : jsstr) : option registry :=
  let name := default [] (obj_get table key) in
  if bool_decide (name ∈ v_methods v) then
    '(eventName, selector) ← parse_key key;
    Some (JqEvent.add (v_el v) (eventName ++ ch "." :: namespace v) (bind (v_cid v) name) (Some selector) r)
  else Some r.

(** The registry after the loop, and whether it ended. *)
Fixpoint delegate_keys (v : view) (table : list (jsstr * jsstr)) (ks : list jsstr) (r : registry) : registry * bool :=
  match ks with
  | [] => (r, true)
  | k :: ks' => match delegate_key v table r k with Some r' => delegate_keys v table ks' r' | None => (r, false) end
  end.

Definition delegateEvents (v : view) (r : registry) : registry * bool :=
  match v_events v with
  | Some table => delegate_keys v table (obj_keys table) (undelegateEvents v r)
  | None => (r, true)
  end.

Definition set_el (e : Elt) (v : view) : view := mkView (v_cid v) e (v_events v) (v_methods v).

Definition setElement (e : Elt) (delegate : bool) (v : view) (r : registry) : view * registry * bool :=
  let r := undelegateEvents v r in
  let v := set_el e v in
  if delegate then let '(r', ok) := delegateEvents v r in (v, r', ok) else (v, r, true).

(** The constructor: the element is there, [initialize] binds nothing. *)
Definition new_view (v : view) (r : registry) : registry * bool := delegateEvents v r.

(** ** What is bound *)

(** The handlers that a table asks for. *)
Definition handle (v : view) (key name : jsstr) : option handleObj :=
  if bool_decide (name ∈ v_methods v) then
    '(eventName, selector) ← parse_key key;
    Some (JqEvent.mkHandle eventName [namespace v] (selector_of (Some selector)) (bind (v_cid v) name))
  else None.
Definition handles (v : view) : list handleObj :=
  let table := default [] (v_events v) in omap (fun k => handle v k (default [] (obj_get table k))) (obj_keys table).

(** The type under which jQuery keeps a handler. *)
Definition kept_type (ho : handleObj) : jsstr := special_type (delegated ho) (ho_origType ho).
Definition ours (v : view) (t : jsstr) : list handleObj := List.filter (fun ho => bool_decide (kept_type ho = t)) (handles v).

(** Tables whose keys have an event, without namespaces. *)
Definition proper_key (key : jsstr) : Prop := exists name selector, parse_key key = Some (name, selector) /\ (ch "." ∉ name).
Definition proper (v : view) : Prop := forall table, v_events v = Some table -> forall k, k ∈ obj_keys table -> proper_key k.

(** The same, computed. *)
Definition proper_table (table : list (jsstr * jsstr)) : bool :=
  forallb (fun k => match parse_key k with Some (name, _) => negb (existsb (Z.eqb (ch ".")) name) | None => false end) (obj_keys table).

Definition mine (v : view) (ho : handleObj) : bool := bool_decide (namespace v ∈ ho_namespaces ho).

(** ** Lemmas *)

Lemma proper_by_table v table : v_events v = Some table -> proper_table table = true -> proper v.
Proof.
  intros Ht Hp table' Ht' k Hk. rewrite Ht in Ht'. injection Ht' as <-. unfold proper_table in Hp. rewrite forallb_forall in Hp.
  specialize (Hp k ltac:(by apply list_elem_of_In)). destruct (parse_key k) as [[name sel]|] eqn:E; [|done]. exists name, sel. split; [done|].
  intros Hin. apply negb_true_iff in Hp. assert (Hx : existsb (Z.eqb (ch ".")) name = true); [|congruence].
  apply existsb_exists. exists (ch "."). split; [by apply list_elem_of_In|apply Z.eqb_refl].
Qed.

Lemma namespace_plain v : existsb is_space (namespace v) = false /\ (ch "." ∉ namespace v) /\ namespace v <> [].
Proof.
  destruct (num_to_str_digits (Z.of_nat (v_cid v)) ltac:(lia)) as [_ Hd]. split; [|split; [|done]].
  - assert (Hn : existsb is_space (num_to_str (Z.of_nat (v_cid v))) = false).
    { induction Hd as [|c l Hc _ IH]; [done|]. cbn [existsb]. rewrite IH, orb_false_r. apply digit_bounds in Hc. unfold is_space. lia. }
    unfold namespace, cid. rewrite !existsb_app, Hn. vm_compute. reflexivity.
  - unfold namespace, cid. rewrite !elem_of_app. intros [Hi|[Hi|Hi]].
    + revert Hi. apply (bool_decide_unpack _). vm_compute. exact I.
    + revert Hi. apply (bool_decide_unpack _). vm_compute. exact I.
    + rewrite Forall_forall in Hd. by specialize (Hd _ Hi).
Qed.

Lemma namespace_inj v w : namespace v = namespace w -> v_cid v = v_cid w.
Proof. unfold namespace, cid. intros He%app_inv_head%app_inv_head%num_to_str_inj; lia. Qed.

Lemma span_holds (p : Z -> bool) s : Forall (fun c => p c = true) (span p s).1.
Proof. induction s as [|c s IH]; [constructor|]. cbn [span]. destruct (p c) eqn:Ec; [|constructor]. destruct (span p s). by constructor. Qed.

Lemma parse_key_name key name selector : parse_key key = Some (name, selector) -> existsb is_space name = false /\ name <> [].
Proof.
  unfold parse_key. pose proof (span_holds (fun c => negb (is_space c)) key) as Hs.
  destruct (span _ key) as [[|c n] r]; [done|]. destruct (existsb _ _); [done|]. intros [= <- _]. split; [|done].
  cbn [fst] in Hs. clear -Hs. induction Hs as [|x l Hx _ IH]; [done|]. cbn [existsb]. rewrite IH. by apply negb_true_iff in Hx as ->.
Qed.

(** One key. *)
Lemma delegate_key_step v table r key :
  registry_ok r -> proper_key key ->
  exists r', delegate_key v table r key = Some r' /\ registry_ok r' /\
    forall e t, queue_at r' e t = match handle v key (default [] (obj_get table key)) with
      | Some ho => if decide (v_el v = e /\ kept_type ho = t) then put ho (queue_at r e t) else queue_at r e t
      | None => queue_at r e t end.
Proof.
  intros Hr (name & sel & Hk & Hdot). unfold delegate_key, handle. destruct (bool_decide _); [|by exists r].
  rewrite Hk. cbn [mbind option_bind]. eexists. split; [done|]. split; [by apply bind_ok|].
  destruct (parse_key_name _ _ _ Hk) as [Hs Hne]. destruct (namespace_plain v) as (N1 & N2 & N3).
  assert (Hw : words (name ++ ch "." :: namespace v) = [name ++ ch "." :: namespace v]).
  { apply words_one; [|by destruct name]. rewrite existsb_app, Hs. cbn [existsb]. by rewrite N1. }
  intros e t. unfold add. rewrite Hw. cbn [rev app foldl].
  rewrite (add1_at _ _ _ _ _ name [namespace v]); [done|by apply type_namespaces_one|done].
Qed.

(** The handlers of a registry, the delegated ones and the direct ones. *)
Definition split_at (r : registry) (e : Elt) (t : jsstr) : list handleObj * list handleObj :=
  (List.filter delegated (handlers_at r e t), List.filter direct (handlers_at r e t)).
Definition split (l : list handleObj) : list handleObj * list handleObj := (List.filter delegated l, List.filter direct l).
Definition join2 (a b : list handleObj * list handleObj) : list handleObj * list handleObj := (a.1 ++ b.1, a.2 ++ b.2).

Lemma split_put r e t ho :
  queue_ok (queue_at r e t) -> split (q_handlers (put ho (queue_at r e t))) = join2 (split_at r e t) (split [ho]).
Proof.
  intros Hq. destruct (put_handlers ho _ Hq) as (P1 & P2 & _). unfold split, split_at, join2, handlers_at. cbn [fst snd]. rewrite P1, P2.
  cbn [List.filter]. unfold direct at 3. by destruct (delegated ho).
Qed.

Lemma join2_nil a : join2 a ([], []) = a.
Proof. destruct a. unfold join2. cbn. by rewrite !app_nil_r. Qed.
Lemma join2_split a l k : join2 (join2 a (split l)) (split k) = join2 a (split (l ++ k)).
Proof. unfold join2, split. cbn [fst snd]. by rewrite !List.filter_app, !app_assoc. Qed.

Lemma delegate_keys_bind v table ks r :
  registry_ok r -> (forall k, k ∈ ks -> proper_key k) ->
  let hs := omap (fun k => handle v k (default [] (obj_get table k))) ks in
  exists r', delegate_keys v table ks r = (r', true) /\ registry_ok r' /\
    forall e t, split_at r' e t = if decide (v_el v = e)
      then join2 (split_at r e t) (split (List.filter (fun ho => bool_decide (kept_type ho = t)) hs)) else split_at r e t.
Proof.
  revert r. induction ks as [|k ks IH]; intros r Hr Hp; cbv zeta.
  { exists r. split_and!; [done|done|]. intros e t. destruct (decide _); [|done]. by rewrite join2_nil. }
  destruct (delegate_key_step v table r k Hr (Hp k ltac:(left))) as (r1 & E1 & Hr1 & Hq1). cbn [delegate_keys]. rewrite E1.
  destruct (IH r1 Hr1 (fun j Hj => Hp j (list_elem_of_further _ _ _ Hj))) as (r' & E' & Hr' & Hs). exists r'. split_and!; [done|done|].
  intros e t. rewrite Hs. cbn [omap list_omap].
  assert (H1 : split_at r1 e t = if decide (v_el v = e) then join2 (split_at r e t)
    (split (match handle v k (default [] (obj_get table k)) with Some ho => List.filter (fun ho => bool_decide (kept_type ho = t)) [ho] | None => [] end))
    else split_at r e t).
  { unfold split_at at 1. unfold handlers_at. rewrite Hq1. destruct (handle v k _) as [ho|]; cycle 1.
    { destruct (decide _); [by rewrite join2_nil|done]. }
    destruct (decide (v_el v = e)) as [He|He]; [|by rewrite decide_False by (by intros [? _])]. cbn [List.filter].
    destruct (decide (kept_type ho = t)) as [Ht|Ht].
    - rewrite decide_True, bool_decide_eq_true_2 by done. apply split_put, Hr.
    - rewrite decide_False by (by intros [_ ?]). rewrite bool_decide_eq_false_2 by done. by rewrite join2_nil. }
  rewrite H1. destruct (decide (v_el v = e)); [|done]. rewrite join2_split. f_equal. f_equal.
  destruct (handle v k _) as [ho|]; [|done]. cbn [List.filter]. by destruct (bool_decide _).
Qed.

(** *** Handlers of one view among those of others *)

Definition filter2 (p : handleObj -> bool) (a : list handleObj * list handleObj) : list handleObj * list handleObj :=
  (List.filter p a.1, List.filter p a.2).

Lemma filter2_comm p q a : filter2 p (filter2 q a) = filter2 q (filter2 p a).
Proof. unfold filter2. cbn [fst snd]. by rewrite !(filter_comm p q). Qed.
Lemma filter2_join p a b : filter2 p (join2 a b) = join2 (filter2 p a) (filter2 p b).
Proof. unfold filter2, join2. cbn [fst snd]. by rewrite !List.filter_app. Qed.
Lemma filter2_split p l : filter2 p (split l) = split (List.filter p l).
Proof. unfold filter2, split. cbn [fst snd]. by rewrite !(filter_comm p). Qed.
Lemma filter2_against p a : filter2 p (filter2 (fun ho => negb (p ho)) a) = ([], []).
Proof.
  unfold filter2. cbn [fst snd]. rewrite !filter_filter.
  f_equal; apply filter_none; intros ho _; by destruct (p ho).
Qed.

Lemma handle_namespaces v k n ho : handle v k n = Some ho -> ho_namespaces ho = [namespace v].
Proof. unfold handle. destruct (bool_decide _); [|done]. destruct (parse_key k) as [[name sel]|]; [|done]. by intros [= <-]. Qed.

Lemma ours_mine v w t : v_cid w <> v_cid v -> List.filter (mine v) (ours v t) = ours v t /\ List.filter (mine w) (ours v t) = [].
Proof.
  intros Hne. assert (Hn : forall ho, ho ∈ ours v t -> ho_namespaces ho = [namespace v]).
  { intros ho [Hin _]%list_elem_of_In%filter_In. apply list_elem_of_In in Hin. unfold handles in Hin. apply list_elem_of_omap in Hin as (k & _ & Hk).
    by eapply handle_namespaces. }
  split; [apply filter_all|apply filter_none]; intros ho Hin; unfold mine; rewrite (Hn ho Hin).
  - by rewrite bool_decide_eq_true_2 by left.
  - apply bool_decide_eq_false_2. rewrite list_elem_of_singleton. intros E%namespace_inj. done.
Qed.

Lemma undelegate_split v r :
  registry_ok r -> registry_ok (undelegateEvents v r) /\
  forall e t, split_at (undelegateEvents v r) e t = if decide (v_el v = e) then filter2 (fun ho => negb (mine v ho)) (split_at r e t) else split_at r e t.
Proof.
  intros Hr. destruct (namespace_plain v) as (N1 & N2 & N3). destruct (remove_namespace r (v_el v) _ Hr N1 N2 N3) as [Hr' Hq].
  split; [exact Hr'|]. intros e t. unfold split_at, handlers_at, undelegateEvents. rewrite Hq. destruct (decide _); [|done].
  cbn [strip q_handlers]. unfold filter2. cbn [fst snd]. by rewrite !(filter_comm (fun ho => negb (mine v ho))).
Qed.

(** The handlers of the view are those of its table, on its element and nowhere else, when they are [bound]. *)
Record held (v : view) (el : Elt) (bound : bool) (r : registry) : Prop := {
  hd_ok : registry_ok r;
  hd_mine : forall e t, filter2 (mine v) (split_at r e t) = if bound && bool_decide (el = e) then split (ours v t) else ([], []) }.

Lemma held_undelegate v el b r : held v el b r -> held v el false (undelegateEvents (set_el el v) r).
Proof.
  intros [Hr Hm]. destruct (undelegate_split (set_el el v) r Hr) as [Hr' Hs]. constructor; [exact Hr'|]. intros e t. rewrite Hs.
  cbn [set_el v_el andb]. destruct (decide (el = e)) as [->|Hne]; [apply filter2_against|]. rewrite Hm.
  rewrite bool_decide_eq_false_2 by done. by rewrite andb_false_r.
Qed.

Lemma held_delegate v el b r :
  held v el b r -> proper v -> held v el true (delegateEvents (set_el el v) r).1 /\ (delegateEvents (set_el el v) r).2 = true.
Proof.
  intros Hh Hp. unfold delegateEvents. cbn [set_el v_events]. destruct (v_events v) as [table|] eqn:Et; cycle 1.
  { split; [|done]. destruct Hh as [Hr Hm]. constructor; [done|]. intros e t. rewrite Hm.
    assert (Eo : ours v t = []) by (unfold ours, handles; by rewrite Et). rewrite Eo. by destruct b, (bool_decide _). }
  destruct (held_undelegate v el b r Hh) as [Hr1 Hm1].
  destruct (delegate_keys_bind (set_el el v) table (obj_keys table) _ Hr1 (Hp table Et)) as (r' & E' & Hr' & Hs).
  unfold set_el in E' at 1. cbn [set_el v_cid v_el v_events v_methods] in E'. fold (set_el el v) in *. rewrite E'. split; [|done].
  constructor; [exact Hr'|]. intros e t. cbn [fst]. rewrite Hs. cbn [set_el v_el andb].
  assert (Eo : List.filter (fun ho => bool_decide (kept_type ho = t))
    (omap (fun k => handle (set_el el v) k (default [] (obj_get table k))) (obj_keys table)) = ours v t).
  { unfold ours, handles. by rewrite Et. }
  destruct (decide (el = e)) as [->|Hne]; [|rewrite bool_decide_eq_false_2 by done; by rewrite Hm1].
  rewrite bool_decide_eq_true_2, Eo, filter2_join, Hm1, filter2_split by done. cbn [andb].
  rewrite (proj1 (ours_mine v (mkView (S (v_cid v)) e None []) t ltac:(cbn; lia))). done.
Qed.

(** Another view leaves them alone. *)
Lemma other_undelegate v w el b r : held v el b r -> v_cid w <> v_cid v -> held v el b (undelegateEvents w r).
Proof.
  intros [Hr Hm] Hne. destruct (undelegate_split w r Hr) as [Hr' Hs]. constructor; [exact Hr'|]. intros e t. rewrite Hs.
  destruct (decide _); [|apply Hm]. rewrite filter2_comm, Hm. destruct (b && _); [|done]. rewrite filter2_split.
  f_equal. apply filter_all. intros ho Hin. apply negb_true_iff. destruct (mine w ho) eqn:Em; [|done]. exfalso.
  destruct (ours_mine v w t Hne) as [_ Hn]. assert (Hx : ho ∈ List.filter (mine w) (ours v t)) by (apply list_elem_of_In, filter_In; split; [by apply list_elem_of_In|done]).
  rewrite Hn in Hx. by apply not_elem_of_nil in Hx.
Qed.

Lemma other_delegate v w el b r : held v el b r -> v_cid w <> v_cid v -> proper w -> held v el b (delegateEvents w r).1.
Proof.
  intros Hh Hne Hp. unfold delegateEvents. destruct (v_events w) as [table|] eqn:Et; [|done].
  destruct (other_undelegate v w el b r Hh Hne) as [Hr1 Hm1].
  destruct (delegate_keys_bind w table (obj_keys table) _ Hr1 (Hp table Et)) as (r' & E' & Hr' & Hs). rewrite E'.
  constructor; [exact Hr'|]. intros e t. cbn [fst]. rewrite Hs. destruct (decide _); [|apply Hm1].
  rewrite filter2_join, Hm1, filter2_split.
  assert (Eo : List.filter (fun ho => bool_decide (kept_type ho = t))
    (omap (fun k => handle w k (default [] (obj_get table k))) (obj_keys table)) = ours w t) by (unfold ours, handles; by rewrite Et).
  rewrite Eo, (proj2 (ours_mine w v t (not_eq_sym Hne))). by rewrite join2_nil.
Qed.

(** So does binding a handler under other namespaces. *)
Lemma other_add v el b r e types h sel :
  held v el b r -> (forall w, w ∈ words types -> namespace v ∉ (type_namespaces w).2) -> held v el b (JqEvent.add e types h sel r).
Proof.
  intros Hh Hw. unfold JqEvent.add. assert (Hw' : forall w, w ∈ rev (words types) -> namespace v ∉ (type_namespaces w).2).
  { intros w Hin. apply Hw. by apply list_elem_of_In, in_rev, list_elem_of_In in Hin. }
  revert r Hh Hw'. induction (rev (words types)) as [|w ws IH]; intros r Hh Hw'; [done|]. cbn [foldl].
  apply IH; [|intros x Hx; apply Hw'; by right]. destruct Hh as [Hr Hm]. constructor; [by apply add1_ok|]. intros e' t.
  rewrite <- Hm. destruct (type_namespaces w) as [ty ns] eqn:Ew. destruct (decide (ty = [])) as [->|Hty]; [unfold add1; by rewrite Ew|].
  unfold split_at at 1. unfold handlers_at. rewrite (add1_at _ _ _ _ _ _ _ _ _ Ew Hty). destruct (decide _); [|done].
  change (filter2 (mine v) (split (q_handlers (put (JqEvent.mkHandle ty ns (selector_of sel) h) (queue_at r e' t)))) = filter2 (mine v) (split_at r e' t)).
  rewrite split_put by apply Hr. rewrite filter2_join, filter2_split. cbn [List.filter]. unfold mine at 2. cbn [ho_namespaces].
  rewrite bool_decide_eq_false_2; [by rewrite join2_nil|]. specialize (Hw' w ltac:(left)). by rewrite Ew in Hw'.
Qed.

(** ** Runs *)

(** What happens to a view and around it. *)
Inductive op :=
  | Delegate | Undelegate | SetElement (e : Elt) (delegate : bool)
  | Bind (e : Elt) (types : jsstr) (h : H) (selector : option jsstr)   (** other code binds a handler *)
  | OtherDelegate (w : view) | OtherUndelegate (w : view).

Definition run_op (v : view) (st : Elt * registry) (o : op) : Elt * registry :=
  let '(el, r) := st in
  match o with
  | Delegate => (el, (delegateEvents (set_el el v) r).1)
  | Undelegate => (el, undelegateEvents (set_el el v) r)
  | SetElement e d => let '(v', r', _) := setElement e d (set_el el v) r in (v_el v', r')
  | Bind e types h sel => (el, JqEvent.add e types h sel r)
  | OtherDelegate w => (el, (delegateEvents w r).1)
  | OtherUndelegate w => (el, undelegateEvents w r)
  end.

(** Whether the view's handlers are bound. *)
Definition bound_op (b : bool) (o : op) : bool :=
  match o with Delegate => true | Undelegate => false | SetElement _ d => d | _ => b end.

(** Other views have other [cid]s, other code other namespaces. *)
Definition fair (v : view) (o : op) : Prop :=
  match o with
  | Bind _ types _ _ => forall w, w ∈ words types -> namespace v ∉ (type_namespaces w).2
  | OtherDelegate w => v_cid w <> v_cid v /\ proper w
  | OtherUndelegate w => v_cid w <> v_cid v
  | _ => True
  end.

Lemma held_op v el b r o :
  held v el b r -> proper v -> fair v o -> held v (run_op v (el, r) o).1 (bound_op b o) (run_op v (el, r) o).2.
Proof.
  intros Hh Hp Hf. destruct o as [| |e d|e types h sel|w|w]; cbn [run_op bound_op fst snd fair] in *.
  - by apply (held_delegate v el b).
  - by apply (held_undelegate v el b).
  - unfold setElement. destruct (held_undelegate v el b r Hh) as [H1 H2].
    assert (Hn : held v e false (undelegateEvents (set_el el v) r)) by (by constructor).
    destruct d; [|exact Hn]. pose proof (held_delegate v e false _ Hn Hp) as [Hd _].
    change (set_el e (set_el el v)) with (set_el e v). by destruct (delegateEvents (set_el e v) _).
  - by apply other_add.
  - destruct Hf as [Hne Hw]. by apply other_delegate.
  - by apply other_undelegate.
Qed.

Lemma held_run v ops el b r :
  held v el b r -> proper v -> Forall (fair v) ops ->
  held v (foldl (run_op v) (el, r) ops).1 (foldl bound_op b ops) (foldl (run_op v) (el, r) ops).2.
Proof.
  intros Hh Hp Hf. revert el b r Hh. induction Hf as [|o ops Ho _ IH]; intros el b r Hh; [done|]. cbn [foldl].
  pose proof (held_op v el b r o Hh Hp Ho) as H1. destruct (run_op v (el, r) o) as [el' r']. by apply IH.
Qed.

(** ** Events *)

(** The calls of a queue of handlers. *)
Definition calls (l : list (Elt * list handleObj)) : list (Elt * handleObj) := l ≫= fun p => pair p.1 <$> p.2.

(** The calls a table asks for: the delegated methods from the target upwards, then the others. *)
Definition table_calls {S} (D : dom Elt H S) (s : S) (v : view) (el : Elt) (ev : event Elt) : list (Elt * handleObj) :=
  (climb el (ev_target ev :: d_ancestors D s (ev_target ev)) ≫= fun cur =>
     pair cur <$> List.filter (fun ho => d_matches D s el cur (default [] (ho_selector ho))) (List.filter delegated (ours v (ev_type ev)))) ++
  (pair el <$> List.filter direct (ours v (ev_type ev))).

Lemma calls_omap (f : Elt -> option (Elt * list handleObj)) (l : list Elt) : calls (omap f l) = l ≫= fun cur => match f cur with Some p => pair p.1 <$> p.2 | None => [] end.
Proof. induction l as [|x l IH]; [done|]. cbn [omap list_omap mbind list_bind]. rewrite <- IH. by destruct (f x). Qed.

Lemma calls_filter (p : handleObj -> bool) cur l : List.filter (fun c : Elt * handleObj => p c.2) (pair cur <$> l) = pair cur <$> List.filter p l.
Proof. induction l as [|x l IH]; [done|]. cbn. destruct (p x); cbn; by rewrite IH. Qed.

Lemma filter_bind {A B} (p : B -> bool) (f : A -> list B) l : List.filter p (l ≫= f) = l ≫= fun x => List.filter p (f x).
Proof. induction l as [|x l IH]; [done|]. cbn [mbind list_bind]. by rewrite List.filter_app, IH. Qed.

Lemma view_calls {S} (D : dom Elt H S) s v el ev :
  held v el true (d_registry D s) -> (ev_type ev = js "click" -> ev_button ev = 0) ->
  (forall cur, d_disabled D s cur = false) ->
  List.filter (fun c => mine v c.2) (calls (handlers D el ev (queue_at (d_registry D s) el (ev_type ev)) s)) = table_calls D s v el ev.
Proof.
  intros [Hr Hm] Hb Hdis. pose proof (rk_queue _ Hr el (ev_type ev)) as Hq. specialize (Hm el (ev_type ev)).
  rewrite bool_decide_eq_true_2 in Hm by done. cbn [andb] in Hm. unfold filter2, split_at, split in Hm. cbn [fst snd] in Hm.
  injection Hm as Hm1 Hm2. unfold handlers_at in *. set (q := queue_at _ el _) in *.
  unfold handlers, table_calls, calls. rewrite bind_app, List.filter_app, queue_take, queue_drop by done. f_equal.
  - rewrite <- Hm1. set (dl := List.filter delegated (q_handlers q)) in *.
    assert (Hg : (bool_decide (ev_button ev = 0) || negb (bool_decide (ev_type ev = js "click"))) = true).
    { destruct (decide (ev_type ev = js "click")) as [Hc|Hc]; [rewrite (bool_decide_eq_true_2 (ev_button ev = 0)) by auto; done|].
      rewrite (bool_decide_eq_false_2 (ev_type ev = js "click")) by done. apply orb_true_r. }
    rewrite Hg, andb_true_r. destruct (decide (q_delegates q = 0%nat)) as [H0|H0].
    + rewrite bool_decide_eq_false_2 by tauto. assert (En : dl = []) by (apply length_zero_iff_nil; unfold dl; rewrite <- (qk_count _ Hq); done).
      rewrite En. cbn [List.filter fmap list_fmap]. by induction (climb _ _).
    + rewrite bool_decide_eq_true_2 by done. change (omap ?f ?l ≫= _) with (calls (omap f l)). rewrite calls_omap, filter_bind.
      apply list_bind_ext; [|done]. intros cur. cbv beta. rewrite Hdis. cbn [andb].
      destruct (List.filter (fun ho => d_matches D s el cur (default [] (ho_selector ho))) dl) as [|x l] eqn:El.
      * rewrite filter_comm, El. done.
      * cbn [fst snd]. rewrite calls_filter, <- El. by rewrite filter_comm.
  - rewrite <- Hm2. set (dr := List.filter direct (q_handlers q)) in *. case_bool_decide as Hlt.
    + cbn [mbind list_bind fst snd]. rewrite app_nil_r. apply calls_filter.
    + assert (En : dr = []).
      { apply length_zero_iff_nil. unfold dr. rewrite <- (queue_drop _ Hq), length_drop. lia. }
      by rewrite En.
Qed.

Lemma held_new v r :
  registry_ok r -> (forall e t, List.filter (mine v) (handlers_at r e t) = []) -> held v (v_el v) false r.
Proof.
  intros Hr Hn. constructor; [done|]. intros e t. cbn [andb]. unfold filter2, split_at. cbn [fst snd].
  by rewrite !(filter_comm (mine v)), Hn.
Qed.

Lemma held_handlers v el b r e t :
  held v el b r ->
  List.filter (mine v) (handlers_at r e t) = if b && bool_decide (el = e) then List.filter delegated (ours v t) ++ List.filter direct (ours v t) else [].
Proof.
  intros [Hr Hm]. unfold handlers_at. rewrite (qk_split _ (rk_queue _ Hr e t)), List.filter_app. specialize (Hm e t).
  unfold filter2, split_at, handlers_at in Hm. cbn [fst snd] in Hm. destruct (b && _); injection Hm as -> ->; done.
Qed.

(** A view on an element without handlers: the element has the view's handlers and no other, and the rest of the page keeps its own. *)
Lemma new_view_alone v r :
  registry_ok r -> (forall t, queue_at r (v_el v) t = no_queue) -> proper v ->
  registry_ok (new_view v r).1 /\
  (forall t, queue_at (new_view v r).1 (v_el v) t =
     mkQueue (List.filter delegated (ours v t) ++ List.filter direct (ours v t)) (length (List.filter delegated (ours v t)))) /\
  (forall e t, e <> v_el v -> queue_at (new_view v r).1 e t = queue_at r e t).
Proof.
  intros Hr Hn Hp. unfold new_view, delegateEvents, ours, handles. destruct (v_events v) as [table|] eqn:Et; cycle 1.
  { split_and!; [done| |]; [intros t; by rewrite Hn|done]. }
  destruct (undelegate_split v r Hr) as [Hr1 Hs1].
  destruct (delegate_keys_bind v table (obj_keys table) _ Hr1 (Hp table Et)) as (r' & -> & Hr' & Hs). cbn [fst default from_option id].
  split; [done|]. split.
  - intros t. specialize (Hs (v_el v) t). rewrite decide_True in Hs by done. rewrite Hs1, decide_True in Hs by done.
    unfold split_at, handlers_at in Hs. rewrite Hn in Hs. cbn in Hs. unfold join2, split in Hs. cbn in Hs. injection Hs as Hd Hi.
    by rewrite (queue_parts _ (rk_queue _ Hr' (v_el v) t)), Hd, Hi.
  - intros e t Hne. specialize (Hs e t). rewrite decide_False in Hs by congruence. rewrite Hs1, decide_False in Hs by congruence.
    unfold split_at, handlers_at in Hs. injection Hs as Hd Hi.
    by rewrite (queue_parts _ (rk_queue _ Hr' e t)), (queue_parts _ (rk_queue _ Hr e t)), Hd, Hi.
Qed.

(** An event of an element just below the view's, when all its methods have selectors. *)
Lemma dispatch_alone {S} (D : dom Elt H S) (run : H -> Elt -> event Elt -> S -> S * verdict) v ev s rest :
  let t := ev_type ev in let n := ev_target ev in
  queue_at (d_registry D s) (v_el v) t =
    mkQueue (List.filter delegated (ours v t) ++ List.filter direct (ours v t)) (length (List.filter delegated (ours v t))) ->
  (forall ho, ho ∈ handles v -> delegated ho = true) ->
  d_ancestors D s n = v_el v :: rest -> n <> v_el v -> d_disabled D s n = false -> ev_button ev = 0 ->
  dispatch D run (v_el v) ev s =
    run_queue run ev [(n, List.filter (fun ho => d_matches D s (v_el v) n (default [] (ho_selector ho))) (ours v t))] s.
Proof.
  cbv zeta. intros Hq Hall Ha Hn Hd Hb. unfold dispatch. rewrite Hq. set (l := ours v (ev_type ev)) in *.
  assert (Ed : List.filter delegated l = l).
  { apply filter_all. intros ho [Hin _]%list_elem_of_In%filter_In. apply Hall. by apply list_elem_of_In. }
  assert (Ei : List.filter direct l = []).
  { apply filter_none. intros ho Hin. unfold direct. rewrite <- Ed in Hin. apply list_elem_of_In, filter_In in Hin as [_ ->]. done. }
  rewrite Ed, Ei, app_nil_r. unfold handlers. cbn [q_handlers q_delegates]. rewrite firstn_all, drop_all, Ha, Hb.
  rewrite (bool_decide_eq_false_2 (length l < length l)%nat) by lia. rewrite app_nil_r. cbn [climb].
  rewrite (bool_decide_eq_false_2 (ev_target ev = v_el v)), (bool_decide_eq_true_2 (v_el v = v_el v)) by done. cbn [andb orb omap list_omap].
  rewrite (bool_decide_eq_true_2 (0 = 0)), andb_true_r, Hd by done. cbn [andb].
  destruct l as [|ho l']; [done|]. rewrite (bool_decide_eq_true_2 (length (ho :: l') <> 0%nat)) by done.
  match goal with |- context [List.filter ?f (ho :: ?l)] => by destruct (List.filter f (ho :: l)) end.
Qed.

(** C11: a view's events.  A new view binds the handlers of its table, and whatever then happens (events delegated again or
    removed, another element, other views, handlers that other code binds) the handlers of the view are those of
    its table, each once, on its present element and nowhere else, or none when they have been removed.  An event of that element
    calls the view's methods that the table names for the event's type: those whose selector matches, from
    the target upwards, then those without a selector. *)
Theorem view_delegation v ops r :
  registry_ok r -> (forall e t, List.filter (mine v) (handlers_at r e t) = []) -> proper v -> Forall (fair v) ops ->
  let st := foldl (run_op v) (v_el v, (new_view v r).1) ops in
  let bound := foldl bound_op true ops in
  (new_view v r).2 = true /\
  (forall e t, List.filter (mine v) (handlers_at st.2 e t) =
     if bound && bool_decide (st.1 = e) then List.filter delegated (ours v t) ++ List.filter direct (ours v t) else []) /\
  (forall S (D : dom Elt H S) s ev, d_registry D s = st.2 -> bound = true -> (ev_type ev = js "click" -> ev_button ev = 0) ->
     (forall cur, d_disabled D s cur = false) ->
     List.filter (fun c => mine v c.2) (calls (handlers D st.1 ev (queue_at (d_registry D s) st.1 (ev_type ev)) s)) = table_calls D s v st.1 ev).
Proof.
  intros Hr Hn Hp Hf st bound. destruct (held_delegate v (v_el v) false r (held_new v r Hr Hn) Hp) as [Hh Hok].
  replace (set_el (v_el v) v) with v in Hh, Hok by (by destruct v).
  pose proof (held_run v ops (v_el v) true _ Hh Hp Hf) as Hs. split; [exact Hok|]. split.
  - intros e t. by apply held_handlers.
  - intros S D s ev Es Eb Hb Hd. apply view_calls; [|done|done]. fold bound in Hs. rewrite Es, <- Eb. exact Hs.
Qed.

End View.
End View.
