(* ===== verification/Sync.v ===== *)
(** * Models and the server ([Backbone.sync], [save], [fetch], [destroy] and [url] of [files/backbone.js])

    The values of attributes are those of JSON.  [sync] computes the request that [$.ajax] is given;
    its answer is an argument of the completion.  [toJSON] is a method that a model may override, and a
    parameter.  Options other than [wait], [patch], [url], [data], [attrs] and the two emulations are
    not given, answers come after the call, and the [xhr] that [PATCH] takes in an old Internet Explorer is left out. *)

From S2P Require Import Prelude JsString JsObject JsNumber Json JsValue UriCodec Backbone Collection.
Import JsValue.

Local Open Scope Z_scope.

Module Sync.

Abbreviation model := (Model.model json).
Abbreviation attrs := (list (jsstr * option json)).

(** [this.get(attr) != null] *)
Definition has (m : model) (attr : jsstr) : bool :=
  match Model.get m attr with None | Some JNull => false | Some _ => true end.
Definition isNew (m : model) : bool := negb (has m (js "id")).

(** ** [url] *)

Inductive error := UrlError | URIError.

(** [urlRoot], and the [url] of the collection. *)
Record site := mkSite { urlRoot : option jsstr; collection_url : option jsstr }.

(** [a || b] on strings *)
Definition or_str (a b : option jsstr) : option jsstr := match a with Some (_ :: _) => a | _ => b end.

(** [base.replace(/([^\/])$/, '$1/')] *)
Definition slashed (base : jsstr) : jsstr :=
  match last base with Some c => if c =? ch "/" then base else base ++ js "/" | None => base end.

(** [id] is the property of the model, [new] what [isNew] says. *)
Definition url (s : site) (id : option json) (new : bool) : error + jsstr :=
  match or_str (urlRoot s) (or_str (collection_url s) None) with
  | None => inl UrlError
  | Some base =>
      if new then inr base
      else match encodeURIComponent (from_option to_string (js "undefined") id) with
           | Some e => inr (slashed base ++ e)
           | None => inl URIError
           end
  end.

(** ** [Backbone.sync] *)

Inductive method := Create | Update | Patch | Delete | Read.

Definition methodMap (m : method) : jsstr :=
  js match m with Create => "POST" | Update => "PUT" | Patch => "PATCH" | Delete => "DELETE" | Read => "GET" end.

(** The data of a request: a text, or the fields of a form. *)
Inductive payload := Text (s : jsstr) | Form (fields : list (jsstr * jsstr)).

Record request := mkRequest {
  rq_type : jsstr;
  rq_url : jsstr;
  rq_contentType : option jsstr;
  rq_data : option payload;
  rq_override : option jsstr;      (** the header [X-HTTP-Method-Override] *)
  rq_processData : bool }.

Record options := mkOptions {
  op_url : option jsstr; op_data : option payload; op_attrs : option json;
  op_emulateHTTP : bool; op_emulateJSON : bool }.
Definition no_options : options := mkOptions None None None false false.

Definition sends_model (m : method) : bool := match m with Create | Update | Patch => true | Delete | Read => false end.
Definition emulated (o : options) (m : method) : bool :=
  op_emulateHTTP o && match m with Update | Delete | Patch => true | Create | Read => false end.

(** [where_] is what [url] gives and [toJSON] the model's document; the options are copied over the parameters at the end. *)
Definition sync (m : method) (where_ : error + jsstr) (toJSON : json) (o : options) : error + request :=
  match or_str (op_url o) None, where_ with
  | None, inl e => inl e
  | given, _ =>
      let u := match given, where_ with None, inr u => u | _, _ => [] end in
      let sends := sends_model m && bool_decide (op_data o = None) in
      let text := if sends then Some (stringify (default toJSON (op_attrs o))) else None in
      let contentType := if op_emulateJSON o then Some (js "application/x-www-form-urlencoded")
        else if sends then Some (js "application/json") else None in
      let fields := match text with Some t => [(js "model", t)] | None => [] end ++
        if emulated o m then [(js "_method", methodMap m)] else [] in
      let data := if op_emulateJSON o then Some (Form fields) else Text <$> text in
      let type := if emulated o m then js "POST" else methodMap m in
      inr (mkRequest type (default u (op_url o)) contentType
        match op_data o with Some d => Some d | None => data end
        (if emulated o m then Some (methodMap m) else None)
        (bool_decide (type = js "GET") || op_emulateJSON o))
  end.

(** ** Saving, fetching and destroying a model *)

(** [_.extend(a, b)] *)
Definition extend (a b : attrs) : attrs := foldl (fun o k => obj_set o k (Model.attr_get b k)) a (obj_keys b).

(** The properties of an answer; whether it is an object. *)
Definition indexed {A} (f : A -> json) (l : list A) : attrs := imap (fun i x => (num_to_str (Z.of_nat i), Some (f x))) l.
Definition own_props (v : json) : attrs :=
  match v with
  | JObj o => prod_map id Some <$> o
  | JArr l => indexed id l
  | JStr s => indexed (fun c => JStr [c]) s
  | JNull | JBool _ | JNum _ _ => []
  end.
Definition isObject (v : json) : bool := match v with JObj _ | JArr _ => true | _ => false end.

(** [toJSON] of [Backbone.Model], as [JSON.stringify] writes it: without the undefined attributes. *)
Definition model_toJSON (m : model) : json :=
  JObj (omap (fun p => match p with (k, Some v) => Some (k, v) | (_, None) => None end) (Model.m_attributes m)).

Definition put_attributes (a : attrs) (m : model) : model := Model.mkModel a (Model.m_previous m) (Model.m_changed m).

Section Saving.
Context (toJSON : model -> json) (s : site).

(** [save(given, {wait, patch})]: the model after the call, its events and the request.  With [wait] the attributes
    are in the model only while the request is made, and stay when making it throws. *)
Definition save (given : option attrs) (wait patch : bool) (m : model) : model * list jsstr * (error + request) :=
  let '(m1, events) := match given with Some a => if wait then (m, []) else Model.set false false a m | None => (m, []) end in
  let temp := match given with Some a => if wait then put_attributes (extend (Model.m_attributes m1) a) m1 else m1 | None => m1 end in
  let meth := if isNew temp then Create else if patch then Patch else Update in
  let sent := match meth with Patch => JObj ∘ omap (fun p => pair p.1 <$> p.2) <$> given | _ => None end in
  match sync meth (url s (Model.get m1 (js "id")) (isNew temp)) (toJSON temp) (mkOptions None None sent false false) with
  | inl e => (temp, events, inl e)
  | inr r => (m1, events ++ [js "request"], inr r)
  end.

(** The success callback. *)
Definition saved (given : option attrs) (wait : bool) (resp : json) (m : model) : model * list jsstr :=
  let sets := wait || isObject resp in
  let server := if wait then extend (default [] given) (own_props resp) else own_props resp in
  let '(m', events) := if sets then Model.set false false server m else (m, []) in
  (m', events ++ [js "sync"]).

(** [fetch]; its answer is [Model.fetched]. *)
Definition fetch (m : model) : error + request := sync Read (url s (Model.get m (js "id")) (isNew m)) (toJSON m) no_options.

(** [destroy({wait})]: the events and the request, if one is made. *)
Definition destroy (wait : bool) (m : model) : list jsstr * option (error + request) :=
  if isNew m then ([js "destroy"], None)
  else
    match sync Delete (url s (Model.get m (js "id")) false) (toJSON m) no_options with
    | inl e => ([], Some (inl e))
    | inr r => (js "request" :: (if wait then [] else [js "destroy"]), Some (inr r))
    end.

(** The success callback of [destroy]. *)
Definition destroyed (wait : bool) (m : model) : list jsstr :=
  (if wait || isNew m then [js "destroy"] else []) ++ (if isNew m then [] else [js "sync"]).

End Saving.

(** ** Models of a collection *)

Abbreviation collection := (Collection.collection (V := json)).

(** An id as a property name; [null] is none. *)
Definition id_name (v : json) : option jsstr := match v with JNull => None | _ => Some (to_string v) end.

Section Persist.
Context (toJSON : model -> json) (root : jsstr).

(** The [url] of the collection serves its models. *)
Definition home : site := mkSite None (Some root).

(** [fetch] of the collection. *)
Definition fetch_all : error + request :=
  sync Read (match or_str (Some root) None with Some u => inr u | None => inl UrlError end) JNull no_options.

Definition model_at (c : collection) (cid : jsstr) : option model := obj_get (Collection.c_objs c) cid.

(** [create(given)]: the model is added, then saved. *)
Definition create (given : attrs) (c : collection) : collection * option (error + request) :=
  let c' := (Collection.create id_name given c).1 in
  (c', (fun m => (save toJSON home None false false m).2) <$> model_at c' (Collection.uniqueId (Collection.c_next c))).

(** The answer to [save] for a model of the collection. *)
Definition save_answered (cid : jsstr) (resp : json) (c : collection) : collection :=
  if isObject resp then (Collection.set_on id_name false cid (own_props resp) c).1 else c.

(** [_onModelEvent] of ["destroy"]: the model leaves the collection. *)
Definition on_destroy (events : list jsstr) (cid : jsstr) (c : collection) : collection :=
  if bool_decide (js "destroy" ∈ events) then (Collection.remove id_name false [Collection.AModel cid] c).1 else c.

Definition destroy_model (wait : bool) (cid : jsstr) (c : collection) : collection * option (error + request) :=
  match model_at c cid with
  | Some m => let '(events, r) := destroy toJSON home wait m in (on_destroy events cid c, r)
  | None => (c, None)
  end.
Definition destroy_answered (wait : bool) (cid : jsstr) (c : collection) : collection :=
  match model_at c cid with Some m => on_destroy (destroyed wait m) cid c | None => c end.

(** ** Lemmas *)

Definition json_request (type u : jsstr) (doc : json) : request :=
  mkRequest type u (Some (js "application/json")) (Some (Text (stringify doc))) None false.
Definition bare_request (type u : jsstr) : request := mkRequest type u None None None (bool_decide (type = js "GET")).

Lemma home_url id new e :
  root <> [] -> (new = false -> encodeURIComponent (from_option to_string (js "undefined") id) = Some e) ->
  url home id new = inr (if new then root else slashed root ++ e).
Proof.
  intros Hr He. unfold url, home. cbn [urlRoot collection_url or_str]. destruct root as [|x l]; [done|].
  destruct new; [done|]. by rewrite He.
Qed.

Lemma save_new m : root <> [] -> isNew m = true -> save toJSON home None false false m = (m, [js "request"], inr (json_request (js "POST") root (toJSON m))).
Proof. intros Hr Hn. unfold save. rewrite Hn. by rewrite (home_url _ true []) by done. Qed.

Lemma save_old m e :
  root <> [] -> isNew m = false -> encodeURIComponent (from_option to_string (js "undefined") (Model.get m (js "id"))) = Some e ->
  save toJSON home None false false m = (m, [js "request"], inr (json_request (js "PUT") (slashed root ++ e) (toJSON m))).
Proof. intros Hr Hn He. unfold save. rewrite Hn. by rewrite (home_url _ false e) by done. Qed.

Lemma destroy_old wait m e :
  root <> [] -> isNew m = false -> encodeURIComponent (from_option to_string (js "undefined") (Model.get m (js "id"))) = Some e ->
  destroy toJSON home wait m = (js "request" :: (if wait then [] else [js "destroy"]), Some (inr (bare_request (js "DELETE") (slashed root ++ e)))).
Proof. intros Hr Hn He. unfold destroy. rewrite Hn. by rewrite (home_url _ false e) by done. Qed.

(** A destroyed model leaves the collection, and the others stay. *)
Lemma on_destroy_spec events cid c :
  Collection.coll_ok id_name [] c -> cid ∈ Collection.c_models c -> js "destroy" ∈ events ->
  Collection.coll_ok id_name [] (on_destroy events cid c) /\
  Collection.c_models (on_destroy events cid c) = Collection.without [cid] (Collection.c_models c) /\
  Collection.c_objs (on_destroy events cid c) = Collection.c_objs c.
Proof.
  intros Hc Hin He. unfold on_destroy. rewrite bool_decide_eq_true_2 by done.
  pose proof (Collection.ck_index _ _ _ Hc) as Hi. rewrite app_nil_r in Hi.
  destruct (Collection.remove1_ok id_name [] false c [] (Collection.AModel cid) Hc) as (H1 & H2 & H3).
  - by apply (Collection.ix_obj _ _ _ Hi).
  - intros x Hx. rewrite (Collection.get_own id_name _ c cid Hi Hin) in Hx. by injection Hx as <-.
  - rewrite (Collection.get_own id_name _ c cid Hi Hin) in H3. done.
Qed.

End Persist.

(** The properties of an object as attributes. *)
Lemma own_names o : (own_props (JObj o)).*1 = o.*1.
Proof. cbn [own_props]. rewrite <- list_fmap_compose. by apply list_fmap_ext. Qed.

Lemma own_get o k : Model.attr_get (own_props (JObj o)) k = obj_get o k.
Proof.
  unfold Model.attr_get. cbn [own_props]. induction o as [|[j v] o IH]; [done|]. cbn [fmap list_fmap prod_map obj_get fst snd id].
  destruct (decide (j = k)); [done|exact IH].
Qed.

Lemma own_wf o : obj_wf o -> obj_wf (own_props (JObj o)).
Proof. unfold obj_wf. by rewrite own_names. Qed.

Lemma own_after o cur k :
  Model.after false (own_props (JObj o)) cur k = match obj_get o k with Some x => Some x | None => Model.attr_get cur k end.
Proof.
  unfold Model.after. rewrite own_get. rewrite (bool_decide_ext _ (k ∈ o.*1)) by (unfold obj_keys; by rewrite elem_of_enum_order, own_names).
  destruct (obj_get o k) as [x|] eqn:E.
  - by rewrite bool_decide_eq_true_2 by (by eapply obj_get_Some_in).
  - by rewrite bool_decide_eq_false_2 by (by apply obj_get_None).
Qed.

(** What [create] leaves in the collection. *)
Lemma create_model toJSON root given c :
  root <> [] -> Collection.reachable id_name c -> obj_wf given -> Model.attr_get given (js "id") = None ->
  let cid := Collection.uniqueId (Collection.c_next c) in let m := Model.new_model given [] in
  let c1 := (create toJSON root given c).1 in
  model_at c1 cid = Some m /\ (forall k, Model.get m k = Model.attr_get given k) /\
  Collection.c_models c1 = Collection.c_models c ++ [cid] /\ Collection.coll_ok id_name [] c1 /\
  (forall x, x ∈ Collection.c_models c -> Collection.model_id id_name c1 x = Collection.model_id id_name c x) /\
  (create toJSON root given c).2 = Some (inr (json_request (js "POST") root (toJSON m))).
Proof.
  intros Hr Hc Hw Hid. cbv zeta. pose proof (Collection.reachable_ok _ _ Hc) as Hok.
  assert (Hp : Collection.plain_arg id_name c (Collection.AAttrs given)) by (split; [done|]; intros v; unfold Collection.id_given; by rewrite Hid).
  destruct (Collection.create_spec id_name given c Hok Hp Hid) as [E1 E2].
  pose proof (Collection.create_ok id_name given c Hok Hp) as Hok1.
  destruct (Model.new_model_spec given Hw) as [_ Hg]. unfold create. cbn [fst snd].
  assert (Em : model_at (Collection.create id_name given c).1 (Collection.uniqueId (Collection.c_next c)) = Some (Model.new_model given [])).
  { unfold model_at. by rewrite E2, obj_get_set. }
  split; [exact Em|]. split; [exact Hg|]. split; [exact E1|]. split; [exact Hok1|]. split.
  - intros x Hx. unfold Collection.model_id. rewrite E2, obj_get_set_ne; [done|]. intros <-.
    pose proof (Collection.ck_index _ _ _ Hok) as Hi. rewrite app_nil_r in Hi.
    destruct (Collection.tied_cid _ _ _ Hi _ Hx) as (n & Hn & E%Collection.uniqueId_inj). lia.
  - rewrite Em. cbn [fmap option_fmap option_map]. rewrite save_new; [done|done|]. unfold isNew, has. by rewrite Hg, Hid.
Qed.

(** What the answer leaves, when it gives an id to a model that had none. *)
Lemma answered_model c cid m o v :
  Collection.coll_ok id_name [] c -> cid ∈ Collection.c_models c -> model_at c cid = Some m -> Model.get m (js "id") = None ->
  obj_wf o -> obj_get o (js "id") = Some v -> v <> JNull -> Collection.plain_id (to_string v) -> Collection.get_id c (to_string v) = None ->
  let c' := save_answered cid (JObj o) c in
  exists m', model_at c' cid = Some m' /\
    (forall k, Model.get m' k = match obj_get o k with Some x => Some x | None => Model.get m k end) /\
    Collection.c_models c' = Collection.c_models c /\ Collection.coll_ok id_name [] c' /\
    Collection.get_id c' (to_string v) = Some cid.
Proof.
  intros Hok Hcid Hm Hid Ho Hv Hnn Hp Hf. cbv zeta. pose proof (Collection.ck_index _ _ _ Hok) as I1. rewrite app_nil_r in I1.
  destruct (Collection.set_on_names id_name _ c cid (own_props (JObj o)) (to_string v) I1 Hcid) as (I2 & N2 & E2 & L2 & m0 & Em & Em2).
  - unfold Collection.model_id, model_at in *. rewrite Hm. cbn. unfold Collection.id_of. by rewrite Hid.
  - by apply own_wf.
  - unfold Collection.id_given. rewrite own_get, Hv. by destruct v.
  - done.
  - intros x Hx Hi. rewrite (proj2 (Collection.get_id_iff _ _ _ I1 _ x Hp)) in Hf; done.
  - unfold model_at, save_answered in *. cbn [isObject]. rewrite Hm in Em. injection Em as <-. eexists. split; [exact Em2|].
    split; [intros k; rewrite (proj1 (Model.set_spec false false _ m (own_wf o Ho))), own_after; done|]. split; [exact E2|]. split.
    + constructor; [by rewrite app_nil_r, E2|]. rewrite L2, E2. apply Hok.
    + by apply (Collection.get_id_iff _ _ _ I2).
Qed.

(** A destroyed model is not found any more. *)
Lemma destroyed_gone events cid c k :
  Collection.coll_ok id_name [] c -> Collection.plain_id k -> Collection.get_id c k = Some cid -> js "destroy" ∈ events ->
  Collection.get_id (on_destroy events cid c) k = None.
Proof.
  intros Hok Hp Hg He. pose proof (Collection.ck_index _ _ _ Hok) as I2. rewrite app_nil_r in I2.
  apply (Collection.get_id_iff _ _ _ I2 k cid Hp) in Hg as [Hc Hk]. destruct (on_destroy_spec events cid c Hok Hc He) as (H3 & E3 & O3).
  pose proof (Collection.ck_index _ _ _ H3) as I3. rewrite app_nil_r in I3.
  destruct (Collection.get_id (on_destroy events cid c) k) as [x|] eqn:E; [|done]. exfalso.
  apply (Collection.get_id_iff _ _ _ I3 k x Hp) in E as [Hx Hi]. rewrite E3, Collection.elem_of_without in Hx. destruct Hx as [Hx Hne].
  apply Hne, list_elem_of_singleton. unfold Collection.model_id in Hi. rewrite O3 in Hi. by apply (Collection.id_unique _ _ _ I2 k).
Qed.

(** C32: the life of a model on the server.  A model created in a collection without an id is its last one and
    is sent with [POST] to the collection's address, as [toJSON] writes it.  When the answer gives an id that no model of the
    collection has, the model has the attributes of the answer over those given, the
    collection finds it under that id, and from then on it is saved with [PUT] to the address that ends in the
    encoded id, from which the id can be read back.  Destroying it sends [DELETE] there and leaves the collection as
    it was before. *)
Theorem model_lifecycle toJSON root given c o v e :
  root <> [] -> Collection.reachable id_name c -> obj_wf given -> Model.attr_get given (js "id") = None ->
  obj_wf o -> obj_get o (js "id") = Some v -> v <> JNull -> wf_str (to_string v) -> Collection.plain_id (to_string v) ->
  (forall x, x ∈ Collection.c_models c -> Collection.model_id id_name c x <> Some (to_string v)) ->
  encodeURIComponent (to_string v) = Some e ->
  let cid := Collection.uniqueId (Collection.c_next c) in
  let c1 := (create toJSON root given c).1 in
  let c2 := save_answered cid (JObj o) c1 in
  let c3 := (destroy_model toJSON root false cid c2).1 in
  exists m1 m2,
    model_at c1 cid = Some m1 /\ (forall k, Model.get m1 k = Model.attr_get given k) /\
    Collection.c_models c1 = Collection.c_models c ++ [cid] /\ Collection.get_id c1 (to_string v) = None /\
    (create toJSON root given c).2 = Some (inr (json_request (js "POST") root (toJSON m1))) /\
    model_at c2 cid = Some m2 /\
    (forall k, Model.get m2 k = match obj_get o k with Some x => Some x | None => Model.attr_get given k end) /\
    Collection.c_models c2 = Collection.c_models c1 /\ Collection.get_id c2 (to_string v) = Some cid /\
    save toJSON (home root) None false false m2 = (m2, [js "request"], inr (json_request (js "PUT") (slashed root ++ e) (toJSON m2))) /\
    decodeURIComponent e = Some (to_string v) /\
    (destroy_model toJSON root false cid c2).2 = Some (inr (bare_request (js "DELETE") (slashed root ++ e))) /\
    Collection.c_models c3 = Collection.c_models c /\ Collection.get_id c3 (to_string v) = None.
Proof.
  intros Hr Hc Hw Hid Ho Hv Hnull Hs Hp Hf He cid c1 c2 c3.
  destruct (create_model toJSON root given c Hr Hc Hw Hid) as (M1 & M2 & M3 & M4 & M5 & M6). fold cid c1 in M1, M3, M4, M5.
  set (m1 := Model.new_model given []) in *. pose proof (Collection.ck_index _ _ _ M4) as I1. rewrite app_nil_r in I1.
  assert (Hcid : cid ∈ Collection.c_models c1) by (rewrite M3, elem_of_app, list_elem_of_singleton; by right).
  assert (Hg1 : Collection.get_id c1 (to_string v) = None).
  { destruct (Collection.get_id c1 _) as [x|] eqn:E; [|done]. apply (Collection.get_id_iff _ _ _ I1) in E as [Hx Hi]; [|done].
    rewrite M3, elem_of_app, list_elem_of_singleton in Hx. destruct Hx as [Hx| ->]; [rewrite M5 in Hi by done; by destruct (Hf x Hx)|].
    unfold Collection.model_id, model_at in *. rewrite M1 in Hi. cbn in Hi. unfold Collection.id_of in Hi. by rewrite M2, Hid in Hi. }
  destruct (answered_model c1 cid m1 o v M4 Hcid M1 ltac:(by rewrite M2) Ho Hv Hnull Hp Hg1) as (m2 & A1 & A2 & A3 & A4 & A5). fold c2 in A1, A3, A4, A5.
  assert (Hold : isNew m2 = false) by (unfold isNew, has; rewrite A2, Hv; by destruct v).
  assert (He2 : encodeURIComponent (from_option to_string (js "undefined") (Model.get m2 (js "id"))) = Some e) by (by rewrite A2, Hv).
  pose proof (destroy_old toJSON root false m2 e Hr Hold He2) as Hd.
  assert (Hin : js "destroy" ∈ [js "request"; js "destroy"]) by (right; left).
  destruct (on_destroy_spec _ cid c2 A4 ltac:(by rewrite A3) Hin) as (_ & E3 & _).
  assert (Ec3 : c3 = on_destroy [js "request"; js "destroy"] cid c2) by (unfold c3, destroy_model; by rewrite A1, Hd).
  exists m1, m2. split_and!; [done|done|done|done|done|done| |done|done|by apply save_old|by apply decodeURIComponent_encode| | |].
  - intros k. rewrite A2. destruct (obj_get o k); [done|]. apply M2.
  - unfold destroy_model. by rewrite A1, Hd.
  - rewrite Ec3, E3, A3, M3. apply Collection.without_last. intros Hx. apply Collection.ix_nodup in I1. rewrite M3 in I1.
    apply NoDup_app in I1 as (_ & I1 & _). apply (I1 cid Hx). left.
  - rewrite Ec3. by apply destroyed_gone.
Qed.

(** A model named by the server, in an empty collection. *)
Lemma model_lifecycle_witness :
  let c1 := (create model_toJSON (js "/notes") [(js "text", Some (JStr (js "x")))] Collection.empty_collection).1 in
  let c2 := save_answered (js "c0") (JObj [(js "id", JStr (js "a b"))]) c1 in
  Collection.get_id c2 (js "a b") = Some (js "c0") /\
  (destroy_model model_toJSON (js "/notes") false (js "c0") c2).2 = Some (inr (bare_request (js "DELETE") (js "/notes/a%20b"))) /\
  decodeURIComponent (js "a%20b") = Some (js "a b").
Proof.
  destruct (model_lifecycle model_toJSON (js "/notes") [(js "text", Some (JStr (js "x")))] Collection.empty_collection
    [(js "id", JStr (js "a b"))] (JStr (js "a b")) (js "a%20b")) as (m1 & m2 & _ & _ & _ & _ & _ & _ & _ & _ & H & _ & Hd & Hr & _).
  - discriminate.
  - apply Collection.reach_empty.
  - apply (bool_decide_unpack _). vm_compute. exact I.
  - reflexivity.
  - apply (bool_decide_unpack _). vm_compute. exact I.
  - reflexivity.
  - discriminate.
  - apply (bool_decide_unpack _). vm_compute. exact I.
  - split; [intros n; discriminate|]. split; [split; discriminate|]. split; [discriminate|]. intros Hi. unfold inherited, object_prototype in Hi.
    repeat (apply elem_of_cons in Hi as [Hi|Hi]; [discriminate Hi|]). by apply not_elem_of_nil in Hi.
  - intros x Hx. by apply not_elem_of_nil in Hx.
  - vm_compute. reflexivity.
  - split; [exact H|]. split; [exact Hr|exact Hd].
Defined.

End Sync.
