(* ===== verification/RegExp.v ===== *)
(** * Regular expressions ([new RegExp(text)] and [search] of the language)

    The grammar is that of ECMAScript 5, 15.10.1, with the extensions that browsers
    accept (Annex B.1.4 of later editions: braces and brackets that close nothing are literal, any other
    character may be escaped).  Backreferences, lookaheads, octal and control-letter escapes are outside: a text
    with one of them gives [Outside].  There are no captures in use, so an expression
    means the set of spans it can match; laziness makes no difference to [search].

    The text is cut into tokens, and a parser with a stack of open groups builds the expression.
    The test [search] computes the reachable ends of a match; it is proved equivalent to the
    relation [spans]. *)

From S2P Require Import Prelude JsString.

Local Open Scope Z_scope.

Module RegExp.

(** ** Expressions *)

(** An element of a class: a range, or one of the letters [d], [w], [s] and their complements. *)
Inductive citem := Rng (lo hi : Z) | Digit (neg : bool) | Word (neg : bool) | Space (neg : bool).

Definition is_word (c : Z) : bool :=
  is_digit c || ((65 <=? c) && (c <=? 90)) || ((97 <=? c) && (c <=? 122)) || (c =? 95).
Definition line_end (c : Z) : bool := (c =? 10) || (c =? 13) || (c =? 8232) || (c =? 8233).

Definition in_item (c : Z) (i : citem) : bool :=
  match i with
  | Rng lo hi => (lo <=? c) && (c <=? hi)
  | Digit neg => xorb neg (is_digit c)
  | Word neg => xorb neg (is_word c)
  | Space neg => xorb neg (is_space c)
  end.

Inductive re :=
  | Empty
  | Chr (neg : bool) (items : list citem)       (** one character of a class *)
  | Seq (r1 r2 : re)
  | Alt (r1 r2 : re)
  | Rep (r : re) (min : nat) (max : option nat)
  | Bol | Eol
  | WordB (neg : bool).

Definition Lit (c : Z) : re := Chr false [Rng c c].
Definition Dot : re := Chr true [Rng 10 10; Rng 13 13; Rng 8232 8233].

Definition in_class (neg : bool) (items : list citem) (c : Z) : bool := xorb neg (existsb (in_item c) items).

(** ** Tokens *)

Inductive token :=
  | TAtom (r : re)
  | TAssert (r : re)
  | TQuant (min : nat) (max : option nat) (question : bool)   (** [question] for the token [?] *)
  | TOpen | TClose | TBar.

Inductive outcome (A : Type) :=
  | Fine (a : A)
  | Invalid            (** a [SyntaxError] *)
  | Outside.           (** not modelled *)
Arguments Fine {A} _.
Arguments Invalid {A}.
Arguments Outside {A}.

Definition obind {A B} (x : outcome A) (f : A -> outcome B) : outcome B :=
  match x with Fine a => f a | Invalid => Invalid | Outside => Outside end.

(** A run of digits at the start. *)
Definition digits (s : jsstr) : option (nat * jsstr) :=
  match span is_digit s with ([], _) => None | (ds, s') => Some (Z.to_nat (digits_value ds), s') end.

(** The rest of a brace quantifier after [{]: its bounds and what follows. *)
Definition braces (s : jsstr) : option (nat * option nat * jsstr) :=
  '(n, s1) ← digits s;
  match s1 with
  | x :: s2 =>
      if x =? ch "}" then Some (n, Some n, s2)
      else if x =? ch "," then
        match s2 with
        | y :: s3 =>
            if y =? ch "}" then Some (n, None, s3)
            else '(m, s4) ← digits s2;
                 match s4 with z :: s5 => if z =? ch "}" then Some (n, Some m, s5) else None | [] => None end
        | [] => None
        end
      else None
  | [] => None
  end.

(** [n] hexadecimal digits. *)
Fixpoint hex (n : nat) (acc : Z) (s : jsstr) : option (Z * jsstr) :=
  match n, s with
  | O, _ => Some (acc, s)
  | S n', x :: s' => v ← hex_value x; hex n' (acc * 16 + v) s'
  | S _, [] => None
  end.

(** An escape after the backslash: a class letter or a character. *)
Definition escaped (s : jsstr) : outcome (citem * jsstr) :=
  match s with
  | [] => Invalid
  | x :: s' =>
      let chr c := Fine (Rng c c, s') in
      if x =? ch "d" then Fine (Digit false, s') else if x =? ch "D" then Fine (Digit true, s')
      else if x =? ch "w" then Fine (Word false, s') else if x =? ch "W" then Fine (Word true, s')
      else if x =? ch "s" then Fine (Space false, s') else if x =? ch "S" then Fine (Space true, s')
      else if x =? ch "t" then chr 9 else if x =? ch "n" then chr 10 else if x =? ch "v" then chr 11
      else if x =? ch "f" then chr 12 else if x =? ch "r" then chr 13
      else if x =? ch "x" then match hex 2 0 s' with Some (c, s2) => Fine (Rng c c, s2) | None => chr x end
      else if x =? ch "u" then match hex 4 0 s' with Some (c, s2) => Fine (Rng c c, s2) | None => chr x end
      else if x =? ch "c" then Outside
      else if is_digit x then
        if (x =? 48) && negb (match s' with y :: _ => is_digit y | [] => false end) then chr 0 else Outside
      else chr x
  end.

(** An atom of a class; [\b] is a backspace there. *)
Definition class_atom (s : jsstr) : outcome (citem * jsstr) :=
  match s with
  | [] => Invalid
  | x :: s' =>
      if x =? 92 then match s' with y :: s2 => if y =? ch "b" then Fine (Rng 8 8, s2) else escaped s' | [] => Invalid end
      else Fine (Rng x x, s')
  end.

(** The atoms of a class up to its bracket; a dash between two characters makes a range. *)
Fixpoint class_items (fuel : nat) (s : jsstr) : outcome (list citem * jsstr) :=
  match fuel with
  | O => Invalid
  | S fuel' =>
      match s with
      | [] => Invalid
      | x :: s0 =>
          if x =? ch "]" then Fine ([], s0)
          else obind (class_atom s) (fun '(a, s1) =>
            match s1 with
            | d :: ((e :: _) as s2) =>
                if (d =? ch "-") && negb (e =? ch "]") then
                  obind (class_atom s2) (fun '(b, s3) =>
                    match a, b with
                    | Rng lo _, Rng hi _ =>
                        if hi <? lo then Invalid
                        else obind (class_items fuel' s3) (fun '(l, r) => Fine (Rng lo hi :: l, r))
                    | _, _ => obind (class_items fuel' s3) (fun '(l, r) => Fine (a :: Rng 45 45 :: b :: l, r))
                    end)
                else obind (class_items fuel' s1) (fun '(l, r) => Fine (a :: l, r))
            | _ => obind (class_items fuel' s1) (fun '(l, r) => Fine (a :: l, r))
            end)
      end
  end.

(** A class after its opening bracket. *)
Definition class_body (s : jsstr) : outcome (re * jsstr) :=
  let '(neg, s) := match s with x :: s' => if x =? ch "^" then (true, s') else (false, s) | [] => (false, s) end in
  obind (class_items (S (length s)) s) (fun '(l, r) => Fine (Chr neg l, r)).

(** What follows an opening parenthesis. *)
Definition opened (s : jsstr) : outcome (token * jsstr) :=
  match s with
  | x :: s' =>
      if x =? ch "?" then
        match s' with
        | y :: s2 => if y =? ch ":" then Fine (TOpen, s2) else if bool_decide (y ∈ js "=!<") then Outside else Invalid
        | [] => Invalid
        end
      else Fine (TOpen, s)
  | [] => Fine (TOpen, s)
  end.

Definition lex1 (x : Z) (s : jsstr) : outcome (token * jsstr) :=
  if x =? ch "." then Fine (TAtom Dot, s)
  else if x =? ch "*" then Fine (TQuant 0 None false, s)
  else if x =? ch "+" then Fine (TQuant 1 None false, s)
  else if x =? ch "?" then Fine (TQuant 0 (Some 1%nat) true, s)
  else if x =? ch "{" then
    match braces s with Some (n, m, s') => Fine (TQuant n m false, s') | None => Fine (TAtom (Lit x), s) end
  else if x =? ch "^" then Fine (TAssert Bol, s)
  else if x =? ch "$" then Fine (TAssert Eol, s)
  else if x =? ch "|" then Fine (TBar, s)
  else if x =? ch ")" then Fine (TClose, s)
  else if x =? ch "(" then opened s
  else if x =? ch "[" then obind (class_body s) (fun '(r, s') => Fine (TAtom r, s'))
  else if x =? 92 then
    match s with
    | y :: s' =>
        if y =? ch "b" then Fine (TAssert (WordB false), s')
        else if y =? ch "B" then Fine (TAssert (WordB true), s')
        else obind (escaped s) (fun '(i, s') => Fine (TAtom (Chr false [i]), s'))
    | [] => Invalid
    end
  else Fine (TAtom (Lit x), s).

Fixpoint lex (fuel : nat) (s : jsstr) : outcome (list token) :=
  match s with
  | [] => Fine []
  | x :: s' =>
      match fuel with
      | O => Invalid
      | S fuel' => obind (lex1 x s') (fun '(t, r) => obind (lex fuel' r) (fun ts => Fine (t :: ts)))
      end
  end.

(** ** The parser *)

(** An open group: the alternatives before the last bar, the terms since, the last atom (which a quantifier
    applies to), and whether a [?] would only make the last quantifier lazy. *)
Record frame := mkFrame { f_alts : option re; f_seq : re; f_last : option re; f_lazy : bool }.

Definition new_frame : frame := mkFrame None Empty None false.
Definition flush (f : frame) : re := match f_last f with Some r => Seq (f_seq f) r | None => f_seq f end.
Definition close_alt (f : frame) : re := match f_alts f with Some a => Alt a (flush f) | None => flush f end.
Definition push_atom (r : re) (f : frame) : frame := mkFrame (f_alts f) (flush f) (Some r) false.

Definition quantify (min : nat) (max : option nat) (question : bool) (f : frame) : outcome frame :=
  if match max with Some m => (m <? min)%nat | None => false end then Invalid
  else match f_last f with
       | Some r => Fine (mkFrame (f_alts f) (Seq (f_seq f) (Rep r min max)) None true)
       | None => if question && f_lazy f then Fine (mkFrame (f_alts f) (f_seq f) None false) else Invalid
       end.

Fixpoint parse (ts : list token) (f : frame) (outer : list frame) : outcome re :=
  match ts with
  | [] => match outer with [] => Fine (close_alt f) | _ => Invalid end
  | TAtom r :: ts' => parse ts' (push_atom r f) outer
  | TAssert r :: ts' => parse ts' (mkFrame (f_alts f) (Seq (flush f) r) None false) outer
  | TQuant n m q :: ts' => obind (quantify n m q f) (fun f' => parse ts' f' outer)
  | TBar :: ts' => parse ts' (mkFrame (Some (close_alt f)) Empty None false) outer
  | TOpen :: ts' => parse ts' new_frame (f :: outer)
  | TClose :: ts' => match outer with g :: outer' => parse ts' (push_atom (close_alt f) g) outer' | [] => Invalid end
  end.

(** [new RegExp(text)] *)
Definition compile (text : jsstr) : outcome re := obind (lex (length text) text) (fun ts => parse ts new_frame []).

(** *** The fuel is enough: every token takes a character *)

Lemma span_length p l : (length (span p l).2 <= length l)%nat.
Proof. induction l as [|x l IH]; cbn; [lia|]. destruct (p x); [|cbn; lia]. destruct (span p l). cbn in *. lia. Qed.

Lemma digits_length l n r : digits l = Some (n, r) -> (length r <= length l)%nat.
Proof. unfold digits. pose proof (span_length is_digit l). destruct (span is_digit l) as [[|d ds] r']; [done|]. by intros [= _ <-]. Qed.

Lemma braces_length l b r : braces l = Some (b, r) -> (length r <= length l)%nat.
Proof.
  unfold braces. destruct (digits l) as [[n l1]|] eqn:E1; [|done]. cbn [mbind option_bind]. apply digits_length in E1.
  destruct l1 as [|x l2]; [done|]. cbn in E1. destruct (_ =? _); [intros [= _ <-]; lia|]. destruct (_ =? _); [|done].
  destruct l2 as [|y l3]; [done|]. cbn in E1. destruct (_ =? _); [intros [= _ <-]; lia|].
  destruct (digits (y :: l3)) as [[m l4]|] eqn:E2; [|done]. cbn [mbind option_bind]. apply digits_length in E2.
  destruct l4 as [|z l5]; [done|]. cbn in E2. destruct (_ =? _); [intros [= _ <-]; lia|done].
Qed.

Lemma hex_length n acc l v r : hex n acc l = Some (v, r) -> (length r <= length l)%nat.
Proof.
  revert acc l. induction n as [|n IH]; intros acc l; cbn [hex]; [by intros [= _ <-]|]. destruct l as [|x l]; [done|].
  destruct (hex_value x); [|done]. cbn [mbind option_bind length]. intros H%IH. lia.
Qed.

Lemma escaped_length l i r : escaped l = Fine (i, r) -> (length r < length l)%nat.
Proof.
  destruct l as [|x l]; [done|]. cbn [escaped length].
  assert (Hs : forall i', Fine (i', l) = Fine (i, r) -> (length r < S (length l))%nat) by (intros i' [= _ <-]; lia).
  assert (Hx : forall n, match hex n 0 l with Some (c, s2) => Fine (Rng c c, s2) | None => Fine (Rng x x, l) end = Fine (i, r) ->
    (length r < S (length l))%nat).
  { intros n. destruct (hex n 0 l) as [[v r']|] eqn:E; [|apply Hs]. apply hex_length in E. intros [= _ <-]. lia. }
  repeat (destruct (_ =? _); [first [apply Hs | apply Hx | discriminate]|]).
  destruct (is_digit x); [|apply Hs]. destruct (_ && _); [apply Hs|done].
Qed.

Lemma class_atom_length l i r : class_atom l = Fine (i, r) -> (length r < length l)%nat.
Proof.
  destruct l as [|x l]; [done|]. cbn [class_atom length]. destruct (_ =? _); [|intros [= _ <-]; lia].
  destruct l as [|y l]; [done|]. destruct (_ =? _); [intros [= _ <-]; cbn; lia|]. intros H%escaped_length. lia.
Qed.

Lemma obind_Fine {A B} (x : outcome A) (f : A -> outcome B) b : obind x f = Fine b <-> exists a, x = Fine a /\ f a = Fine b.
Proof. destruct x; cbn; [split; [eauto|by intros (a' & [= ->] & ?)]|by split; [|intros (? & ? & _)]..]. Qed.

Lemma class_items_length fuel l its r : class_items fuel l = Fine (its, r) -> (length r < length l)%nat.
Proof.
  revert l its r. induction fuel as [|fuel IH]; intros l its r; [done|]. destruct l as [|x l]; [done|]. cbn [class_items].
  assert (Hrec : forall l1 g, (length l1 <= length l)%nat ->
    obind (class_items fuel l1) (fun '(m, r) => Fine (g m, r)) = Fine (its, r) -> (length r < length (x :: l))%nat).
  { intros l1 g Hl. intros ([m r'] & H%IH & [= _ <-])%obind_Fine. cbn. lia. }
  destruct (_ =? _); [intros [= _ <-]; cbn; lia|].
  intros ([a l1] & Ha%class_atom_length & H)%obind_Fine. cbn [length] in Ha.
  destruct l1 as [|d [|e l2]]; [by apply (Hrec [] (cons a)); [cbn; lia|]|by apply (Hrec [d] (cons a)); [cbn in *; lia|]|].
  destruct (_ && _); [|by apply (Hrec (d :: e :: l2) (cons a)); [cbn in *; lia|]].
  apply obind_Fine in H as ([b l3] & Hb%class_atom_length & H). cbn [length] in Ha, Hb.
  destruct a as [lo h| | |], b as [hi h'| | |];
    [destruct (hi <? lo); [done|]; by apply (Hrec l3 (cons (Rng lo hi))); [lia|]
    |by eapply (Hrec l3 (fun m => _ :: _ :: _ :: m)); [lia|exact H]..].
Qed.

Lemma class_items_fuel k l : (length l < k)%nat -> class_items k l = class_items (S (length l)) l.
Proof.
  remember (length l) as n eqn:En. assert (Hn : (length l <= n)%nat) by lia. clear En. revert k l Hn.
  induction n as [|n IH]; intros k l Hn Hk; (destruct k as [|k]; [lia|]); (destruct l as [|x l]; [done|]); [cbn in Hn; lia|].
  assert (Hrec : forall l1, (length l1 <= length l)%nat -> class_items k l1 = class_items (S n) l1).
  { intros l1 Hl. cbn [length] in Hn. rewrite !IH by lia. done. }
  cbn [class_items]. destruct (_ =? _); [done|].
  destruct (class_atom (x :: l)) as [[a l1]| |] eqn:Ea; [|done..]. apply class_atom_length in Ea. cbn [length obind] in Ea |- *.
  destruct l1 as [|d [|e l2]]; [by rewrite Hrec by (cbn; lia)|by rewrite Hrec by lia|].
  destruct (_ && _); [|by rewrite Hrec by lia].
  destruct (class_atom (e :: l2)) as [[b l3]| |] eqn:Eb; [|done..]. apply class_atom_length in Eb. cbn [length obind] in Ea, Eb |- *.
  by rewrite Hrec by lia.
Qed.

Lemma lex1_length x l t r : lex1 x l = Fine (t, r) -> (length r <= length l)%nat.
Proof.
  unfold lex1. repeat (destruct (_ =? _); [first [by intros [= _ <-] | idtac]|]); [| | | |by intros [= _ <-]].
  - destruct (braces l) as [[[n m] r']|] eqn:E; [apply braces_length in E|]; by intros [= _ <-].
  - unfold opened. destruct l as [|y l]; [by intros [= _ <-]|]. destruct (_ =? _); [|by intros [= _ <-]].
    destruct l as [|z l]; [done|]. destruct (_ =? _); [intros [= _ <-]; cbn; lia|]. by destruct (bool_decide _).
  - intros ([c r'] & H & [= _ <-])%obind_Fine. unfold class_body in H.
    assert (G : forall neg l1, (length l1 <= length l)%nat ->
      obind (class_items (S (length l1)) l1) (fun '(l, r) => Fine (Chr neg l, r)) = Fine (c, r') -> (length r' <= length l)%nat).
    { intros neg l1 Hl ([its r2] & Hc%class_items_length & [= _ <-])%obind_Fine. lia. }
    destruct l as [|y l]; [by apply (G false [])|]. destruct (_ =? _); [by apply (G true l); [cbn; lia|]|by apply (G false (y :: l))].
  - destruct l as [|y l]; [done|]. destruct (_ =? _); [intros [= _ <-]; cbn; lia|]. destruct (_ =? _); [intros [= _ <-]; cbn; lia|].
    intros ([i r'] & H%escaped_length & [= _ <-])%obind_Fine. lia.
Qed.

(** More fuel than characters makes no difference: cutting into tokens never stops for want of it. *)
Lemma lex_fuel k l : (length l <= k)%nat -> lex k l = lex (length l) l.
Proof.
  remember (length l) as n eqn:En. assert (Hn : (length l <= n)%nat) by lia. clear En. revert k l Hn.
  induction n as [|n IH]; intros k l Hn Hk; [destruct l; [by destruct k|cbn in Hn; lia]|].
  destruct l as [|x l]; [by destruct k|]. destruct k as [|k]; [lia|]. cbn [lex length] in *.
  destruct (lex1 x l) as [[t r]| |] eqn:E; [|done..]. apply lex1_length in E. cbn [obind]. by rewrite IH by lia.
Qed.

(** ** Matching *)

Section Match.
Context (s : jsstr).

(** Whether a word begins or ends at [i]. *)
Definition word_at (i : nat) : bool := match s !! i with Some c => is_word c | None => false end.
Definition boundary (i : nat) : bool := xorb (match i with O => false | S j => word_at j end) (word_at i).

(** [spans r i j]: the expression can match from [i] to [j]. *)
Inductive spans : re -> nat -> nat -> Prop :=
  | sp_empty i : (i <= length s)%nat -> spans Empty i i
  | sp_chr neg l i c : s !! i = Some c -> in_class neg l c = true -> spans (Chr neg l) i (S i)
  | sp_seq r1 r2 i k j : spans r1 i k -> spans r2 k j -> spans (Seq r1 r2) i j
  | sp_alt_l r1 r2 i j : spans r1 i j -> spans (Alt r1 r2) i j
  | sp_alt_r r1 r2 i j : spans r2 i j -> spans (Alt r1 r2) i j
  | sp_done r max i : (i <= length s)%nat -> spans (Rep r 0 max) i i
  | sp_more r min max i k j : max <> Some O -> spans r i k -> spans (Rep r (pred min) (pred <$> max)) k j -> spans (Rep r min max) i j
  | sp_bol : spans Bol 0 0
  | sp_eol : spans Eol (length s) (length s)
  | sp_word neg i : (i <= length s)%nat -> boundary i = negb neg -> spans (WordB neg) i i.

(** The ends of the matches from a list of starts, without repetitions. *)
Definition step (ends : nat -> list nat) (l : list nat) : list nat := remove_dups (l ≫= ends).

Fixpoint iter (n : nat) (f : list nat -> list nat) (l : list nat) : list nat :=
  match n with O => l | S n' => iter n' f (f l) end.

(** What at most [n] further turns reach. *)
Fixpoint upto (n : nat) (f : list nat -> list nat) (l : list nat) : list nat :=
  match n with O => l | S n' => l ++ upto n' f (f l) end.

(** The ends of the matches from [i]; turns without progress need not be repeated,
    so the length of the text bounds the optional ones. *)
Fixpoint ends (r : re) (i : nat) : list nat :=
  match r with
  | Empty => [i]
  | Chr neg l => match s !! i with Some c => if in_class neg l c then [S i] else [] | None => [] end
  | Seq r1 r2 => step (ends r2) (ends r1 i)
  | Alt r1 r2 => remove_dups (ends r1 i ++ ends r2 i)
  | Rep r min max =>
      match max with
      | Some m => if (m <? min)%nat then [] else
          remove_dups (upto (Nat.min (m - min) (length s)) (step (ends r)) (iter min (step (ends r)) [i]))
      | None => remove_dups (upto (length s) (step (ends r)) (iter min (step (ends r)) [i]))
      end
  | Bol => match i with O => [O] | _ => [] end
  | Eol => if (i =? length s)%nat then [i] else []
  | WordB neg => if xorb neg (boundary i) then [i] else []
  end.

(** [text.search(r) != -1] *)
Definition search (r : re) : bool :=
  existsb (fun i => match ends r i with [] => false | _ => true end) (seq 0 (S (length s))).

(** *** The test decides the relation *)

Lemma spans_bounds r i j : spans r i j -> (i <= j <= length s)%nat.
Proof. induction 1; try lia. apply lookup_lt_Some in H. lia. Qed.

Lemma elem_of_step f l j : j ∈ step f l <-> exists i, i ∈ l /\ j ∈ f i.
Proof. unfold step. rewrite elem_of_remove_dups, list_elem_of_bind. split; intros (i & ? & ?); eauto. Qed.

(** Chains of matches, of a given number of turns. *)
Fixpoint chain (R : nat -> nat -> Prop) (n : nat) (i j : nat) : Prop :=
  match n with O => i = j | S n' => exists k, R i k /\ chain R n' k j end.

Lemma elem_of_iter f n l j : j ∈ iter n (step f) l <-> exists i, i ∈ l /\ chain (fun i k => k ∈ f i) n i j.
Proof.
  revert l. induction n as [|n IH]; intros l; cbn [iter chain]; [split; [eauto|by intros (i & ? & ->)]|].
  rewrite IH. setoid_rewrite elem_of_step. split; [intros (k & (i & ? & ?) & ?); eauto 6|intros (i & ? & k & ? & ?); eauto 6].
Qed.

Lemma elem_of_upto f n l j : j ∈ upto n (step f) l <-> exists m i, (m <= n)%nat /\ i ∈ l /\ chain (fun i k => k ∈ f i) m i j.
Proof.
  revert l. induction n as [|n IH]; intros l; cbn [upto].
  - split; [intros Hj; exists O, j; split_and!; [lia|done|done]|]. intros (m & i & Hm & Hi & Hc).
    assert (m = O) as -> by lia. by cbn in Hc; subst.
  - rewrite elem_of_app, IH. split.
    + intros [Hj|(m & i & Hm & (k & Hk & Hi)%elem_of_step & Hc)]; [exists O, j; split_and!; [lia|done|done]|].
      exists (S m), k. split_and!; [lia|done|]. cbn. eauto.
    + intros (m & i & Hm & Hi & Hc). destruct m as [|m]; [left; by cbn in Hc; subst|right].
      destruct Hc as (k & Hk & Hc). exists m, k. split_and!; [lia| |done]. apply elem_of_step. eauto.
Qed.

Lemma chain_app R n m i j : chain R (n + m) i j <-> exists k, chain R n i k /\ chain R m k j.
Proof.
  revert i. induction n as [|n IH]; intros i; cbn [chain Nat.add].
  - split; [eauto|by intros (k & -> & ?)].
  - setoid_rewrite IH. split; [intros (h & ? & k & ? & ?); eauto 6|intros (k & (h & ? & ?) & ?); eauto 6].
Qed.

(** Chains that only move forward, within the text. *)
Section Forward.
Context (R : nat -> nat -> Prop) (HR : forall i k, R i k -> (i <= k <= length s)%nat).

Lemma chain_bounds n i j : (i <= length s)%nat -> chain R n i j -> (i <= j <= length s)%nat.
Proof.
  revert i. induction n as [|n IH]; intros i Hi; cbn [chain]; [intros ->; lia|]. intros (k & Hk%HR & Hc).
  apply IH in Hc; lia.
Qed.

(** Turns without progress can be left out. *)
Lemma chain_short n i j :
  (i <= length s)%nat -> chain R n i j -> exists m, (m <= n)%nat /\ (m <= j - i)%nat /\ chain R m i j.
Proof.
  revert i. induction n as [|n IH]; intros i Hi; cbn [chain].
  - intros ->. exists O. split_and!; [lia..|done].
  - intros (k & Hk & Hc). pose proof (HR _ _ Hk). assert (Hki : (k <= length s)%nat) by lia.
    destruct (IH k Hki Hc) as (m & Hm & Hm' & Hc'). pose proof (chain_bounds _ _ _ Hki Hc).
    destruct (decide (i = k)) as [->|Hne]; [exists m; split_and!; [lia..|done]|].
    exists (S m). split_and!; [lia..|]. cbn. eauto.
Qed.

(** The optional turns after the first [min]. *)
Lemma chain_trim min n i j :
  (i <= length s)%nat -> (min <= n)%nat -> chain R n i j ->
  exists m h, (m <= n - min)%nat /\ (m <= length s)%nat /\ chain R min i h /\ chain R m h j.
Proof.
  intros Hi Hn Hc. replace n with (min + (n - min))%nat in Hc by lia. apply chain_app in Hc as (h & H1 & H2).
  pose proof (chain_bounds _ _ _ Hi H1) as Hh. assert (Hh' : (h <= length s)%nat) by lia.
  pose proof (chain_bounds _ _ _ Hh' H2). destruct (chain_short _ _ _ Hh' H2) as (m & Hm & Hm' & Hc).
  exists m, h. split_and!; [lia|lia|done|done].
Qed.

(** Ends computed by turns are those of the chains. *)
Lemma elem_of_turns f min k i j :
  (forall i j, (i <= length s)%nat -> j ∈ f i <-> R i j) -> (i <= length s)%nat ->
  j ∈ remove_dups (upto (Nat.min k (length s)) (step f) (iter min (step f) [i])) <->
  exists n, (min <= n <= min + k)%nat /\ chain R n i j.
Proof.
  intros Hf Hi. assert (Hch : forall n i j, (i <= length s)%nat -> chain (fun i k => k ∈ f i) n i j <-> chain R n i j).
  { clear i j Hi. induction n as [|n IHn]; intros i j Hi; [done|]. cbn [chain]. split; intros (h & Hh & Hc).
    - apply Hf in Hh; [|done]. exists h. split; [done|]. apply IHn; [by apply HR in Hh; lia|done].
    - exists h. split; [by apply Hf|]. apply IHn; [by apply HR in Hh; lia|done]. }
  rewrite elem_of_remove_dups, elem_of_upto. setoid_rewrite elem_of_iter. setoid_rewrite list_elem_of_singleton. split.
  - intros (m & h & Hm & (i' & -> & H1) & H2). exists (min + m)%nat. split; [lia|]. apply Hch; [done|]. apply chain_app. eauto.
  - intros (n & Hn & Hc). destruct (chain_trim min n i j Hi) as (m & h & Hm & Hm' & H1 & H2); [lia|done|].
    exists m, h. pose proof (chain_bounds _ _ _ Hi H1). split_and!; [lia| |apply Hch; [lia|done]]. exists i. split; [done|]. by apply Hch.
Qed.

End Forward.

Lemma spans_rep r min max i j :
  spans (Rep r min max) i j <->
  (i <= length s)%nat /\ exists n, (min <= n)%nat /\ match max with Some m => (n <= m)%nat | None => True end /\ chain (spans r) n i j.
Proof.
  split.
  - remember (Rep r min max) as r0. intros H. revert min max Heqr0. induction H; intros min0 max0 [=]; subst.
    + split; [done|]. exists O. split_and!; [lia|by destruct max0; [lia|]|done].
    + destruct (IHspans2 _ _ eq_refl) as (_ & n & Hn & Hm & Hc). split; [by apply spans_bounds in H0; lia|]. exists (S n).
      split_and!; [lia|destruct max0 as [[|m]|]; cbn in *; [congruence|lia|done]|]. cbn. eauto.
  - intros (Hi & n & Hn & Hm & Hc). revert min max i Hi Hn Hm Hc. induction n as [|n IH]; intros min max i Hi Hn Hm Hc.
    + assert (min = O) as -> by lia. cbn in Hc. subst. by apply sp_done.
    + destruct Hc as (k & Hk & Hc). apply sp_more with k; [|done|].
      * intros ->. lia.
      * apply IH; [by apply spans_bounds in Hk; lia|lia| |done]. destruct max as [[|m]|]; cbn; [lia|lia|done].
Qed.

(** The reachable ends are those of the relation. *)
Lemma elem_of_ends r i j : (i <= length s)%nat -> j ∈ ends r i <-> spans r i j.
Proof.
  revert i j. induction r as [|neg l|r1 IH1 r2 IH2|r1 IH1 r2 IH2|r IH min max| | |neg]; intros i j Hi; cbn [ends].
  - rewrite list_elem_of_singleton. split; [intros ->; by constructor|by inversion 1].
  - split.
    + destruct (s !! i) as [c|] eqn:Ec; [|by intros ?%not_elem_of_nil]. destruct (in_class neg l c) eqn:El; [|by intros ?%not_elem_of_nil].
      intros ->%list_elem_of_singleton. by apply sp_chr with c.
    + inversion 1 as [|? ? ? c Hc Hl| | | | | | | |]; subst. rewrite Hc, Hl. by apply list_elem_of_singleton.
  - rewrite elem_of_step. split.
    + intros (k & Hk & Hj). apply IH1 in Hk; [|done]. apply sp_seq with k; [done|]. apply IH2; [by apply spans_bounds in Hk; lia|done].
    + inversion 1 as [| |? ? ? k ? H1 H2| | | | | | |]; subst. exists k. split; [by apply IH1|].
      apply IH2; [by apply spans_bounds in H1; lia|done].
  - rewrite elem_of_remove_dups, elem_of_app, IH1, IH2 by done. split; [intros [?|?]; by constructor|]. inversion 1; subst; tauto.
  - pose proof (fun k => elem_of_turns (spans r) (spans_bounds r) (ends r) min k i j IH Hi) as Hup. rewrite spans_rep. destruct max as [m|].
    + destruct (Nat.ltb_spec m min) as [Hlt|Hge].
      * split; [by intros ?%not_elem_of_nil|]. intros (_ & n & ? & ? & _). lia.
      * rewrite Hup. split; [intros (n & Hn & Hc); split; [done|]; exists n; split_and!; [lia|lia|done]|].
        intros (_ & n & Hn & Hm & Hc). exists n. split; [lia|done].
    + specialize (Hup (length s)). rewrite Nat.min_id in Hup. rewrite Hup. split.
      * intros (n & Hn & Hc). split; [done|]. exists n. split_and!; [lia|done|done].
      * intros (_ & n & Hn & _ & Hc). destruct (chain_trim (spans r) (spans_bounds r) min n i j Hi Hn Hc) as (m & h & _ & Hm & H1 & H2).
        exists (min + m)%nat. split; [lia|]. apply chain_app. eauto.
  - split; [destruct i; [intros ->%list_elem_of_singleton; constructor|by intros ?%not_elem_of_nil]|].
    inversion 1; subst. by apply list_elem_of_singleton.
  - split.
    + destruct (Nat.eqb_spec i (length s)) as [->|]; [intros ->%list_elem_of_singleton; constructor|by intros ?%not_elem_of_nil].
    + inversion 1; subst. rewrite Nat.eqb_refl. by apply list_elem_of_singleton.
  - split.
    + destruct (xorb neg (boundary i)) eqn:E; [|by intros ?%not_elem_of_nil]. intros ->%list_elem_of_singleton. constructor; [done|].
      by destruct neg, (boundary i).
    + inversion 1 as [| | | | | | | | |? ? ? Hb]; subst. rewrite Hb. destruct neg; by apply list_elem_of_singleton.
Qed.

End Match.

(** Concrete expressions. *)
Definition found (p : string) : bool := match compile (js p) with Fine r => search (js "net.eth0.in") r | _ => false end.

Lemma search_samples :
  forallb found ["^net"; "eth[0-9]+"; "(in|out)$"; "e.{2}\d"; "\beth"; "n{1}et?"; "[\w-]\."]%string = true /\
  existsb found ["^eth"; "eth[^0-9]"; "n{2}"; "in\b."]%string = false /\
  compile (js "(") = Invalid /\ compile (js ".*+.*") = Invalid /\ compile (js "[z-a]") = Invalid /\ compile (js "(a)\1") = Outside.
Proof. vm_compute. done. Qed.

(** The test finds a match exactly when the expression spans a part of the text. *)
Lemma search_spec r s : search s r = true <-> exists i j, spans s r i j.
Proof.
  unfold search. rewrite existsb_exists. split.
  - intros (i & Hi & He). apply in_seq in Hi. destruct (ends s r i) as [|j l] eqn:E; [done|]. exists i, j.
    apply elem_of_ends; [lia|]. rewrite E. left.
  - intros (i & j & H). exists i. pose proof (spans_bounds _ _ _ _ H). split; [apply in_seq; lia|].
    apply elem_of_ends in H; [|lia]. destruct (ends s r i); [by apply not_elem_of_nil in H|done].
Qed.

End RegExp.
