(* ===== verification/World.v ===== *)
(** * The state of the page and the monad the application code runs in

    [files/graph.js] keeps its state in globals ([theGrid], [theLoader],
    [theCurrentDates], [nesting], ...) and in objects shared by reference.
    [World] gathers them: the grid, the graph surfaces as a store indexed by
    allocation order, the batch loader, the time range, the progress counter
    and dialogs, the user's dashboards, the login and the views, and what the browser holds (clock, pending
    timers, requests in flight, the location hash, a log of the calls made to
    the DOM).  Closures handed to timers, requests and dialogs are codes.

    A computation maps a world to a world and a value or a thrown exception; as
    in JavaScript, what was changed before a [throw] stays changed. *)

From S2P Require Import Prelude JsString JsObject JsNumber Json Cookie.

Local Open Scope Z_scope.

(** ** Data *)

Inductive exn :=
  | Error (msg : jsstr)
  | TypeError
  | SyntaxError
  | URIError
  | ReferenceError (name : jsstr)
  | Outside (what : string).        (** not an exception of the program: the run leaves the model here *)

Inductive fmt := noBars | errorBars | customBars | stacked | area.

#[global] Instance fmt_eq_dec : EqDecision fmt.
Proof. solve_decision. Defined.

(** A bucket of a counter, times in seconds. *)
Record Bucket := mkBucket {
  bk_time : Z; bk_min : num; bk_max : num; bk_avg : num; bk_sdev : num }.

(** A property of the server's answer: a number ([start], [stop],
    [interval]), a series with its buckets, or something without a [data]
    property (a counter that was not found is a string). *)
Inductive dataval :=
  | DNum (n : Z)
  | DSeries (buckets : list Bucket)
  | DOther.

Abbreviation Data := (list (jsstr * dataval)).

(** The three fixed properties of [_lastRenderData] and one per series key;
    [None] is [undefined]. *)
Abbreviation RenderData := (list (jsstr * option dataval)).

Record GraphSurface := mkGraph {
  gs_series : option (list (jsstr * unit));   (** [_series], [None] when [null] *)
  gs_lastRenderData : RenderData;
  gs_dygraph : bool;                          (** [_dygraph] is not [null] *)
  gs_format : fmt }.

Record GraphGrid := mkGrid {
  gg_allGraphs : list nat;                    (** [_allGraphs], by reference *)
  gg_selected : option nat }.

(** A queued request for data; the callback renders [cb_seriesKeys] on [cb_graph]. *)
Record CbObj := mkCbObj {
  cb_keys : list jsstr; cb_graph : nat; cb_seriesKeys : list jsstr;
  cb_id : Z; cb_maxSamples : Z }.

Record Loader := mkLoader {
  ld_nextEvent : option nat;                  (** the timer, [None] when [null] *)
  ld_nextEventTime : Z;
  ld_getting : list (jsstr * list CbObj);
  ld_cbObjs : list (jsstr * CbObj);
  ld_xhr : option nat;
  ld_id : Z }.

(** A [Date] is its time in milliseconds, [None] for an invalid date, whose
    time is [NaN]; so are differences of dates. *)
Abbreviation date := (option Z).
Definition date_sub (a b : date) : option Z := a ≫= fun x => y ← b; Some (x - y).
Definition date_minus (a : date) (ms : Z) : date := (fun x => x - ms) <$> a.

(** [x == y] of numbers that may be [NaN]. *)
Definition num_eqb (x y : option Z) : bool :=
  match x, y with Some x, Some y => x =? y | _, _ => false end.

Record Dates := mkDates { dt_start : date; dt_stop : date }.
Record Size := mkSize { sz_width : Z; sz_height : Z }.

(** The slider's [index]: [null] at first, [NaN] after a drag over a gauge
    without width, else a marker. *)
Inductive sindex := INull | INaN | IAt (i : Z).

#[global] Instance sindex_eq_dec : EqDecision sindex.
Proof. solve_decision. Defined.

(** [ts_width] is the width of the gauge in pixels when the slider was built. *)
Record TimeSlider := mkSlider {
  ts_manual : bool; ts_index : sindex; ts_dragging : bool; ts_width : Z }.

Record TimeState := mkTime {
  theOriginalDates : Dates;
  theCurrentDates : Dates;
  theReloadInterval : Z;
  isAutoRefresh : option json;                (** any value, [None] for [undefined] *)
  autoRefreshTimer : option nat;
  theTimeSlider : TimeSlider }.

(** ** Codes for the closures *)

(** The closures given to [setTimeout] and [setInterval]. *)
Inductive TimerCode :=
  | TLoader                       (** [self.onTimer()] *)
  | TPaintVisible (g : nat)       (** [if (!pageIsHidden()) self.repaint()] *)
  | TPaint (g : nat)              (** [graph.repaint()] *)
  | TRefresh (every : Z).         (** [setInterval(refresh, every)] *)

Record Timer := mkTimer { tm_id : nat; tm_due : Z; tm_code : TimerCode }.

(** The pair of callbacks given to [loadSettings]. *)
Inductive SettingsCb :=
  | SUserDashboards (global : bool)   (** [on_userDashboards('global' or theUserName, ...)] *)
  | SLoadDashboard (ctx dashboard : jsstr) (contexts : list jsstr) (done_ : nat).

(** The callback given to [saveSettings]. *)
Inductive SaveCb :=
  | SvNothing
  | SvReloadDashboards
  | SvDeleted (name : jsstr).

(** What [onreadystatechange] of a request in flight does when it completes. *)
Inductive XhrCode :=
  | XLoader (gotten : list (jsstr * list CbObj)) (cbObjs : list (jsstr * CbObj))
  | XLoadSettings (cb : SettingsCb)
  | XSaveSettings (cb : SaveCb) (done_ : nat)
  | XXref                         (** the agents, for the cross-reference dialog *)
  | XUsers                        (** [this.users.fetch] *)
  | XUserCreated (cid : nat)      (** the [save] of a new user *)
  | XCounters.                    (** [this.fetch] of the counter tree *)

(** The completion callbacks of the progress bar's animations. *)
Inductive AnimCode := AnimVisible | AnimEnd (token : nat) | AnimHide.

(** The completion callbacks of [slideUp] on the login and logout controls. *)
Inductive SlideCode := SlideLogin | SlideLogout.

(** The answer handlers of the open dialog. *)
Inductive PromptCb := PSizeCustom | PChangeCounters | PAddCounters | PSaveDashboard.
Inductive ChoiceCb :=
  | CFormat (g : nat)
  | CDeleteDashboard (name : jsstr)
  | COverwriteDashboard (name : jsstr) (dash : json)
  | CCreateUser (username password_hash : jsstr).
Inductive Dialog :=
  | DPrompt (text : jsstr) (cb : PromptCb)
  | DChoice (text : jsstr) (options : list (jsstr * jsstr)) (cb : ChoiceCb)
  | DDateRange
  | DXref.

(** A message of the error dialog: a text, or what [guard] reports of a caught
    exception (the engine words the message and the stack). *)
Inductive ErrMsg :=
  | EText (s : jsstr)
  | EGuarded (f : string) (e : exn).

(** ** The browser's side *)

Record GetRequest := mkGet {
  rq_start : option Z; rq_stop : option Z; rq_keys : list jsstr; rq_maxSamples : Z }.

Inductive arg := AStr (s : jsstr) | ANum (n : Z).

(** A cell of a row of a plot: one number, a value and its deviation, or minimum, average and maximum. *)
Inductive cell := Cell1 (avg : num) | Cell2 (avg sdev : num) | Cell3 (min avg max : num).

(** The options of a Dygraph. *)
Record Params := mkParams {
  pr_valueRange : num * num;
  pr_labels : list jsstr;
  pr_highlight : bool;            (** [highlightSeriesOpts] are given *)
  pr_errorBars : bool; pr_customBars : bool; pr_stackedGraph : bool; pr_fillGraph : bool }.

Record Annotation := mkAnnotation { at_series : jsstr; at_x : option Z; at_value : num }.

(** What the page does to the outside, in order: calls of the DOM, animations, requests, the calls of the callbacks that
    were given to the loader, and the Dygraphs made, with the rows (a time and the cells of the series) and the options. *)
Inductive effect :=
  | EDom (target meth : string) (args : list arg)
  | EAnimate (width : string) (k : AnimCode)
  | ESlideUp (k : SlideCode)
  | EGet (xhr : nat) (req : GetRequest)
  | EHttp (xhr : nat) (verb : string) (url : jsstr) (body : jsstr)
  | ECallback (c : CbObj) (data : Data)
  | EDygraph (graph : nat) (rows : list (Z * list cell)) (params : Params)
  | EAnnotate (graph : nat) (annotations : list Annotation)
  | ESummary (graph : nat) (maxval : num) (maxtime : option Z) (minval : num) (mintime : option Z).

Record Sys := mkSys {
  sy_now : Z;                     (** [new Date().getTime()] *)
  sy_hidden : bool;               (** [document.hidden] *)
  sy_hash : jsstr;                (** [window.location.hash] *)
  sy_timers : list Timer;
  sy_next_timer : nat;
  sy_xhrs : list (nat * XhrCode); (** requests in flight *)
  sy_next_xhr : nat;
  sy_log : list effect }.

Record Ui := mkUi {
  ui_nesting : Z;
  ui_tokens : nat;                (** closures returned by [begin] so far *)
  ui_nulled : list nat;           (** those whose [$progress] was set to [null] *)
  ui_errors : list ErrMsg;        (** text of the open error dialog, [[]] if closed *)
  ui_dialog : option Dialog }.

Record DashState := mkDash {
  theUserName : option jsstr;
  da_items : list (jsstr * unit); (** [itemsByName] *)
  (** the [li]s: a name with the scope it was listed from, or the separator *)
  da_list : list (option (jsstr * option jsstr));
  da_current : option jsstr }.

(** The layout: what [documentResize] and the left tab's button read and set. *)
Record Page := mkPage {
  pg_document_hidden : bool;      (** [document_hidden], the last state seen *)
  pg_window : Size;
  pg_tabs_width : Z;              (** [theTabs.widget.actualWidth()] *)
  pg_split_width : Z;
  pg_lefttab_closed : bool;
  pg_lefttab_css : jsstr;         (** the [width] of [#lefttab] *)
  pg_old_width : jsstr }.         (** [old_element_width] *)

(** A user: the model's [cid] and attributes ([None] for [undefined]). *)
Record User := mkUser { us_cid : nat; us_attrs : list (jsstr * option json) }.

Record LoginState := mkLogin {
  lg_users : list User;           (** the models of [users] *)
  lg_next_cid : nat;
  lg_jar : list Cookie.Crumb;     (** the browser's cookies *)
  lg_url : jsstr;                 (** [window.location.href] up to the [#] *)
  lg_username : jsstr;            (** the text of the two inputs *)
  lg_password : jsstr }.

(** A dropdown: its label and its entries (text, marked current) once rendered. *)
Record Dropdown := mkDropdown {
  dv_label : option jsstr; dv_entries : option (list (jsstr * bool)); dv_open : bool }.

(** A tab: the panel, and the label above it once built. *)
Record Tab := mkTab { tb_id : jsstr; tb_active : bool; tb_label : option (jsstr * bool) }.

Record Views := mkViews {
  vw_tabs : list Tab;
  vw_logout : Dropdown;
  vw_chart_size : Dropdown;
  vw_advanced : Dropdown;
  vw_save_disabled : bool }.      (** the class [disabled] of [#save_dashboard] *)

Record World := mkWorld {
  w_sys : Sys;
  w_ui : Ui;
  w_time : TimeState;
  w_grid : GraphGrid;
  w_graphs : list GraphSurface;   (** the store of surfaces *)
  w_loader : Loader;
  w_size : Size;                  (** [theGraphSize] *)
  w_maxSamples : option Z;        (** [theGraphMaxSamples], [None] if null or undefined *)
  w_sizeDropdown : option Z;      (** [theSizeDropdownValue] *)
  w_dash : DashState;
  w_page : Page;
  w_login : LoginState;
  w_views : Views }.

(** ** Field updates *)

Definition set_sys (f : Sys -> Sys) (w : World) : World :=
  mkWorld (f (w_sys w)) (w_ui w) (w_time w) (w_grid w) (w_graphs w) (w_loader w) (w_size w)
    (w_maxSamples w) (w_sizeDropdown w) (w_dash w) (w_page w) (w_login w) (w_views w).
Definition set_ui (f : Ui -> Ui) (w : World) : World :=
  mkWorld (w_sys w) (f (w_ui w)) (w_time w) (w_grid w) (w_graphs w) (w_loader w) (w_size w)
    (w_maxSamples w) (w_sizeDropdown w) (w_dash w) (w_page w) (w_login w) (w_views w).
Definition set_time (f : TimeState -> TimeState) (w : World) : World :=
  mkWorld (w_sys w) (w_ui w) (f (w_time w)) (w_grid w) (w_graphs w) (w_loader w) (w_size w)
    (w_maxSamples w) (w_sizeDropdown w) (w_dash w) (w_page w) (w_login w) (w_views w).
Definition set_grid (f : GraphGrid -> GraphGrid) (w : World) : World :=
  mkWorld (w_sys w) (w_ui w) (w_time w) (f (w_grid w)) (w_graphs w) (w_loader w) (w_size w)
    (w_maxSamples w) (w_sizeDropdown w) (w_dash w) (w_page w) (w_login w) (w_views w).
Definition set_graphs (f : list GraphSurface -> list GraphSurface) (w : World) : World :=
  mkWorld (w_sys w) (w_ui w) (w_time w) (w_grid w) (f (w_graphs w)) (w_loader w) (w_size w)
    (w_maxSamples w) (w_sizeDropdown w) (w_dash w) (w_page w) (w_login w) (w_views w).
Definition set_loader (f : Loader -> Loader) (w : World) : World :=
  mkWorld (w_sys w) (w_ui w) (w_time w) (w_grid w) (w_graphs w) (f (w_loader w)) (w_size w)
    (w_maxSamples w) (w_sizeDropdown w) (w_dash w) (w_page w) (w_login w) (w_views w).
Definition set_size (s : Size) (w : World) : World :=
  mkWorld (w_sys w) (w_ui w) (w_time w) (w_grid w) (w_graphs w) (w_loader w) s
    (w_maxSamples w) (w_sizeDropdown w) (w_dash w) (w_page w) (w_login w) (w_views w).
Definition set_maxSamples (m : option Z) (w : World) : World :=
  mkWorld (w_sys w) (w_ui w) (w_time w) (w_grid w) (w_graphs w) (w_loader w) (w_size w)
    m (w_sizeDropdown w) (w_dash w) (w_page w) (w_login w) (w_views w).
Definition set_sizeDropdown (d : option Z) (w : World) : World :=
  mkWorld (w_sys w) (w_ui w) (w_time w) (w_grid w) (w_graphs w) (w_loader w) (w_size w)
    (w_maxSamples w) d (w_dash w) (w_page w) (w_login w) (w_views w).
Definition set_dash (f : DashState -> DashState) (w : World) : World :=
  mkWorld (w_sys w) (w_ui w) (w_time w) (w_grid w) (w_graphs w) (w_loader w) (w_size w)
    (w_maxSamples w) (w_sizeDropdown w) (f (w_dash w)) (w_page w) (w_login w) (w_views w).

Definition set_page (f : Page -> Page) (w : World) : World :=
  mkWorld (w_sys w) (w_ui w) (w_time w) (w_grid w) (w_graphs w) (w_loader w) (w_size w)
    (w_maxSamples w) (w_sizeDropdown w) (w_dash w) (f (w_page w)) (w_login w) (w_views w).

Definition set_login (f : LoginState -> LoginState) (w : World) : World :=
  mkWorld (w_sys w) (w_ui w) (w_time w) (w_grid w) (w_graphs w) (w_loader w) (w_size w)
    (w_maxSamples w) (w_sizeDropdown w) (w_dash w) (w_page w) (f (w_login w)) (w_views w).
Definition set_views (f : Views -> Views) (w : World) : World :=
  mkWorld (w_sys w) (w_ui w) (w_time w) (w_grid w) (w_graphs w) (w_loader w) (w_size w)
    (w_maxSamples w) (w_sizeDropdown w) (w_dash w) (w_page w) (w_login w) (f (w_views w)).

(** What the page itself can change of the browser's side: not the clock, nor whether the page is hidden. *)
Definition set_io (f : Sys -> Sys) : World -> World :=
  set_sys (fun s => let s' := f s in
    mkSys (sy_now s) (sy_hidden s) (sy_hash s') (sy_timers s') (sy_next_timer s') (sy_xhrs s') (sy_next_xhr s') (sy_log s')).

(** ** The monad *)

Inductive res (A : Type) := Ok (a : A) | Throw (e : exn).
Arguments Ok {A} _.
Arguments Throw {A} _.

Definition M (A : Type) : Type := World -> World * res A.

#[global] Instance M_ret : MRet M := fun A a w => (w, Ok a).
#[global] Instance M_bind : MBind M := fun A B k m w =>
  match m w with
  | (w', Ok a) => k a w'
  | (w', Throw e) => (w', Throw e)
  end.

Definition throw {A} (e : exn) : M A := fun w => (w, Throw e).
Definition get {A} (f : World -> A) : M A := fun w => (w, Ok (f w)).
Definition modify (f : World -> World) : M unit := fun w => (f w, Ok ()).

(** The state a computation leaves, and its value. *)
Definition exec {A} (m : M A) (w : World) : World := (m w).1.
Definition result {A} (m : M A) (w : World) : res A := (m w).2.

(** [for (k in l) { f(l[k]) }] over a list computed before the loop. *)
Fixpoint for_each {A} (l : list A) (f : A -> M unit) : M unit :=
  match l with
  | [] => mret ()
  | a :: l' => f a;; for_each l' f
  end.

(** ** Primitive operations of the browser *)

Definition emit (e : effect) : M unit :=
  modify (set_sys (fun s => mkSys (sy_now s) (sy_hidden s) (sy_hash s) (sy_timers s)
    (sy_next_timer s) (sy_xhrs s) (sy_next_xhr s) (sy_log s ++ [e]))).

Definition dom (target meth : string) (args : list arg) : M unit := emit (EDom target meth args).

(** [setTimeout] (and the first firing of [setInterval]): the new timer's id. *)
Definition setTimeout (code : TimerCode) (ms : Z) : M nat :=
  fun w => let s := w_sys w in
    (set_sys (fun s => mkSys (sy_now s) (sy_hidden s) (sy_hash s)
       (sy_timers s ++ [mkTimer (sy_next_timer s) (sy_now s + ms) code])
       (S (sy_next_timer s)) (sy_xhrs s) (sy_next_xhr s) (sy_log s)) w, Ok (sy_next_timer s)).

Definition clearTimeout (id : nat) : M unit :=
  modify (set_sys (fun s => mkSys (sy_now s) (sy_hidden s) (sy_hash s)
    (filter (fun t => tm_id t <> id) (sy_timers s))
    (sy_next_timer s) (sy_xhrs s) (sy_next_xhr s) (sy_log s))).

(** [new XMLHttpRequest()] with its handler. *)
Definition new_xhr (code : XhrCode) : M nat :=
  fun w => let s := w_sys w in
    (set_sys (fun s => mkSys (sy_now s) (sy_hidden s) (sy_hash s) (sy_timers s)
       (sy_next_timer s) (sy_xhrs s ++ [(sy_next_xhr s, code)]) (S (sy_next_xhr s)) (sy_log s)) w,
     Ok (sy_next_xhr s)).

Definition set_hash (h : jsstr) : M unit :=
  modify (set_sys (fun s => mkSys (sy_now s) (sy_hidden s) h (sy_timers s)
    (sy_next_timer s) (sy_xhrs s) (sy_next_xhr s) (sy_log s))).

(** [getAdjustedNow]: ten seconds ago, in milliseconds. *)
Definition getAdjustedNow : M Z := get (fun w => sy_now (w_sys w) - 10 * 1000).

Definition pageIsHidden : M bool := get (fun w => sy_hidden (w_sys w)).

(** ** Lemmas on the monad *)

Lemma bind_Ok {A B} (m : M A) (k : A -> M B) w w' a :
  m w = (w', Ok a) -> (m ≫= k) w = k a w'.
Proof. intros H. unfold mbind, M_bind. by rewrite H. Qed.

Lemma bind_Throw {A B} (m : M A) (k : A -> M B) w w' e :
  m w = (w', Throw e) -> (m ≫= k) w = (w', Throw e).
Proof. intros H. unfold mbind, M_bind. by rewrite H. Qed.

Lemma exec_bind {A B} (m : M A) (k : A -> M B) w :
  exec (m ≫= k) w = match m w with (w', Ok a) => exec (k a) w' | (w', Throw _) => w' end.
Proof. unfold exec, mbind, M_bind. by destruct (m w) as [w' []]. Qed.

Lemma eta {A} (m : M A) w a : result m w = Ok a -> m w = (exec m w, Ok a).
Proof. intros H. unfold exec, result in *. rewrite <- H. apply surjective_pairing. Qed.

(** A property of worlds that every step of a loop keeps, the loop keeps. *)
Lemma for_each_inv {A} (P : World -> Prop) (l : list A) (f : A -> M unit) w :
  (forall a w, a ∈ l -> P w -> P (exec (f a) w)) -> P w -> P (exec (for_each l f) w).
Proof.
  revert w; induction l as [|a l IH]; intros w Hf Hw; [done|].
  unfold exec in *. cbn. unfold mbind, M_bind. pose proof (Hf a w ltac:(left) Hw) as H1.
  destruct (f a w) as [w' [[]|e]]; cbn in *; [|done].
  apply IH; [|done]. intros. apply Hf; [by right|done].
Qed.

(** [m] never throws. *)
Definition total {A} (m : M A) : Prop := forall w, exists a, result m w = Ok a.

Lemma for_each_total {A} (l : list A) (f : A -> M unit) :
  (forall a, total (f a)) -> total (for_each l f).
Proof.
  intros Hf. induction l as [|a l IH]; intros w; [by eexists|]. unfold result in *. cbn.
  unfold mbind, M_bind. destruct (Hf a w) as [[] Ha]. unfold result in Ha.
  destruct (f a w) as [w' r]. cbn in Ha. subst. apply IH.
Qed.

(** ** What a computation leaves alone

    [preserves P m]: [m] keeps [P], whether it returns or throws.  [Stable P upd]:
    [P] does not depend on the part of the world that [upd] changes.  An
    operation's lemma names the parts it changes; every [P] that does not depend
    on them is kept, be it an equation of a field or an invariant. *)

Definition preserves {A} (P : World -> Prop) (m : M A) : Prop := forall w, P w -> P (exec m w).

Class Stable {X} (P : World -> Prop) (upd : (X -> X) -> World -> World) : Prop :=
  stable f w : P w -> P (upd f w).

Definition upd_size (f : Size -> Size) (w : World) : World := set_size (f (w_size w)) w.
Definition upd_maxSamples (f : option Z -> option Z) (w : World) : World := set_maxSamples (f (w_maxSamples w)) w.
Definition upd_sizeDropdown (f : option Z -> option Z) (w : World) : World :=
  set_sizeDropdown (f (w_sizeDropdown w)) w.

Create HintDb pres discriminated.

#[export] Hint Extern 5 (Stable _ _) => (intros ? ? Hstable; exact Hstable) : typeclass_instances.

Section preserves.
Context (P : World -> Prop).

Lemma pres_ret {A} (a : A) : preserves P (mret a : M A).
Proof. by intros w. Qed.
Lemma pres_throw {A} e : preserves P (throw e : M A).
Proof. by intros w. Qed.
Lemma pres_get {A} (f : World -> A) : preserves P (get f).
Proof. by intros w. Qed.
Lemma pres_modify f : (forall w, P w -> P (f w)) -> preserves P (modify f).
Proof. intros H w. apply H. Qed.

Lemma pres_bind {A B} (m : M A) (k : A -> M B) :
  preserves P m -> (forall a, preserves P (k a)) -> preserves P (m ≫= k).
Proof.
  intros Hm Hk w Hw. unfold exec, mbind, M_bind. specialize (Hm w Hw). unfold exec in Hm.
  destruct (m w) as [w' [a|e]]; [by apply Hk|done].
Qed.

Lemma pres_for_each {A} (l : list A) (f : A -> M unit) :
  (forall a, preserves P (f a)) -> preserves P (for_each l f).
Proof. intros Hf w Hw. by apply for_each_inv; [intros; apply Hf|]. Qed.

Lemma pres_emit `{!Stable P set_io} e : preserves P (emit e).
Proof. intros w Hw. exact (stable (upd := set_io) (fun _ => w_sys (exec (emit e) w)) w Hw). Qed.
Lemma pres_dom `{!Stable P set_io} t m args : preserves P (dom t m args).
Proof. apply pres_emit. Qed.
Lemma pres_setTimeout `{!Stable P set_io} c ms : preserves P (setTimeout c ms).
Proof. intros w Hw. exact (stable (upd := set_io) (fun _ => w_sys (exec (setTimeout c ms) w)) w Hw). Qed.
Lemma pres_clearTimeout `{!Stable P set_io} i : preserves P (clearTimeout i).
Proof. intros w Hw. exact (stable (upd := set_io) (fun _ => w_sys (exec (clearTimeout i) w)) w Hw). Qed.
Lemma pres_new_xhr `{!Stable P set_io} c : preserves P (new_xhr c).
Proof. intros w Hw. exact (stable (upd := set_io) (fun _ => w_sys (exec (new_xhr c) w)) w Hw). Qed.
Lemma pres_set_hash `{!Stable P set_io} h : preserves P (set_hash h).
Proof. intros w Hw. exact (stable (upd := set_io) (fun _ => w_sys (exec (set_hash h) w)) w Hw). Qed.

End preserves.

#[export] Hint Resolve pres_ret pres_throw pres_get pres_emit pres_dom pres_setTimeout
  pres_clearTimeout pres_new_xhr pres_set_hash : pres.

(** Split a computation into its parts and close each with the database. *)
Ltac pres_leaf :=
  lazymatch goal with
  | |- preserves _ (modify _) => apply pres_modify; intros ? ?; first [by apply stable | assumption]
  | |- preserves _ (get _) => apply pres_get
  | |- preserves _ getAdjustedNow => apply pres_get
  | |- preserves _ pageIsHidden => apply pres_get
  | |- _ => solve [eauto with pres typeclass_instances]
  end.
Ltac pres :=
  repeat lazymatch goal with
  | |- preserves _ (mbind _ _) => apply pres_bind; [|intros ?]
  | |- preserves _ (for_each _ _) => apply pres_for_each; intros ?
  | |- preserves _ (match ?x with _ => _ end) => destruct x
  end; try pres_leaf.

(** A preserved equation, read off at the end of a computation. *)
Lemma pres_eq {A B} (f : World -> B) (m : M A) w :
  (forall b, preserves (fun w => f w = b) m) -> f (exec m w) = f w.
Proof. intros H. by apply (H (f w) w). Qed.

(** ** Computations that never throw *)

Lemma total_ret {A} (a : A) : total (mret a : M A).
Proof. intros w. by exists a. Qed.
Lemma total_get {A} (f : World -> A) : total (get f).
Proof. intros w. by eexists. Qed.
Lemma total_modify f : total (modify f).
Proof. intros w. by eexists. Qed.
Lemma total_setTimeout c ms : total (setTimeout c ms).
Proof. intros w. by eexists. Qed.
Lemma total_new_xhr c : total (new_xhr c).
Proof. intros w. by eexists. Qed.
Lemma total_bind {A B} (m : M A) (k : A -> M B) : total m -> (forall a, total (k a)) -> total (m ≫= k).
Proof.
  intros Hm Hk w. destruct (Hm w) as [a Ha]. unfold result, mbind, M_bind in *.
  destruct (m w) as [w' r]. cbn in Ha. subst. apply Hk.
Qed.

Create HintDb tot discriminated.
#[export] Hint Resolve total_ret total_get total_modify total_setTimeout total_new_xhr : tot.

Ltac tot :=
  repeat lazymatch goal with
  | |- total (mbind _ _) => apply total_bind; [|intros ?]
  | |- total (for_each _ _) => apply for_each_total; intros ?
  | |- total (match ?x with _ => _ end) => destruct x
  | |- total (modify _) => apply total_modify
  | |- total (dom _ _ _) => apply total_modify
  | |- total (emit _) => apply total_modify
  | |- total (clearTimeout _) => apply total_modify
  | |- total (set_hash _) => apply total_modify
  | |- total getAdjustedNow => apply total_get
  | |- total pageIsHidden => apply total_get
  end; try solve [eauto with tot].

(** After a step that does not throw, the rest runs from the world it leaves. *)
Lemma total_unit (m : M unit) w : total m -> m w = (exec m w, Ok ()).
Proof. intros Hm. destruct (Hm w) as [[] H]. by apply eta. Qed.
Lemma exec_seq {B} (m : M unit) (k : M B) w : total m -> exec (m;; k) w = exec k (exec m w).
Proof. intros Hm. rewrite exec_bind. by rewrite (total_unit m w Hm). Qed.
Lemma result_seq {B} (m : M unit) (k : M B) w : total m -> result (m;; k) w = result k (exec m w).
Proof. intros Hm. unfold result. by rewrite (bind_Ok _ _ _ _ _ (total_unit m w Hm)). Qed.
