(* ===== verification/Shell.v ===== *)
(** * The shell of the application: [guard], dialogs, the progress bar, helpers

    The utilities at the top of [files/graph.js].  The progress bar is shown
    while the count [nesting] of [begin] calls without their end is positive;
    an error dialog resets the count.  [guard] is the only exception handler. *)

From S2P Require Import Prelude JsString JsObject World.

Local Open Scope Z_scope.

Module Shell.

(** ** The console *)

(** [console.log], replaced when the browser has none: then it alerts if [CONSOLE_LOG_ALERT] is set. *)
Definition CONSOLE_LOG_ALERT : bool := false.
Definition console_log (has_log : bool) (args : list jsstr) : M unit :=
  if has_log then mret ()
  else if CONSOLE_LOG_ALERT then dom "window" "alert" [AStr (join (js " ") args)] else mret ().

(** ** Helpers *)

Definition htmlescape (str : jsstr) : jsstr :=
  replace_all 10 (js "<br>" ++ [10]) (replace_all 60 (js "&lt;") (replace_all 38 (js "&amp;") str)).

(** [arrayKeys]: the names of an object, sorted. *)
Definition arrayKeys {V} (a : list (jsstr * V)) : list jsstr := sort_strings (obj_keys a).

(** [keys], also of [null]. *)
Definition keys {V} (obj : list (jsstr * V)) : list jsstr := obj_keys obj.
Definition keys_opt {V} (obj : option (list (jsstr * V))) : list jsstr := default [] (keys <$> obj).

Definition empty {V} (obj : list (jsstr * V)) : bool := match keys obj with [] => true | _ => false end.

(** [arrayRemove]: splices out the first element equal to [e]. *)
Fixpoint arrayRemove {A} `{EqDecision A} (a : list A) (e : A) : list A :=
  match a with
  | [] => []
  | x :: a' => if decide (x = e) then a' else x :: arrayRemove a' e
  end.

(** [arrayFindIndex]: the index as the loop yields it, a string; [None] is [undefined]. *)
Fixpoint arrayFindIndex_from {A} `{EqDecision A} (k : Z) (a : list A) (e : A) : option jsstr :=
  match a with
  | [] => None
  | x :: a' => if decide (x = e) then Some (num_to_str k) else arrayFindIndex_from (k + 1) a' e
  end.
Definition arrayFindIndex {A} `{EqDecision A} (a : list A) (e : A) : option jsstr :=
  arrayFindIndex_from 0 a e.

(** [twoDigit] of an integer: a string below ten, else the number. *)
Definition twoDigit (val : Z) : arg :=
  if val <? 0 then AStr (js "00")
  else let val := val mod 100 in
       if val <? 10 then AStr (js "0" ++ num_to_str val) else ANum val.

(** ** [errorDialog] and [guard] *)

Definition set_nesting (n : Z) : M unit :=
  modify (set_ui (fun u => mkUi n (ui_tokens u) (ui_nulled u) (ui_errors u) (ui_dialog u))).

(** The message is appended to an open dialog's text, else a dialog is made. *)
Definition show_error (msg : ErrMsg) : M unit :=
  modify (set_ui (fun u => mkUi (ui_nesting u) (ui_tokens u) (ui_nulled u)
    (ui_errors u ++ [match msg with EText s => EText (htmlescape s) | m => m end]) (ui_dialog u))).

Definition errorDialog (msg : ErrMsg) : M unit :=
  show_error msg;;
  dom ".dialog.error" "prependTo" [AStr (js "body")];;
  set_nesting 0;;
  dom "div#progressbar" "show" [];;
  emit (EAnimate "0" AnimHide).

Definition errorText (s : string) : M unit := errorDialog (EText (js s)).

(** The close box of the error dialog. *)
Definition errorDialog_close : M unit :=
  modify (set_ui (fun u => mkUi (ui_nesting u) (ui_tokens u) (ui_nulled u) [] (ui_dialog u))).

(** [guard(f)]: [None] is the [undefined] it returns after an exception. *)
Definition guard {A} (name : string) (f : M A) : M (option A) :=
  fun w => match f w with
           | (w', Ok a) => (w', Ok (Some a))
           | (w', Throw e) => (errorDialog (EGuarded name e);; mret None) w'
           end.

(** A guarded call whose value is not used. *)
Definition guarded (name : string) (f : M unit) : M unit := guard name f;; mret ().

(** ** The progress bar *)

Definition bar_css (prop v : string) : M unit := dom "div#progressbar" "css" [AStr (js prop); AStr (js v)].

Definition new_token : M nat :=
  fun w => let u := w_ui w in
    (set_ui (fun u => mkUi (ui_nesting u) (S (ui_tokens u)) (ui_nulled u) (ui_errors u) (ui_dialog u)) w,
     Ok (ui_tokens u)).

(** [begin(label)] returns a closure, here a token for [finish]. *)
Definition begin : M nat :=
  n ← get (fun w => ui_nesting (w_ui w));
  (if n =? 0 then bar_css "visibility" "visible";; emit (EAnimate "half" AnimVisible) else mret ());;
  set_nesting (n + 1);;
  new_token.

(** The closure [begin] returned.  Its [$progress] variable is set to [null]
    when its own closing animation has ended. *)
Definition finish (token : nat) : M unit :=
  n ← get (fun w => ui_nesting (w_ui w));
  if 0 <? n then
    set_nesting (n - 1);;
    (if n - 1 =? 0 then
       bar_css "visibility" "visible";;
       nulled ← get (fun w => ui_nulled (w_ui w));
       if bool_decide (token ∈ nulled) then throw TypeError else emit (EAnimate "full" (AnimEnd token))
     else mret ())
  else mret ().

(** The completion callbacks of the animations. *)
Definition anim_done (k : AnimCode) : M unit :=
  match k with
  | AnimVisible => bar_css "visibility" "visible"
  | AnimHide => bar_css "visibility" "hidden"
  | AnimEnd token =>
      dom ".progressfg" "css" [AStr (js "width"); ANum 0];;
      bar_css "visibility" "hidden";;
      modify (set_ui (fun u => mkUi (ui_nesting u) (ui_tokens u) (token :: ui_nulled u)
        (ui_errors u) (ui_dialog u)))
  end.

(** ** Dialogs

    One dialog is open at a time: opening one detaches the other. *)

Definition set_dialog (d : option Dialog) : M unit :=
  modify (set_ui (fun u => mkUi (ui_nesting u) (ui_tokens u) (ui_nulled u) (ui_errors u) d)).

Definition promptDialog (prmp : jsstr) (cb : PromptCb) : M unit :=
  dom ".dialog.prompt" "detach" [];;
  set_dialog (Some (DPrompt (htmlescape prmp) cb));;
  dom ".dialog.prompt" "prependTo" [AStr (js "body")].

(** The buttons are built from the option names and their escaped labels. *)
Definition choiceDialog (text : jsstr) (options : list (jsstr * jsstr)) (cb : ChoiceCb) : M unit :=
  dom ".dialog.prompt" "detach" [];;
  set_dialog (Some (DChoice (htmlescape text) ((fun p => (p.1, htmlescape p.2)) <$> options) cb));;
  dom ".dialog.prompt" "prependTo" [AStr (js "body")].

(** The close boxes: [$div.remove()]. *)
Definition dialog_close : M unit := set_dialog None.

(** [eHandler] of [promptDialog], given what [cb] returns ([Some false] for
    [false]); the dialog stays open on [false] and when [cb] throws. *)
Definition prompt_submit (cb : M (option bool)) : M unit :=
  guarded "" (r ← cb; if bool_decide (r = Some false) then mret () else dialog_close).

(** [eHandler] of [choiceDialog]. *)
Definition choice_submit (cb : M unit) : M unit := guarded "" (cb;; dialog_close).

(** ** Lemmas *)

Lemma htmlescape_bind s :
  htmlescape s = s ≫= fun c => if c =? 38 then js "&amp;" else if c =? 60 then js "&lt;"
                               else if c =? 10 then js "<br>" ++ [10] else [c].
Proof.
  unfold htmlescape, replace_all. induction s as [|c s IH]; [done|]. rewrite !bind_cons.
  rewrite !bind_app, IH. f_equal.
  destruct (Z.eqb_spec c 38) as [->|H1]; [done|]. cbn.
  destruct (Z.eqb_spec c 60) as [->|H2]; [done|]. cbn.
  destruct (Z.eqb_spec c 10) as [->|H3]; [done|]. done.
Qed.

Lemma errorDialog_exec msg w :
  exists w', errorDialog msg w = (w', Ok ()) /\
    ui_nesting (w_ui w') = 0 /\
    ui_errors (w_ui w') = ui_errors (w_ui w) ++
      [match msg with EText s => EText (htmlescape s) | m => m end] /\
    w_time w' = w_time w /\ w_grid w' = w_grid w /\ w_graphs w' = w_graphs w /\
    w_loader w' = w_loader w /\ w_size w' = w_size w /\ w_dash w' = w_dash w.
Proof. eexists. split; [reflexivity|]. cbn. done. Qed.

(** A guarded function never throws. *)
Lemma guard_total {A} name (f : M A) : total (guard name f).
Proof.
  intros w. unfold result, guard. destruct (f w) as [w' [a|e]]; [by eexists|].
  destruct (errorDialog_exec (EGuarded name e) w') as (w'' & H & _).
  rewrite (bind_Ok _ _ _ _ _ H). by eexists.
Qed.

Lemma guard_Ok {A} name (f : M A) w w' a : f w = (w', Ok a) -> guard name f w = (w', Ok (Some a)).
Proof. intros H. unfold guard. by rewrite H. Qed.

Lemma guarded_Ok name (f : M unit) w w' : f w = (w', Ok ()) -> guarded name f w = (w', Ok ()).
Proof. intros H. unfold guarded. by rewrite (bind_Ok _ _ _ _ _ (guard_Ok name f w w' () H)). Qed.

Lemma guarded_Throw name (f : M unit) w w' e :
  f w = (w', Throw e) -> guarded name f w = (exec (errorDialog (EGuarded name e)) w', Ok ()).
Proof. intros H. unfold guarded, guard, exec. unfold mbind at 1, M_bind. by rewrite H. Qed.

Lemma guarded_total name f : total (guarded name f).
Proof.
  intros w. unfold guarded, result. destruct (guard_total name f w) as [a Ha].
  unfold result in Ha. unfold mbind, M_bind. destruct (guard name f w) as [w' r]. cbn in Ha. subst.
  by eexists.
Qed.

(** What [begin] and [finish] do to the count. *)
Lemma begin_nesting w : ui_nesting (w_ui (exec begin w)) = ui_nesting (w_ui w) + 1.
Proof.
  unfold begin, exec. unfold mbind, M_bind. cbn.
  destruct (ui_nesting (w_ui w) =? 0); reflexivity.
Qed.

Lemma finish_nesting t w :
  ui_nesting (w_ui (exec (finish t) w)) = Z.max 0 (ui_nesting (w_ui w) - 1) \/
  (ui_nesting (w_ui w) < 0 /\ exec (finish t) w = w).
Proof.
  unfold finish, exec. unfold mbind, M_bind. cbn.
  destruct (Z.ltb_spec 0 (ui_nesting (w_ui w))); cbn; [left|].
  - destruct (Z.eqb_spec (ui_nesting (w_ui w) - 1) 0) as [E|]; cbn; [|lia].
    destruct (bool_decide _); cbn; lia.
  - destruct (Z.eq_dec (ui_nesting (w_ui w)) 0); [left; lia|right; split; [lia|done]].
Qed.

(** ** What the shell changes: the browser's state and the dialogs *)

Section preserves.
Context (P : World -> Prop) `{!Stable P set_io} `{!Stable P set_ui}.

Lemma pres_errorDialog m : preserves P (errorDialog m).
Proof. unfold errorDialog, show_error, set_nesting. pres. Qed.
Lemma pres_errorText s : preserves P (errorText s).
Proof. apply pres_errorDialog. Qed.

Lemma pres_guard {A} name (f : M A) : preserves P f -> preserves P (guard name f).
Proof.
  intros Hf w Hw. specialize (Hf w Hw). unfold exec, guard in *. destruct (f w) as [w' [a|e]]; [done|].
  apply (pres_bind P (errorDialog (EGuarded name e)) (fun _ => mret None)); auto using pres_errorDialog with pres.
Qed.
Lemma pres_guarded name (f : M unit) : preserves P f -> preserves P (guarded name f).
Proof. intros Hf. unfold guarded. apply pres_bind; [by apply pres_guard|auto with pres]. Qed.

(** A handler's guard does not change what its body leaves outside the dialogs. *)
Lemma exec_guarded name (f : M unit) w : P (exec f w) -> P (exec (guarded name f) w).
Proof.
  intros Hw. unfold exec in Hw. destruct (f w) as [w' [[]|e]] eqn:E; cbn in Hw; unfold exec.
  - by rewrite (guarded_Ok _ _ _ _ E).
  - rewrite (guarded_Throw _ _ _ _ _ E). by apply pres_errorDialog.
Qed.

Lemma pres_begin : preserves P begin.
Proof. unfold begin, bar_css, set_nesting, new_token. pres. intros w Hw. unfold exec. cbn. by apply stable. Qed.
Lemma pres_finish t : preserves P (finish t).
Proof. unfold finish, bar_css, set_nesting. pres. Qed.
Lemma pres_promptDialog s cb : preserves P (promptDialog s cb).
Proof. unfold promptDialog, set_dialog. pres. Qed.
Lemma pres_choiceDialog s o cb : preserves P (choiceDialog s o cb).
Proof. unfold choiceDialog, set_dialog. pres. Qed.
Lemma pres_dialog_close : preserves P dialog_close.
Proof. unfold dialog_close, set_dialog. pres. Qed.

End preserves.

Lemma elem_of_arrayRemove {A} `{EqDecision A} (a : list A) e x :
  x ∈ arrayRemove a e -> x ∈ a.
Proof.
  induction a as [|y a IH]; cbn; [done|]. destruct (decide (y = e)) as [->|]; [by right|].
  intros [->|H]%elem_of_cons; [left|right; auto].
Qed.

Lemma arrayRemove_NoDup {A} `{EqDecision A} (a : list A) e :
  NoDup a -> NoDup (arrayRemove a e) /\ (e ∉ arrayRemove a e) /\
  (forall x, x <> e -> ((x ∈ arrayRemove a e) <-> (x ∈ a))).
Proof.
  induction 1 as [|y a Hy Ha (IH1 & IH2 & IH3)]; cbn.
  { split_and!; [constructor|apply not_elem_of_nil|done]. }
  destruct (decide (y = e)) as [->|Hne].
  - split_and!; [done|done|]. intros x Hx. rewrite elem_of_cons. split; [by right|]. intros []; done.
  - split_and!.
    + constructor; [|done]. intros H. by apply Hy, (elem_of_arrayRemove a e).
    + apply not_elem_of_cons. split; congruence.
    + intros x Hx. rewrite !elem_of_cons, IH3 by done. done.
Qed.

Lemma total_errorDialog m : total (errorDialog m).
Proof. unfold errorDialog, show_error, set_nesting. tot. Qed.
Lemma total_errorText s : total (errorText s).
Proof. apply total_errorDialog. Qed.
Lemma total_begin : total begin.
Proof. unfold begin, bar_css, set_nesting. tot. intros w. by eexists. Qed.
Lemma total_promptDialog s cb : total (promptDialog s cb).
Proof. unfold promptDialog, set_dialog. tot. Qed.
Lemma total_choiceDialog s o cb : total (choiceDialog s o cb).
Proof. unfold choiceDialog, set_dialog. tot. Qed.
#[export] Hint Resolve total_errorDialog total_errorText total_begin total_promptDialog total_choiceDialog
  guard_total guarded_total : tot.

(** ** Properties *)

(** A guarded function never throws.  When the body returns, the guard changes
    nothing; when it throws, what the body changed stays, the value is [undefined], and
    the exception is reported in the error dialog, which ends the progress bar. *)
Theorem guard_reports {A} name (f : M A) w :
  match f w with
  | (w', Ok a) => guard name f w = (w', Ok (Some a))
  | (w', Throw e) =>
      exists w'', guard name f w = (w'', Ok None) /\
        ui_errors (w_ui w'') = ui_errors (w_ui w') ++ [EGuarded name e] /\ ui_nesting (w_ui w'') = 0 /\
        w_time w'' = w_time w' /\ w_grid w'' = w_grid w' /\ w_graphs w'' = w_graphs w' /\
        w_loader w'' = w_loader w' /\ w_size w'' = w_size w' /\ w_dash w'' = w_dash w'
  end.
Proof.
  destruct (f w) as [w' [a|e]] eqn:E; [by apply guard_Ok|].
  destruct (errorDialog_exec (EGuarded name e) w') as (w'' & H & Hn & He & Hrest).
  exists w''. split; [|done]. unfold guard. rewrite E. by rewrite (bind_Ok _ _ _ _ _ H).
Qed.

(** The calls that move the progress count. *)
Inductive progress := PBegin | PFinish (token : nat) | PError (m : ErrMsg) | PAnimation (k : AnimCode).

Definition progress_step (w : World) (e : progress) : World :=
  match e with
  | PBegin => exec begin w
  | PFinish t => exec (finish t) w
  | PError m => exec (errorDialog m) w
  | PAnimation k => exec (anim_done k) w
  end.

Definition count_step (n : Z) (e : progress) : Z :=
  match e with
  | PBegin => n + 1
  | PFinish _ => Z.max 0 (n - 1)
  | PError _ => 0
  | PAnimation _ => n
  end.

(** Over any sequence of [begin]s, end callbacks, errors and animations, in any
    order, [nesting] is the number of operations still running: it goes up with each
    [begin], down with each end but never below zero, and an error resets it. *)
Theorem progress_counts es w :
  0 <= ui_nesting (w_ui w) ->
  ui_nesting (w_ui (foldl progress_step w es)) = foldl count_step (ui_nesting (w_ui w)) es /\
  0 <= ui_nesting (w_ui (foldl progress_step w es)).
Proof.
  revert w; induction es as [|e es IH]; intros w Hw; [done|]. cbn [foldl].
  assert (E : ui_nesting (w_ui (progress_step w e)) = count_step (ui_nesting (w_ui w)) e).
  { destruct e as [|t|m|[]]; cbn [progress_step count_step]; try done; [apply begin_nesting|].
    destruct (finish_nesting t w) as [|[? _]]; [done|lia]. }
  rewrite <- E. apply IH. rewrite E. destruct e; cbn; lia.
Qed.

(** [htmlescape], written as three passes of [replace], escapes each character
    once: [&] and [<] become entities, a line break gets a [<br>], the rest is kept;
    so no [<] of the text reaches the page as markup. *)
Theorem htmlescape_once s :
  htmlescape s = concat ((fun c => if c =? 38 then js "&amp;" else if c =? 60 then js "&lt;"
                                   else if c =? 10 then js "<br>" ++ [10] else [c]) <$> s).
Proof.
  rewrite htmlescape_bind. induction s as [|c s IH]; [done|]. rewrite bind_cons, fmap_cons. cbn [concat].
  by rewrite IH.
Qed.

#[export] Hint Resolve pres_errorDialog pres_errorText pres_begin pres_finish pres_promptDialog
  pres_choiceDialog pres_dialog_close : pres.

Ltac presg :=
  repeat (pres; match goal with
  | |- preserves _ (guard _ _) => apply pres_guard; [exact _|exact _|]
  | |- preserves _ (guarded _ _) => apply pres_guarded; [exact _|exact _|]
  end); pres.

End Shell.
