(* ===== verification/Loader.v ===== *)
(** * The batch loader ([Loader] of [files/graph.js])

    Requests for data are queued by [addToNextGet]; a timer starts one request
    for everything queued; its completion hands the answer to every callback
    and starts the next request.  The consumer of the answers (a graph surface)
    is behind the interface [LoaderClient]; the theorems hold of any consumer
    that leaves the loader alone, does not throw and records in the log that it was called and with which data.
    What was delivered is read from that log. *)

From S2P Require Import Prelude JsString JsObject World Shell.
Import Shell.

Local Open Scope Z_scope.

(** The timers that belong to the loader. *)
Definition is_loader_timer (t : Timer) : bool := match tm_code t with TLoader => true | _ => false end.
Definition loader_timers (w : World) : list Timer := filter is_loader_timer (sy_timers (w_sys w)).

(** The loader's requests in flight. *)
Definition is_loader_xhr (x : nat * XhrCode) : bool := match x.2 with XLoader _ _ => true | _ => false end.
Definition loader_xhrs (w : World) : list (nat * XhrCode) := filter is_loader_xhr (sy_xhrs (w_sys w)).

(** Identifiers of timers and requests are never reused. *)
Definition timers_fresh (w : World) : Prop :=
  Forall (fun t => tm_id t < sy_next_timer (w_sys w))%nat (sy_timers (w_sys w)).
Definition xhrs_fresh (w : World) : Prop :=
  Forall (fun x => x.1 < sy_next_xhr (w_sys w))%nat (sy_xhrs (w_sys w)).

(** The callbacks that were called so far, each with the data it was given. *)
Definition call_of (e : effect) : option (CbObj * Data) :=
  match e with ECallback c d => Some (c, d) | _ => None end.
Definition called (w : World) : list (CbObj * Data) := omap call_of (sy_log (w_sys w)).

Lemma emit_called e w : call_of e = None -> called (exec (emit e) w) = called w.
Proof. intros He. unfold called. cbn. rewrite omap_app. cbn. by rewrite He, app_nil_r. Qed.

(** What the loader needs of its consumer; a call of a callback shows in the log. *)
Class LoaderClient := {
  deliver : CbObj -> Data -> M unit;
  deliver_total c d : total (deliver c d);
  deliver_loader c d w : w_loader (exec (deliver c d) w) = w_loader w;
  deliver_timers c d w : loader_timers (exec (deliver c d) w) = loader_timers w;
  deliver_xhrs c d w : sy_xhrs (w_sys (exec (deliver c d) w)) = sy_xhrs (w_sys w);
  deliver_next c d w :
    (sy_next_timer (w_sys w) <= sy_next_timer (w_sys (exec (deliver c d) w)))%nat /\
    sy_next_xhr (w_sys (exec (deliver c d) w)) = sy_next_xhr (w_sys w);
  deliver_fresh c d w : timers_fresh w -> timers_fresh (exec (deliver c d) w);
  deliver_time c d w : w_time (exec (deliver c d) w) = w_time w;
  deliver_called c d w : called (exec (deliver c d) w) = called w ++ [(c, d)]
}.

Module Loader.

(** ** Field updates *)

Definition set_id (i : Z) (l : Loader) : Loader :=
  mkLoader (ld_nextEvent l) (ld_nextEventTime l) (ld_getting l) (ld_cbObjs l) (ld_xhr l) i.
Definition set_event (e : option nat) (t : Z) (l : Loader) : Loader :=
  mkLoader e t (ld_getting l) (ld_cbObjs l) (ld_xhr l) (ld_id l).
Definition set_getting g (l : Loader) : Loader :=
  mkLoader (ld_nextEvent l) (ld_nextEventTime l) g (ld_cbObjs l) (ld_xhr l) (ld_id l).
Definition set_cbObjs c (l : Loader) : Loader :=
  mkLoader (ld_nextEvent l) (ld_nextEventTime l) (ld_getting l) c (ld_xhr l) (ld_id l).
Definition set_xhr x (l : Loader) : Loader :=
  mkLoader (ld_nextEvent l) (ld_nextEventTime l) (ld_getting l) (ld_cbObjs l) x (ld_id l).

(** The state [new Loader()] starts in. *)
Definition init : Loader := mkLoader None 0 [] [] None 0.

(** ** Operations *)

(** [this._id], recycled after a million. *)
Definition next_id (i : Z) : Z := if 1000000 <? i + 1 then 0 else i + 1.

(** [if (!getting[key]) getting[key] = []; getting[key].push(cbObj)]: a name
    inherited from [Object.prototype] is truthy but has no [push]. *)
Definition enqueue (cbObj : CbObj) (key : jsstr) : M unit :=
  g ← get (fun w => ld_getting (w_loader w));
  match obj_get g key with
  | Some l => modify (set_loader (set_getting (obj_set g key (l ++ [cbObj]))))
  | None =>
      if decide (inherited key) then throw TypeError
      else modify (set_loader (set_getting (obj_set g key [cbObj])))
  end.

(** The end of [addToNextGet]: a timer due after [deadline] is replaced. *)
Definition schedule (now deadline : Z) : M unit :=
  t ← get (fun w => ld_nextEventTime (w_loader w));
  (if deadline <? t then
     e ← get (fun w => ld_nextEvent (w_loader w));
     match e with Some e => clearTimeout e | None => mret () end;;
     modify (set_loader (set_event None 0))
   else mret ());;
  e ← get (fun w => ld_nextEvent (w_loader w));
  match e with
  | None =>
      modify (set_loader (set_event None deadline));;
      t ← setTimeout TLoader (deadline - now);
      modify (set_loader (set_event (Some t) deadline))
  | Some _ => mret ()
  end.

Definition addToNextGet_body (keys : list jsstr) (maxTime maxSamples : Z) (graph : nat)
    (seriesKeys : list jsstr) : M unit :=
  modify (set_loader (fun l => set_id (next_id (ld_id l)) l));;
  now ← getAdjustedNow;
  let deadline := now + maxTime in
  id ← get (fun w => ld_id (w_loader w));
  let cbObj := mkCbObj keys graph seriesKeys id maxSamples in
  modify (set_loader (fun l => set_cbObjs (obj_set (ld_cbObjs l) (num_to_str id) cbObj) l));;
  for_each keys (enqueue cbObj);;
  schedule now deadline.

Definition addToNextGet keys maxTime maxSamples graph seriesKeys : M unit :=
  guarded "Loader_addToNextGet" (addToNextGet_body keys maxTime maxSamples graph seriesKeys).

(** The largest [maxSamples] of the batch, at least 1. *)
Definition max_samples (cbObjs : list (jsstr * CbObj)) : Z :=
  foldl (fun m k => match obj_get cbObjs k with
                    | Some c => if m <? cb_maxSamples c then cb_maxSamples c else m
                    | None => m
                    end) 1 (obj_keys cbObjs).

(** [Math.floor(d.getTime() / 1000)] *)
Definition seconds (d : date) : option Z := (fun t => t / 1000) <$> d.

Definition startRequest : M unit :=
  guarded "Loader_startRequest" (
    x ← get (fun w => ld_xhr (w_loader w));
    match x with
    | Some _ => throw (Error (js "Attempt to re-start Loader XMLHttpRequest()"))
    | None =>
        gotten ← get (fun w => ld_getting (w_loader w));
        if empty gotten then mret ()
        else
          cbObjs ← get (fun w => ld_cbObjs (w_loader w));
          x ← new_xhr (XLoader gotten cbObjs);
          modify (set_loader (fun l => set_xhr (Some x) (set_cbObjs [] (set_getting [] l))));;
          dates ← get (fun w => theCurrentDates (w_time w));
          emit (EGet x (mkGet (seconds (dt_start dates)) (seconds (dt_stop dates)) (keys gotten)
                              (max_samples cbObjs)))
    end).

Definition onTimer : M unit :=
  guarded "Loader_onTimer" (
    modify (set_loader (set_event None 0));;
    x ← get (fun w => ld_xhr (w_loader w));
    match x with
    | Some _ => mret ()
    | None => startRequest
    end).

(** An answer of the server: the status, and the parsed text ([None] when
    [JSON.parse] throws). *)
Record Answer := mkAnswer { an_status : Z; an_statusText : jsstr; an_body : option Data }.

Section client.
Context `{LoaderClient}.

(** The callbacks a delivery runs, in order. *)
Definition batch (cbObjs : list (jsstr * CbObj)) : list CbObj :=
  omap (obj_get cbObjs) (obj_keys cbObjs).

Definition deliverData (data : Data) (cbObjs : list (jsstr * CbObj)) : M unit :=
  for_each (batch cbObjs) (fun c => deliver c data).

Definition onXhrComplete (a : Answer) (gotten : list (jsstr * list CbObj))
    (cbObjs : list (jsstr * CbObj)) : M unit :=
  guarded "Loader_onXhrComplete" (
    modify (set_loader (set_xhr None));;
    (if 299 <? an_status a then
       throw (Error (js "Error getting data from server:" ++ [10] ++ num_to_str (an_status a)
                     ++ js " " ++ an_statusText a))
     else
       match an_body a with
       | None => throw SyntaxError
       | Some data => deliverData data cbObjs
       end);;
    startRequest).

(** ** The loader and its environment

    The environment calls [addToNextGet], lets the pending timer fire, answers the
    request in flight, and lets time pass. *)

Inductive event :=
  | Add (keys : list jsstr) (maxTime maxSamples : Z) (graph : nat) (seriesKeys : list jsstr)
  | Fire
  | Complete (a : Answer)
  | Tick (ms : Z).

Definition remove_timer (id : nat) (w : World) : World := exec (clearTimeout id) w.

Definition remove_xhr (id : nat) (w : World) : World :=
  set_sys (fun s => mkSys (sy_now s) (sy_hidden s) (sy_hash s) (sy_timers s) (sy_next_timer s)
    (filter (fun x => x.1 <> id) (sy_xhrs s)) (sy_next_xhr s) (sy_log s)) w.

Definition tick (ms : Z) (w : World) : World :=
  set_sys (fun s => mkSys (sy_now s + ms) (sy_hidden s) (sy_hash s) (sy_timers s) (sy_next_timer s)
    (sy_xhrs s) (sy_next_xhr s) (sy_log s)) w.

(** One step; [None] when the event is not enabled. *)
Definition step (e : event) (w : World) : option World :=
  match e with
  | Add ks mt ms g sk => Some (exec (addToNextGet ks mt ms g sk) w)
  | Fire =>
      match loader_timers w with
      | t :: _ => Some (exec onTimer (remove_timer (tm_id t) w))
      | [] => None
      end
  | Complete a =>
      match loader_xhrs w with
      | (x, XLoader gotten cbObjs) :: _ => Some (exec (onXhrComplete a gotten cbObjs) (remove_xhr x w))
      | _ => None
      end
  | Tick ms => if 0 <=? ms then Some (tick ms w) else None
  end.

Fixpoint run (es : list event) (w : World) : option World :=
  match es with
  | [] => Some w
  | e :: es' => w' ← step e w; run es' w'
  end.

(** ** The view of the world the loader depends on *)

(** [w'] differs from [w] only outside the loader's business (dialogs, log). *)
Record same_view (w w' : World) : Prop := {
  sv_loader : w_loader w' = w_loader w;
  sv_timers : sy_timers (w_sys w') = sy_timers (w_sys w);
  sv_next_timer : sy_next_timer (w_sys w') = sy_next_timer (w_sys w);
  sv_xhrs : sy_xhrs (w_sys w') = sy_xhrs (w_sys w);
  sv_next_xhr : sy_next_xhr (w_sys w') = sy_next_xhr (w_sys w);
  sv_now : sy_now (w_sys w') = sy_now (w_sys w);
  sv_time : w_time w' = w_time w;
  sv_called : called w' = called w }.

#[global] Instance same_view_refl : Reflexive same_view.
Proof. by constructor. Qed.
#[global] Instance same_view_trans : Transitive same_view.
Proof. intros a b c [] []. constructor; congruence. Qed.

Lemma errorDialog_view m w : same_view w (exec (errorDialog m) w).
Proof.
  constructor; try reflexivity. unfold called.
  change (sy_log (w_sys (exec (errorDialog m) w))) with (((sy_log (w_sys w) ++ [EDom ".dialog.error" "prependTo" [AStr (js "body")]])
    ++ [EDom "div#progressbar" "show" []]) ++ [EAnimate "0" AnimHide]).
  rewrite <- !app_assoc, omap_app. apply app_nil_r.
Qed.

(** A guarded step leaves the view its body left. *)
Lemma guarded_view name (f : M unit) w w1 r :
  f w = (w1, r) -> same_view w1 (exec (guarded name f) w).
Proof.
  intros Hf. unfold exec. destruct r as [[]|e].
  - by rewrite (guarded_Ok _ _ _ _ Hf).
  - rewrite (guarded_Throw _ _ _ _ _ Hf). apply errorDialog_view.
Qed.

(** ** Queueing *)

Definition push_key (c : CbObj) (g : list (jsstr * list CbObj)) (k : jsstr) : list (jsstr * list CbObj) :=
  obj_set g k (default [] (obj_get g k) ++ [c]).

Lemma set_getting_id (w : World) : set_loader (set_getting (ld_getting (w_loader w))) w = w.
Proof. by destruct w as [? ? ? ? ? []]. Qed.

(** Queueing pushes the callback under each key; a missing inherited name stops it. *)
Lemma for_each_enqueue c ks w :
  (for_each ks (enqueue c) w =
     (set_loader (set_getting (foldl (push_key c) (ld_getting (w_loader w)) ks)) w, Ok ())) \/
  (exists pre k post, ks = pre ++ k :: post /\ inherited k /\
     for_each ks (enqueue c) w =
       (set_loader (set_getting (foldl (push_key c) (ld_getting (w_loader w)) pre)) w, Throw TypeError)).
Proof.
  revert w; induction ks as [|k ks IH]; intros w.
  { left. cbn. by rewrite set_getting_id. }
  cbn [for_each].
  assert ((enqueue c k w = (set_loader (set_getting (push_key c (ld_getting (w_loader w)) k)) w, Ok ())) \/
          (enqueue c k w = (w, Throw TypeError) /\ inherited k)) as [Hk|[Hk Hi]].
  { unfold enqueue, push_key, mbind, M_bind. cbn.
    destruct (obj_get _ k); [by left|]. destruct (decide (inherited k)); [right|left]; done. }
  - rewrite (bind_Ok _ _ _ _ _ Hk). destruct (IH (set_loader (set_getting (push_key c (ld_getting (w_loader w)) k)) w))
      as [->|(pre & k' & post & -> & Hi & ->)]; [by left|right].
    exists (k :: pre), k', post. done.
  - right. exists [], k, ks. split; [done|]. split; [done|].
    rewrite (bind_Throw _ _ _ _ _ Hk). cbn. by rewrite set_getting_id.
Qed.

Lemma push_keys_wf c ks g : obj_wf g -> obj_wf (foldl (push_key c) g ks).
Proof. revert g; induction ks as [|k ks IH]; intros g Hg; [done|]. cbn. by apply IH, obj_set_wf. Qed.

(** ** The invariant *)

Record Inv (w : World) : Prop := {
  inv_timer :
    match ld_nextEvent (w_loader w) with
    | None => loader_timers w = []
    | Some t => exists tm, loader_timers w = [tm] /\ tm_id tm = t /\
                  tm_due tm = ld_nextEventTime (w_loader w) + 10 * 1000
    end;
  inv_xhr :
    match ld_xhr (w_loader w) with
    | None => loader_xhrs w = []
    | Some x => exists g c, loader_xhrs w = [(x, XLoader g c)] /\ obj_wf c
    end;
  inv_fresh : timers_fresh w;
  inv_getting : obj_wf (ld_getting (w_loader w));
  inv_cbObjs : obj_wf (ld_cbObjs (w_loader w)) }.

Lemma Inv_view w w' : same_view w w' -> Inv w -> Inv w'.
Proof.
  intros [E1 E2 E3 E4 E5 E6 E7 _] [H1 H2 H3 H4 H5].
  constructor; unfold loader_timers, loader_xhrs, timers_fresh in *;
    rewrite ?E1, ?E2, ?E3, ?E4; done.
Qed.

Lemma loader_timers_clear id w :
  loader_timers (exec (clearTimeout id) w) = filter (fun t => tm_id t <> id) (loader_timers w).
Proof.
  unfold loader_timers. cbn. rewrite !list_filter_filter. apply list_filter_iff. intros t. tauto.
Qed.

Lemma loader_xhrs_remove id w :
  loader_xhrs (remove_xhr id w) = filter (fun x => x.1 <> id) (loader_xhrs w).
Proof.
  unfold loader_xhrs. cbn. rewrite !list_filter_filter. apply list_filter_iff. intros t. tauto.
Qed.

Lemma timers_fresh_clear id w : timers_fresh w -> timers_fresh (exec (clearTimeout id) w).
Proof. intros Hf. unfold timers_fresh in *. cbn. rewrite Forall_forall in *.
  intros t [_ Ht]%list_elem_of_filter. by apply Hf. Qed.

Lemma setTimeout_timers code ms w :
  loader_timers (exec (setTimeout code ms) w) = loader_timers w ++
    (if is_loader_timer (mkTimer 0 0 code)
     then [mkTimer (sy_next_timer (w_sys w)) (sy_now (w_sys w) + ms) code] else []).
Proof.
  unfold loader_timers. cbn. rewrite filter_app. f_equal. cbn. by destruct code.
Qed.

Lemma setTimeout_fresh code ms w : timers_fresh w -> timers_fresh (exec (setTimeout code ms) w).
Proof.
  unfold timers_fresh. cbn. intros Hf. apply Forall_app; split.
  - eapply Forall_impl; [exact Hf|]. cbn. lia.
  - repeat constructor.
Qed.

(** ** Each operation keeps the invariant *)

(** Replacing queue contents does not matter to timers and requests. *)
Lemma Inv_queue w g c i :
  Inv w -> obj_wf g -> obj_wf c ->
  Inv (set_loader (fun l => set_getting g (set_cbObjs c (set_id i l))) w).
Proof. intros [H1 H2 H3 H4 H5] Hg Hc. by constructor. Qed.

(** [schedule] leaves a timer pending, no later than [deadline]. *)
Lemma schedule_spec now deadline w :
  Inv w -> now = sy_now (w_sys w) - 10 * 1000 ->
  exists w', schedule now deadline w = (w', Ok ()) /\ Inv w' /\
    (exists t, ld_nextEvent (w_loader w') = Some t) /\ ld_nextEventTime (w_loader w') <= deadline /\
    ld_getting (w_loader w') = ld_getting (w_loader w) /\
    ld_cbObjs (w_loader w') = ld_cbObjs (w_loader w) /\
    ld_xhr (w_loader w') = ld_xhr (w_loader w) /\ ld_id (w_loader w') = ld_id (w_loader w) /\
    sy_xhrs (w_sys w') = sy_xhrs (w_sys w).
Proof.
  intros HI ->.
  (* a world without a timer gets one, due at the deadline *)
  assert (Hnew : forall w, Inv w -> ld_nextEvent (w_loader w) = None ->
    let now := sy_now (w_sys w) - 10 * 1000 in
    let w' := exec (modify (set_loader (set_event None deadline));; t ← setTimeout TLoader (deadline - now);
              modify (set_loader (set_event (Some t) deadline))) w in Inv w').
  { intros w0 [I1 I2 I3 I4 I5] He. rewrite He in I1. cbn. constructor; try done; cbn.
    - exists (mkTimer (sy_next_timer (w_sys w0))
        (sy_now (w_sys w0) + (deadline - (sy_now (w_sys w0) - 10 * 1000))) TLoader).
      split; [|split; [done|transitivity (deadline + 10 * 1000); [cbn; lia|reflexivity]]].
      pose proof (setTimeout_timers TLoader (deadline - (sy_now (w_sys w0) - 10 * 1000)) w0) as Ht.
      rewrite I1 in Ht. exact Ht.
    - apply (setTimeout_fresh TLoader (deadline - (sy_now (w_sys w0) - 10 * 1000)) w0 I3). }
  unfold schedule, mbind, M_bind. cbn.
  destruct (Z.ltb_spec deadline (ld_nextEventTime (w_loader w))) as [Hlt|Hge].
  - (* replace a later timer *)
    destruct (ld_nextEvent (w_loader w)) as [t|] eqn:He; cbn.
    + eexists. split; [reflexivity|]. split_and!; try done; try (by eexists); try (cbn; lia).
      refine (Hnew (set_loader (set_event None 0) (exec (clearTimeout t) w)) _ eq_refl).
      destruct HI as [I1 I2 I3 I4 I5]. rewrite He in I1. destruct I1 as (tm & Ht & Hid & _).
      constructor; try done.
      * cbn. pose proof (loader_timers_clear t w) as Hc. rewrite Ht in Hc.
        rewrite filter_cons_False, filter_nil in Hc by (intros Hn; by apply Hn). exact Hc.
      * by apply timers_fresh_clear.
    + eexists. split; [reflexivity|]. split_and!; try done; try (by eexists); try (cbn; lia).
      refine (Hnew (set_loader (set_event None 0) w) _ eq_refl).
      destruct HI as [I1 I2 I3 I4 I5]. rewrite He in I1. by constructor.
  - destruct (ld_nextEvent (w_loader w)) as [t|] eqn:He; cbn; rewrite He.
    + exists w. split; [done|]. split_and!; try done. by eexists.
    + eexists. split; [reflexivity|]. split_and!; try done; try (by eexists); try (cbn; lia).
      exact (Hnew w HI He).
Qed.

(** What [addToNextGet] does: the callback is recorded; unless an inherited name
    is among the keys it is queued under each of them and a timer is pending. *)
Lemma addToNextGet_spec ks mt ms g sk w :
  Inv w ->
  let w' := exec (addToNextGet ks mt ms g sk) w in
  let id := next_id (ld_id (w_loader w)) in
  let c := mkCbObj ks g sk id ms in
  Inv w' /\ ld_id (w_loader w') = id /\
  ld_cbObjs (w_loader w') = obj_set (ld_cbObjs (w_loader w)) (num_to_str id) c /\
  ld_xhr (w_loader w') = ld_xhr (w_loader w) /\ sy_xhrs (w_sys w') = sy_xhrs (w_sys w) /\
  ((ld_getting (w_loader w') = foldl (push_key c) (ld_getting (w_loader w)) ks /\
    (exists t, ld_nextEvent (w_loader w') = Some t) /\
    ld_nextEventTime (w_loader w') <= sy_now (w_sys w) - 10 * 1000 + mt) \/
   (exists pre k post, ks = pre ++ k :: post /\ inherited k /\
    ld_getting (w_loader w') = foldl (push_key c) (ld_getting (w_loader w)) pre /\
    ld_nextEvent (w_loader w') = ld_nextEvent (w_loader w))).
Proof.
  intros HI w' id c.
  set (w1 := set_loader (fun l => set_cbObjs (obj_set (ld_cbObjs l) (num_to_str id) c) (set_id id l)) w).
  assert (Hq : forall l, let w2 := set_loader (set_getting (foldl (push_key c) (ld_getting (w_loader w)) l)) w1 in
    Inv w2).
  { intros l. apply (Inv_queue w _ (obj_set (ld_cbObjs (w_loader w)) (num_to_str id) c) id HI).
    - apply push_keys_wf, HI.
    - apply obj_set_wf, HI. }
  set (body := addToNextGet_body ks mt ms g sk).
  assert (Hbody : body w = (for_each ks (enqueue c);;
     schedule (sy_now (w_sys w) - 10 * 1000) (sy_now (w_sys w) - 10 * 1000 + mt)) w1) by reflexivity.
  destruct (for_each_enqueue c ks w1) as [He|(pre & k & post & -> & Hi & He)].
  - rewrite (bind_Ok _ _ _ _ _ He) in Hbody.
    destruct (schedule_spec (sy_now (w_sys w) - 10 * 1000) (sy_now (w_sys w) - 10 * 1000 + mt)
      _ (Hq ks) eq_refl) as (w3 & Hs & I3 & Ht & Hd & E1 & E2 & E3 & E4 & E5).
    change (ld_getting (w_loader w1)) with (ld_getting (w_loader w)) in Hbody.
    rewrite Hs in Hbody. pose proof (guarded_view "Loader_addToNextGet" body w w3 _ Hbody) as Hv.
    change (exec (guarded _ body) w) with w' in Hv. split; [eapply Inv_view; [exact Hv|done]|].
    rewrite (sv_loader _ _ Hv), (sv_xhrs _ _ Hv). split_and!; try done.
    left. done.
  - rewrite (bind_Throw _ _ _ _ _ He) in Hbody.
    pose proof (guarded_view "Loader_addToNextGet" body w _ _ Hbody) as Hv.
    change (exec (guarded _ body) w) with w' in Hv. split; [eapply Inv_view; [exact Hv|done]|].
    rewrite (sv_loader _ _ Hv), (sv_xhrs _ _ Hv). split_and!; try done.
    right. exists pre, k, post. done.
Qed.

(** Queueing calls no callback. *)
Lemma schedule_log now deadline w : sy_log (w_sys (exec (schedule now deadline) w)) = sy_log (w_sys w).
Proof.
  unfold schedule, exec, mbind, M_bind. cbn. destruct (_ <? _); cbn; repeat (destruct (ld_nextEvent _); cbn); done.
Qed.

Lemma addToNextGet_called ks mt ms g sk w : called (exec (addToNextGet ks mt ms g sk) w) = called w.
Proof.
  set (id := next_id (ld_id (w_loader w))). set (c := mkCbObj ks g sk id ms).
  set (w1 := set_loader (fun l => set_cbObjs (obj_set (ld_cbObjs l) (num_to_str id) c) (set_id id l)) w).
  set (body := addToNextGet_body ks mt ms g sk).
  assert (Hbody : body w = (for_each ks (enqueue c);;
     schedule (sy_now (w_sys w) - 10 * 1000) (sy_now (w_sys w) - 10 * 1000 + mt)) w1) by reflexivity.
  pose proof (guarded_view "Loader_addToNextGet" body w _ _ (surjective_pairing (body w))) as Hv.
  change (called (exec (guarded "Loader_addToNextGet" body) w) = called w). rewrite (sv_called _ _ Hv). unfold called. f_equal.
  rewrite Hbody. destruct (for_each_enqueue c ks w1) as [He|(pre & k & post & _ & _ & He)].
  - rewrite (bind_Ok _ _ _ _ _ He). exact (schedule_log _ _ _).
  - by rewrite (bind_Throw _ _ _ _ _ He).
Qed.

Lemma empty_nil {V} (o : list (jsstr * V)) : empty o = true <-> o = [].
Proof.
  unfold empty, keys. pose proof (obj_keys_length o) as Hl.
  destruct (obj_keys o), o; cbn in Hl; split; intros; (done || lia).
Qed.

(** [startRequest] with no request in flight sends everything queued, if anything is. *)
Lemma startRequest_spec w :
  Inv w -> ld_xhr (w_loader w) = None ->
  let w' := exec startRequest w in
  Inv w' /\ ld_nextEvent (w_loader w') = ld_nextEvent (w_loader w) /\
  ld_id (w_loader w') = ld_id (w_loader w) /\
  ((ld_getting (w_loader w) = [] /\ w' = w) \/
   (ld_getting (w_loader w) <> [] /\
    ld_getting (w_loader w') = [] /\ ld_cbObjs (w_loader w') = [] /\
    ld_xhr (w_loader w') = Some (sy_next_xhr (w_sys w)) /\
    loader_xhrs w' = [(sy_next_xhr (w_sys w), XLoader (ld_getting (w_loader w)) (ld_cbObjs (w_loader w)))] /\
    sy_log (w_sys w') = sy_log (w_sys w) ++
      [EGet (sy_next_xhr (w_sys w))
        (mkGet (seconds (dt_start (theCurrentDates (w_time w)))) (seconds (dt_stop (theCurrentDates (w_time w))))
           (keys (ld_getting (w_loader w))) (max_samples (ld_cbObjs (w_loader w))))] /\
    sy_next_xhr (w_sys w') = S (sy_next_xhr (w_sys w)))).
Proof.
  intros [I1 I2 I3 I4 I5] Hx w'. unfold w', startRequest. clear w'. rewrite Hx in I2.
  set (body := (_ ≫= _ : M unit)). destruct (empty (ld_getting (w_loader w))) eqn:Ee.
  - assert (Hb : body w = (w, Ok ())).
    { unfold body, mbind, M_bind. cbn. rewrite Hx. cbn. by rewrite Ee. }
    unfold exec. rewrite (guarded_Ok _ _ _ _ Hb). cbn.
    split; [constructor; try done; by rewrite Hx|]. split_and!; try done. left.
    split; [by apply empty_nil|done].
  - assert (Hb : exists w1, body w = (w1, Ok ()) /\
      w1 = exec (x ← new_xhr (XLoader (ld_getting (w_loader w)) (ld_cbObjs (w_loader w)));
          modify (set_loader (fun l => set_xhr (Some x) (set_cbObjs [] (set_getting [] l))));;
          emit (EGet x (mkGet (seconds (dt_start (theCurrentDates (w_time w))))
             (seconds (dt_stop (theCurrentDates (w_time w)))) (keys (ld_getting (w_loader w)))
             (max_samples (ld_cbObjs (w_loader w)))))) w).
    { unfold body, mbind, M_bind. cbn. rewrite Hx. cbn. rewrite Ee. by eexists. }
    destruct Hb as (w1 & Hb & Hw1).
    assert (Hg : exec (guarded "Loader_startRequest" body) w = w1)
      by (unfold exec; by rewrite (guarded_Ok _ _ _ _ Hb)).
    rewrite Hg, Hw1. clear Hb Hw1 Hg.
    assert (Hxs : loader_xhrs (exec (new_xhr (XLoader (ld_getting (w_loader w)) (ld_cbObjs (w_loader w)))) w)
      = [(sy_next_xhr (w_sys w), XLoader (ld_getting (w_loader w)) (ld_cbObjs (w_loader w)))]).
    { unfold loader_xhrs in *. cbn. rewrite filter_app, I2. done. }
    assert (ld_getting (w_loader w) <> []) by (intros E%empty_nil; congruence).
    split.
    { constructor; try done; [|constructor..].
      exists (ld_getting (w_loader w)), (ld_cbObjs (w_loader w)). done. }
    split_and!; try done.
    right. split_and!; done.
Qed.

Lemma startRequest_called w :
  Inv w -> ld_xhr (w_loader w) = None -> called (exec startRequest w) = called w.
Proof.
  intros HI Hx. destruct (startRequest_spec w HI Hx) as (_ & _ & _ & [[_ ->]|(_ & _ & _ & _ & _ & El & _)]); [done|].
  unfold called. rewrite El, omap_app. by rewrite app_nil_r.
Qed.

(** A delivery calls the callbacks of the batch, each once, in order, with the data. *)
Lemma deliverData_called d cbs w : called (exec (deliverData d cbs) w) = called w ++ ((fun c => (c, d)) <$> batch cbs).
Proof.
  unfold deliverData. generalize (batch cbs) as l. intros l. revert w.
  induction l as [|c l IH]; intros w; [by rewrite app_nil_r|]. cbn [for_each fmap list_fmap].
  destruct (deliver_total c d w) as [[] Hr]. unfold exec at 1. rewrite (bind_Ok _ _ _ _ _ (eta _ _ _ Hr)).
  change (called (exec (for_each l (fun c => deliver c d)) (exec (deliver c d) w)) = called w ++ (c, d) :: ((fun c => (c, d)) <$> l)).
  by rewrite IH, deliver_called, <- app_assoc.
Qed.

(** The consumer's callbacks leave the loader's state alone. *)
Lemma deliverData_frame d cbs w :
  result (deliverData d cbs) w = Ok () /\
  w_loader (exec (deliverData d cbs) w) = w_loader w /\
  loader_timers (exec (deliverData d cbs) w) = loader_timers w /\
  sy_xhrs (w_sys (exec (deliverData d cbs) w)) = sy_xhrs (w_sys w) /\
  sy_next_xhr (w_sys (exec (deliverData d cbs) w)) = sy_next_xhr (w_sys w) /\
  (timers_fresh w -> timers_fresh (exec (deliverData d cbs) w)) /\
  w_time (exec (deliverData d cbs) w) = w_time w.
Proof.
  split.
  { destruct (for_each_total (batch cbs) (fun c => deliver c d) (fun c => deliver_total c d) w) as [[] Hr].
    exact Hr. }
  apply (for_each_inv (fun w' => w_loader w' = w_loader w /\ loader_timers w' = loader_timers w /\
    sy_xhrs (w_sys w') = sy_xhrs (w_sys w) /\ sy_next_xhr (w_sys w') = sy_next_xhr (w_sys w) /\
    (timers_fresh w -> timers_fresh w') /\ w_time w' = w_time w)); [|done].
  intros c w' _ (E1 & E2 & E3 & E4 & E5 & E6).
  rewrite deliver_loader, deliver_timers, deliver_xhrs, deliver_time.
  rewrite (proj2 (deliver_next c d w')). split_and!; try done. eauto using deliver_fresh.
Qed.

Lemma Inv_after_delivery d cbs w : Inv w -> Inv (exec (deliverData d cbs) w).
Proof.
  intros [I1 I2 I3 I4 I5]. destruct (deliverData_frame d cbs w) as (_ & E1 & E2 & E3 & E4 & E5 & E6).
  constructor; rewrite ?E1, ?E2; try done; [|by apply E5].
  unfold loader_xhrs in *. by rewrite E3.
Qed.

(** The request completes: its callbacks ran and the next request started, or
    an exception was reported and nothing else happened. *)
Lemma onXhrComplete_spec a gotten cbs w :
  let w0 := set_loader (set_xhr None) w in
  let w' := exec (onXhrComplete a gotten cbs) w in
  (an_status a <= 299 /\ exists d, an_body a = Some d /\
     same_view (exec startRequest (exec (deliverData d cbs) w0)) w') \/
  ((299 < an_status a \/ an_body a = None) /\ same_view w0 w').
Proof.
  intros w0 w'. unfold w', onXhrComplete. clear w'. set (body := (_ ≫= _ : M unit)).
  destruct (Z.ltb_spec 299 (an_status a)) as [Hs|Hs].
  - right. split; [by left|]. eapply guarded_view. unfold body, mbind, M_bind. cbn.
    rewrite ?(proj2 (Z.ltb_lt _ _) Hs). reflexivity.
  - destruct (an_body a) as [d|] eqn:Ed.
    + left. split; [done|]. exists d. split; [done|].
      destruct (deliverData_frame d cbs w0) as (Hr & _).
      apply (guarded_view _ _ _ _ (result startRequest (exec (deliverData d cbs) w0))). unfold body, mbind, M_bind. cbn.
      rewrite ?(proj2 (Z.ltb_ge _ _) Hs). rewrite ?Ed.
      unfold result, exec in *. fold w0. destruct (deliverData d cbs w0) as [w1 r]. cbn in Hr. subst r.
      cbn. apply surjective_pairing.
    + right. split; [by right|]. eapply guarded_view. unfold body, mbind, M_bind. cbn.
      rewrite ?(proj2 (Z.ltb_ge _ _) Hs), ?Ed. reflexivity.
Qed.

Lemma onTimer_spec w :
  let w0 := set_loader (set_event None 0) w in
  same_view (match ld_xhr (w_loader w) with Some _ => w0 | None => exec startRequest w0 end)
            (exec onTimer w).
Proof.
  intros w0. unfold onTimer. destruct (ld_xhr (w_loader w)) as [x|] eqn:Hx.
  - eapply guarded_view. unfold mbind, M_bind. cbn. rewrite Hx. reflexivity.
  - eapply guarded_view. unfold mbind, M_bind. cbn. rewrite Hx. apply surjective_pairing.
Qed.

Lemma Inv_no_timer w t :
  Inv w -> loader_timers w = [t] -> Inv (set_loader (set_event None 0) (remove_timer (tm_id t) w)).
Proof.
  intros [I1 I2 I3 I4 I5] Ht. constructor; try done; cbn.
  - unfold remove_timer. pose proof (loader_timers_clear (tm_id t) w) as Hc. rewrite Ht in Hc.
    rewrite filter_cons_False, filter_nil in Hc by (intros Hn; by apply Hn). exact Hc.
  - by apply timers_fresh_clear.
Qed.

Lemma Inv_no_xhr w x g c :
  Inv w -> loader_xhrs w = [(x, XLoader g c)] ->
  Inv (set_loader (set_xhr None) (remove_xhr x w)) /\ loader_xhrs (remove_xhr x w) = [].
Proof.
  intros [I1 I2 I3 I4 I5] Hx.
  assert (loader_xhrs (remove_xhr x w) = []) as E.
  { rewrite loader_xhrs_remove, Hx, filter_cons_False, filter_nil by (intros Hn; by apply Hn). done. }
  split; [|done]. constructor; done.
Qed.

(** The timer that fires is the one recorded, the request answered too. *)
Lemma Inv_timer_cases w t ts :
  Inv w -> loader_timers w = t :: ts -> ts = [] /\ ld_nextEvent (w_loader w) = Some (tm_id t).
Proof.
  intros [I1 _ _ _ _] Ht. destruct (ld_nextEvent (w_loader w)) as [t'|]; [|congruence].
  destruct I1 as (tm & Htm & <- & _). rewrite Ht in Htm. by injection Htm as -> ->.
Qed.

Lemma Inv_xhr_cases w x xs :
  Inv w -> loader_xhrs w = x :: xs ->
  exists g c, x = (x.1, XLoader g c) /\ xs = [] /\ ld_xhr (w_loader w) = Some x.1 /\ obj_wf c.
Proof.
  intros [_ I2 _ _ _] Hx. destruct (ld_xhr (w_loader w)) as [x'|]; [|congruence].
  destruct I2 as (g & c & Hc & Hw). rewrite Hx in Hc. injection Hc as -> ->. by exists g, c.
Qed.

(** ** What a step does, event by event *)

(** [w0] after the timer is consumed, or the request; then [startRequest]. *)
Inductive step_kind (e : event) (w w' : World) : Prop :=
  | sk_add ks mt ms g sk :
      e = Add ks mt ms g sk -> w' = exec (addToNextGet ks mt ms g sk) w -> step_kind e w w'
  | sk_busy t :
      e = Fire -> loader_timers w = [t] -> ld_xhr (w_loader w) <> None ->
      same_view (set_loader (set_event None 0) (remove_timer (tm_id t) w)) w' -> step_kind e w w'
  | sk_fire t :
      e = Fire -> loader_timers w = [t] -> ld_xhr (w_loader w) = None ->
      same_view (exec startRequest (set_loader (set_event None 0) (remove_timer (tm_id t) w))) w' ->
      step_kind e w w'
  | sk_done a d x g c :
      e = Complete a -> loader_xhrs w = [(x, XLoader g c)] -> obj_wf c ->
      an_status a <= 299 -> an_body a = Some d ->
      same_view (exec startRequest (exec (deliverData d c)
        (set_loader (set_xhr None) (remove_xhr x w)))) w' -> step_kind e w w'
  | sk_failed a x g c :
      e = Complete a -> loader_xhrs w = [(x, XLoader g c)] -> obj_wf c ->
      (299 < an_status a \/ an_body a = None) ->
      same_view (set_loader (set_xhr None) (remove_xhr x w)) w' -> step_kind e w w'
  | sk_tick ms : e = Tick ms -> w' = tick ms w -> step_kind e w w'.

Lemma step_cases e w w' : Inv w -> step e w = Some w' -> step_kind e w w'.
Proof.
  intros HI Hs. destruct e as [ks mt ms g sk| |a|ms]; cbn in Hs.
  - injection Hs as <-. by eapply sk_add.
  - destruct (loader_timers w) as [|t ts] eqn:Ht; [done|]. injection Hs as <-.
    destruct (Inv_timer_cases w t ts HI Ht) as [-> _].
    pose proof (onTimer_spec (remove_timer (tm_id t) w)) as Ho. cbn in Ho.
    destruct (ld_xhr (w_loader w)) as [x|] eqn:Hx; [by eapply sk_busy; [..|congruence|]|by eapply sk_fire].
  - destruct (loader_xhrs w) as [|x xs] eqn:Hx; [done|].
    destruct (Inv_xhr_cases w x xs HI Hx) as (g & c & E & -> & _ & Hw).
    destruct x as [x code]. cbn in E. injection E as ->. injection Hs as <-.
    destruct (onXhrComplete_spec a g c (remove_xhr x w)) as [(Hst & d & Ed & Hv)|[Hf Hv]].
    + by eapply sk_done.
    + by eapply sk_failed.
  - destruct (Z.leb_spec 0 ms); [|done]. injection Hs as <-. by eapply sk_tick.
Qed.

Lemma Inv_step e w w' : Inv w -> step e w = Some w' -> Inv w'.
Proof.
  intros HI Hs. destruct (step_cases e w w' HI Hs)
    as [ks mt ms g sk -> ->|t -> Ht _ Hv|t -> Ht Hx Hv|a d x g c -> Hx Hw _ _ Hv|a x g c -> Hx Hw _ Hv|ms -> ->].
  - apply addToNextGet_spec, HI.
  - eapply Inv_view; [exact Hv|]. by apply Inv_no_timer.
  - eapply Inv_view; [exact Hv|]. apply startRequest_spec; [by apply Inv_no_timer|done].
  - eapply Inv_view; [exact Hv|]. destruct (Inv_no_xhr w x g c HI Hx) as [HI0 _].
    apply startRequest_spec; [by apply Inv_after_delivery|].
    by rewrite (proj1 (proj2 (deliverData_frame d c _))).
  - eapply Inv_view; [exact Hv|]. by apply (Inv_no_xhr w x g c).
  - destruct HI. by constructor.
Qed.

Lemma Inv_run es w w' : Inv w -> run es w = Some w' -> Inv w'.
Proof.
  revert w; induction es as [|e es IH]; intros w HI Hr; cbn in Hr; [by injection Hr as <-|].
  destruct (step e w) as [w1|] eqn:Hs; [|done]. cbn in Hr. eauto using Inv_step.
Qed.

(** ** Accounting for the callbacks *)

Definition pending (w : World) : list CbObj := (ld_cbObjs (w_loader w)).*2.
Definition inflight (w : World) : list CbObj :=
  match loader_xhrs w with
  | (_, XLoader _ c) :: _ => c.*2
  | _ => []
  end.

Definition issued (e : event) (w : World) : list CbObj :=
  match e with
  | Add ks _ ms g sk => [mkCbObj ks g sk (next_id (ld_id (w_loader w))) ms]
  | _ => []
  end.

Definition is_add (e : event) : bool := match e with Add _ _ _ _ _ => true | _ => false end.

Definition failed (a : Answer) : bool := (299 <? an_status a) || bool_decide (an_body a = None).

(** The calls that an answer owes, and the callbacks that an error throws away. *)
Definition owed (e : event) (w : World) : list (CbObj * Data) :=
  match e, loader_xhrs w with
  | Complete a, (_, XLoader _ c) :: _ =>
      match an_body a with Some d => if failed a then [] else (fun cb => (cb, d)) <$> batch c | None => [] end
  | _, _ => []
  end.
Definition dropped (e : event) (w : World) : list CbObj :=
  match e, loader_xhrs w with
  | Complete a, (_, XLoader _ c) :: _ => if failed a then c.*2 else []
  | _, _ => []
  end.

Lemma not_failed a d : an_status a <= 299 -> an_body a = Some d -> failed a = false.
Proof. intros Hs Hb. unfold failed. by rewrite (proj2 (Z.ltb_ge _ _) Hs), Hb. Qed.

Lemma failed_cases a : 299 < an_status a \/ an_body a = None -> failed a = true.
Proof.
  unfold failed. intros [Hs| ->]; [by rewrite (proj2 (Z.ltb_lt _ _) Hs)|apply orb_true_r].
Qed.

Lemma batch_Permutation c : obj_wf c -> batch c ≡ₚ c.*2.
Proof.
  intros Hw. unfold batch. unfold obj_keys. rewrite enum_order_Permutation.
  assert (Hsub : forall c', (forall k v, (k, v) ∈ c' -> obj_get c k = Some v) ->
    omap (obj_get c) c'.*1 = c'.*2).
  { induction c' as [|[k v] c' IH]; intros Hc; [done|]. cbn.
    rewrite (Hc k v) by left. f_equal. apply IH. intros. apply Hc. by right. }
  rewrite Hsub; [done|]. clear Hsub. unfold obj_wf in Hw.
  induction c as [|[k v] c IH]; intros k' v' Hin; [by apply not_elem_of_nil in Hin|].
  cbn in Hw. apply NoDup_cons in Hw as [Hk Hw]. apply elem_of_cons in Hin as [[= -> ->]|Hin]; cbn.
  - by rewrite decide_True.
  - rewrite decide_False; [by apply IH|]. intros ->. apply Hk.
    apply list_elem_of_fmap. by exists (k', v').
Qed.

Lemma inflight_view w w' : same_view w w' -> inflight w' = inflight w.
Proof. intros Hv. unfold inflight, loader_xhrs. by rewrite (sv_xhrs _ _ Hv). Qed.
Lemma pending_view w w' : same_view w w' -> pending w' = pending w.
Proof. intros Hv. unfold pending. by rewrite (sv_loader _ _ Hv). Qed.

(** [startRequest] moves callbacks from pending to in flight. *)
Lemma startRequest_conserve w :
  Inv w -> ld_xhr (w_loader w) = None ->
  pending (exec startRequest w) ++ inflight (exec startRequest w) ≡ₚ pending w.
Proof.
  intros HI Hx. destruct (startRequest_spec w HI Hx) as (_ & _ & _ & [[_ ->]|(_ & _ & Hc & _ & Hi & _)]).
  - unfold inflight. destruct HI as [_ I2 _ _ _]. rewrite Hx in I2. rewrite I2. by rewrite app_nil_r.
  - unfold pending, inflight. rewrite Hc, Hi. done.
Qed.

(** A step calls exactly what it owes. *)
Lemma step_called e w w' : Inv w -> step e w = Some w' -> called w' = called w ++ owed e w.
Proof.
  intros HI Hs. destruct (step_cases e w w' HI Hs)
    as [ks mt ms g sk -> ->|t -> Ht Hx Hv|t -> Ht Hx Hv|a d x g c -> Hx Hw Hst Hb Hv|a x g c -> Hx Hw Hfl Hv|ms -> ->];
    cbn [owed]; rewrite ?app_nil_r.
  - apply addToNextGet_called.
  - by rewrite (sv_called _ _ Hv).
  - rewrite (sv_called _ _ Hv), startRequest_called; [done|by apply Inv_no_timer|done].
  - destruct (Inv_no_xhr w x g c HI Hx) as [HI0 _].
    destruct (deliverData_frame d c (set_loader (set_xhr None) (remove_xhr x w))) as (_ & El & _).
    rewrite (sv_called _ _ Hv), startRequest_called; [|by apply Inv_after_delivery|by rewrite El].
    by rewrite deliverData_called, Hx, Hb, (not_failed a d Hst Hb).
  - rewrite (sv_called _ _ Hv), Hx, (failed_cases a Hfl). by destruct (an_body a); rewrite app_nil_r.
  - done.
Qed.

(** The callbacks after a step are those before it, plus the one issued, less
    the ones owed or dropped. *)
Lemma step_conserve e w w' :
  Inv w ->
  (is_add e = true -> num_to_str (next_id (ld_id (w_loader w))) ∉ (ld_cbObjs (w_loader w)).*1) ->
  step e w = Some w' ->
  (pending w' ++ inflight w') ++ (owed e w).*1 ++ dropped e w ≡ₚ (pending w ++ inflight w) ++ issued e w.
Proof.
  intros HI Hf Hs. destruct (step_cases e w w' HI Hs)
    as [ks mt ms g sk -> ->|t -> Ht Hx Hv|t -> Ht Hx Hv|a d x g c -> Hx Hw Hst Hb Hv|a x g c -> Hx Hw Hfl Hv|ms -> ->];
    cbn [issued owed dropped].
  - destruct (addToNextGet_spec ks mt ms g sk w HI) as (_ & _ & Hc & _ & Hxs & _).
    unfold pending, inflight, loader_xhrs. rewrite Hc, Hxs, obj_set_new by (by apply Hf).
    rewrite fmap_app. cbn. rewrite app_nil_r, <- !app_assoc. f_equiv. apply Permutation_app_comm.
  - rewrite (pending_view _ _ Hv), (inflight_view _ _ Hv). done.
  - rewrite (pending_view _ _ Hv), (inflight_view _ _ Hv), !app_nil_r.
    rewrite startRequest_conserve by (done || by apply Inv_no_timer).
    unfold pending, inflight. cbn. destruct HI as [_ I2 _ _ _]. rewrite Hx in I2. by rewrite I2, app_nil_r.
  - destruct (Inv_no_xhr w x g c HI Hx) as [HI0 _].
    destruct (deliverData_frame d c (set_loader (set_xhr None) (remove_xhr x w))) as (_ & El & _).
    rewrite (pending_view _ _ Hv), (inflight_view _ _ Hv), startRequest_conserve;
      [|by apply Inv_after_delivery|by rewrite El].
    unfold pending, inflight. rewrite El, Hx.
    rewrite Hb, (not_failed a d Hst Hb), <- list_fmap_compose, list_fmap_id.
    rewrite batch_Permutation, !app_nil_r by done. done.
  - rewrite (pending_view _ _ Hv), (inflight_view _ _ Hv).
    destruct (Inv_no_xhr w x g c HI Hx) as [_ E].
    rewrite Hx, (failed_cases a Hfl). unfold pending, inflight. rewrite Hx.
    change (loader_xhrs (set_loader (set_xhr None) (remove_xhr x w))) with (loader_xhrs (remove_xhr x w)).
    rewrite E. cbn. destruct (an_body a); cbn; by rewrite !app_nil_r.
  - by rewrite !app_nil_r.
Qed.

(** ** Whole runs *)

Fixpoint history (f : event -> World -> list CbObj) (es : list event) (w : World) : list CbObj :=
  match es with
  | [] => []
  | e :: es' => f e w ++ match step e w with Some w' => history f es' w' | None => [] end
  end.

Definition adds (es : list event) : Z := Z.of_nat (length (List.filter is_add es)).

(** Identifiers of queued callbacks are the ones given out so far. *)
Definition ids_ok (w : World) : Prop :=
  0 <= ld_id (w_loader w) /\
  forall k, k ∈ (ld_cbObjs (w_loader w)).*1 ->
    exists i, k = num_to_str i /\ 0 <= i <= ld_id (w_loader w).

Lemma ids_ok_fresh w :
  ids_ok w -> ld_id (w_loader w) < 1000000 ->
  next_id (ld_id (w_loader w)) = ld_id (w_loader w) + 1 /\
  num_to_str (next_id (ld_id (w_loader w))) ∉ (ld_cbObjs (w_loader w)).*1.
Proof.
  intros [H0 Hk] Hlt. unfold next_id. rewrite (proj2 (Z.ltb_ge _ _)) by lia. split; [done|].
  intros (i & E & Hi)%Hk. apply num_to_str_inj in E; lia.
Qed.

Lemma ids_ok_same w w' :
  ids_ok w -> ld_id (w_loader w') = ld_id (w_loader w) ->
  (ld_cbObjs (w_loader w') = ld_cbObjs (w_loader w) \/ ld_cbObjs (w_loader w') = []) -> ids_ok w'.
Proof.
  intros [H0 Hk] E [Ec|Ec]; split; rewrite ?E; try done; rewrite Ec; [done|].
  intros k Hin. by apply not_elem_of_nil in Hin.
Qed.

Lemma startRequest_ids w :
  Inv w -> ld_xhr (w_loader w) = None ->
  ld_id (w_loader (exec startRequest w)) = ld_id (w_loader w) /\
  (ld_cbObjs (w_loader (exec startRequest w)) = ld_cbObjs (w_loader w) \/
   ld_cbObjs (w_loader (exec startRequest w)) = []).
Proof.
  intros HI Hx. destruct (startRequest_spec w HI Hx) as (_ & _ & E & [[_ ->]|(_ & _ & Hc & _)]); auto.
Qed.

Lemma ids_step e w w' :
  Inv w -> ids_ok w -> (is_add e = true -> ld_id (w_loader w) < 1000000) -> step e w = Some w' ->
  ids_ok w' /\ ld_id (w_loader w') = ld_id (w_loader w) + (if is_add e then 1 else 0).
Proof.
  intros HI Hok Hlt Hs.
  assert (Hsame : forall w1, same_view w1 w' -> ld_id (w_loader w1) = ld_id (w_loader w) ->
    (ld_cbObjs (w_loader w1) = ld_cbObjs (w_loader w) \/ ld_cbObjs (w_loader w1) = []) ->
    ids_ok w' /\ ld_id (w_loader w') = ld_id (w_loader w) + 0).
  { intros w1 Hv E Ec. rewrite <- (sv_loader _ _ Hv) in E, Ec. split; [by eapply ids_ok_same|lia]. }
  destruct (step_cases e w w' HI Hs)
    as [ks mt ms g sk -> ->|t -> Ht Hx Hv|t -> Ht Hx Hv|a d x g c -> Hx Hw Hst Hb Hv|a x g c -> Hx Hw Hfl Hv|ms -> ->];
    cbn [is_add].
  - destruct (addToNextGet_spec ks mt ms g sk w HI) as (_ & Ei & Ec & _).
    destruct (ids_ok_fresh w Hok (Hlt eq_refl)) as [Hn _].
    destruct Hok as [H0 Hk]. unfold ids_ok. rewrite Ei, Ec, Hn. split; [|lia]. split; [lia|].
    intros k. rewrite obj_set_names. destruct (decide _); [|rewrite elem_of_app, list_elem_of_singleton].
    + intros (i & -> & Hi)%Hk. exists i. split; [done|lia].
    + intros [(i & -> & Hi)%Hk| ->]; [exists i; split; [done|lia]|eexists; split; [done|lia]].
  - apply (Hsame _ Hv); auto.
  - destruct (startRequest_ids (set_loader (set_event None 0) (remove_timer (tm_id t) w))) as [E1 E2];
      [by apply Inv_no_timer|done|]. by apply (Hsame _ Hv).
  - destruct (Inv_no_xhr w x g c HI Hx) as [HI0 _].
    destruct (deliverData_frame d c (set_loader (set_xhr None) (remove_xhr x w))) as (_ & El & _).
    destruct (startRequest_ids (exec (deliverData d c) (set_loader (set_xhr None) (remove_xhr x w))))
      as [E1 E2]; [by apply Inv_after_delivery|by rewrite El|]. rewrite El in E1, E2. by apply (Hsame _ Hv).
  - apply (Hsame _ Hv); auto.
  - split; [done|cbn; lia].
Qed.

Lemma adds_cons e es : adds (e :: es) = (if is_add e then 1 else 0) + adds es.
Proof. unfold adds. cbn. destruct (is_add e); cbn; lia. Qed.

(** Over a run, every callback issued is in exactly one place: still there, called, or dropped. *)
Lemma run_conserve es w w' :
  Inv w -> ids_ok w -> ld_id (w_loader w) + adds es <= 1000000 -> run es w = Some w' ->
  exists calls, called w' = called w ++ calls /\
    (pending w' ++ inflight w') ++ calls.*1 ++ history dropped es w ≡ₚ (pending w ++ inflight w) ++ history issued es w.
Proof.
  revert w; induction es as [|e es IH]; intros w HI Hok Hle Hr; cbn in Hr.
  { injection Hr as <-. exists []. cbn. by rewrite !app_nil_r. }
  destruct (step e w) as [w1|] eqn:Hs; [|done]. cbn [mbind option_bind] in Hr.
  rewrite adds_cons in Hle.
  assert (0 <= adds es) by (unfold adds; lia).
  assert (Hlt : is_add e = true -> ld_id (w_loader w) < 1000000) by (intros Ea; rewrite Ea in Hle; lia).
  destruct (ids_step e w w1 HI Hok Hlt Hs) as [Hok1 E1].
  pose proof (step_conserve e w w1 HI (fun Ea => proj2 (ids_ok_fresh w Hok (Hlt Ea))) Hs) as Hc.
  destruct (IH w1 (Inv_step e w w1 HI Hs) Hok1 ltac:(lia) Hr) as (calls & Ec & Hcs).
  exists (owed e w ++ calls). split; [by rewrite Ec, (step_called e w w1 HI Hs), <- app_assoc|].
  cbn [history]. rewrite Hs, fmap_app. exact (balance_compose _ _ _ _ _ _ _ _ _ Hc Hcs).
Qed.

(** Callbacks issued in a run are numbered upwards, so no two are confused. *)
Lemma issued_ids es w w' :
  Inv w -> ids_ok w -> ld_id (w_loader w) + adds es <= 1000000 -> run es w = Some w' ->
  Forall (fun c => ld_id (w_loader w) < cb_id c) (history issued es w) /\
  NoDup (cb_id <$> history issued es w).
Proof.
  revert w; induction es as [|e es IH]; intros w HI Hok Hle Hr; cbn in Hr; [split; constructor|].
  destruct (step e w) as [w1|] eqn:Hs; [|done]. cbn [mbind option_bind] in Hr. rewrite adds_cons in Hle.
  assert (0 <= adds es) by (unfold adds; lia).
  assert (Hlt : is_add e = true -> ld_id (w_loader w) < 1000000) by (intros Ea; rewrite Ea in Hle; lia).
  destruct (ids_step e w w1 HI Hok Hlt Hs) as [Hok1 E1].
  destruct (IH w1 (Inv_step e w w1 HI Hs) Hok1 ltac:(lia) Hr) as [IH1 IH2]. cbn. rewrite Hs.
  destruct e as [ks mt ms g sk| | |]; cbn in *.
  - destruct (ids_ok_fresh w Hok (Hlt eq_refl)) as [Hn _]. split; constructor.
    + cbn. lia.
    + eapply Forall_impl; [exact IH1|]. cbn. lia.
    + cbn. rewrite list_elem_of_fmap. intros (c & E & Hc). rewrite Forall_forall in IH1.
      specialize (IH1 c Hc). cbn in IH1. lia.
    + done.
  - split; [|done]. eapply Forall_impl; [exact IH1|]. cbn. lia.
  - split; [|done]. eapply Forall_impl; [exact IH1|]. cbn. lia.
  - split; [|done]. eapply Forall_impl; [exact IH1|]. cbn. lia.
Qed.

(** ** Runs without errors: no inherited name is asked for, no answer fails *)

Definition good (e : event) : Prop :=
  match e with
  | Add ks _ _ _ _ => Forall (fun k => ~ inherited k) ks
  | Complete a => failed a = false
  | _ => True
  end.

(** Something queued will be fetched: a timer or a request is pending. *)
Definition awake (w : World) : Prop :=
  ld_getting (w_loader w) <> [] -> ld_nextEvent (w_loader w) <> None \/ ld_xhr (w_loader w) <> None.

(** The keys asked for include those of every callback of the batch. *)
Definition covers (g : list (jsstr * list CbObj)) (c : list (jsstr * CbObj)) : Prop :=
  forall cb, cb ∈ c.*2 -> forall k, k ∈ cb_keys cb -> k ∈ g.*1.
Definition covered (w : World) : Prop :=
  covers (ld_getting (w_loader w)) (ld_cbObjs (w_loader w)) /\
  forall x g c, (x, XLoader g c) ∈ loader_xhrs w -> covers g c.

Lemma startRequest_awake w :
  Inv w -> ld_xhr (w_loader w) = None -> ld_getting (w_loader (exec startRequest w)) = [].
Proof.
  intros HI Hx. destruct (startRequest_spec w HI Hx) as (_ & _ & _ & [[E ->]|(_ & E & _)]); done.
Qed.

Lemma good_add_ok ks mt ms g sk w :
  Inv w -> Forall (fun k => ~ inherited k) ks ->
  let w' := exec (addToNextGet ks mt ms g sk) w in
  ld_getting (w_loader w')
    = foldl (push_key (mkCbObj ks g sk (next_id (ld_id (w_loader w))) ms)) (ld_getting (w_loader w)) ks /\
  (exists t, ld_nextEvent (w_loader w') = Some t).
Proof.
  intros HI Hg. destruct (addToNextGet_spec ks mt ms g sk w HI)
    as (_ & _ & _ & _ & _ & [(E & Ht & _)|(pre & k & post & -> & Hi & _)]); [done|].
  apply Forall_app in Hg as [_ Hg]. apply Forall_inv in Hg. done.
Qed.

Lemma awake_step e w w' : Inv w -> good e -> awake w -> step e w = Some w' -> awake w'.
Proof.
  intros HI Hg Ha Hs. destruct (step_cases e w w' HI Hs)
    as [ks mt ms g sk -> ->|t -> Ht Hx Hv|t -> Ht Hx Hv|a d x g c -> Hx Hw Hst Hb Hv|a x g c -> Hx Hw Hfl Hv|ms -> ->];
    unfold awake.
  - destruct (good_add_ok ks mt ms g sk w HI Hg) as (_ & t & ->). by left.
  - rewrite (sv_loader _ _ Hv). cbn. by right.
  - rewrite (sv_loader _ _ Hv), startRequest_awake; [done|by apply Inv_no_timer|done].
  - destruct (Inv_no_xhr w x g c HI Hx) as [HI0 _].
    rewrite (sv_loader _ _ Hv), startRequest_awake; [done|by apply Inv_after_delivery|].
    by rewrite (proj1 (proj2 (deliverData_frame d c _))).
  - cbn in Hg. rewrite failed_cases in Hg by done. done.
  - done.
Qed.

Lemma push_keys_names c ks g k : k ∈ (foldl (push_key c) g ks).*1 <-> k ∈ ks \/ k ∈ g.*1.
Proof.
  revert g; induction ks as [|k' ks IH]; intros g; cbn.
  - split; [by right|]. intros [H1|H1]; [by apply not_elem_of_nil in H1|done].
  - rewrite IH. unfold push_key. rewrite obj_set_names, elem_of_cons.
    destruct (decide _) as [Hin|]; [|rewrite elem_of_app, list_elem_of_singleton]; [|tauto].
    split; [tauto|]. intros [[->|?]|?]; auto.
Qed.

Lemma obj_set_values {V} (o : list (jsstr * V)) k v x : x ∈ (obj_set o k v).*2 -> x = v \/ x ∈ o.*2.
Proof.
  induction o as [|[k' v'] o IH]; cbn; [rewrite list_elem_of_singleton; auto|].
  destruct (decide (k' = k)); cbn; rewrite !elem_of_cons; naive_solver.
Qed.

Lemma covered_startRequest w :
  Inv w -> ld_xhr (w_loader w) = None -> covered w -> covered (exec startRequest w).
Proof.
  intros HI Hx [Hc1 Hc2].
  destruct (startRequest_spec w HI Hx) as (_ & _ & _ & [[_ ->]|(_ & Eg & Ec & _ & Ex & _)]); [done|].
  unfold covered. rewrite Eg, Ec, Ex. split; [intros cb Hcb; by apply not_elem_of_nil in Hcb|].
  intros x g c [= _ -> ->]%list_elem_of_singleton. done.
Qed.

Lemma covered_view w w' : same_view w w' -> covered w -> covered w'.
Proof.
  intros Hv [H1 H2]. unfold covered, loader_xhrs. rewrite (sv_loader _ _ Hv), (sv_xhrs _ _ Hv). done.
Qed.

Lemma covered_step e w w' : Inv w -> good e -> covered w -> step e w = Some w' -> covered w'.
Proof.
  intros HI Hg Hc Hs. destruct (step_cases e w w' HI Hs)
    as [ks mt ms g sk -> ->|t -> Ht Hx Hv|t -> Ht Hx Hv|a d x g c -> Hx Hw Hst Hb Hv|a x g c -> Hx Hw Hfl Hv|ms -> ->].
  - destruct (addToNextGet_spec ks mt ms g sk w HI) as (_ & _ & Ec & _ & Exs & _).
    destruct (good_add_ok ks mt ms g sk w HI Hg) as [Eg _]. destruct Hc as [Hc1 Hc2].
    unfold covered, loader_xhrs. rewrite Eg, Ec, Exs. split; [|done].
    intros cb [->|Hcb]%obj_set_values k Hk; apply push_keys_names; [by left|right; by eapply Hc1].
  - by apply (covered_view _ _ Hv).
  - apply (covered_view _ _ Hv), covered_startRequest; [by apply Inv_no_timer|done|done].
  - destruct (Inv_no_xhr w x g c HI Hx) as [HI0 Ee].
    destruct (deliverData_frame d c (set_loader (set_xhr None) (remove_xhr x w))) as (_ & El & _ & Ex & _).
    apply (covered_view _ _ Hv), covered_startRequest; [by apply Inv_after_delivery|by rewrite El|].
    destruct Hc as [Hc1 Hc2]. unfold covered, loader_xhrs. rewrite El, Ex. split; [done|].
    intros x' g' c' Hin. assert ((x', XLoader g' c') ∈ loader_xhrs (remove_xhr x w)) as Hin' by exact Hin.
    clear Hin. rename Hin' into Hin. rewrite Ee in Hin.
    by apply not_elem_of_nil in Hin.
  - cbn in Hg. rewrite failed_cases in Hg by done. done.
  - done.
Qed.

(** The sample limit of a request is the largest its callbacks ask for, at least 1. *)
Lemma max_samples_spec c :
  obj_wf c -> 1 <= max_samples c /\ Forall (fun cb => cb_maxSamples cb <= max_samples c) c.*2 /\
  (max_samples c = 1 \/ max_samples c ∈ cb_maxSamples <$> c.*2).
Proof.
  intros Hw.
  assert (max_samples c = foldl (fun m cb => Z.max m (cb_maxSamples cb)) 1 (batch c)) as ->.
  { unfold max_samples, batch. generalize 1. induction (obj_keys c) as [|k ks IH]; intros m; [done|].
    cbn. rewrite IH. destruct (obj_get c k) as [cb|]; [|done]. cbn. f_equal. zcases. }
  assert (Hgo : forall l m, m <= foldl (fun m cb => Z.max m (cb_maxSamples cb)) m l /\
    Forall (fun cb => cb_maxSamples cb <= foldl (fun m cb => Z.max m (cb_maxSamples cb)) m l) l /\
    (foldl (fun m cb => Z.max m (cb_maxSamples cb)) m l = m \/
     foldl (fun m cb => Z.max m (cb_maxSamples cb)) m l ∈ cb_maxSamples <$> l)).
  { induction l as [|cb l IH]; intros m; cbn; [split_and!; auto; lia|].
    destruct (IH (Z.max m (cb_maxSamples cb))) as (H1 & H2 & H3). split_and!.
    - lia.
    - constructor; [lia|done].
    - destruct H3 as [H3|H3]; [|by right; right]. rewrite H3.
      destruct (Z.max_spec m (cb_maxSamples cb)) as [[? ->]|[? ->]]; [right; left|by left]. }
  destruct (Hgo (batch c) 1) as (H1 & H2 & H3). pose proof (batch_Permutation c Hw) as Hp.
  rewrite Hp in H2. split_and!; [done|done|]. destruct H3; [by left|right]. by rewrite <- Hp.
Qed.





(** After a failed answer nothing wakes the loader for what is queued. *)
Lemma failure_stalls a w x :
  Inv w -> failed a = true -> ld_xhr (w_loader w) = Some x -> ld_nextEvent (w_loader w) = None ->
  exists w', step (Complete a) w = Some w' /\ ld_getting (w_loader w') = ld_getting (w_loader w) /\
    (forall b, step Fire w' = None /\ step (Complete b) w' = None).
Proof.
  intros HI Hf Hx He. pose proof (inv_xhr w HI) as I2. rewrite Hx in I2. destruct I2 as (g & c & Hxs & Hw).
  assert (exists w1, step (Complete a) w = Some w1) as [w1 Hs] by (cbn; rewrite Hxs; by eexists).
  exists w1. split; [done|]. pose proof (Inv_step _ _ _ HI Hs) as [I1' I2' _ _ _].
  destruct (step_cases _ _ _ HI Hs) as [| | |a' d' ? ? ? E ? ? Hst Hb|a' x' g' c' E Hxs' ? ? Hv| ]; try done.
  - injection E as <-. rewrite (not_failed _ _ Hst Hb) in Hf. done.
  - rewrite (sv_loader _ _ Hv) in I1', I2' |- *. cbn in I1', I2'. rewrite He in I1'.
    split; [done|]. intros b. cbn. by rewrite I1', I2'.
Qed.

(** ** Properties *)

(** A loader that nothing was asked of yet. *)
Record idle (w : World) : Prop := {
  idle_loader : w_loader w = init;
  idle_timers : loader_timers w = [];
  idle_xhrs : loader_xhrs w = [];
  idle_fresh : timers_fresh w }.

Lemma idle_Inv w : idle w -> Inv w /\ ids_ok w /\ covered w /\ awake w /\ pending w = [] /\ inflight w = [].
Proof.
  intros [H1 H2 H3 H4]. split_and!.
  - constructor; rewrite ?H1; try done; apply NoDup_nil_2.
  - split; rewrite H1; [cbn; lia|]. intros k Hk. by apply not_elem_of_nil in Hk.
  - split; rewrite ?H1, ?H3; [intros cb Hcb; by apply not_elem_of_nil in Hcb|].
    intros x g c Hx. by apply not_elem_of_nil in Hx.
  - unfold awake. by rewrite H1.
  - unfold pending. by rewrite H1.
  - unfold inflight. by rewrite H3.
Qed.

Lemma good_run es w w' :
  Inv w -> covered w -> awake w -> Forall good es -> run es w = Some w' -> Inv w' /\ covered w' /\ awake w'.
Proof.
  revert w; induction es as [|e es IH]; intros w HI Hc Ha Hg Hr; cbn in Hr; [by injection Hr as <-|].
  apply Forall_cons in Hg as [Hge Hg]. destruct (step e w) as [w1|] eqn:Hs; [|done].
  apply (IH w1); eauto using Inv_step, covered_step, awake_step.
Qed.

(** Through any sequence of requests for data, timer firings, answers (good, failed
    or unparsable) and passing time, the loader has at most one timer pending, the one it
    recorded, and at most one request in flight, the one it recorded. *)
Theorem loader_one_timer_one_request es w w' :
  idle w -> run es w = Some w' ->
  (loader_timers w' = [] /\ ld_nextEvent (w_loader w') = None \/
   exists t, loader_timers w' = [t] /\ ld_nextEvent (w_loader w') = Some (tm_id t) /\
     tm_due t = ld_nextEventTime (w_loader w') + 10 * 1000) /\
  (loader_xhrs w' = [] /\ ld_xhr (w_loader w') = None \/
   exists x g c, loader_xhrs w' = [(x, XLoader g c)] /\ ld_xhr (w_loader w') = Some x).
Proof.
  intros [HI _]%idle_Inv Hr. destruct (Inv_run es w w' HI Hr) as [I1 I2 _ _ _].
  split.
  - destruct (ld_nextEvent (w_loader w')); [right|by left]. destruct I1 as (t & ? & <- & ?). by exists t.
  - destruct (ld_xhr (w_loader w')); [right|by left]. destruct I2 as (g & c & ? & _). by do 3 eexists.
Qed.

(** C2: no request for data is lost or answered twice: over any run that issues at most a
    million requests, the callbacks issued are, as a multiset, those still queued, those of the
    request in flight, those that were called since (the calls in the log) and those dropped with a failed answer;
    and the issued callbacks have distinct identifiers. *)
Theorem loader_exactly_once es w w' :
  idle w -> adds es <= 1000000 -> run es w = Some w' ->
  exists calls, called w' = called w ++ calls /\
    history issued es w ≡ₚ pending w' ++ inflight w' ++ calls.*1 ++ history dropped es w /\
    NoDup (cb_id <$> history issued es w).
Proof.
  intros Hi Ha Hr. destruct (idle_Inv w Hi) as (HI & Hok & _ & _ & Hp & Hf).
  assert (Hle : ld_id (w_loader w) + adds es <= 1000000) by (rewrite (idle_loader w Hi); cbn; lia).
  destruct (run_conserve es w w' HI Hok Hle Hr) as (calls & Ec & Hc). rewrite Hp, Hf in Hc. cbn in Hc.
  exists calls. split_and!; [done|by rewrite <- Hc, <- app_assoc|]. by apply (issued_ids es w w').
Qed.


(** A request in flight asks for the keys of every callback in its batch, and the batch's
    [maxSamples] is at least that of each callback and is 1 or one of theirs. *)
Theorem request_covers_batch es w w' x g c :
  idle w -> Forall good es -> run es w = Some w' -> (x, XLoader g c) ∈ loader_xhrs w' ->
  (forall cb k, cb ∈ c.*2 -> k ∈ cb_keys cb -> k ∈ keys g) /\
  1 <= max_samples c /\ Forall (fun cb => cb_maxSamples cb <= max_samples c) c.*2 /\
  (max_samples c = 1 \/ max_samples c ∈ cb_maxSamples <$> c.*2).
Proof.
  intros (HI & _ & Hc & Ha & _)%idle_Inv Hg Hr Hx.
  destruct (good_run es w w' HI Hc Ha Hg Hr) as (HI' & [_ Hc'] & _). split.
  - intros cb k Hcb Hk. unfold keys, obj_keys. rewrite elem_of_enum_order. by eapply Hc'.
  - apply max_samples_spec. pose proof (inv_xhr w' HI') as I2.
    destruct (ld_xhr (w_loader w')); [|rewrite I2 in Hx; by apply not_elem_of_nil in Hx].
    destruct I2 as (g' & c' & E & Hw). rewrite E in Hx. by apply list_elem_of_singleton in Hx as [= -> -> ->].
Qed.

(** Asking for data leaves a timer pending that is due within [maxTime] milliseconds of
    now, replacing a later one and keeping an earlier one. *)
Theorem request_within_deadline ks mt ms g sk w :
  Inv w -> Forall (fun k => ~ inherited k) ks ->
  let w' := exec (addToNextGet ks mt ms g sk) w in
  exists t, loader_timers w' = [t] /\ tm_due t <= sy_now (w_sys w) + mt.
Proof.
  intros HI Hk w'. destruct (addToNextGet_spec ks mt ms g sk w HI)
    as (HI' & _ & _ & _ & _ & [(_ & (t & Ht) & Hd)|(pre & k & post & -> & Hi & _)]).
  - pose proof (inv_timer _ HI') as I1. rewrite Ht in I1. destruct I1 as (tm & E & _ & Hdue).
    exists tm. split; [exact E|]. unfold w' in *. rewrite Hdue. lia.
  - apply Forall_app in Hk as [_ Hk]. apply Forall_inv in Hk. done.
Qed.

(** C20: after a failed answer the loader stalls: [onXhrComplete] throws before it starts the
    next request, so what was queued while the request was in flight, with its timer already
    fired, stays queued, and no event but another request for data wakes it. *)
Theorem failure_stalls_queue a w x :
  Inv w -> failed a = true -> ld_xhr (w_loader w) = Some x -> ld_nextEvent (w_loader w) = None ->
  exists w', step (Complete a) w = Some w' /\ ld_getting (w_loader w') = ld_getting (w_loader w) /\
    (forall b, step Fire w' = None /\ step (Complete b) w' = None).
Proof. apply failure_stalls. Qed.

End client.

(** ** What the loader's entry points change *)

Section preserves.
Context (P : World -> Prop) `{!Stable P set_io} `{!Stable P set_ui} `{!Stable P set_loader}.

Lemma pres_addToNextGet ks mt ms g sk : preserves P (addToNextGet ks mt ms g sk).
Proof. unfold addToNextGet, addToNextGet_body, enqueue, schedule. presg. Qed.
Lemma pres_startRequest : preserves P startRequest.
Proof. unfold startRequest. presg. Qed.
Lemma pres_onTimer : preserves P onTimer.
Proof. unfold onTimer. presg. apply pres_startRequest. Qed.
Lemma pres_onXhrComplete `{LoaderClient} a g c :
  (forall cb d, preserves P (deliver cb d)) -> preserves P (onXhrComplete a g c).
Proof. intros Hd. unfold onXhrComplete, deliverData. presg; auto using pres_startRequest. Qed.

End preserves.

#[export] Hint Resolve pres_addToNextGet pres_startRequest pres_onTimer : pres.

End Loader.
