(* ===== verification/LoaderSpec.v ===== *)
(** * What the loader promises: a first-in first-out mailbox

    The specification of [Loader]: requests for data wait in a queue; when the timer fires and nothing is in flight,
    the whole queue is sent as one batch; a good answer serves the batch in the order in which it was asked
    for and sends what has been queued meanwhile; a failed answer loses the batch.  The loader keeps its queue as
    two objects, one indexed by counter and one by callback number, and relies on the order in which
    properties are enumerated; the refinement theorem says that it implements the mailbox. *)

From S2P Require Import Prelude JsString JsObject World Shell Loader.
Import Shell Loader.Loader.

Local Open Scope Z_scope.

Module LoaderSpec.

(** ** The mailbox *)

Record mailbox := mkMailbox { mb_queue : list CbObj; mb_flight : option (list CbObj) }.

(** A good answer brings data. *)
Inductive mevent := MAsk (c : CbObj) | MTimer | MAnswer (r : option Data) | MTick.

(** What the mailbox does: a batch is sent, served (each callback called with the data of the answer) or lost. *)
Inductive action := Sent (b : list CbObj) | Served (calls : list (CbObj * Data)) | Lost (b : list CbObj).

Definition send (m : mailbox) : mailbox * list action :=
  match mb_flight m, mb_queue m with
  | None, _ :: _ => (mkMailbox [] (Some (mb_queue m)), [Sent (mb_queue m)])
  | _, _ => (m, [])
  end.

Definition mstep (e : mevent) (m : mailbox) : mailbox * list action :=
  match e with
  | MAsk c => (mkMailbox (mb_queue m ++ [c]) (mb_flight m), [])
  | MTimer => send m
  | MAnswer r =>
      match mb_flight m, r with
      | Some b, Some d => let '(m', l) := send (mkMailbox (mb_queue m) None) in (m', Served ((fun c => (c, d)) <$> b) :: l)
      | Some b, None => (mkMailbox (mb_queue m) None, [Lost b])
      | None, _ => (m, [])
      end
  | MTick => (m, [])
  end.

Fixpoint mrun (es : list mevent) (m : mailbox) : mailbox * list action :=
  match es with
  | [] => (m, [])
  | e :: es' => let '(m1, l1) := mstep e m in let '(m2, l2) := mrun es' m1 in (m2, l1 ++ l2)
  end.

Definition empty_mailbox : mailbox := mkMailbox [] None.

(** ** The loader as a mailbox *)

Section Refinement.
Context `{LoaderClient}.

Definition flight (w : World) : option (list CbObj) :=
  match loader_xhrs w with (_, XLoader _ c) :: _ => Some c.*2 | _ => None end.
Definition mailbox_of (w : World) : mailbox := mkMailbox (pending w) (flight w).

Definition mevent_of (e : event) (w : World) : mevent :=
  match e with
  | Add ks _ ms g sk => MAsk (mkCbObj ks g sk (next_id (ld_id (w_loader w))) ms)
  | Fire => MTimer
  | Complete a => MAnswer (if failed a then None else an_body a)
  | Tick _ => MTick
  end.

(** What a step of the loader is seen to do, from the worlds before and after it: the callbacks called by it (those new
    in the log), or a request gone from those in flight without a call, and the batch of a request that is new. *)
Definition calls_between (w w' : World) : list (CbObj * Data) := drop (length (called w)) (called w').
Definition gone (w w' : World) : list action :=
  match loader_xhrs w with
  | (x, XLoader _ c) :: _ => if bool_decide (x ∈ (loader_xhrs w').*1) then [] else [Lost c.*2]
  | _ => []
  end.
Definition completed (w w' : World) : list action :=
  match calls_between w w' with [] => gone w w' | calls => [Served calls] end.
Definition started (w w' : World) : list action :=
  if (sy_next_xhr (w_sys w) <? sy_next_xhr (w_sys w'))%nat then [Sent (inflight w')] else [].
Definition actions (w w' : World) : list action := completed w w' ++ started w w'.

(** The mailbox's events and the actions of a run. *)
Fixpoint mevents (es : list event) (w : World) : list mevent :=
  match es with
  | [] => []
  | e :: es' => mevent_of e w :: match step e w with Some w' => mevents es' w' | None => [] end
  end.
Fixpoint trace (es : list event) (w : World) : list action :=
  match es with
  | [] => []
  | e :: es' => match step e w with Some w' => actions w w' ++ trace es' w' | None => [] end
  end.

(** Requests that ask for something, by names that are not inherited. *)
Definition proper_ask (e : event) : Prop :=
  match e with Add ks _ _ _ _ => ks <> [] /\ Forall (fun k => ~ inherited k) ks | _ => True end.

(** ** The relation *)

(** Callbacks under their numbers, upwards and below a bound. *)
Record numbered (bound : Z) (c : list (jsstr * CbObj)) : Prop := {
  nb_keys : c.*1 = (fun cb => num_to_str (cb_id cb)) <$> c.*2;
  nb_sorted : StronglySorted (fun a b => cb_id a < cb_id b) c.*2;
  nb_bounds : Forall (fun cb => 0 <= cb_id cb <= bound) c.*2 }.

Record refines (w : World) : Prop := {
  rf_inv : Inv w;
  rf_id : 0 <= ld_id (w_loader w) <= 1000000;
  rf_queue : numbered (ld_id (w_loader w)) (ld_cbObjs (w_loader w));
  rf_flight : forall x g c, (x, XLoader g c) ∈ loader_xhrs w -> numbered (ld_id (w_loader w)) c;
  rf_empty : ld_getting (w_loader w) = [] <-> ld_cbObjs (w_loader w) = [];
  rf_busy : forall x g c, (x, XLoader g c) ∈ loader_xhrs w -> c <> [] }.

Lemma numbered_nil b : numbered b [].
Proof. constructor; [done|constructor|constructor]. Qed.

Lemma numbered_mono b b' c : b <= b' -> numbered b c -> numbered b' c.
Proof. intros Hb [H1 H2 H3]. constructor; [done..|]. eapply Forall_impl; [exact H3|]. cbn. lia. Qed.

(** Enumerating the batch by number is enumerating it in the order it was asked for. *)
Lemma numbered_batch b c : b <= 1000000 -> numbered b c -> batch c = c.*2.
Proof.
  intros Hb [H1 H2 H3]. unfold batch, obj_keys. rewrite enum_order_ascending.
  - assert (Hwf : obj_wf c).
    { unfold obj_wf. rewrite H1. clear H1. induction H2 as [|cb l _ IH Hl]; [apply NoDup_nil_2|].
      apply Forall_cons in H3 as [Hc H3]. rewrite fmap_cons. apply NoDup_cons. split; [|by apply IH].
      intros (cb' & E & Hin)%list_elem_of_fmap. rewrite Forall_forall in Hl, H3. specialize (Hl cb' Hin). specialize (H3 cb' Hin).
      apply num_to_str_inj in E; lia. }
    clear -Hwf. assert (Hs : forall c', (forall k v, (k, v) ∈ c' -> obj_get c k = Some v) -> omap (obj_get c) c'.*1 = c'.*2).
    { induction c' as [|[k v] c' IH]; intros Hc; [done|]. cbn. rewrite (Hc k v) by left. f_equal. apply IH. intros. apply Hc. by right. }
    apply Hs. intros k v Hin. by apply obj_in_get.
  - rewrite H1. apply Forall_fmap. eapply Forall_impl; [exact H3|]. intros cb Hc. cbv beta in Hc. unfold compose, is_index.
    by rewrite array_index_num by lia.
  - rewrite H1. clear H1. induction H2 as [|cb l _ IH Hl]; [constructor|]. apply Forall_cons in H3 as [Hc H3]. rewrite fmap_cons.
    constructor; [by apply IH|]. destruct l as [|cb' l]; constructor. apply Forall_inv in H3. apply Forall_inv in Hl.
    unfold index_of. rewrite !array_index_num by lia. cbn. lia.
Qed.

(** A new callback goes to the end. *)
Lemma numbered_add b c cb :
  numbered b c -> cb_id cb = b + 1 -> 0 <= b ->
  obj_set c (num_to_str (b + 1)) cb = c ++ [(num_to_str (b + 1), cb)] /\ numbered (b + 1) (obj_set c (num_to_str (b + 1)) cb).
Proof.
  intros [H1 H2 H3] Hid Hb. assert (Hnew : num_to_str (b + 1) ∉ c.*1).
  { rewrite H1. intros (cb' & E & Hin)%list_elem_of_fmap. rewrite Forall_forall in H3. specialize (H3 cb' Hin).
    apply num_to_str_inj in E; lia. }
  rewrite obj_set_new by done. split; [done|]. constructor.
  - rewrite !fmap_app, H1. cbn. by rewrite Hid.
  - rewrite fmap_app. cbn. clear H1 Hnew. induction H2 as [|cb' l _ IH Hl]; [by repeat constructor|].
    apply Forall_cons in H3 as [Hc H3]. cbn [app]. constructor; [by apply IH|]. apply Forall_app; split; [done|].
    apply Forall_singleton. lia.
  - rewrite fmap_app. apply Forall_app; split; [eapply Forall_impl; [exact H3|]; cbn; lia|]. apply Forall_singleton. cbn. lia.
Qed.

(** ** What leaves the relation alone *)

Lemma mailbox_same w w' :
  ld_cbObjs (w_loader w') = ld_cbObjs (w_loader w) -> loader_xhrs w' = loader_xhrs w -> mailbox_of w' = mailbox_of w.
Proof. intros E1 E2. unfold mailbox_of, pending, flight. by rewrite E1, E2. Qed.

Lemma refines_same w w' :
  Inv w' -> ld_id (w_loader w') = ld_id (w_loader w) -> ld_cbObjs (w_loader w') = ld_cbObjs (w_loader w) ->
  ld_getting (w_loader w') = ld_getting (w_loader w) -> (loader_xhrs w' = loader_xhrs w \/ loader_xhrs w' = []) ->
  refines w -> refines w'.
Proof.
  intros HI E1 E2 E3 E4 [H1 H2 H3 H4 H5 H6]. constructor; rewrite ?E1, ?E2, ?E3; try done;
    (destruct E4 as [->| ->]; [done|]; intros x g c Hx; by apply not_elem_of_nil in Hx).
Qed.

Lemma view_xhrs w w' : same_view w w' -> loader_xhrs w' = loader_xhrs w.
Proof. intros Hv. unfold loader_xhrs. by rewrite (sv_xhrs _ _ Hv). Qed.

Lemma refines_view w w' : same_view w w' -> refines w -> refines w'.
Proof.
  intros Hv Hw. apply (refines_same w); rewrite ?(sv_loader _ _ Hv); try done.
  - eapply Inv_view; [exact Hv|]. by apply rf_inv.
  - left. by apply view_xhrs.
Qed.

Lemma mailbox_view w w' : same_view w w' -> mailbox_of w' = mailbox_of w.
Proof. intros Hv. apply mailbox_same; [by rewrite (sv_loader _ _ Hv)|by apply view_xhrs]. Qed.

(** No call, and the request still there: nothing was completed. *)
Lemma completed_none w w' :
  called w' = called w -> (loader_xhrs w' = loader_xhrs w \/ loader_xhrs w = []) -> completed w w' = [].
Proof.
  intros Ec Ex. unfold completed, calls_between, gone. rewrite Ec, drop_all. destruct Ex as [-> | ->]; [|done].
  destruct (loader_xhrs w) as [|[x []] l]; try done. by rewrite bool_decide_eq_true_2 by left.
Qed.

Lemma completed_calls w w' calls :
  called w' = called w ++ calls -> calls <> [] -> completed w w' = [Served calls].
Proof. intros Ec Hne. unfold completed, calls_between. rewrite Ec, drop_app_length. by destruct calls. Qed.

Lemma started_same w w' : sy_next_xhr (w_sys w') = sy_next_xhr (w_sys w) -> started w w' = [].
Proof. intros E. unfold started. by rewrite E, Nat.ltb_irrefl. Qed.

Lemma started_view w w1 w2 w' :
  sy_next_xhr (w_sys w1) = sy_next_xhr (w_sys w) -> same_view w2 w' -> started w w' = started w1 w2.
Proof. intros E Hv. unfold started. by rewrite E, (sv_next_xhr _ _ Hv), (inflight_view _ _ Hv). Qed.

(** ** The operations *)

(** [startRequest] is [send]. *)
Lemma start_refines w :
  refines w -> ld_xhr (w_loader w) = None ->
  let w' := exec startRequest w in refines w' /\ send (mailbox_of w) = (mailbox_of w', started w w').
Proof.
  intros Hw Hx w'. pose proof (inv_xhr w (rf_inv w Hw)) as Hf. rewrite Hx in Hf.
  assert (Hfl : flight w = None) by (unfold flight; by rewrite Hf).
  pose proof (startRequest_spec w (rf_inv w Hw) Hx) as Hsp. cbv zeta in Hsp. fold w' in Hsp.
  destruct Hsp as (HI & _ & Hid & [[Hg E]|(Hg & Eg & Ec & _ & Ex & _ & En)]).
  - rewrite E, started_same by done. split; [done|]. apply (rf_empty w Hw) in Hg. unfold send, mailbox_of, pending. cbn [mb_flight mb_queue].
    by rewrite Hfl, Hg.
  - assert (Hc : ld_cbObjs (w_loader w) <> []) by (intros Hc; apply Hg; by apply (rf_empty w Hw)). split.
    + constructor; rewrite ?Eg, ?Ec, ?Hid; [done|apply Hw|apply numbered_nil| |done|];
        rewrite Ex; intros x g c [= -> -> ->]%list_elem_of_singleton; [apply Hw|done].
    + unfold send, mailbox_of, pending, flight, started, inflight. cbn [mb_flight mb_queue]. fold (flight w). rewrite Hfl, Ex, Ec, En.
      rewrite (proj2 (Nat.ltb_lt _ _)) by lia. by destruct (ld_cbObjs (w_loader w)).
Qed.

(** Asking for data sends nothing. *)
Lemma addToNextGet_next ks mt ms g sk w :
  sy_next_xhr (w_sys (exec (addToNextGet ks mt ms g sk) w)) = sy_next_xhr (w_sys w).
Proof.
  set (id := next_id (ld_id (w_loader w))). set (c := mkCbObj ks g sk id ms).
  set (w1 := set_loader (fun l => set_cbObjs (obj_set (ld_cbObjs l) (num_to_str id) c) (set_id id l)) w).
  set (body := addToNextGet_body ks mt ms g sk).
  assert (Hbody : body w = (for_each ks (enqueue c);;
     schedule (sy_now (w_sys w) - 10 * 1000) (sy_now (w_sys w) - 10 * 1000 + mt)) w1) by reflexivity.
  assert (Hs : forall now d v, sy_next_xhr (w_sys (exec (schedule now d) v)) = sy_next_xhr (w_sys v)).
  { intros now d v. unfold schedule, exec, mbind, M_bind. cbn. destruct (_ <? _); cbn; repeat (destruct (ld_nextEvent _); cbn); done. }
  assert (Hb : sy_next_xhr (w_sys (exec body w)) = sy_next_xhr (w_sys w)).
  { unfold exec. rewrite Hbody. destruct (for_each_enqueue c ks w1) as [He|(pre & k & post & _ & _ & He)].
    - rewrite (bind_Ok _ _ _ _ _ He). exact (Hs _ _ _).
    - by rewrite (bind_Throw _ _ _ _ _ He). }
  rewrite <- Hb. pose proof (guarded_view "Loader_addToNextGet" body w _ _ (surjective_pairing (body w))) as Hv. exact (sv_next_xhr _ _ Hv).
Qed.

Lemma ask_refines ks mt ms g sk w :
  refines w -> proper_ask (Add ks mt ms g sk) -> ld_id (w_loader w) < 1000000 ->
  let w' := exec (addToNextGet ks mt ms g sk) w in
  refines w' /\ mstep (mevent_of (Add ks mt ms g sk) w) (mailbox_of w) = (mailbox_of w', actions w w').
Proof.
  intros Hw [Hne Hk] Hlt w'. pose proof (rf_id w Hw) as Hid.
  assert (Hn : next_id (ld_id (w_loader w)) = ld_id (w_loader w) + 1).
  { unfold next_id. by rewrite (proj2 (Z.ltb_ge _ _)) by lia. }
  destruct (addToNextGet_spec ks mt ms g sk w (rf_inv w Hw)) as (HI & Ei & Ec & _ & Ex & _).
  destruct (good_add_ok ks mt ms g sk w (rf_inv w Hw) Hk) as [Eg _]. fold w' in HI, Ei, Ec, Ex, Eg. rewrite Hn in *.
  set (cb := mkCbObj ks g sk (ld_id (w_loader w) + 1) ms) in *.
  destruct (numbered_add _ _ cb (rf_queue w Hw) eq_refl (proj1 Hid)) as [Eset Hnum].
  assert (Exs : loader_xhrs w' = loader_xhrs w) by (unfold loader_xhrs; by rewrite Ex). split.
  - constructor; [done|rewrite Ei; lia|by rewrite Ei, Ec| | |rewrite Exs; apply Hw].
    + rewrite Ei, Exs. intros x g0 c Hx. eapply numbered_mono; [|by eapply (rf_flight w Hw)]. lia.
    + rewrite Ec, Eset. split; [|by intros [_ ?]%app_nil]. rewrite Eg. intros E. destruct ks as [|k ks]; [done|].
      assert (Hin : k ∈ (foldl (push_key cb) (ld_getting (w_loader w)) (k :: ks)).*1) by (apply push_keys_names; left; left).
      rewrite E in Hin. by apply not_elem_of_nil in Hin.
  - unfold actions. rewrite started_same by (unfold w'; apply addToNextGet_next).
    rewrite completed_none by (auto; unfold w'; apply addToNextGet_called).
    unfold mailbox_of, pending, flight. cbn [mstep mevent_of mb_queue mb_flight app]. rewrite Hn, Ec, Eset, Exs, fmap_app. done.
Qed.

(** The request in flight, in the relation. *)
Lemma flight_cases w x g c : loader_xhrs w = [(x, XLoader g c)] -> refines w -> flight w = Some c.*2 /\ batch c = c.*2 /\ c <> [].
Proof.
  intros Hx Hw. split_and!; [unfold flight; by rewrite Hx| |].
  - eapply numbered_batch; [apply (rf_id w Hw)|]. eapply (rf_flight w Hw). rewrite Hx. left.
  - eapply (rf_busy w Hw). rewrite Hx. left.
Qed.

Lemma sim_step e w w' :
  refines w -> proper_ask e -> (is_add e = true -> ld_id (w_loader w) < 1000000) -> step e w = Some w' ->
  refines w' /\ mstep (mevent_of e w) (mailbox_of w) = (mailbox_of w', actions w w').
Proof.
  intros Hw Hp Hlt Hs. pose proof (rf_inv w Hw) as HI.
  destruct (step_cases e w w' HI Hs)
    as [ks mt ms g sk -> ->|t -> Ht Hx Hv|t -> Ht Hx Hv|a d x g c -> Hx Hwf Hst Hb Hv|a x g c -> Hx Hwf Hfl Hv|ms -> ->].
  - by apply ask_refines; [| |apply Hlt].
  - set (w0 := set_loader (set_event None 0) (remove_timer (tm_id t) w)) in *.
    assert (Hw0 : refines w0) by (apply (refines_same w); [by apply Inv_no_timer|done..|by left|done]).
    split; [by apply (refines_view w0)|]. unfold actions. rewrite started_same by (by rewrite (sv_next_xhr _ _ Hv)).
    rewrite completed_none by (rewrite ?(sv_called _ _ Hv), ?(view_xhrs _ _ Hv); by auto).
    rewrite (mailbox_view _ _ Hv). cbn [mstep mevent_of app]. pose proof (inv_xhr w HI) as Hf.
    destruct (ld_xhr (w_loader w)); [|done]. destruct Hf as (g & c & Hf & _). unfold send, mailbox_of, flight. cbn [mb_flight mb_queue].
    change (loader_xhrs w0) with (loader_xhrs w). by rewrite Hf.
  - set (w0 := set_loader (set_event None 0) (remove_timer (tm_id t) w)) in *.
    assert (Hw0 : refines w0) by (apply (refines_same w); [by apply Inv_no_timer|done..|by left|done]).
    destruct (start_refines w0 Hw0 Hx) as [Hr Hm]. split; [by eapply refines_view|]. unfold actions.
    assert (Hno : loader_xhrs w = []) by (pose proof (inv_xhr w HI) as Hf; by rewrite Hx in Hf).
    rewrite completed_none; [|by rewrite (sv_called _ _ Hv), startRequest_called by (done || by apply Inv_no_timer)|by right].
    rewrite (started_view w w0 (exec startRequest w0) w' eq_refl Hv), (mailbox_view _ _ Hv). exact Hm.
  - destruct (flight_cases w x g c Hx Hw) as (Hf & Hbatch & Hne). destruct (Inv_no_xhr w x g c HI Hx) as [HI0 Ee].
    set (w0 := set_loader (set_xhr None) (remove_xhr x w)) in *.
    destruct (deliverData_frame d c w0) as (_ & El & _ & Exs & En & _). set (w1 := exec (deliverData d c) w0) in *.
    assert (Exs' : loader_xhrs w1 = []) by (unfold loader_xhrs in *; by rewrite Exs).
    assert (Hw1 : refines w1).
    { apply (refines_same w); [by apply Inv_after_delivery|(by rewrite El)..|by right|done]. }
    destruct (start_refines w1 Hw1) as [Hr Hm]; [by rewrite El|]. split; [by eapply refines_view|].
    assert (Hfa : failed a = false) by (by eapply not_failed). unfold actions.
    rewrite (completed_calls w w' ((fun cb => (cb, d)) <$> c.*2)).
    2:{ rewrite (step_called _ _ _ HI Hs). cbn [owed]. by rewrite Hx, Hb, Hfa, Hbatch. }
    2:{ by destruct c. }
    rewrite (started_view w w1 (exec startRequest w1) w' En Hv), (mailbox_view _ _ Hv).
    cbn [mstep mevent_of]. rewrite Hfa, Hb. unfold mailbox_of at 1. cbn [mb_flight]. rewrite Hf.
    assert (mkMailbox (mb_queue (mailbox_of w)) None = mailbox_of w1) as ->; [|by rewrite Hm].
    unfold mailbox_of, flight, pending. cbn [mb_queue]. by rewrite El, Exs'.
  - destruct (flight_cases w x g c Hx Hw) as (Hf & _ & _). destruct (Inv_no_xhr w x g c HI Hx) as [HI0 Ee].
    set (w0 := set_loader (set_xhr None) (remove_xhr x w)) in *. assert (Exs : loader_xhrs w0 = []) by exact Ee.
    assert (Hw0 : refines w0) by (apply (refines_same w); [done..|by right|done]). split; [by eapply refines_view|].
    assert (Hfa : failed a = true) by (by apply failed_cases). unfold actions, completed, calls_between, gone.
    rewrite (sv_called _ _ Hv), drop_all, Hx, (view_xhrs _ _ Hv), Exs, bool_decide_eq_false_2 by apply not_elem_of_nil.
    rewrite started_same by (by rewrite (sv_next_xhr _ _ Hv)). rewrite (mailbox_view _ _ Hv).
    cbn [mstep mevent_of]. rewrite Hfa. unfold mailbox_of at 1. cbn [mb_flight]. rewrite Hf.
    unfold mailbox_of, flight, pending. cbn [mb_queue]. by rewrite Exs.
  - unfold actions. rewrite started_same by done. rewrite completed_none by auto. split; [|done]. apply (refines_same w); [by eapply Inv_step|done..|by left|done].
Qed.

Lemma sim_run es w w' :
  refines w -> Forall proper_ask es -> ld_id (w_loader w) + adds es <= 1000000 -> run es w = Some w' ->
  mrun (mevents es w) (mailbox_of w) = (mailbox_of w', trace es w).
Proof.
  revert w. induction es as [|e es IH]; intros w Hw Hp Hle Hr; cbn in Hr; [by injection Hr as <-|].
  apply Forall_cons in Hp as [He Hp]. destruct (step e w) as [w1|] eqn:Hs; [|done]. cbn [mbind option_bind] in Hr.
  rewrite adds_cons in Hle. assert (0 <= adds es) by (unfold adds; lia).
  assert (Hlt : is_add e = true -> ld_id (w_loader w) < 1000000) by (intros Ea; rewrite Ea in Hle; lia).
  destruct (sim_step e w w1 Hw He Hlt Hs) as [Hw1 Hm].
  assert (Hid : ld_id (w_loader w1) = ld_id (w_loader w) + (if is_add e then 1 else 0)).
  { apply (ids_step e w w1); [apply (rf_inv w Hw)| |done|done]. split; [apply (rf_id w Hw)|].
    intros k. destruct (rf_queue w Hw) as [H1 _ H3]. rewrite H1. intros (cb & -> & Hin)%list_elem_of_fmap.
    rewrite Forall_forall in H3. exists (cb_id cb). split; [done|]. by apply H3. }
  cbn [mevents trace mrun]. rewrite Hs, Hm. rewrite (IH w1 Hw1 Hp ltac:(lia) Hr). done.
Qed.

Lemma idle_refines w : idle w -> refines w /\ mailbox_of w = empty_mailbox.
Proof.
  intros Hi. destruct (idle_Inv w Hi) as (HI & _). destruct Hi as [H1 H2 H3 H4]. split.
  - constructor; rewrite ?H1, ?H3; [done|cbn; lia|apply numbered_nil| |done|]; intros x g c Hx; by apply not_elem_of_nil in Hx.
  - unfold mailbox_of, pending, flight. by rewrite H1, H3.
Qed.

(** ** The refinement *)

(** C8: the loader is a first-in first-out mailbox.  Over any run of at most a million requests for data, each for at
    least one name and no inherited one, with timers, good and failed answers in any order, the batches that
    the loader sends, the callbacks that it calls (as the log shows: which, in which order, and with which data) and the
    batches that it loses are exactly those of the mailbox, and what is queued and in flight at the end is what the
    mailbox holds. *)
Theorem loader_refines_mailbox es w w' :
  idle w -> Forall proper_ask es -> adds es <= 1000000 -> run es w = Some w' ->
  mrun (mevents es w) empty_mailbox = (mailbox_of w', trace es w).
Proof.
  intros Hi Hp Ha Hr. destruct (idle_refines w Hi) as [Hw <-]. apply sim_run; [done|done| |done].
  rewrite (idle_loader w Hi). cbn. lia.
Qed.

End Refinement.

End LoaderSpec.
