(* ===== verification/Grid.v ===== *)
(** * Graph surfaces and the grid ([GraphSurface], [GraphGrid] of [files/graph.js])

    Surfaces are shared by reference: the grid's array, its selection, pending
    timers and the loader's callbacks all name a surface by its index in the
    store.  Painting itself is in [Plot]. *)

From S2P Require Import Prelude JsString JsObject World Shell Loader.
Import Shell.
Import (hints) Loader.

Local Open Scope Z_scope.

(** ** The time interval *)

Module Interval.

Definition set_current (d : Dates) (t : TimeState) : TimeState :=
  mkTime (theOriginalDates t) d (theReloadInterval t) (isAutoRefresh t) (autoRefreshTimer t) (theTimeSlider t).
Definition set_original (d : Dates) (t : TimeState) : TimeState :=
  mkTime d (theCurrentDates t) (theReloadInterval t) (isAutoRefresh t) (autoRefreshTimer t) (theTimeSlider t).
Definition set_reload (r : Z) (t : TimeState) : TimeState :=
  mkTime (theOriginalDates t) (theCurrentDates t) r (isAutoRefresh t) (autoRefreshTimer t) (theTimeSlider t).

Definition restoreOriginalInterval : M unit :=
  modify (set_time (fun t => set_current (theOriginalDates t) t)).

(** The reload points, in seconds. *)
Definition points : list Z := [5; 10; 15; 20; 30; 60].

(** [Math.ceil(delta / 500)] of [delta] milliseconds divided by 1000. *)
Definition reload_ival (delta : Z) : Z := - (- delta / 500000).

(** The first point not below [ival], else 120; no point is above [NaN]. *)
Fixpoint first_point (ps : list Z) (ival : option Z) : Z :=
  match ps with
  | [] => 120
  | p :: ps' => if match ival with Some i => i <=? p | None => false end then p else first_point ps' ival
  end.

Definition calcReloadInterval : M unit :=
  modify (set_time (fun t =>
    set_reload (first_point points
      (reload_ival <$> date_sub (dt_stop (theCurrentDates t)) (dt_start (theCurrentDates t)))) t)).

End Interval.
Import Interval.

Module Grid.

(** ** Surfaces *)

Definition set_series s (g : GraphSurface) : GraphSurface :=
  mkGraph s (gs_lastRenderData g) (gs_dygraph g) (gs_format g).
Definition set_lastRenderData d (g : GraphSurface) : GraphSurface :=
  mkGraph (gs_series g) d (gs_dygraph g) (gs_format g).
Definition set_dygraph d (g : GraphSurface) : GraphSurface :=
  mkGraph (gs_series g) (gs_lastRenderData g) d (gs_format g).
Definition set_format f (g : GraphSurface) : GraphSurface :=
  mkGraph (gs_series g) (gs_lastRenderData g) (gs_dygraph g) f.

(** A reference always denotes a surface of the store. *)
Definition surface (g : nat) : M GraphSurface :=
  s ← get (fun w => w_graphs w !! g);
  match s with Some s => mret s | None => throw TypeError end.

Definition update (g : nat) (f : GraphSurface -> GraphSurface) : M unit :=
  modify (set_graphs (alter f g)).

(** [_destroyDygraph] *)
Definition destroyDygraph (g : nat) : M unit :=
  s ← surface g;
  if gs_dygraph s then dom "dygraph" "destroy" [ANum (Z.of_nat g)];; update g (set_dygraph false) else mret ().

(** [theGraphMaxSamples ? theGraphMaxSamples : theGraphSize.width] *)
Definition sample_limit (w : World) : Z :=
  match w_maxSamples w with
  | Some m => if m =? 0 then sz_width (w_size w) else m
  | None => sz_width (w_size w)
  end.

Definition reload (g : nat) : M unit :=
  s ← surface g;
  let seriesKeys := keys_opt (gs_series s) in
  limit ← get sample_limit;
  Loader.addToNextGet seriesKeys 500 limit g seriesKeys.

(** [toggleSeries(path)]: [_series[path]] also finds inherited names; the last
    series is not deleted. *)
Definition toggleSeries (g : nat) (path : jsstr) : M unit :=
  guarded "GraphSurface_toggleSeries" (
    s ← surface g;
    match gs_series s with
    | None => throw TypeError
    | Some series =>
        (if obj_truthy series path then
           if 1 <? Z.of_nat (length (keys series)) then update g (set_series (Some (obj_delete series path)))
           else mret ()
         else update g (set_series (Some (obj_set series path ()))));;
        reload g
    end).

(** [data[k]]; a name inherited from [Object.prototype] is a function. *)
Definition data_get (d : Data) (k : jsstr) : option dataval :=
  match obj_get d k with
  | Some v => Some v
  | None => if decide (inherited k) then Some DOther else None
  end.

Definition render_data (seriesKeys : list jsstr) (data : Data) : RenderData :=
  foldl (fun r k => obj_set r k (data_get data k))
    [(js "start", data_get data (js "start")); (js "stop", data_get data (js "stop"));
     (js "interval", data_get data (js "interval"))] seriesKeys.

Definition renderData (g : nat) (seriesKeys : list jsstr) (data : Data) : M unit :=
  match seriesKeys with
  | [] => mret ()
  | _ =>
      update g (set_lastRenderData (render_data seriesKeys data));;
      setTimeout (TPaintVisible g) 1;;
      mret ()
  end.

(** The callback that [reload] gives to the loader, [function(data) { self.renderData(seriesKeys, data); }]; its call is
    noted in the log. *)
Definition on_data (c : CbObj) (data : Data) : M unit :=
  emit (ECallback c data);;
  renderData (cb_graph c) (cb_seriesKeys c) data.

Definition getSeries (s : GraphSurface) : list jsstr := keys_opt (gs_series s).

Definition fmt_name (f : fmt) : jsstr :=
  match f with
  | noBars => js "noBars" | errorBars => js "errorBars" | customBars => js "customBars"
  | stacked => js "stacked" | area => js "area"
  end.

Definition showSettings (g : nat) : M unit :=
  choiceDialog (js "Choose display format for these graphs.")
    [(js "noBars", js "Lines"); (js "errorBars", js "StdDev"); (js "customBars", js "Min/Max");
     (js "stacked", js "Stacked"); (js "area", js "Area")] (CFormat g).

Definition toggleSummary (g : nat) : M unit :=
  dom ".summary" "toggleClass" [AStr (js "visible"); ANum (Z.of_nat g)].

(** ** The grid *)

Definition set_allGraphs l (g : GraphGrid) : GraphGrid := mkGrid l (gg_selected g).
Definition set_selected s (g : GraphGrid) : GraphGrid := mkGrid (gg_allGraphs g) s.

Definition add (g : nat) : M unit :=
  modify (set_grid (fun gr => set_allGraphs (gg_allGraphs gr ++ [g]) gr)).

(** [new GraphSurface($self, parWig)] *)
Definition new_GraphSurface : M nat :=
  g ← get (fun w => length (w_graphs w));
  modify (set_graphs (fun l => l ++ [mkGraph (Some []) [] false customBars]));;
  add g;;
  mret g.

Definition newGraph : M (option nat) :=
  guard "GraphGrid_newGraph" (
    width ← get (fun w => sz_width (w_size w));
    dom "div.graph" "width" [ANum width];;
    dom "#grid" "append" [];;
    new_GraphSurface).

Definition select (g : option nat) : M unit :=
  guarded "GraphGrid_select" (
    dom ".selected" "removeClass" [AStr (js "selected")];;
    modify (set_grid (set_selected g));;
    match g with
    | Some g => dom "graph" "addClass" [AStr (js "selected"); ANum (Z.of_nat g)]
    | None => mret ()
    end).

(** [GraphSurface.click] and [GraphGrid.click] *)
Definition surface_click (g : nat) : M unit := guarded "GraphSurface_click" (select (Some g)).
Definition grid_click : M unit :=
  dom ".selected" "removeClass" [AStr (js "selected")];;
  modify (set_grid (set_selected None)).

(** One paint per graph, a millisecond apart. *)
Fixpoint repaint_from (val : Z) (gs : list nat) : M unit :=
  match gs with
  | [] => mret ()
  | g :: gs' => setTimeout (TPaint g) val;; repaint_from (val + 1) gs'
  end.
Definition repaintAll : M unit :=
  gs ← get (fun w => gg_allGraphs (w_grid w));
  repaint_from 1 gs.

Definition reloadAll : M unit :=
  gs ← get (fun w => gg_allGraphs (w_grid w));
  for_each gs reload.

Definition remove (g : nat) : M unit :=
  sel ← get (fun w => gg_selected (w_grid w));
  (if decide (sel = Some g) then modify (set_grid (set_selected None)) else mret ());;
  modify (set_grid (fun gr => set_allGraphs (arrayRemove (gg_allGraphs gr) g) gr));;
  gs ← get (fun w => gg_allGraphs (w_grid w));
  match gs with
  | [] => restoreOriginalInterval
  | _ => mret ()
  end.

Definition close (g : nat) : M unit :=
  guarded "GraphSurface_close" (
    destroyDygraph g;;
    update g (set_series None);;
    dom "graph" "remove" [ANum (Z.of_nat g)];;
    remove g).

Definition clear : M unit :=
  modify (set_grid (set_selected None));;
  copy ← get (fun w => gg_allGraphs (w_grid w));
  for_each copy close.

(** ** The grid's invariant: distinct surfaces of the store, the selection among them *)

Record grid_ok (w : World) : Prop := {
  go_nodup : NoDup (gg_allGraphs (w_grid w));
  go_valid : Forall (fun g => g < length (w_graphs w))%nat (gg_allGraphs (w_grid w));
  go_selected : match gg_selected (w_grid w) with
                | Some g => g ∈ gg_allGraphs (w_grid w)
                | None => True
                end;
  go_series : forall g s, g ∈ gg_allGraphs (w_grid w) -> w_graphs w !! g = Some s ->
                exists o, gs_series s = Some o /\ obj_wf o /\ Forall (fun k => ~ inherited k) o.*1 }.

(** [w'] has the same surfaces, up to what was painted, and the same grid. *)
Record same_grid (w w' : World) : Prop := {
  sg_grid : w_grid w' = w_grid w;
  sg_graphs : w_graphs w' = w_graphs w }.

#[global] Instance same_grid_refl : Reflexive same_grid.
Proof. by constructor. Qed.
#[global] Instance same_grid_trans : Transitive same_grid.
Proof. intros a b c [] []. constructor; congruence. Qed.

Lemma grid_ok_same w w' : same_grid w w' -> grid_ok w -> grid_ok w'.
Proof. intros [E1 E2] [H1 H2 H3 H4]. constructor; rewrite ?E1, ?E2; done. Qed.

Lemma errorDialog_grid m w : same_grid w (exec (errorDialog m) w).
Proof. by constructor. Qed.

Lemma guarded_grid name (f : M unit) w w1 r :
  f w = (w1, r) -> same_grid w1 (exec (guarded name f) w).
Proof.
  intros Hf. unfold exec. destruct r as [[]|e].
  - by rewrite (guarded_Ok _ _ _ _ Hf).
  - rewrite (guarded_Throw _ _ _ _ _ Hf). apply errorDialog_grid.
Qed.

(** The loader never touches the grid. *)
Lemma schedule_grid now d w : exists w', Loader.schedule now d w = (w', Ok ()) /\ same_grid w w'.
Proof.
  unfold Loader.schedule, mbind, M_bind. cbn.
  destruct (d <? _); cbn; destruct (ld_nextEvent (w_loader w)); cbn; repeat case_match; eexists; split; done.
Qed.

Lemma addToNextGet_grid ks mt ms g sk w :
  same_grid w (exec (Loader.addToNextGet ks mt ms g sk) w).
Proof.
  set (id := Loader.next_id (ld_id (w_loader w))). set (c := mkCbObj ks g sk id ms).
  set (w1 := set_loader (fun l => Loader.set_cbObjs (obj_set (ld_cbObjs l) (num_to_str id) c)
               (Loader.set_id id l)) w).
  assert (Hbody : Loader.addToNextGet_body ks mt ms g sk w = (for_each ks (Loader.enqueue c);;
     Loader.schedule (sy_now (w_sys w) - 10 * 1000) (sy_now (w_sys w) - 10 * 1000 + mt)) w1) by reflexivity.
  destruct (Loader.for_each_enqueue c ks w1) as [He|(pre & k & post & _ & _ & He)].
  - rewrite (bind_Ok _ _ _ _ _ He) in Hbody.
    destruct (schedule_grid (sy_now (w_sys w) - 10 * 1000) (sy_now (w_sys w) - 10 * 1000 + mt)
      (set_loader (Loader.set_getting (foldl (Loader.push_key c) (ld_getting (w_loader w1)) ks)) w1))
      as (w3 & Hs & Hg). rewrite Hs in Hbody.
    transitivity w3; [destruct Hg; by constructor|]. eapply guarded_grid, Hbody.
  - rewrite (bind_Throw _ _ _ _ _ He) in Hbody.
    refine (transitivity _ (guarded_grid _ _ _ _ _ Hbody)). by constructor.
Qed.

Lemma reload_grid g s w :
  w_graphs w !! g = Some s -> exists w', reload g w = (w', Ok ()) /\ same_grid w w'.
Proof.
  intros Hg. unfold reload, surface, mbind, M_bind. cbn. rewrite Hg. cbn.
  set (m := Loader.addToNextGet _ _ _ _ _).
  destruct (guarded_total "Loader_addToNextGet" (Loader.addToNextGet_body (keys_opt (gs_series s)) 500
    (sample_limit w) g (keys_opt (gs_series s))) w) as [[] Hr].
  exists (exec m w). split; [|apply addToNextGet_grid].
  unfold exec. unfold result in Hr. rewrite (surjective_pairing (m w)). f_equal. exact Hr.
Qed.

(** ** Toggling a series *)

Definition toggle (o : list (jsstr * unit)) (path : jsstr) : list (jsstr * unit) :=
  if obj_truthy o path then if 1 <? Z.of_nat (length (keys o)) then obj_delete o path else o
  else obj_set o path ().

Lemma alter_id_at {A} (l : list A) i x f : l !! i = Some x -> f x = x -> alter f i l = l.
Proof.
  intros Hi Hf. transitivity (alter id i l); [|by apply list_alter_id].
  apply list_alter_ext; [|done]. intros y Hy. cbn. congruence.
Qed.

Lemma set_series_id s o : gs_series s = Some o -> set_series (Some o) s = s.
Proof. intros H. unfold set_series. rewrite <- H. by destruct s. Qed.

(** [toggleSeries] applies [toggle] to the surface, and nothing else of the grid. *)
Lemma toggleSeries_spec g path s o w :
  w_graphs w !! g = Some s -> gs_series s = Some o ->
  let w' := exec (toggleSeries g path) w in
  w_grid w' = w_grid w /\ w_graphs w' = alter (set_series (Some (toggle o path))) g (w_graphs w).
Proof.
  intros Hg Ho w'.
  set (w1 := set_graphs (alter (set_series (Some (toggle o path))) g) w).
  assert (Hg1 : w_graphs w1 !! g = Some (set_series (Some (toggle o path)) s)).
  { cbn. by rewrite list_lookup_alter_eq, Hg. }
  destruct (reload_grid g _ w1 Hg1) as (w2 & Hr & [E1 E2]).
  unfold w', toggleSeries. set (body := (_ ≫= _ : M unit)).
  assert (body w = (w2, Ok ()) \/ (body w = reload g w /\ w_graphs w1 = w_graphs w)) as Hb.
  { unfold body, toggle in *. unfold surface, mbind, M_bind. cbn. rewrite Hg. cbn. rewrite Ho.
    unfold toggle in w1, Hr. destruct (obj_truthy o path); cbn; [destruct (1 <? _); cbn|].
    - left. exact Hr.
    - right. split; [done|]. cbn. by eapply alter_id_at, set_series_id.
    - left. exact Hr. }
  destruct Hb as [Hb|[Hb E]].
  - pose proof (guarded_grid "GraphSurface_toggleSeries" body w w2 _ Hb) as [G1 G2].
    rewrite G1, G2, E1, E2. done.
  - destruct (reload_grid g s w Hg) as (w3 & Hr3 & [F1 F2]). rewrite Hr3 in Hb.
    pose proof (guarded_grid "GraphSurface_toggleSeries" body w w3 _ Hb) as [G1 G2].
    rewrite G1, G2, F1, F2. split; [done|]. symmetry. exact E.
Qed.

Lemma toggle_wf o path :
  obj_wf o -> Forall (fun k => ~ inherited k) o.*1 ->
  obj_wf (toggle o path) /\ Forall (fun k => ~ inherited k) (toggle o path).*1.
Proof.
  intros Hw Hi. unfold toggle, obj_truthy. destruct (_ || _) eqn:E; [destruct (1 <? _)|].
  - split; [by apply obj_delete_wf|]. rewrite obj_delete_names. rewrite Forall_forall in *.
    intros k [_ Hk]%list_elem_of_filter. auto.
  - done.
  - apply orb_false_iff in E as [_ E]. zprop. split; [by apply obj_set_wf|].
    rewrite obj_set_names. destruct (decide _); [done|]. apply Forall_app; split; [done|].
    by apply Forall_singleton.
Qed.

(** The last series is never removed. *)
Lemma toggle_nonempty o path : obj_wf o -> o <> [] -> toggle o path <> [].
Proof.
  intros Hw Ho. unfold toggle. destruct (obj_truthy o path); [destruct (Z.ltb_spec 1 (Z.of_nat (length (keys o)))) as [Hl|]|].
  - (* one of two distinct names stays *)
    unfold keys in Hl. rewrite obj_keys_length in Hl. unfold obj_wf in Hw.
    destruct o as [|[k1 []] [|[k2 []] o]]; cbn in Hl; try lia.
    cbn in Hw. apply NoDup_cons in Hw as [Hk _]. apply not_elem_of_cons in Hk as [Hne _].
    intros E. assert (Hn : (obj_delete ((k1, ()) :: (k2, ()) :: o) path).*1 = []) by (by rewrite E).
    rewrite obj_delete_names in Hn. cbn [fmap list_fmap fst] in Hn.
    rewrite !filter_cons in Hn. destruct (decide (k1 <> path)), (decide (k2 <> path)) as [|Hn2]; try done.
    apply Hne. destruct (decide (k1 = path)), (decide (k2 = path)); congruence || tauto.
  - done.
  - intros E. assert (Hk : path ∈ (obj_set o path ()).*1) by
      (rewrite obj_set_names; destruct (decide _); [done|apply elem_of_app; right; left]).
    rewrite E in Hk. by apply not_elem_of_nil in Hk.
Qed.

(** Toggling a name that is not there twice gives the object back. *)
Lemma toggle_toggle_new o path :
  o <> [] -> path ∉ o.*1 -> ~ inherited path -> toggle (toggle o path) path = o.
Proof.
  intros Ho Hp Hi. unfold toggle at 2. unfold obj_truthy.
  rewrite (bool_decide_false (obj_get o path <> None)) by (rewrite obj_get_None; tauto).
  rewrite (bool_decide_false (inherited path)) by done. cbn [orb].
  unfold toggle, obj_truthy. rewrite obj_get_set, bool_decide_true by done. cbn [orb].
  unfold keys. rewrite obj_keys_length, obj_set_new, length_app by done.
  destruct o as [|p o]; [done|]. rewrite (proj2 (Z.ltb_lt _ _)) by (cbn; lia).
  by apply obj_delete_app_new.
Qed.

(** Toggling a name that is there twice keeps the set of names. *)
Lemma toggle_toggle_old o path :
  obj_wf o -> path ∈ o.*1 -> ~ inherited path -> (toggle (toggle o path) path).*1 ≡ₚ o.*1.
Proof.
  intros Hw Hp Hi. unfold toggle at 2. unfold obj_truthy.
  rewrite (bool_decide_true (obj_get o path <> None)) by (rewrite obj_get_None; tauto). cbn [orb].
  destruct (Z.ltb_spec 1 (Z.of_nat (length (keys o)))) as [Hl|Hl]; unfold toggle, obj_truthy.
  - rewrite obj_get_delete, (bool_decide_false (inherited path)) by done.
    rewrite (bool_decide_false (None <> None)) by (intros Hn; by apply Hn). cbn [orb].
    rewrite obj_set_names, decide_False by (by rewrite <- obj_get_None, obj_get_delete).
    rewrite obj_delete_names. rewrite <- Permutation_cons_append.
    clear -Hw Hp. unfold obj_wf in Hw. induction (o.*1) as [|k l IH]; [by apply not_elem_of_nil in Hp|].
    apply NoDup_cons in Hw as [Hk Hw]. rewrite filter_cons. destruct (decide (k <> path)) as [Hne|Hne].
    + apply elem_of_cons in Hp as [->|Hp]; [done|]. rewrite Permutation_swap, IH by done. done.
    + assert (k = path) as -> by (destruct (decide (k = path)); tauto).
      rewrite filter_id; [done|]. apply Forall_forall. intros x Hx ->. done.
  - rewrite (bool_decide_true (obj_get o path <> None)) by (rewrite obj_get_None; tauto). cbn [orb].
    by rewrite (proj2 (Z.ltb_ge _ _)) by done.
Qed.

(** ** Closing *)

Definition closed (s : GraphSurface) : GraphSurface := set_series None (set_dygraph false s).

Lemma destroyDygraph_spec g s w :
  w_graphs w !! g = Some s ->
  exists w', destroyDygraph g w = (w', Ok ()) /\ w_graphs w' = alter (set_dygraph false) g (w_graphs w) /\
    w_grid w' = w_grid w /\ w_time w' = w_time w /\ w_loader w' = w_loader w.
Proof.
  intros Hg. unfold destroyDygraph, surface, mbind, M_bind. cbn. rewrite Hg. cbn.
  destruct (gs_dygraph s) eqn:E; eexists; (split; [reflexivity|]); [done|]. cbn. split_and!; try done.
  symmetry. eapply alter_id_at; [done|]. unfold set_dygraph. rewrite <- E. by destruct s.
Qed.

Lemma remove_spec g w :
  exists w', remove g w = (w', Ok ()) /\ w_graphs w' = w_graphs w /\ w_loader w' = w_loader w /\
    gg_allGraphs (w_grid w') = arrayRemove (gg_allGraphs (w_grid w)) g /\
    gg_selected (w_grid w') = (if decide (gg_selected (w_grid w) = Some g) then None else gg_selected (w_grid w)) /\
    w_time w' = match arrayRemove (gg_allGraphs (w_grid w)) g with
                | [] => set_current (theOriginalDates (w_time w)) (w_time w)
                | _ => w_time w
                end.
Proof.
  unfold remove, mbind, M_bind. cbn. destruct (decide (gg_selected (w_grid w) = Some g)); cbn;
    destruct (arrayRemove _ g) eqn:E; cbn; rewrite ?E; eexists; (split; [reflexivity|]); cbn; done.
Qed.

Lemma close_spec g s w :
  w_graphs w !! g = Some s ->
  let w' := exec (close g) w in
  result (close g) w = Ok () /\
  w_graphs w' = alter closed g (w_graphs w) /\ w_loader w' = w_loader w /\
  gg_allGraphs (w_grid w') = arrayRemove (gg_allGraphs (w_grid w)) g /\
  gg_selected (w_grid w') = (if decide (gg_selected (w_grid w) = Some g) then None else gg_selected (w_grid w)) /\
  w_time w' = match arrayRemove (gg_allGraphs (w_grid w)) g with
              | [] => set_current (theOriginalDates (w_time w)) (w_time w)
              | _ => w_time w
              end.
Proof.
  intros Hg. destruct (destroyDygraph_spec g s w Hg) as (w1 & H1 & E1 & E2 & E3 & E4).
  set (w2 := exec (update g (set_series None);; dom "graph" "remove" [ANum (Z.of_nat g)]) w1).
  destruct (remove_spec g w2) as (w3 & H3 & F1 & F2 & F3 & F4 & F5).
  assert (Hb : (destroyDygraph g;; update g (set_series None);; dom "graph" "remove" [ANum (Z.of_nat g)];;
    remove g) w = (w3, Ok ())).
  { rewrite (bind_Ok _ _ _ _ _ H1). exact H3. }
  unfold close, exec, result. rewrite (guarded_Ok _ _ _ _ Hb). cbn.
  rewrite F1, F2, F3, F4, F5. unfold w2, exec, mbind, M_bind. cbn.
  rewrite E1, E2, E3, E4, list_alter_alter_eq. done.
Qed.

(** Closing every graph of the grid, as [clear] does from a copy of the array. *)
Lemma close_all_spec l w :
  gg_allGraphs (w_grid w) = l -> gg_selected (w_grid w) = None ->
  Forall (fun g => g < length (w_graphs w))%nat l ->
  let w' := exec (for_each l close) w in
  result (for_each l close) w = Ok () /\
  gg_allGraphs (w_grid w') = [] /\ gg_selected (w_grid w') = None /\ w_loader w' = w_loader w /\
  w_graphs w' = foldr (alter closed) (w_graphs w) (rev l) /\
  w_time w' = match l with [] => w_time w | _ => set_current (theOriginalDates (w_time w)) (w_time w) end.
Proof.
  revert w; induction l as [|g l IH]; intros w Hl Hs Hv; [done|].
  apply Forall_cons in Hv as [Hg Hv]. apply lookup_lt_is_Some in Hg as [s Hg].
  destruct (close_spec g s w Hg) as (Hr & E1 & E2 & E3 & E4 & E5).
  rewrite Hl in E3, E5. cbn in E3, E5. rewrite decide_True in E3, E5 by done.
  rewrite Hs in E4. destruct (decide (None = Some g)); [done|].
  set (w1 := exec (close g) w) in *.
  assert (Hb : close g w = (w1, Ok ())) by
    (unfold w1, exec; rewrite (surjective_pairing (close g w)); f_equal; exact Hr).
  destruct (IH w1 E3 E4) as (IHr & I1 & I2 & I3 & I4 & I5).
  { rewrite E1. eapply Forall_impl; [exact Hv|]. intros x. by rewrite length_alter. }
  cbn [for_each]. unfold exec, result in *. rewrite (bind_Ok _ _ _ _ _ Hb).
  split; [done|]. rewrite I1, I2, I3, I4, I5, E1, E2, E5. split_and!; try done.
  - cbn [rev]. by rewrite foldr_app.
  - destruct l; done.
Qed.

Lemma clear_spec w :
  Forall (fun g => g < length (w_graphs w))%nat (gg_allGraphs (w_grid w)) ->
  let w' := exec clear w in
  result clear w = Ok () /\
  gg_allGraphs (w_grid w') = [] /\ gg_selected (w_grid w') = None /\ w_loader w' = w_loader w /\
  w_graphs w' = foldr (alter closed) (w_graphs w) (rev (gg_allGraphs (w_grid w))) /\
  w_time w' = match gg_allGraphs (w_grid w) with
              | [] => w_time w
              | _ => set_current (theOriginalDates (w_time w)) (w_time w)
              end.
Proof.
  intros Hv. exact (close_all_spec (gg_allGraphs (w_grid w)) (set_grid (set_selected None) w) eq_refl eq_refl Hv).
Qed.

(** A surface of the list is closed, the others are untouched. *)
Lemma foldr_alter_closed (l : list nat) (gs : list GraphSurface) (i : nat) :
  foldr (alter closed) gs l !! i = if decide (i ∈ l) then closed <$> gs !! i else gs !! i.
Proof.
  induction l as [|g l IH]; cbn [foldr]; [done|].
  destruct (decide (g = i)) as [->|Hne].
  - rewrite list_lookup_alter_eq, IH, (decide_True (P := i ∈ i :: l)) by left.
    destruct (decide (i ∈ l)); [|done]. by destruct (gs !! i).
  - rewrite list_lookup_alter_ne, IH by done. destruct (decide (i ∈ l)).
    + by rewrite decide_True by (by right).
    + rewrite decide_False; [done|]. rewrite elem_of_cons. naive_solver.
Qed.

(** ** Every operation keeps [grid_ok] *)

Lemma grid_ok_toggle g path w :
  grid_ok w -> g ∈ gg_allGraphs (w_grid w) -> grid_ok (exec (toggleSeries g path) w).
Proof.
  intros [H1 H2 H3 H4] Hin. rewrite Forall_forall in H2.
  destruct (lookup_lt_is_Some_2 (w_graphs w) g (H2 g Hin)) as [s Hg].
  destruct (H4 g s Hin Hg) as (o & Ho & Hw & Hi).
  destruct (toggleSeries_spec g path s o w Hg Ho) as [E1 E2].
  constructor; rewrite ?E1, ?E2; try done.
  - apply Forall_forall. intros x Hx. rewrite length_alter. auto.
  - intros g' s' Hin'. destruct (decide (g = g')) as [<-|Hne].
    + rewrite list_lookup_alter_eq, Hg. intros [= <-]. cbn. eexists. split; [done|].
      by apply toggle_wf.
    + rewrite list_lookup_alter_ne by done. by apply H4.
Qed.

Lemma grid_ok_close g w :
  grid_ok w -> g ∈ gg_allGraphs (w_grid w) -> grid_ok (exec (close g) w).
Proof.
  intros [H1 H2 H3 H4] Hin. rewrite Forall_forall in H2.
  destruct (lookup_lt_is_Some_2 (w_graphs w) g (H2 g Hin)) as [s Hg].
  destruct (close_spec g s w Hg) as (_ & E1 & _ & E3 & E4 & _).
  destruct (arrayRemove_NoDup (gg_allGraphs (w_grid w)) g H1) as (R1 & R2 & R3).
  constructor; rewrite ?E1, ?E3, ?E4; try done.
  - apply Forall_forall. intros x Hx. rewrite length_alter. eauto using elem_of_arrayRemove.
  - destruct (decide _); [done|]. destruct (gg_selected (w_grid w)) as [g'|]; [|done].
    apply R3; [congruence|done].
  - intros g' s' Hin' Hs'. assert (g <> g') by congruence.
    rewrite list_lookup_alter_ne in Hs' by done. eauto using elem_of_arrayRemove.
Qed.

Lemma newGraph_spec w :
  exists w', newGraph w = (w', Ok (Some (length (w_graphs w)))) /\
    w_graphs w' = w_graphs w ++ [mkGraph (Some []) [] false customBars] /\
    w_grid w' = set_allGraphs (gg_allGraphs (w_grid w) ++ [length (w_graphs w)]) (w_grid w) /\
    w_time w' = w_time w /\ w_loader w' = w_loader w.
Proof. eexists. split; [reflexivity|]. done. Qed.

Lemma grid_ok_newGraph w : grid_ok w -> grid_ok (exec newGraph w).
Proof.
  intros [H1 H2 H3 H4]. destruct (newGraph_spec w) as (w' & E & E1 & E2 & _).
  unfold exec. rewrite E. cbn [fst]. constructor; rewrite E2; cbn [gg_allGraphs gg_selected set_allGraphs].
  - apply NoDup_app; split_and!; [done| |apply NoDup_singleton].
    intros x Hx ->%list_elem_of_singleton. rewrite Forall_forall in H2. specialize (H2 _ Hx). cbn in H2. lia.
  - rewrite E1, length_app. apply Forall_app; split; [eapply Forall_impl; [exact H2|]; cbn; lia|].
    apply Forall_singleton. cbn. lia.
  - destruct (gg_selected (w_grid w)); [|done]. apply elem_of_app. by left.
  - rewrite E1. intros g s Hin Hs. apply lookup_app_Some in Hs as [Hs|[Hge Hs]].
    + apply elem_of_app in Hin as [Hin| ->%list_elem_of_singleton]; [eauto|].
      apply lookup_lt_Some in Hs. lia.
    + apply list_lookup_singleton_Some in Hs as [_ <-]. exists []. cbn. split_and!; [done|constructor|constructor].
Qed.

Lemma grid_ok_select g w :
  grid_ok w -> match g with Some g => g ∈ gg_allGraphs (w_grid w) | None => True end ->
  grid_ok (exec (select g) w).
Proof.
  intros [H1 H2 H3 H4] Hg.
  assert (exists w', select g w = (w', Ok ()) /\ w_graphs w' = w_graphs w /\
    w_grid w' = set_selected g (w_grid w)) as (w' & E & E1 & E2).
  { destruct g; eexists; (split; [reflexivity|]); done. }
  unfold exec. rewrite E. cbn [fst]. constructor; rewrite ?E1, E2; done.
Qed.

Lemma grid_ok_clear w : grid_ok w -> grid_ok (exec clear w).
Proof.
  intros [H1 H2 H3 H4]. destruct (clear_spec w H2) as (_ & E1 & E2 & _ & E4 & _).
  constructor; rewrite ?E1, ?E2; [constructor|constructor|done|].
  intros g s Hin. by apply not_elem_of_nil in Hin.
Qed.

(** ** Graph surfaces consume the loader's answers *)

Lemma renderData_exec g sk d w :
  exists w', renderData g sk d w = (w', Ok ()) /\ w_loader w' = w_loader w /\
    loader_timers w' = loader_timers w /\ sy_xhrs (w_sys w') = sy_xhrs (w_sys w) /\
    (sy_next_timer (w_sys w) <= sy_next_timer (w_sys w'))%nat /\
    sy_next_xhr (w_sys w') = sy_next_xhr (w_sys w) /\ (timers_fresh w -> timers_fresh w') /\
    w_time w' = w_time w /\ w_grid w' = w_grid w /\ sy_log (w_sys w') = sy_log (w_sys w).
Proof.
  destruct sk as [|k sk]; [by exists w|]. eexists. split; [reflexivity|]. cbn. split_and!; try done.
  - pose proof (Loader.setTimeout_timers (TPaintVisible g) 1 (exec (update g
      (set_lastRenderData (render_data (k :: sk) d))) w)) as Ht.
    rewrite app_nil_r in Ht. exact Ht.
  - lia.
  - intros Hf. exact (Loader.setTimeout_fresh (TPaintVisible g) 1 (exec (update g
      (set_lastRenderData (render_data (k :: sk) d))) w) Hf).
Qed.

Lemma on_data_exec c d w :
  exists w', on_data c d w = (w', Ok ()) /\ w_loader w' = w_loader w /\
    loader_timers w' = loader_timers w /\ sy_xhrs (w_sys w') = sy_xhrs (w_sys w) /\
    (sy_next_timer (w_sys w) <= sy_next_timer (w_sys w'))%nat /\
    sy_next_xhr (w_sys w') = sy_next_xhr (w_sys w) /\ (timers_fresh w -> timers_fresh w') /\
    w_time w' = w_time w /\ called w' = called w ++ [(c, d)].
Proof.
  destruct (renderData_exec (cb_graph c) (cb_seriesKeys c) d (exec (emit (ECallback c d)) w))
    as (w' & E & H1 & H2 & H3 & H4 & H5 & H6 & H7 & _ & H8).
  exists w'. split; [exact E|]. split_and!; try done. unfold called.
  rewrite H8. change (omap call_of (sy_log (w_sys w) ++ [ECallback c d]) = omap call_of (sy_log (w_sys w)) ++ omap call_of [ECallback c d]).
  apply omap_app.
Qed.

(** ** Any sequence of operations keeps the grid's invariant *)

(** Operations on a surface that is not on the grid, such as a closed one, leave
    the grid and the surfaces on it alone. *)
Lemma toggleSeries_off_grid g path w :
  (forall s o, w_graphs w !! g = Some s -> gs_series s <> Some o) ->
  same_grid w (exec (toggleSeries g path) w).
Proof.
  intros Hs. unfold toggleSeries. eapply guarded_grid. unfold surface, mbind, M_bind. cbn.
  destruct (w_graphs w !! g) as [s|] eqn:E; cbn; [|done].
  destruct (gs_series s) as [o|] eqn:Eo; [|done]. exfalso. by eapply Hs.
Qed.

Lemma grid_ok_alter g f w w' :
  grid_ok w -> g ∉ gg_allGraphs (w_grid w) -> w_grid w' = w_grid w -> w_graphs w' = alter f g (w_graphs w) -> grid_ok w'.
Proof.
  intros [H1 H2 H3 H4] Hg E1 E2. constructor; rewrite ?E1, ?E2; try done.
  - eapply Forall_impl; [exact H2|]. intros x. by rewrite length_alter.
  - intros g' s Hin Hs. assert (g <> g') by congruence. rewrite list_lookup_alter_ne in Hs by done. eauto.
Qed.

Lemma grid_ok_toggle_any g path w : grid_ok w -> grid_ok (exec (toggleSeries g path) w).
Proof.
  intros Hw. destruct (decide (g ∈ gg_allGraphs (w_grid w))) as [|Hg]; [by apply grid_ok_toggle|].
  destruct (w_graphs w !! g) as [s|] eqn:Hs.
  - destruct (gs_series s) as [o|] eqn:Ho.
    + destruct (toggleSeries_spec g path s o w Hs Ho) as [E1 E2]. by eapply grid_ok_alter.
    + eapply grid_ok_same; [|done]. apply toggleSeries_off_grid. intros s' o' E. congruence.
  - eapply grid_ok_same; [|done]. apply toggleSeries_off_grid. intros s' o' E. congruence.
Qed.

Lemma arrayRemove_notin {A} `{EqDecision A} (l : list A) e : e ∉ l -> arrayRemove l e = l.
Proof.
  induction l as [|x l IH]; [done|]. intros [Hx Hl]%not_elem_of_cons. cbn.
  rewrite decide_False by congruence. by rewrite IH.
Qed.

Lemma grid_ok_close_any g w : grid_ok w -> grid_ok (exec (close g) w).
Proof.
  intros Hw. destruct (decide (g ∈ gg_allGraphs (w_grid w))) as [|Hg]; [by apply grid_ok_close|].
  destruct (w_graphs w !! g) as [s|] eqn:Hs.
  - destruct (close_spec g s w Hs) as (_ & E1 & _ & E3 & E4 & _).
    apply (grid_ok_alter g closed w); [done|done| |done].
    rewrite arrayRemove_notin in E3 by done. destruct (w_grid (exec (close g) w)) as [l sel], (w_grid w) as [l0 sel0] eqn:Eg.
    cbn in *. subst. f_equal. rewrite decide_False; [done|]. intros ->.
    pose proof (go_selected w Hw) as H3. rewrite Eg in H3. done.
  - eapply grid_ok_same; [|done]. unfold close. eapply guarded_grid.
    unfold destroyDygraph, surface, mbind, M_bind. cbn. by rewrite Hs.
Qed.

Inductive grid_op :=
  | GNew | GToggle (g : nat) (path : jsstr) | GClose (g : nat) | GClear
  | GSelect (g : nat)     (** a click on a surface of the grid *)
  | GUnselect.            (** a click on the grid *)

Definition grid_step (w : World) (o : grid_op) : World :=
  match o with
  | GNew => exec newGraph w
  | GToggle g path => exec (toggleSeries g path) w
  | GClose g => exec (close g) w
  | GClear => exec clear w
  | GSelect g => if bool_decide (g ∈ gg_allGraphs (w_grid w)) then exec (surface_click g) w else w
  | GUnselect => exec grid_click w
  end.

Lemma surface_click_exec g w : exec (surface_click g) w = exec (select (Some g)) w.
Proof. unfold surface_click, exec. by rewrite (guarded_Ok _ _ _ _ (eta (select (Some g)) w () eq_refl)). Qed.

Lemma grid_ok_step w o : grid_ok w -> grid_ok (grid_step w o).
Proof.
  intros Hw. destruct o as [|g path|g| |g|]; cbn [grid_step];
    auto using grid_ok_newGraph, grid_ok_toggle_any, grid_ok_close_any, grid_ok_clear.
  - destruct (bool_decide_reflect (g ∈ gg_allGraphs (w_grid w))); [|done].
    rewrite surface_click_exec. by apply grid_ok_select.
  - destruct Hw as [H1 H2 H3 H4]. by constructor.
Qed.

(** C15: through any sequence of creating, toggling, closing, selecting and clearing graphs,
    including operations on graphs already closed, the grid's array holds distinct surfaces of
    the store, the selected graph is one of them or none, and every graph on the grid has a
    series object with distinct names, none inherited from [Object.prototype]. *)
Theorem grid_invariant ops w : grid_ok w -> grid_ok (foldl grid_step w ops).
Proof. revert w; induction ops as [|o ops IH]; intros w Hw; [done|]. apply IH. by apply grid_ok_step. Qed.

(** C21: toggling a series never empties a graph that shows something; a name that is new to
    the graph is added, and toggling it again restores the graph; nothing else on the grid changes. *)
Theorem toggle_keeps_a_series g path s o w :
  w_graphs w !! g = Some s -> gs_series s = Some o -> obj_wf o -> o <> [] ->
  let w1 := exec (toggleSeries g path) w in
  let w2 := exec (toggleSeries g path) w1 in
  (exists o', w_graphs w1 = alter (set_series (Some o')) g (w_graphs w) /\ o' <> []) /\
  w_grid w1 = w_grid w /\
  (path ∉ o.*1 -> ~ inherited path ->
   w_graphs w1 = alter (set_series (Some (o ++ [(path, ())]))) g (w_graphs w) /\ w_graphs w2 = w_graphs w).
Proof.
  intros Hg Ho Hw Hne w1 w2. destruct (toggleSeries_spec g path s o w Hg Ho) as [E1 E2].
  split; [|split; [done|]].
  - exists (toggle o path). split; [exact E2|]. by apply toggle_nonempty.
  - intros Hp Hi. assert (Ht : toggle o path = o ++ [(path, ())]).
    { unfold toggle, obj_truthy. rewrite (bool_decide_false (obj_get o path <> None)) by (rewrite obj_get_None; tauto).
      rewrite (bool_decide_false (inherited path)) by done. cbn. by apply obj_set_new. }
    split; [by unfold w1; rewrite E2, Ht|].
    assert (Hg1 : w_graphs w1 !! g = Some (set_series (Some (toggle o path)) s))
      by (unfold w1; by rewrite E2, list_lookup_alter_eq, Hg).
    destruct (toggleSeries_spec g path _ (toggle o path) w1 Hg1 eq_refl) as [_ E3].
    unfold w2. rewrite E3. unfold w1. rewrite E2, list_alter_alter_eq, toggle_toggle_new by done.
    eapply alter_id_at; [exact Hg|]. change (set_series (Some o) s = s). by apply set_series_id.
Qed.

(** Clearing the grid closes every graph on it: none is left or selected, each one's
    series is gone and its chart destroyed, other surfaces are untouched, requests already made
    stay with the loader, and the original time range is restored. *)
Theorem clear_closes_all w :
  grid_ok w ->
  let w' := exec clear w in
  result clear w = Ok () /\ gg_allGraphs (w_grid w') = [] /\ gg_selected (w_grid w') = None /\
  w_loader w' = w_loader w /\
  (forall g, w_graphs w' !! g = if decide (g ∈ gg_allGraphs (w_grid w)) then closed <$> w_graphs w !! g
                                else w_graphs w !! g) /\
  (gg_allGraphs (w_grid w) <> [] -> theCurrentDates (w_time w') = theOriginalDates (w_time w')).
Proof.
  intros [_ H2 _ _] w'. destruct (clear_spec w H2) as (Hr & E1 & E2 & E3 & E4 & E5).
  split_and!; try done.
  - intros g. unfold w'. rewrite E4, foldr_alter_closed.
    assert (Hrev : g ∈ rev (gg_allGraphs (w_grid w)) <-> g ∈ gg_allGraphs (w_grid w))
      by (rewrite !list_elem_of_In; symmetry; apply in_rev).
    destruct (decide (g ∈ rev _)), (decide (g ∈ gg_allGraphs _)); tauto || done.
  - intros Hne. unfold w'. rewrite E5. by destruct (gg_allGraphs (w_grid w)).
Qed.

(** The reload interval is the smallest of 5, 10, 15, 20, 30 and 60 seconds that gives at
    most 500 reloads over the shown range, and two minutes when none does or a date is invalid. *)
Theorem reload_interval_is_least w :
  let d := date_sub (dt_stop (theCurrentDates (w_time w))) (dt_start (theCurrentDates (w_time w))) in
  let r := theReloadInterval (w_time (exec calcReloadInterval w)) in
  (r ∈ points \/ r = 120) /\
  match d with
  | Some ms => Forall (fun p => p < r -> p * 500 * 1000 < ms) points /\ (r <> 120 -> ms <= r * 500 * 1000)
  | None => r = 120
  end.
Proof.
  cbn. set (d := date_sub _ _). clearbody d. destruct d as [ms|]; cbn [fmap option_fmap option_map]; [|by split; [right|]].
  set (q := reload_ival ms).
  assert (Hq : forall p, q <= p <-> ms <= p * 500 * 1000).
  { intros p. unfold q, reload_ival. pose proof (Z.div_mod (- ms) 500000 ltac:(lia)).
    pose proof (Z.mod_pos_bound (- ms) 500000 ltac:(lia)). lia. }
  unfold points. cbn [first_point].
  repeat match goal with |- context [q <=? ?p] => destruct (Z.leb_spec q p) end;
    (split; [first [by right | left; unfold points; rewrite !elem_of_cons; tauto]|]);
    (split; [repeat constructor; intros Hlt; apply Z.nle_gt; rewrite <- Hq|intros Hr; apply Hq]); lia.
Qed.

(** ** What the operations change *)

Section preserves.
Context (P : World -> Prop) `{!Stable P set_io} `{!Stable P set_ui}.

Section graphs.
Context `{!Stable P set_graphs}.
Lemma pres_update g f : preserves P (update g f).
Proof. unfold update. pres. Qed.
Lemma pres_surface g : preserves P (surface g).
Proof. clear. unfold surface. pres. Qed.
Hint Resolve pres_update pres_surface : pres.
Lemma pres_destroyDygraph g : preserves P (destroyDygraph g).
Proof. unfold destroyDygraph. pres. Qed.
Lemma pres_renderData g sk d : preserves P (renderData g sk d).
Proof. unfold renderData. pres. Qed.
Lemma pres_on_data c d : preserves P (on_data c d).
Proof. unfold on_data, renderData. pres. Qed.
End graphs.
Hint Resolve pres_update pres_surface pres_destroyDygraph : pres.

Lemma pres_repaintAll : preserves P repaintAll.
Proof.
  unfold repaintAll. pres. generalize 1 as v. induction a as [|g gs IH]; intros v; cbn [repaint_from]; pres.
Qed.

Section loader.
Context `{!Stable P set_loader}.
Lemma pres_reload g : preserves P (reload g).
Proof. unfold reload. presg. Qed.
Hint Resolve pres_reload : pres.
Lemma pres_reloadAll : preserves P reloadAll.
Proof. unfold reloadAll. pres. Qed.
Lemma pres_toggleSeries `{!Stable P set_graphs} g path : preserves P (toggleSeries g path).
Proof. unfold toggleSeries. presg. Qed.
End loader.

Section grid.
Context `{!Stable P set_grid}.
Lemma pres_select g : preserves P (select g).
Proof. unfold select. presg. Qed.
Lemma pres_newGraph `{!Stable P set_graphs} : preserves P newGraph.
Proof. unfold newGraph, new_GraphSurface, add. presg. Qed.
Lemma pres_remove `{!Stable P set_time} g : preserves P (remove g).
Proof. unfold remove, restoreOriginalInterval. presg. Qed.
Hint Resolve pres_remove : pres.
Lemma pres_close `{!Stable P set_time} `{!Stable P set_graphs} g : preserves P (close g).
Proof. unfold close. presg. Qed.
Hint Resolve pres_close : pres.
Lemma pres_clear `{!Stable P set_time} `{!Stable P set_graphs} : preserves P clear.
Proof. unfold clear. presg. Qed.
End grid.

Lemma pres_calcReloadInterval `{!Stable P set_time} : preserves P calcReloadInterval.
Proof. unfold calcReloadInterval. pres. Qed.
Lemma pres_restoreOriginalInterval `{!Stable P set_time} : preserves P restoreOriginalInterval.
Proof. unfold restoreOriginalInterval. pres. Qed.

End preserves.

#[export] Hint Resolve pres_update pres_surface pres_destroyDygraph pres_renderData pres_on_data pres_repaintAll pres_reload
  pres_reloadAll pres_toggleSeries pres_select pres_newGraph pres_remove pres_close pres_clear
  pres_calcReloadInterval pres_restoreOriginalInterval : pres.

End Grid.

Local Ltac by_on_data :=
  intros c d w; unfold exec, result;
  destruct (Grid.on_data_exec c d w)
    as (w' & -> & ? & ? & ? & ? & ? & ? & ? & ?); cbn; eauto.

#[global] Program Instance surface_client : LoaderClient := {|
  deliver c d := Grid.on_data c d |}.
Solve All Obligations with by_on_data.
