(* ===== verification/TimeRange.v ===== *)
(** * Time range, refresh, slider, sizes and layout

    The handlers of [files/graph.js] that choose what the graphs show: the
    refresh (by hand and by timer), the time slider of [index.html], zooming,
    the graph sizes, and the layout of the page. *)

From S2P Require Import Prelude JsString JsObject JsNumber Json World Shell Loader Grid.
From Stdlib Require Import SpecFloat.
Import Shell Interval Grid.

Local Open Scope Z_scope.

Module TimeRange.

(** ** The globals before [on_ready] *)

Definition tmpDate (now : Z) : Z := now - 10 * 1000.
Definition initial_dates (now : Z) : Dates := mkDates (Some (tmpDate now - 3600 * 1000)) (Some (tmpDate now)).

(** The tabs and the empty dropdowns of the page. *)
Definition page_tabs : list Tab := [mkTab (js "counters") true None; mkTab (js "dashboards") false None].
Definition no_dropdown : Dropdown := mkDropdown None None false.

(** The page as the script leaves it once loaded at time [now]; [page] and the
    gauge's width are the browser's. *)
Definition globals (now gauge : Z) (page : Page) : World :=
  mkWorld (mkSys now (pg_document_hidden page) [] [] 0 [] 0 [])
    (mkUi 0 0 [] [] None)
    (mkTime (initial_dates now) (initial_dates now) 10000 (Some (JBool false)) None (mkSlider false INull false gauge))
    (mkGrid [] None) [] Loader.init (mkSize 600 240) None None (mkDash None [] [] (Some [])) page
    (mkLogin [] 0 [] [] (js "Username") [])
    (mkViews page_tabs no_dropdown no_dropdown no_dropdown true).

(** ** Field updates *)

Definition set_auto (r : option json) (tm : option nat) (t : TimeState) : TimeState :=
  mkTime (theOriginalDates t) (theCurrentDates t) (theReloadInterval t) r tm (theTimeSlider t).
Definition set_slider (s : TimeSlider) (t : TimeState) : TimeState :=
  mkTime (theOriginalDates t) (theCurrentDates t) (theReloadInterval t) (isAutoRefresh t) (autoRefreshTimer t) s.

(** ** Refreshing *)

Definition refresh_body : M unit :=
  end_ ← begin;
  date ← getAdjustedNow;
  t ← get w_time;
  let cur := theCurrentDates t in
  let orig := theOriginalDates t in
  let delta := date_sub (dt_stop cur) (dt_start cur) in
  (if num_eqb delta (date_sub (dt_stop orig) (dt_start orig)) then
     modify (set_time (set_current (mkDates ((fun d => date - d) <$> delta) (Some date))))
   else mret ());;
  reloadAll;;
  finish end_.

Definition refresh : M unit :=
  guarded "_refresh" (
    hidden ← pageIsHidden;
    if (hidden : bool) then mret () else refresh_body).

Definition setAutoRefresh (ref : option json) : M unit :=
  t ← get w_time;
  match autoRefreshTimer t with
  | Some id => clearTimeout id;; modify (set_time (set_auto (isAutoRefresh t) None))
  | None => mret ()
  end;;
  modify (set_time (fun t => set_auto ref (autoRefreshTimer t) t));;
  if from_option truthy false ref then
    dom ".tbutton.auto_refresh" "addClass" [AStr (js "toggle")];;
    id ← setTimeout (TRefresh (theReloadInterval t * 1000)) (theReloadInterval t * 1000);
    modify (set_time (set_auto ref (Some id)))
  else dom ".tbutton.auto_refresh" "removeClass" [AStr (js "toggle")].

Definition auto_refresh : M unit :=
  t ← get w_time;
  if from_option truthy false (isAutoRefresh t) then setAutoRefresh (Some (JInt 0))
  else calcReloadInterval;; setAutoRefresh (Some (JBool true)).

Definition fade (opacity : string) : M unit := dom "canvas" "css" [AStr (js "opacity"); AStr (js opacity)].

Definition zoomOutIntervals : M unit :=
  fade "0.5";; restoreOriginalInterval;; calcReloadInterval;; refresh.

(** The [zoomCallback] given to Dygraph: [domain] is the x range stored at the
    last mouse up, [None] when there is none. *)
Definition zoomCallback (minX maxX : Z) (domain : option (Z * Z)) : M unit :=
  if bool_decide (domain = Some (minX, maxX)) then mret ()
  else
    fade "0.5";;
    modify (set_time (set_current (mkDates (Some minX) (Some maxX))));;
    calcReloadInterval;;
    refresh.

Definition set_interval (i : Z) : M unit :=
  modify (set_time (fun t => let stop := dt_stop (theOriginalDates t) in
    set_original (mkDates (date_minus stop (i * 1000)) stop) t));;
  modify (set_maxSamples None);;
  restoreOriginalInterval;;
  calcReloadInterval;;
  refresh.

(** ** The time slider *)

(** The argument of [set_interval] in each marker's [action]. *)
Definition markers : list Z :=
  [5*60; 15*60; 3600; 3*3600; 12*3600; 1*86400; 3*86400; 7*86400; 31*86400; 92*86400; 183*86400;
   366*86400; 731*86400; 1827*86400].
Definition n_markers : Z := Z.of_nat (length markers).

Definition slider : M TimeSlider := get (fun w => theTimeSlider (w_time w)).
Definition put_slider (f : TimeSlider -> TimeSlider) : M unit :=
  modify (set_time (fun t => set_slider (f (theTimeSlider t)) t)).

Definition isManual : M bool := get (fun w => ts_manual (theTimeSlider (w_time w))).
Definition getIndex : M sindex := get (fun w => ts_index (theTimeSlider (w_time w))).

Definition setManual (manual : bool) : M unit :=
  dom "#time_slider" "toggleClass" [AStr (js "manual"); ANum (if manual then 1 else 0)];;
  put_slider (fun s => mkSlider manual (ts_index s) (ts_dragging s) (ts_width s)).

(** [this.width / (this.$markers.length - 1)] *)
Definition snap (s : TimeSlider) : num := ndiv (num_of_Z (ts_width s)) (num_of_Z (n_markers - 1)).

Definition index_arg (i : sindex) : arg :=
  match i with IAt i => ANum i | INaN => AStr (js "NaN") | INull => AStr (js "null") end.

Definition moveThumb (index : sindex) : M unit :=
  dom ".value" "width" [index_arg index];;
  dom ".thumb" "left" [index_arg index];;
  setManual false.

(** [_update]: the marker's action is evaluated when the index changes; [NaN]
    differs from itself and has no marker. *)
Definition update_index (index : sindex) : M unit :=
  s ← slider;
  (if bool_decide (index <> INaN /\ index = ts_index s) then mret ()
   else match index with
        | IAt i => match markers !! Z.to_nat i with Some secs => set_interval secs | None => mret () end
        | _ => mret ()
        end);;
  put_slider (fun s => mkSlider (ts_manual s) index (ts_dragging s) (ts_width s)).

Definition clamp (i : Z) : Z := Z.min (Z.max i 0) (n_markers - 1).

Definition setIndex (index : Z) : M unit :=
  guarded "TimeSlider_setIndex" (
    let index := IAt (clamp index) in
    moveThumb index;; update_index index).

(** [Math.round] of a double: the nearest integer, halves upwards; [None] for
    the infinities and [NaN]. *)
Definition math_round (x : num) : option Z :=
  match x with
  | S754_zero _ => Some 0
  | S754_finite s m e =>
      let n := if s then Zneg m else Zpos m in
      Some (if 0 <=? e then n * 2 ^ e else (2 * n + 2 ^ (- e)) / (2 * 2 ^ (- e)))
  | _ => None
  end.

(** [_calculateIndex(x)], the gauge's left edge at [left]. *)
Definition calculateIndex (s : TimeSlider) (left x : Z) : sindex :=
  let q := ndiv (num_of_Z (x - left)) (snap s) in
  match math_round q with
  | Some i => IAt (clamp i)
  | None => match q with
            | S754_infinity neg => IAt (if neg then 0 else n_markers - 1)
            | _ => INaN
            end
  end.

(** [move], on mouse down and while dragging; the drag ends with the mouse up. *)
Definition slider_move (left x : Z) : M unit :=
  s ← slider;
  moveThumb (calculateIndex s left x);;
  dom "body" "css" [AStr (js "cursor"); AStr (js "pointer")];;
  if ts_dragging s then mret ()
  else put_slider (fun s => mkSlider (ts_manual s) (ts_index s) true (ts_width s)).

Definition slider_mouseup (left x : Z) : M unit :=
  guarded "" (
    dom "body" "css" [AStr (js "cursor"); AStr []];;
    put_slider (fun s => mkSlider (ts_manual s) (ts_index s) false (ts_width s));;
    s ← slider;
    update_index (calculateIndex s left x)).

(** ** A range of dates *)

(** The times [ft] and [tt] that [resetDateRange] computes first: an end before
    1970-01-12 becomes [now]; a start at or after the end, or about five years
    before it, becomes fifteen minutes before the end ([NaN] compares false). *)
Definition corrected_range (now : Z) (dFrom dTo : date) : date * date :=
  let tt := match dTo with Some t => if t <? 1000000000 then Some now else dTo | None => None end in
  let ft := match dFrom, tt with
            | Some f, Some t =>
                if (t <=? f) || (f <? t - 5 * 366 * 25 * 60 * 60 * 1000) then Some (t - 15 * 60 * 1000) else dFrom
            | _, _ => dFrom
            end in
  (ft, tt).

(** [resetDateRange]: the corrected times are computed but not used. *)
Definition resetDateRange (dFrom dTo : date) : M unit :=
  now ← getAdjustedNow;
  let _unused := corrected_range now dFrom dTo in
  setManual true;;
  modify (set_time (set_original (mkDates dFrom dTo)));;
  restoreOriginalInterval;;
  setAutoRefresh (Some (JBool false));;
  calcReloadInterval;;
  reloadAll.

(** ** Layout *)

Definition set_layout (f : Page -> Page) : M unit := modify (set_page f).

Definition documentResize : M unit :=
  guarded "" (
    pg ← get w_page;
    let cw := pg_tabs_width pg + pg_split_width pg in
    let width := sz_width (pg_window pg) - cw - 1 in
    dom "#grid" "css" [AStr (js "absolute"); ANum width; ANum cw];;
    let height := sz_height (pg_window pg) - 5 in
    dom "#lefttab" "height" [ANum height];;
    dom "#lefttab .tab" "height" [ANum height];;
    dom "#lefttab .tab .scroll" "height" [ANum height];;
    dom "#grid" "height" [ANum height];;
    dom "#hsplit" "height" [ANum height];;
    repaintAll).

Definition setGraphSize (sz : Size) : M unit :=
  modify (set_size sz);;
  dom "#grid .graph" "width" [ANum (sz_width sz)];;
  dom "#grid .graphdiv" "css" [ANum (sz_width sz); ANum (sz_height sz)];;
  documentResize.

(** The class [current] of the entries of the size menu: taken from all of them, given to one. *)
Definition on_entries (f : nat -> bool -> bool) (v : Dropdown) : Dropdown :=
  mkDropdown (dv_label v) (imap (fun k e => (e.1, f k e.2)) <$> dv_entries v) (dv_open v).
Definition put_chart_size (f : Dropdown -> Dropdown) : M unit :=
  modify (set_views (fun v => mkViews (vw_tabs v) (vw_logout v) (f (vw_chart_size v)) (vw_advanced v) (vw_save_disabled v))).

Definition unmark_sizes : M unit :=
  dom ".tdropdown.chart_size .tmenuitem" "removeClass" [AStr (js "current")];;
  put_chart_size (on_entries (fun _ _ => false)).
Definition mark_size (i : Z) : M unit :=
  dom ".tmenuitem" "addClass" [AStr (js "current"); ANum i];;
  put_chart_size (on_entries (fun k c => c || (Z.of_nat k =? i))).

(** [graph_size(w, h, $item)]: [item] is the index of the menu item among its
    siblings, [None] without one; an empty selection has index -1. *)
Definition graph_size (w h : Z) (item : option Z) : M unit :=
  unmark_sizes;;
  modify (set_sizeDropdown None);;
  match item with
  | Some i =>
      mark_size i;;
      modify (set_sizeDropdown (Some i))
  | None => mret ()
  end;;
  setGraphSize (mkSize w h).

Definition keep_digits (s : jsstr) : jsstr := List.filter is_digit s.

(** The second half of [size_setCustom], with two parts. *)
Definition setCustom_parts (a0 a1 : jsstr) : M bool :=
  match keep_digits a0, keep_digits a1 with
  | (_ :: _) as wStr, (_ :: _) as hStr =>
      match parseInt wStr, parseInt hStr with
      | Some w, Some h =>
          if (w <? 10) || (4000 <? w) || (h <? 10) || (2000 <? h) then
            errorText "Please specify width and height within reasonable ranges.";; mret false
          else
            setGraphSize (mkSize w h);;
            unmark_sizes;;
            mret true
      | _, _ => mret false (* not reached: digits parse *)
      end
  | _, _ => errorText "Please specify integer width and height as WxH (or W,H).";; mret false
  end.

(** [size_setCustom(sizeStr)]: [false] keeps the dialog open. *)
Definition size_setCustom (sizeStr : jsstr) : M bool :=
  let a := split_limit (ch "x") 2 sizeStr in
  let a := if bool_decide (length a <> 2%nat) then split_char (ch ",") sizeStr else a in
  match a with
  | [a0; a1] => setCustom_parts a0 a1
  | _ => errorText "Please specify size as WxH (or W,H).";; mret false
  end.

Definition size_custom : M unit := promptDialog (js "Please enter a graph size: (WxH)") PSizeCustom.

(** The splitter's [mousemove] handler: [x - 16] is the new width of the tab. *)
Definition splitter_move (x : Z) : M unit :=
  if 0 <=? x then
    set_layout (fun p => mkPage (pg_document_hidden p) (pg_window p) (pg_tabs_width p) (pg_split_width p)
      (pg_lefttab_closed p) (num_to_str (x - 16) ++ js "px") (pg_old_width p));;
    documentResize
  else mret ().

(** The closure [toggle_lefttab_visibility()] returns. *)
Definition toggle_lefttab : M unit :=
  pg ← get w_page;
  let put closed css old := set_layout (fun p => mkPage (pg_document_hidden p) (pg_window p)
    (pg_tabs_width p) (pg_split_width p) closed css old) in
  (if pg_lefttab_closed pg then
     put false (pg_old_width pg) (pg_old_width pg);;
     dom "#hsplit,#hide_lefttab" "removeClass" [AStr (js "closed")]
   else
     put true (js "0px") (pg_lefttab_css pg);;
     dom "#hsplit,#hide_lefttab" "addClass" [AStr (js "closed")]);;
  documentResize.

(** The handler of [visibilitychange]. *)
Definition on_visibility : M unit :=
  pg ← get w_page;
  hidden ← pageIsHidden;
  (if bool_decide (pg_document_hidden pg <> hidden) then
     if (hidden : bool) then refresh else mret ()
   else mret ());;
  set_layout (fun p => mkPage hidden (pg_window p) (pg_tabs_width p) (pg_split_width p)
    (pg_lefttab_closed p) (pg_lefttab_css p) (pg_old_width p)).

(** ** Adding a counter to a graph *)

(** [toggleGraphing(path, graph_offset)]; [_allGraphs[graph_offset]] may be [undefined]. *)
Definition toggleGraphing (path : jsstr) (graph_offset : option nat) : M unit :=
  graph ← match graph_offset with
          | None =>
              sel ← get (fun w => gg_selected (w_grid w));
              match sel with
              | Some _ => mret ()
              | None => nu ← newGraph; select nu
              end;;
              get (fun w => gg_selected (w_grid w))
          | Some k => get (fun w => gg_allGraphs (w_grid w) !! k)
          end;
  match graph with
  | Some g => toggleSeries g path
  | None => throw TypeError
  end.

(** ** What the operations change *)

Section preserves.
Context (P : World -> Prop) `{!Stable P set_io} `{!Stable P set_ui}.

Lemma pres_documentResize : preserves P documentResize.
Proof. unfold documentResize. presg. Qed.
Hint Resolve pres_documentResize : pres.
Lemma pres_setGraphSize `{!Stable P upd_size} sz : preserves P (setGraphSize sz).
Proof.
  unfold setGraphSize. presg. apply pres_modify. intros w Hw. by apply (stable (upd := upd_size) (fun _ => sz)).
Qed.
Lemma pres_unmark_sizes `{!Stable P set_views} : preserves P unmark_sizes.
Proof. unfold unmark_sizes, put_chart_size. presg. Qed.
Lemma pres_mark_size `{!Stable P set_views} i : preserves P (mark_size i).
Proof. unfold mark_size, put_chart_size. presg. Qed.
Hint Resolve pres_unmark_sizes pres_mark_size : pres.
Lemma pres_graph_size `{!Stable P upd_size} `{!Stable P upd_sizeDropdown} `{!Stable P set_views} a b i :
  preserves P (graph_size a b i).
Proof.
  unfold graph_size. presg; try (apply pres_setGraphSize; exact _);
    apply pres_modify; intros w Hw; by apply (stable (upd := upd_sizeDropdown) (fun _ => _)).
Qed.

Section time.
Context `{!Stable P set_time}.
Lemma pres_setAutoRefresh r : preserves P (setAutoRefresh r).
Proof. unfold setAutoRefresh. presg. Qed.
Lemma pres_setManual m : preserves P (setManual m).
Proof. unfold setManual, put_slider. presg. Qed.

Context `{!Stable P set_loader}.
Lemma pres_refresh : preserves P refresh.
Proof. unfold refresh, refresh_body. presg. Qed.
Hint Resolve pres_refresh pres_setAutoRefresh pres_setManual : pres.
Lemma pres_resetDateRange a b : preserves P (resetDateRange a b).
Proof. unfold resetDateRange. presg. Qed.

Context `{!Stable P upd_maxSamples}.
Lemma pres_set_interval i : preserves P (set_interval i).
Proof.
  unfold set_interval. presg. apply pres_modify. intros w Hw. by apply (stable (upd := upd_maxSamples) (fun _ => None)).
Qed.
Hint Resolve pres_set_interval : pres.
Lemma pres_update_index i : preserves P (update_index i).
Proof. unfold update_index, slider, put_slider. presg. Qed.
Hint Resolve pres_update_index : pres.
Lemma pres_setIndex i : preserves P (setIndex i).
Proof. unfold setIndex, moveThumb. presg. Qed.
End time.

End preserves.

#[export] Hint Resolve pres_documentResize pres_setGraphSize pres_unmark_sizes pres_mark_size pres_graph_size pres_setAutoRefresh pres_setManual
  pres_refresh pres_resetDateRange pres_set_interval pres_update_index pres_setIndex : pres.

(** ** What never throws *)

Lemma total_setGraphSize sz : total (setGraphSize sz).
Proof. unfold setGraphSize, documentResize. tot. Qed.
Lemma total_unmark_sizes : total unmark_sizes.
Proof. unfold unmark_sizes, put_chart_size. tot. Qed.
Lemma total_mark_size i : total (mark_size i).
Proof. unfold mark_size, put_chart_size. tot. Qed.
Hint Resolve total_unmark_sizes total_mark_size : tot.
Lemma total_graph_size a b i : total (graph_size a b i).
Proof. unfold graph_size. tot; apply total_setGraphSize. Qed.
Lemma total_setAutoRefresh r : total (setAutoRefresh r).
Proof. unfold setAutoRefresh. tot. Qed.
Lemma total_setManual m : total (setManual m).
Proof. unfold setManual, put_slider. tot. Qed.
Lemma total_setIndex i : total (setIndex i).
Proof. unfold setIndex. tot. Qed.
Lemma total_documentResize : total documentResize.
Proof. unfold documentResize. tot. Qed.
Lemma total_refresh : total refresh.
Proof. unfold refresh. tot. Qed.
#[export] Hint Resolve total_setGraphSize total_unmark_sizes total_mark_size total_graph_size total_setAutoRefresh total_setManual total_setIndex
  total_documentResize total_refresh : tot.

(** ** Refreshing moves the range to the present *)

(** What [refresh] makes of the time state at [now]. *)
Definition refreshed (now : Z) (t : TimeState) : TimeState :=
  let delta := date_sub (dt_stop (theCurrentDates t)) (dt_start (theCurrentDates t)) in
  if num_eqb delta (date_sub (dt_stop (theOriginalDates t)) (dt_start (theOriginalDates t))) then
    set_current (mkDates ((fun d => now - 10 * 1000 - d) <$> delta) (Some (now - 10 * 1000))) t
  else t.

Lemma refresh_body_time w : w_time (exec refresh_body w) = refreshed (sy_now (w_sys w)) (w_time w).
Proof.
  assert (exists w1, begin w = (w1, Ok (ui_tokens (w_ui w))) /\ w_time w1 = w_time w /\
    sy_now (w_sys w1) = sy_now (w_sys w)) as (w1 & Hb & E1 & E2).
  { unfold begin, mbind, M_bind. cbn. destruct (ui_nesting (w_ui w) =? 0); by eexists. }
  unfold refresh_body. rewrite exec_bind, Hb. do 2 (rewrite exec_bind; cbn). rewrite E1, E2.
  unfold refreshed. set (c := num_eqb _ _).
  assert (Hrest : forall w' T, w_time w' = T -> w_time (exec (reloadAll;; finish (ui_tokens (w_ui w))) w') = T).
  { intros w' T HT. apply (pres_bind (fun w => w_time w = T)); [|intros _|done]; eauto with pres typeclass_instances. }
  destruct c; (unfold mbind at 1, M_bind; cbn; apply Hrest; cbn; by rewrite ?E1).
Qed.

Lemma refresh_time w :
  w_time (exec refresh w)
    = if sy_hidden (w_sys w) then w_time w else refreshed (sy_now (w_sys w)) (w_time w).
Proof.
  unfold refresh. apply (exec_guarded (fun w' => w_time w' = _)).
  rewrite exec_bind. cbn. destruct (sy_hidden (w_sys w)); [done|apply refresh_body_time].
Qed.

Lemma refresh_hidden w : sy_hidden (w_sys w) = true -> exec refresh w = w.
Proof.
  intros H. unfold refresh, exec. rewrite (guarded_Ok _ _ w w); [done|].
  unfold mbind, M_bind. cbn. by rewrite H.
Qed.

(** The interval between reloads is one of the points, or two minutes. *)
Definition reload_of (d : Dates) : Z := first_point points (reload_ival <$> date_sub (dt_stop d) (dt_start d)).

(** What [set_interval] makes of the time state. *)
Definition interval_set (i now : Z) (hidden : bool) (t : TimeState) : TimeState :=
  let orig := mkDates (date_minus (dt_stop (theOriginalDates t)) (i * 1000)) (dt_stop (theOriginalDates t)) in
  let t1 := set_reload (reload_of orig) (set_current orig (set_original orig t)) in
  if hidden then t1 else refreshed now t1.

Lemma set_interval_time i w :
  w_time (exec (set_interval i) w)
    = interval_set i (sy_now (w_sys w)) (sy_hidden (w_sys w)) (w_time w).
Proof. unfold set_interval. rewrite !exec_bind. cbn. rewrite !exec_bind. cbn. rewrite !exec_bind. cbn.
  rewrite !exec_bind. cbn. by rewrite refresh_time. Qed.

Lemma interval_set_dates i now (hidden : bool) t stop :
  dt_stop (theOriginalDates t) = Some stop ->
  let t' := interval_set i now hidden t in
  theOriginalDates t' = mkDates (Some (stop - i * 1000)) (Some stop) /\
  theCurrentDates t' = (if hidden then mkDates (Some (stop - i * 1000)) (Some stop)
                        else mkDates (Some (now - 10 * 1000 - i * 1000)) (Some (now - 10 * 1000))) /\
  theReloadInterval t' = first_point points (Some (reload_ival (i * 1000))) /\
  theTimeSlider t' = theTimeSlider t /\ isAutoRefresh t' = isAutoRefresh t /\
  autoRefreshTimer t' = autoRefreshTimer t.
Proof.
  intros Hs. unfold interval_set, reload_of. rewrite Hs. cbn.
  replace (stop - (stop - i * 1000)) with (i * 1000) by lia.
  destruct hidden; cbn; [done|]. unfold refreshed. cbn. rewrite Z.eqb_refl. cbn.
  split_and!; try done. do 2 f_equal. lia.
Qed.

(** ** The slider *)

Lemma clamp_range i : 0 <= clamp i < n_markers.
Proof. unfold clamp, n_markers. cbn. lia. Qed.

Lemma calculateIndex_range s left x i : calculateIndex s left x = IAt i -> 0 <= i < n_markers.
Proof.
  unfold calculateIndex. destruct (math_round _) as [r|]; [intros [= <-]; apply clamp_range|].
  destruct (ndiv _ _) as [|[]| |]; intros [= <-]; unfold n_markers; cbn; lia.
Qed.

Definition at_index (m : bool) (i : sindex) (t : TimeState) : TimeState :=
  set_slider (mkSlider m i (ts_dragging (theTimeSlider t)) (ts_width (theTimeSlider t))) t.

(** A new index is selected; when it differs, its interval is shown. *)
Definition index_set (i : Z) (now : Z) (hidden : bool) (t : TimeState) : TimeState :=
  at_index false (IAt i)
    (if bool_decide (ts_index (theTimeSlider t) = IAt i) then t
     else interval_set (default 0 (markers !! Z.to_nat i)) now hidden
            (at_index false (ts_index (theTimeSlider t)) t)).

Lemma interval_set_slider i now h t : theTimeSlider (interval_set i now h t) = theTimeSlider t.
Proof. unfold interval_set, refreshed. destruct h; [done|]. by destruct (num_eqb _ _). Qed.

Lemma update_index_time i w :
  0 <= i < n_markers ->
  w_time (exec (update_index (IAt i)) w)
    = at_index (ts_manual (theTimeSlider (w_time w))) (IAt i)
        (if bool_decide (ts_index (theTimeSlider (w_time w)) = IAt i) then w_time w
         else interval_set (default 0 (markers !! Z.to_nat i)) (sy_now (w_sys w)) (sy_hidden (w_sys w)) (w_time w)).
Proof.
  intros Hi. unfold update_index. rewrite exec_bind. cbn.
  destruct (lookup_lt_is_Some_2 markers (Z.to_nat i)) as [secs E]; [unfold n_markers in Hi; cbn in *; lia|].
  rewrite E. cbn [default]. destruct (decide (ts_index (theTimeSlider (w_time w)) = IAt i)) as [Ei|Hne].
  - rewrite !bool_decide_true by (done || (split; [done|congruence])). rewrite exec_bind. done.
  - rewrite !bool_decide_false by (done || (intros [_ ?]; congruence)).
    rewrite exec_bind. destruct (set_interval secs w) as [w' r] eqn:Es.
    pose proof (set_interval_time secs w) as Ht. unfold exec in Ht. rewrite Es in Ht. cbn in Ht.
    assert (r = Ok ()) as ->.
    { unfold set_interval in Es. assert (Hr : result (set_interval secs) w = r) by (unfold result, set_interval; by rewrite Es).
      rewrite <- Hr. unfold set_interval, result. unfold mbind, M_bind. cbn.
      match goal with |- (refresh ?w).2 = _ => destruct (guarded_total "_refresh"
        (hidden ← pageIsHidden; if (hidden : bool) then mret () else refresh_body) w) as [[] Hok] end.
      exact Hok. }
    cbn. rewrite Ht. unfold at_index. by rewrite interval_set_slider.
Qed.

Lemma setIndex_time i w :
  w_time (exec (setIndex i) w)
    = index_set (clamp i) (sy_now (w_sys w)) (sy_hidden (w_sys w)) (w_time w).
Proof.
  unfold setIndex. apply (exec_guarded (fun w' => w_time w' = _)).
  assert (Hm : moveThumb (IAt (clamp i)) w = (exec (moveThumb (IAt (clamp i))) w, Ok ())) by reflexivity.
  rewrite exec_bind, Hm, update_index_time by apply clamp_range. unfold index_set. cbn.
  by destruct (bool_decide _).
Qed.

(** ** At most one automatic refresh is pending *)

Definition is_refresh_timer (t : Timer) : bool := match tm_code t with TRefresh _ => true | _ => false end.
Definition refresh_timers (w : World) : list Timer := filter is_refresh_timer (sy_timers (w_sys w)).

Record auto_ok (w : World) : Prop := {
  ao_timer : match autoRefreshTimer (w_time w) with
             | None => refresh_timers w = []
             | Some t => exists tm, refresh_timers w = [tm] /\ tm_id tm = t
             end;
  ao_flag : from_option truthy false (isAutoRefresh (w_time w))
              = bool_decide (autoRefreshTimer (w_time w) <> None) }.

Lemma refresh_timers_clear id w :
  refresh_timers (exec (clearTimeout id) w) = filter (fun t => tm_id t <> id) (refresh_timers w).
Proof.
  unfold refresh_timers. cbn. rewrite !list_filter_filter. apply list_filter_iff. intros t. tauto.
Qed.

(** The old timer is cleared; a truthy argument sets a new one. *)
Lemma setAutoRefresh_spec ref w :
  auto_ok w ->
  let w' := exec (setAutoRefresh ref) w in
  let ms := theReloadInterval (w_time w) * 1000 in
  result (setAutoRefresh ref) w = Ok () /\ isAutoRefresh (w_time w') = ref /\
  (if from_option truthy false ref then
     refresh_timers w' = [mkTimer (sy_next_timer (w_sys w)) (sy_now (w_sys w) + ms) (TRefresh ms)] /\
     autoRefreshTimer (w_time w') = Some (sy_next_timer (w_sys w))
   else refresh_timers w' = [] /\ autoRefreshTimer (w_time w') = None).
Proof.
  intros [Ht _] w' ms. unfold w', ms. clear w' ms.
  set (k := (modify (set_time (fun t => set_auto ref (autoRefreshTimer t) t));;
    if from_option truthy false ref then
      dom ".tbutton.auto_refresh" "addClass" [AStr (js "toggle")];;
      id ← setTimeout (TRefresh (theReloadInterval (w_time w) * 1000)) (theReloadInterval (w_time w) * 1000);
      modify (set_time (set_auto ref (Some id)))
    else dom ".tbutton.auto_refresh" "removeClass" [AStr (js "toggle")])).
  assert (Hk : forall w0, sy_now (w_sys w0) = sy_now (w_sys w) -> sy_next_timer (w_sys w0) = sy_next_timer (w_sys w) ->
    refresh_timers w0 = [] -> autoRefreshTimer (w_time w0) = None ->
    result k w0 = Ok () /\ isAutoRefresh (w_time (exec k w0)) = ref /\
    if from_option truthy false ref then
      refresh_timers (exec k w0) = [mkTimer (sy_next_timer (w_sys w))
        (sy_now (w_sys w) + theReloadInterval (w_time w) * 1000) (TRefresh (theReloadInterval (w_time w) * 1000))] /\
      autoRefreshTimer (w_time (exec k w0)) = Some (sy_next_timer (w_sys w))
    else refresh_timers (exec k w0) = [] /\ autoRefreshTimer (w_time (exec k w0)) = None).
  { intros w0 E1 E2 E3 E4. unfold k, result, exec, mbind, M_bind. cbn.
    destruct (from_option truthy false ref); cbn; [|done].
    rewrite E2. split_and!; try done. unfold refresh_timers in *. cbn. by rewrite filter_app, E3, E1. }
  set (w0 := match autoRefreshTimer (w_time w) with
             | Some id => set_time (set_auto (isAutoRefresh (w_time w)) None) (exec (clearTimeout id) w)
             | None => w
             end).
  assert (Hs : setAutoRefresh ref w = k w0).
  { unfold setAutoRefresh, w0. unfold mbind at 1, M_bind. cbn [get].
    by destruct (autoRefreshTimer (w_time w)). }
  unfold exec, result in *. rewrite Hs. apply Hk; unfold w0; destruct (autoRefreshTimer (w_time w)) as [id|] eqn:Ea; try done.
  destruct Ht as (tm & Htm & Hid). pose proof (refresh_timers_clear id w) as Hc. rewrite Htm in Hc.
  rewrite filter_cons_False, filter_nil in Hc by (intros Hn; by apply Hn). exact Hc.
Qed.

Lemma setAutoRefresh_ok ref w : auto_ok w -> auto_ok (exec (setAutoRefresh ref) w).
Proof.
  intros Hw. destruct (setAutoRefresh_spec ref w Hw) as (_ & E & H).
  destruct (from_option truthy false ref) eqn:Er; destruct H as [H1 H2]; constructor; rewrite ?E, ?H2, ?H1, ?Er; try done.
  by eexists.
Qed.

(** ** Resetting the range *)

Lemma total_calcReloadInterval : total calcReloadInterval.
Proof. apply total_modify. Qed.
#[export] Hint Resolve total_calcReloadInterval : tot.

Lemma setAutoRefresh_flag r w : isAutoRefresh (w_time (exec (setAutoRefresh r) w)) = r.
Proof.
  unfold setAutoRefresh. rewrite exec_bind. cbn [get]. rewrite exec_bind.
  destruct (autoRefreshTimer (w_time w)); cbn; destruct (from_option truthy false r); done.
Qed.

(** Dates and slider are not touched by [setAutoRefresh] and what follows it. *)
Definition time_view (w : World) : Dates * Dates * TimeSlider :=
  (theOriginalDates (w_time w), theCurrentDates (w_time w), theTimeSlider (w_time w)).

Lemma setAutoRefresh_view r w : time_view (exec (setAutoRefresh r) w) = time_view w.
Proof.
  apply (pres_eq time_view). intros v. unfold setAutoRefresh. apply pres_bind; [apply pres_get|intros t]. pres.
Qed.

Lemma resetDateRange_time dFrom dTo w :
  let t := w_time (exec (resetDateRange dFrom dTo) w) in
  theOriginalDates t = mkDates dFrom dTo /\ theCurrentDates t = mkDates dFrom dTo /\
  ts_manual (theTimeSlider t) = true /\ isAutoRefresh t = Some (JBool false).
Proof.
  set (w1 := exec (setManual true;; modify (set_time (set_original (mkDates dFrom dTo)));; restoreOriginalInterval) w).
  assert (E : exec (resetDateRange dFrom dTo) w = exec (setAutoRefresh (Some (JBool false));; calcReloadInterval;; reloadAll) w1)
    by reflexivity.
  rewrite E, !exec_seq by tot. set (w2 := exec (setAutoRefresh _) w1).
  assert (Hr : w_time (exec reloadAll (exec calcReloadInterval w2)) = w_time (exec calcReloadInterval w2)).
  { apply (pres_eq w_time). intros. pres. }
  cbv zeta. rewrite Hr. cbn [calcReloadInterval].
  pose proof (setAutoRefresh_view (Some (JBool false)) w1) as Hv. pose proof (setAutoRefresh_flag (Some (JBool false)) w1) as Hf.
  fold w2 in Hv, Hf. unfold time_view in Hv. injection Hv as V1 V2 V3.
  split_and!; [exact V1|exact V2| |exact Hf]. cbn. change (ts_manual (theTimeSlider (w_time w2)) = true). by rewrite V3.
Qed.

(** ** Graph sizes *)

Definition size_in_range (sz : Size) : Prop := 10 <= sz_width sz <= 4000 /\ 10 <= sz_height sz <= 2000.

Lemma repaint_from_keeps gs v w :
  exists w', repaint_from v gs w = (w', Ok ()) /\ w_size w' = w_size w /\ w_ui w' = w_ui w.
Proof.
  revert v w; induction gs as [|g gs IH]; intros v w; [by eexists|]. cbn [repaint_from].
  set (w2 := exec (setTimeout (TPaint g) v) w). destruct (IH (v + 1) w2) as (w' & E & E1 & E2).
  exists w'. split; [exact E|done].
Qed.

Lemma documentResize_keeps w :
  exists w', documentResize w = (w', Ok ()) /\ w_size w' = w_size w /\ w_ui w' = w_ui w.
Proof.
  unfold documentResize. match goal with |- context [guarded _ ?b] => set (body := b) end.
  assert (exists w', body w = (w', Ok ()) /\ w_size w' = w_size w /\ w_ui w' = w_ui w) as (w' & E & H).
  { unfold body, repaintAll. unfold mbind, M_bind. cbn. edestruct repaint_from_keeps as (w' & E & E1 & E2). exists w'.
    split; [exact E|]. by rewrite E1, E2. }
  exists w'. by rewrite (guarded_Ok _ _ _ _ E).
Qed.

Lemma setGraphSize_exec sz w :
  exists w', setGraphSize sz w = (w', Ok ()) /\ w_size w' = sz /\ ui_errors (w_ui w') = ui_errors (w_ui w).
Proof.
  set (w1 := exec (modify (set_size sz);; dom "#grid .graph" "width" [ANum (sz_width sz)];;
    dom "#grid .graphdiv" "css" [ANum (sz_width sz); ANum (sz_height sz)]) w).
  destruct (documentResize_keeps w1) as (w' & E & E1 & E2). exists w'. split; [exact E|]. rewrite E1, E2. done.
Qed.

Lemma errorText_exec m w :
  exists w', errorText m w = (w', Ok ()) /\ w_size w' = w_size w /\
    ui_errors (w_ui w') = ui_errors (w_ui w) ++ [EText (htmlescape (js m))].
Proof. eexists. split; [reflexivity|]. done. Qed.

Lemma keep_digits_digits s : Forall (fun c => is_digit c = true) (keep_digits s).
Proof.
  unfold keep_digits. induction s as [|c s IH]; cbn; [constructor|].
  destruct (is_digit c) eqn:E; [by constructor|done].
Qed.

Lemma keep_digits_id s : Forall (fun c => is_digit c = true) s -> keep_digits s = s.
Proof. unfold keep_digits. induction 1 as [|c s Hc _ IH]; cbn; [done|]. by rewrite Hc, IH. Qed.

Lemma setCustom_pair a0 a1 w :
  exists w' b, setCustom_parts a0 a1 w = (w', Ok b) /\
    (if (b : bool) then size_in_range (w_size w') /\
       parseInt (keep_digits a0) = Some (sz_width (w_size w')) /\
       parseInt (keep_digits a1) = Some (sz_height (w_size w')) /\
       ui_errors (w_ui w') = ui_errors (w_ui w)
     else w_size w' = w_size w /\ exists m, ui_errors (w_ui w') = ui_errors (w_ui w) ++ [EText m]).
Proof.
  assert (Herr : forall m, exists w' b, (errorText m;; mret false) w = (w', Ok b) /\
    if (b : bool) then False else w_size w' = w_size w /\ exists m, ui_errors (w_ui w') = ui_errors (w_ui w) ++ [EText m]).
  { intros m. destruct (errorText_exec m w) as (w' & E & E1 & E2). exists w', false.
    rewrite (bind_Ok _ _ _ _ _ E). eauto. }
  unfold setCustom_parts. pose proof (keep_digits_digits a0) as H0. pose proof (keep_digits_digits a1) as H1.
  destruct (keep_digits a0) as [|x0 s0], (keep_digits a1) as [|x1 s1];
    try (destruct (Herr "Please specify integer width and height as WxH (or W,H)."%string) as (w' & [] & E & H);
         [done|by exists w', false]).
  rewrite !parseInt_digits by done. set (W := digits_value (x0 :: s0)). set (H := digits_value (x1 :: s1)).
  destruct ((W <? 10) || (4000 <? W) || (H <? 10) || (2000 <? H)) eqn:Eb.
  - destruct (Herr "Please specify width and height within reasonable ranges."%string) as (w' & [] & E & H'); [done|].
    by exists w', false.
  - destruct (setGraphSize_exec (mkSize W H) w) as (w' & E & E1 & E2). rewrite (bind_Ok _ _ _ _ _ E).
    do 2 eexists. split; [reflexivity|]. cbn. rewrite E1. zprop. unfold size_in_range. cbn.
    split_and!; try done; lia.
Qed.

Lemma size_setCustom_spec s w :
  exists w' b, size_setCustom s w = (w', Ok b) /\
    (if (b : bool) then size_in_range (w_size w') /\ ui_errors (w_ui w') = ui_errors (w_ui w)
     else w_size w' = w_size w /\ exists m, ui_errors (w_ui w') = ui_errors (w_ui w) ++ [EText m]).
Proof.
  unfold size_setCustom. set (a := if bool_decide _ then _ else _). destruct a as [|a0 [|a1 [|]]].
  3: { destruct (setCustom_pair a0 a1 w) as (w' & b & E & H). exists w', b. split; [exact E|]. destruct b; tauto. }
  all: destruct (errorText_exec "Please specify size as WxH (or W,H)."%string w) as (w' & E & E1 & E2); exists w', false;
    rewrite (bind_Ok _ _ _ _ _ E); eauto.
Qed.

(** [WxH] as printed is accepted and set. *)
Lemma size_setCustom_printed x y w :
  10 <= x <= 4000 -> 10 <= y <= 2000 ->
  exists w', size_setCustom (num_to_str x ++ js "x" ++ num_to_str y) w = (w', Ok true) /\ w_size w' = mkSize x y.
Proof.
  intros Hx Hy. destruct (num_to_str_digits x) as [Nx Dx]; [lia|]. destruct (num_to_str_digits y) as [Ny Dy]; [lia|].
  unfold size_setCustom, split_limit. change (js "x" ++ num_to_str y) with (ch "x" :: num_to_str y).
  rewrite split_char_app, split_char_id by (apply digits_not_in; [done|change (ch "x") with 120; lia]).
  cbn [take length]. rewrite bool_decide_false by lia. unfold setCustom_parts.
  rewrite !keep_digits_id by done. destruct (num_to_str x) as [|x0 s0] eqn:Ex; [done|].
  destruct (num_to_str y) as [|y0 s1] eqn:Ey; [done|]. rewrite <- Ex, <- Ey.
  rewrite !parseInt_num_to_str by lia.
  assert ((x <? 10) || (4000 <? x) || (y <? 10) || (2000 <? y) = false) as ->.
  { rewrite !(proj2 (Z.ltb_ge _ _)) by lia. done. }
  destruct (setGraphSize_exec (mkSize x y) w) as (w' & E & E1 & E2). rewrite (bind_Ok _ _ _ _ _ E).
  eexists. split; [reflexivity|]. done.
Qed.

(** ** Properties *)

(** A page to evaluate the witnesses on: loaded at a given time. *)
Definition sample_page (hidden : bool) : Page := mkPage hidden (mkSize 1024 768) 200 16 false (js "184px") [].
Definition sample_world : World := globals 1700000000000 260 (sample_page false).

(** C34: while the page is visible, a refresh of a range as wide as the original
    one moves it to end ten seconds before now and keeps its width; a zoomed range
    (of another width) stays; the original range is never changed. *)
Theorem refresh_follows_now w a b c d :
  sy_hidden (w_sys w) = false ->
  theCurrentDates (w_time w) = mkDates (Some a) (Some b) ->
  theOriginalDates (w_time w) = mkDates (Some c) (Some d) ->
  let now := sy_now (w_sys w) - 10 * 1000 in
  theOriginalDates (w_time (exec refresh w)) = mkDates (Some c) (Some d) /\
  theCurrentDates (w_time (exec refresh w))
    = if b - a =? d - c then mkDates (Some (now - (b - a))) (Some now) else mkDates (Some a) (Some b).
Proof.
  intros Hh Hc Ho now. rewrite refresh_time, Hh. unfold refreshed. rewrite Hc, Ho. cbn.
  destruct (b - a =? d - c); cbn; by rewrite ?Ho, ?Hc.
Qed.

Lemma refresh_follows_now_witness :
  theCurrentDates (w_time (exec refresh (Loader.tick 5000 sample_world)))
    = mkDates (Some 1699996395000) (Some 1699999995000).
Proof.
  apply (refresh_follows_now (Loader.tick 5000 sample_world) 1699996390000 1699999990000 1699996390000 1699999990000);
    reflexivity.
Defined.

(** Choosing a position of the time slider clamps it to the markers, ends the
    manual mode and, when the position changes, shows the marker's interval: the
    original range gets that width, and on a visible page the current range is that
    wide and ends ten seconds before now, with the matching reload interval. *)
Theorem slider_selects_interval i w stop :
  dt_stop (theOriginalDates (w_time w)) = Some stop ->
  let i' := Z.min (Z.max i 0) 13 in
  let t' := w_time (exec (setIndex i) w) in
  let now := sy_now (w_sys w) - 10 * 1000 in
  ts_index (theTimeSlider t') = IAt i' /\ ts_manual (theTimeSlider t') = false /\
  exists secs, markers !! Z.to_nat i' = Some secs /\
    (ts_index (theTimeSlider (w_time w)) <> IAt i' ->
     theOriginalDates t' = mkDates (Some (stop - secs * 1000)) (Some stop) /\
     theReloadInterval t' = first_point points (Some (reload_ival (secs * 1000))) /\
     theCurrentDates t' = if sy_hidden (w_sys w) then theOriginalDates t'
                          else mkDates (Some (now - secs * 1000)) (Some now)).
Proof.
  intros Hs i' t' now. pose proof (clamp_range i) as Hr. change (clamp i) with i' in Hr.
  destruct (lookup_lt_is_Some_2 markers (Z.to_nat i')) as [secs E]; [unfold n_markers in Hr; cbn in *; lia|].
  unfold t'. rewrite setIndex_time. change (clamp i) with i'. unfold index_set. rewrite E. cbn [default].
  split; [done|]. split; [done|]. exists secs. split; [done|]. intros Hne.
  rewrite bool_decide_false by done.
  destruct (interval_set_dates secs (sy_now (w_sys w)) (sy_hidden (w_sys w))
    (at_index false (ts_index (theTimeSlider (w_time w))) (w_time w)) stop Hs) as (E1 & E2 & E3 & _).
  cbn. rewrite E1, E2, E3. done.
Qed.

Lemma slider_selects_interval_witness :
  theCurrentDates (w_time (exec (setIndex 20) sample_world))
    = mkDates (Some (1699999990000 - 1827 * 86400 * 1000)) (Some 1699999990000).
Proof.
  destruct (slider_selects_interval 20 sample_world 1699999990000 eq_refl) as (_ & _ & secs & Hs & H).
  injection Hs as <-. destruct H as (_ & _ & ->); [discriminate|reflexivity].
Defined.

(** Switching the automatic refresh leaves exactly one refresh timer when the
    new value is truthy, due one reload interval from now, and none otherwise:
    timers never pile up, whatever the value was before. *)
Theorem auto_refresh_single_timer ref w :
  auto_ok w ->
  let w' := exec (setAutoRefresh ref) w in
  auto_ok w' /\ isAutoRefresh (w_time w') = ref /\
  (if from_option truthy false ref
   then exists tm, refresh_timers w' = [tm] /\ tm_due tm = sy_now (w_sys w) + theReloadInterval (w_time w) * 1000
   else refresh_timers w' = []).
Proof.
  intros Hw w'. split; [by apply setAutoRefresh_ok|].
  destruct (setAutoRefresh_spec ref w Hw) as (_ & E & H). split; [done|].
  destruct (from_option truthy false ref); destruct H as [H _]; [by eexists|done].
Qed.

Lemma auto_refresh_single_timer_witness :
  auto_ok (exec (setAutoRefresh (Some (JBool true))) (exec (setAutoRefresh (Some (JBool true))) sample_world)).
Proof.
  apply (auto_refresh_single_timer (Some (JBool true)) (exec (setAutoRefresh (Some (JBool true))) sample_world)).
  apply (auto_refresh_single_timer (Some (JBool true)) sample_world). split; reflexivity.
Defined.

(** The custom graph size: the handler never throws; it returns [true] with a
    size of 10 to 4000 by 10 to 2000 and no error, or [false] with the size
    unchanged and one error message. *)
Theorem custom_size_checked s w :
  exists w' b, size_setCustom s w = (w', Ok b) /\
    if (b : bool)
    then 10 <= sz_width (w_size w') <= 4000 /\ 10 <= sz_height (w_size w') <= 2000 /\
         ui_errors (w_ui w') = ui_errors (w_ui w)
    else w_size w' = w_size w /\ exists m, ui_errors (w_ui w') = ui_errors (w_ui w) ++ [EText m].
Proof.
  destruct (size_setCustom_spec s w) as (w' & b & E & H). exists w', b. split; [done|].
  destruct b; [|done]. destruct H as [[? ?] ?]. done.
Qed.

(** A size in range written as [WxH] is accepted by the custom size dialog and
    becomes the size of the graphs. *)
Theorem custom_size_roundtrip x y w :
  10 <= x <= 4000 -> 10 <= y <= 2000 ->
  exists w', size_setCustom (num_to_str x ++ js "x" ++ num_to_str y) w = (w', Ok true) /\ w_size w' = mkSize x y.
Proof. apply size_setCustom_printed. Qed.

Lemma custom_size_roundtrip_witness :
  exists w', size_setCustom (js "800x480") sample_world = (w', Ok true) /\ w_size w' = mkSize 800 480.
Proof. apply (custom_size_roundtrip 800 480 sample_world); lia. Defined.

(** The handler of page visibility changes refreshes nothing: it calls [refresh]
    only when the page has just been hidden, and then [refresh] returns at once.
    All it does is record the new state; a page that becomes visible is not refreshed. *)
Theorem visibility_never_refreshes w :
  let seen := sy_hidden (w_sys w) in
  exec on_visibility w
    = set_page (fun p => mkPage seen (pg_window p) (pg_tabs_width p) (pg_split_width p)
        (pg_lefttab_closed p) (pg_lefttab_css p) (pg_old_width p)) w.
Proof.
  intros seen. unfold on_visibility. do 2 (rewrite exec_bind; cbn [get pageIsHidden]). rewrite exec_bind.
  fold seen. destruct (bool_decide _); [|reflexivity]. destruct seen eqn:Hh; [|reflexivity]. unfold seen in Hh.
  pose proof (refresh_hidden w Hh) as Hr. unfold exec in Hr.
  destruct (guarded_total "_refresh" (hidden ← pageIsHidden; if (hidden : bool) then mret () else refresh_body) w)
    as [[] Hok].
  change (result refresh w = Ok ()) in Hok. by rewrite (eta refresh w () Hok), (refresh_hidden w Hh).
Qed.

(** [resetDateRange] stores the two dates it is given as they are: the range it
    corrects (an end in 1970, a start at or after the end) is computed and dropped,
    so an inverted range becomes the current range. *)
Theorem reset_range_uncorrected w dFrom dTo :
  theOriginalDates (w_time (exec (resetDateRange dFrom dTo) w)) = mkDates dFrom dTo /\
  theCurrentDates (w_time (exec (resetDateRange dFrom dTo) w)) = mkDates dFrom dTo /\
  exists from to now, corrected_range now from to <> (from, to).
Proof.
  destruct (resetDateRange_time dFrom dTo w) as (H1 & H2 & _). split_and!; [done|done|].
  exists (Some 20), (Some 10), 5. done.
Qed.

End TimeRange.
