(* ===== verification/Dates.v ===== *)
(** * Dates: the arithmetic of [Date], [parseDate], [select_daterange], [strftime]

    Times are milliseconds since 1970 in UTC; days and years follow ECMAScript 5,
    15.9.1.  The local time zone belongs to the browser: it is a class with the
    conversions between UTC and local time.  Clocks that are put forward skip local times, so the two
    conversions are inverse only on the times the clock shows; [summer_zone] is a zone with such a gap. *)

From S2P Require Import Prelude JsString JsObject JsNumber Json World Shell Loader Grid TimeRange.
Import Shell TimeRange.
Import (hints) Loader.

Local Open Scope Z_scope.

(** ** The local time zone *)

(** [LocalTime(t)] and [UTC(t)]: [UTC] of a local time that the clock shows is a time when it shows it;
    of one that it skips nothing is known, but that the two differ by a day at most. *)
Class LocalZone := {
  local : Z -> Z;
  utc : Z -> Z;
  local_utc u : local (utc (local u)) = local u;
  utc_near t : Z.abs (utc t - t) <= 86400000 }.

(** A zone with a fixed offset. *)
Definition fixed_zone (hours : Z) (Hh : -14 <= hours <= 14) : LocalZone.
Proof.
  refine {| local := fun t => t + hours * 3600000; utc := fun t => t - hours * 3600000 |}; intros; lia.
Defined.

(** A zone whose clock is put forward by an hour at [T], which skips the hour that follows; a skipped time
    is read with the offset before the change. *)
Definition summer_zone (T : Z) : LocalZone.
Proof.
  refine {| local := fun t => if t <? T then t else t + 3600000;
            utc := fun t => if t <? T + 3600000 then t else t - 3600000 |}; intros.
  - destruct (Z.ltb_spec u T); [rewrite (proj2 (Z.ltb_lt u (T + 3600000))), (proj2 (Z.ltb_lt u T)) by lia; done|].
    rewrite (proj2 (Z.ltb_ge (u + 3600000) (T + 3600000))) by lia.
    rewrite (proj2 (Z.ltb_ge (u + 3600000 - 3600000) T)) by lia. lia.
  - destruct (Z.ltb_spec t (T + 3600000)); lia.
Defined.

(** The local times that the clock shows. *)
Definition shown `{LocalZone} (t : Z) : Prop := exists u, local u = t.

Module Dates.

(** ** Days, months, years *)

Definition msPerDay : Z := 86400000.

Definition DayFromYear (y : Z) : Z := 365 * (y - 1970) + (y - 1969) / 4 - (y - 1901) / 100 + (y - 1601) / 400.

Definition leap (y : Z) : bool := (y mod 4 =? 0) && (negb (y mod 100 =? 0) || (y mod 400 =? 0)).

(** Days of the year before month [m], counted from 0. *)
Definition month_table : list Z := [0; 31; 59; 90; 120; 151; 181; 212; 243; 273; 304; 334].
Definition days_before (lp : bool) (m : Z) : Z :=
  nth (Z.to_nat m) month_table 0 + (if lp && (1 <? m) then 1 else 0).
Definition month_length (lp : bool) (m : Z) : Z :=
  if m =? 11 then 31 else days_before lp (m + 1) - days_before lp m.

Definition MakeDay (year month date : Z) : Z :=
  let ym := year + month / 12 in
  DayFromYear ym + days_before (leap ym) (month mod 12) + date - 1.
Definition MakeTime (h m s ms : Z) : Z := ((h * 60 + m) * 60 + s) * 1000 + ms.

Definition Day (t : Z) : Z := t / msPerDay.
Definition TimeWithinDay (t : Z) : Z := t mod msPerDay.

(** The year of a day: an estimate off by one at most. *)
Definition YearFromDay (day : Z) : Z :=
  let y := 1970 + 400 * day / 146097 in
  if day <? DayFromYear y then y - 1 else if DayFromYear (y + 1) <=? day then y + 1 else y.

Definition DayWithinYear (day : Z) : Z := day - DayFromYear (YearFromDay day).

(** The last month that starts on or before a day of the year. *)
Fixpoint month_from (fuel : nat) (lp : bool) (d m : Z) : Z :=
  match fuel with
  | O => m
  | S fuel' => if days_before lp (m + 1) <=? d then month_from fuel' lp d (m + 1) else m
  end.
Definition MonthFromDay (day : Z) : Z := month_from 11 (leap (YearFromDay day)) (DayWithinYear day) 0.
Definition DateFromDay (day : Z) : Z :=
  DayWithinYear day - days_before (leap (YearFromDay day)) (MonthFromDay day) + 1.

(** [TimeClip] *)
Definition TimeClip (t : Z) : date := if Z.abs t <=? 8640000000000000 then Some t else None.

(** ** The methods of [Date] *)

Section local.
Context `{LocalZone}.

Definition getFullYear (t : Z) : Z := YearFromDay (Day (local t)).
Definition getMonth (t : Z) : Z := MonthFromDay (Day (local t)).
Definition getDate (t : Z) : Z := DateFromDay (Day (local t)).
Definition getDay (t : Z) : Z := (Day (local t) + 4) mod 7.
Definition getHours (t : Z) : Z := TimeWithinDay (local t) / 3600000.
Definition getMinutes (t : Z) : Z := TimeWithinDay (local t) / 60000 mod 60.
Definition getSeconds (t : Z) : Z := TimeWithinDay (local t) / 1000 mod 60.
Definition getMilliseconds (t : Z) : Z := TimeWithinDay (local t) mod 1000.

Definition set_local (day time : Z) : date := TimeClip (utc (day * msPerDay + time)).

Definition setFullYear (y t : Z) : date := set_local (MakeDay y (getMonth t) (getDate t)) (TimeWithinDay (local t)).
Definition setMonth (m t : Z) : date := set_local (MakeDay (getFullYear t) m (getDate t)) (TimeWithinDay (local t)).
Definition setDate (d t : Z) : date := set_local (MakeDay (getFullYear t) (getMonth t) d) (TimeWithinDay (local t)).
Definition setHours (h m t : Z) : date := set_local (Day (local t)) (MakeTime h m (getSeconds t) (getMilliseconds t)).

(** ** [parseDate] *)

(** [0?(1?[0-9])] and [0?([123]?[0-9])] before a character that is not a digit:
    the digits taken, as a number; [lead] tells the first of two digits. *)
Definition two_or_one (lead : Z -> bool) (ds : jsstr) : option Z :=
  match ds with
  | [d] => Some (d - 48)
  | [d1; d2] => if lead d1 then Some ((d1 - 48) * 10 + (d2 - 48)) else None
  | _ => None
  end.
Definition field (lead : Z -> bool) (ds : jsstr) : option Z :=
  match ds with
  | 48 :: ds' => match two_or_one lead ds' with Some n => Some n | None => two_or_one lead ds end
  | _ => two_or_one lead ds
  end.

Definition skip_spaces (s : jsstr) : jsstr := (span (fun c => c =? 32) s).2.

(** [20[0-9][0-9]-0?(1?[0-9])-0?([123]?[0-9])]: year, month, day and the rest. *)
Definition parse_ymd (s : jsstr) : option (Z * Z * Z * jsstr) :=
  match s with
  | 50 :: 48 :: y1 :: y2 :: 45 :: s' =>
      if is_digit y1 && is_digit y2 then
        let (ms, r) := span is_digit s' in
        match r with
        | 45 :: r' =>
            let (ds, rest) := span is_digit r' in
            m ← field (fun d => d =? 49) ms;
            d ← field (fun d => (49 <=? d) && (d <=? 51)) ds;
            Some (2000 + (y1 - 48) * 10 + (y2 - 48), m, d, rest)
        | _ => None
        end
      else None
  | _ => None
  end.

(** [ +([012][0-9]):([0-5][0-9]) *$] *)
Definition parse_hm (s : jsstr) : option (Z * Z) :=
  match s with
  | 32 :: _ =>
      match skip_spaces s with
      | h1 :: h2 :: 58 :: m1 :: m2 :: r =>
          if (48 <=? h1) && (h1 <=? 50) && is_digit h2 && (48 <=? m1) && (m1 <=? 53) && is_digit m2
             && bool_decide (skip_spaces r = [])
          then Some ((h1 - 48) * 10 + (h2 - 48), (m1 - 48) * 10 + (m2 - 48)) else None
      | _ => None
      end
  | _ => None
  end.

(** [parseDate(x)] at time [now]; [None] is [false]. *)
Definition parseDate (now : Z) (x : jsstr) : option date :=
  match parse_ymd (skip_spaces x) with
  | Some (y, m, d, rest) =>
      let set_ymd : date := t1 ← setFullYear y now; t2 ← setMonth (m - 1) t1; setDate d t2 in
      match parse_hm rest with
      | Some (h, mi) => Some (t ← set_ymd; setHours h mi t)
      | None => if bool_decide (skip_spaces rest = []) then Some set_ymd else None
      end
  | None => None
  end.

(** ** [select_daterange] *)

(** [promptDialogN] with the fields [from], [to] and [maxSamples]. *)
Definition promptDialogN : M unit :=
  dom ".dialog.prompt" "detach" [];;
  modify (set_ui (fun u => mkUi (ui_nesting u) (ui_tokens u) (ui_nulled u) (ui_errors u) (Some DDateRange)));;
  dom ".dialog.prompt" "prependTo" [AStr (js "body")].

Definition select_daterange : M unit :=
  promptDialogN;;
  dom ".dialog.prompt" "addClass" [AStr (js "select_daterange")].

(** [a >= b] of times that may be [NaN]. *)
Definition date_geb (a b : date) : bool := match a, b with Some x, Some y => y <=? x | _, _ => false end.

(** The callback: [false] keeps the dialog open. *)
Definition daterange_answer (from to maxSamples : jsstr) : M bool :=
  now ← get (fun w => sy_now (w_sys w));
  match parseDate now from, parseDate now to with
  | None, _ => errorText "The start date is not valid.";; mret false
  | Some _, None => errorText "The end date is not valid.";; mret false
  | Some dFrom, Some dTo =>
      if date_geb dFrom dTo then errorText "The end date must be after the start date.";; mret false
      else if forallb is_digit maxSamples then
        modify (set_maxSamples (parseInt maxSamples));;
        resetDateRange dFrom dTo;;
        mret true
      else errorText "Max sample count must be a positive integer, or left blank.";; mret false
  end.

(** [eHandler] of [promptDialogN], around the guarded callback. *)
Definition daterange_submit (from to maxSamples : jsstr) : M unit :=
  guarded "" (
    r ← guard "" (daterange_answer from to maxSamples);
    if bool_decide (r = Some false) then mret () else dialog_close).

(** ** [strftime] *)

Definition arg_str (a : arg) : jsstr := match a with AStr s => s | ANum n => num_to_str n end.

(** [fmt.replace(new RegExp(k, 'g'), v)] for [k] of plain characters and [v] without [$]. *)
Definition replace_each (k v s : jsstr) : jsstr := join v (split_str k s).

Definition day_names : list string := ["Sun"; "Mon"; "Tue"; "Wed"; "Thu"; "Fri"; "Sat"]%string.
Definition month_names : list string :=
  ["Jan"; "Feb"; "Mar"; "Apr"; "May"; "Jun"; "Jul"; "Aug"; "Sep"; "Oct"; "Nov"; "Dec"]%string.

Definition strftime_keys (t : Z) : list (jsstr * jsstr) :=
  [(js "%a", js (nth (Z.to_nat (getDay t)) day_names ""%string));
   (js "%d", arg_str (twoDigit (getDate t)));
   (js "%e", num_to_str (getDate t));
   (js "%b", js (nth (Z.to_nat (getMonth t)) month_names ""%string));
   (js "%m", arg_str (twoDigit (getMonth t)));
   (js "%y", arg_str (twoDigit (getFullYear t)));
   (js "%Y", num_to_str (getFullYear t));
   (js "%H", arg_str (twoDigit (getHours t)));
   (js "%M", arg_str (twoDigit (getMinutes t)));
   (js "%S", arg_str (twoDigit (getSeconds t)))].

Definition strftime (fmt : jsstr) (t : Z) : jsstr :=
  foldl (fun s kv => replace_each kv.1 kv.2 s) fmt (strftime_keys t).

End local.

(** [objDump] of an object *)
Definition objDump {V} (arg : list (jsstr * V)) : jsstr :=
  js "object{" ++ [10] ++ join (js "," ++ [10]) (keys arg) ++ [10] ++ js "}".

(** ** Lemmas on days *)

Lemma DayFromYear_succ y : DayFromYear (y + 1) = DayFromYear y + (if leap y then 366 else 365).
Proof.
  unfold DayFromYear, leap.
  destruct (Z.eqb_spec (y mod 4) 0), (Z.eqb_spec (y mod 100) 0), (Z.eqb_spec (y mod 400) 0); cbn [andb orb negb];
    Z.to_euclidean_division_equations; lia.
Qed.

Lemma DayFromYear_mono y y' : y <= y' -> DayFromYear y + 365 * (y' - y) <= DayFromYear y'.
Proof. unfold DayFromYear. intros. Z.to_euclidean_division_equations. lia. Qed.

Lemma YearFromDay_spec day : DayFromYear (YearFromDay day) <= day < DayFromYear (YearFromDay day + 1).
Proof.
  unfold YearFromDay. set (y := 1970 + _).
  assert (H : DayFromYear (y - 1) <= day < DayFromYear (y + 2)).
  { unfold y, DayFromYear. Z.to_euclidean_division_equations. lia. }
  destruct (Z.ltb_spec day (DayFromYear y)).
  - replace (y - 1 + 1) with y by lia. lia.
  - destruct (Z.leb_spec (DayFromYear (y + 1)) day); [|lia]. replace (y + 1 + 1) with (y + 2) by lia. lia.
Qed.

Lemma YearFromDay_unique day y : DayFromYear y <= day < DayFromYear (y + 1) -> YearFromDay day = y.
Proof.
  intros H. pose proof (YearFromDay_spec day) as Hs. set (z := YearFromDay day) in *.
  destruct (Z.lt_trichotomy y z) as [Hl|[->|Hl]]; [|done|].
  - pose proof (DayFromYear_mono (y + 1) z). lia.
  - pose proof (DayFromYear_mono (z + 1) y). lia.
Qed.

Lemma month_cases m : 0 <= m < 12 ->
  m = 0 \/ m = 1 \/ m = 2 \/ m = 3 \/ m = 4 \/ m = 5 \/ m = 6 \/ m = 7 \/ m = 8 \/ m = 9 \/ m = 10 \/ m = 11.
Proof. lia. Qed.

(** A day of the year lies in a month of the year. *)
Lemma days_in_year lp m d :
  0 <= m < 12 -> 1 <= d <= month_length lp m ->
  0 <= days_before lp m + d - 1 < (if lp then 366 else 365).
Proof.
  intros Hm Hd. destruct lp; apply month_cases in Hm; repeat destruct Hm as [->|Hm]; subst;
    match goal with |- context [days_before ?a ?b] =>
      let v := eval vm_compute in (days_before a b) in change (days_before a b) with v;
      let v := eval vm_compute in (month_length a b) in change (month_length a b) with v in Hd
    end; lia.
Qed.

(** Checked for all days of the two kinds of years. *)
Definition month_check (lp : bool) : bool :=
  forallb (fun m => forallb (fun d =>
    let d := Z.of_nat d in
    if (days_before lp m <=? d) && (d - days_before lp m <? month_length lp m) then month_from 11 lp d 0 =? m else true)
    (seq 0 366)) [0; 1; 2; 3; 4; 5; 6; 7; 8; 9; 10; 11].

Lemma month_of_day lp m d :
  0 <= m < 12 -> 0 <= d - days_before lp m < month_length lp m -> month_from 11 lp d 0 = m.
Proof.
  intros Hm Hd. assert (Hc : month_check lp = true) by (by destruct lp; vm_compute).
  pose proof (days_in_year lp m (d - days_before lp m + 1) Hm ltac:(lia)) as Hr.
  unfold month_check in Hc. rewrite forallb_forall in Hc.
  assert (Hin : In m [0; 1; 2; 3; 4; 5; 6; 7; 8; 9; 10; 11]) by (apply month_cases in Hm; cbn; intuition congruence).
  specialize (Hc m Hin). rewrite forallb_forall in Hc.
  specialize (Hc (Z.to_nat d)). rewrite Z2Nat.id in Hc by (destruct lp; lia).
  rewrite (proj2 (Z.leb_le _ _)), (proj2 (Z.ltb_lt _ _)) in Hc by lia. apply Z.eqb_eq, Hc, in_seq. destruct lp; lia.
Qed.

Definition valid_ymd (y m d : Z) : Prop := 0 <= m < 12 /\ 1 <= d <= month_length (leap y) m.

Lemma MakeDay_fields y m d :
  valid_ymd y m d ->
  YearFromDay (MakeDay y m d) = y /\ MonthFromDay (MakeDay y m d) = m /\ DateFromDay (MakeDay y m d) = d.
Proof.
  intros [Hm Hd]. assert (E : MakeDay y m d = DayFromYear y + (days_before (leap y) m + d - 1)).
  { unfold MakeDay. rewrite Z.div_small, Z.mod_small, Z.add_0_r by lia. lia. }
  pose proof (days_in_year (leap y) m d Hm Hd) as Hy.
  assert (Hyear : YearFromDay (MakeDay y m d) = y).
  { apply YearFromDay_unique. rewrite DayFromYear_succ, E. lia. }
  assert (Hw : DayWithinYear (MakeDay y m d) = days_before (leap y) m + d - 1).
  { unfold DayWithinYear. rewrite Hyear, E. lia. }
  assert (Hmonth : MonthFromDay (MakeDay y m d) = m).
  { unfold MonthFromDay. rewrite Hyear, Hw. apply month_of_day; lia. }
  split; [done|]. split; [done|]. unfold DateFromDay. rewrite Hmonth, Hyear, Hw. lia.
Qed.

(** The day is the one of its year, month and date. *)
Lemma MakeDay_of_day day : MakeDay (YearFromDay day) (MonthFromDay day) (DateFromDay day) = day.
Proof.
  assert (Hm : forall lp n d, 0 <= month_from n lp d 0 <= Z.of_nat n).
  { intros lp n d. assert (H : forall n m, m <= month_from n lp d m <= m + Z.of_nat n).
    { induction n0 as [|n0 IH]; intros m; cbn [month_from]; [lia|]. destruct (_ <=? _); [|lia]. specialize (IH (m + 1)). lia. }
    specialize (H n 0). lia. }
  specialize (Hm (leap (YearFromDay day)) 11%nat (DayWithinYear day)).
  change (month_from 11 _ _ 0) with (MonthFromDay day) in Hm.
  unfold MakeDay. rewrite Z.div_small, Z.mod_small, Z.add_0_r by lia.
  unfold DateFromDay, DayWithinYear. lia.
Qed.

Lemma day_time d t : 0 <= t < msPerDay -> Day (d * msPerDay + t) = d /\ TimeWithinDay (d * msPerDay + t) = t.
Proof.
  intros Ht. unfold Day, TimeWithinDay. rewrite Z.add_comm. split.
  - rewrite Z.div_add by done. rewrite Z.div_small by lia. lia.
  - rewrite Z.mod_add by done. by apply Z.mod_small.
Qed.

(** ** The methods on local times *)

Section local_lemmas.
Context `{LocalZone}.

(** The years that [parseDate] accepts are in the range of [Date]. *)
Lemma set_local_ok d tm :
  0 <= d <= 50000 -> 0 <= tm < msPerDay -> shown (d * msPerDay + tm) ->
  exists t, set_local d tm = Some t /\ Day (local t) = d /\ TimeWithinDay (local t) = tm.
Proof.
  intros Hd Ht [u Hu]. unfold set_local, TimeClip. pose proof (utc_near (d * msPerDay + tm)) as Hn. unfold msPerDay in *.
  rewrite (proj2 (Z.leb_le _ _)) by lia. eexists. split; [done|]. rewrite <- Hu, local_utc, Hu. apply (day_time d tm). unfold msPerDay. lia.
Qed.

Lemma MakeDay_range y m d : 2000 <= y <= 2099 -> valid_ymd y m d -> 0 <= MakeDay y m d <= 50000.
Proof.
  intros Hy [Hm Hd]. pose proof (days_in_year (leap y) m d Hm Hd) as Hr. unfold MakeDay.
  rewrite Z.div_small, Z.mod_small, Z.add_0_r by lia.
  assert (10957 <= DayFromYear y <= 47117) by (unfold DayFromYear; Z.to_euclidean_division_equations; lia).
  destruct (leap y); lia.
Qed.

(** Setting a local day with valid fields. *)
Lemma set_fields y m d tm :
  2000 <= y <= 2099 -> valid_ymd y m d -> 0 <= tm < msPerDay -> shown (MakeDay y m d * msPerDay + tm) ->
  exists t, set_local (MakeDay y m d) tm = Some t /\
    getFullYear t = y /\ getMonth t = m /\ getDate t = d /\ Day (local t) = MakeDay y m d /\ TimeWithinDay (local t) = tm.
Proof.
  intros Hy Hv Ht Hu. destruct (set_local_ok (MakeDay y m d) tm (MakeDay_range y m d Hy Hv) Ht Hu) as (t & E & E1 & E2).
  exists t. split; [done|]. unfold getFullYear, getMonth, getDate. rewrite E1. destruct (MakeDay_fields y m d Hv) as (? & ? & ?). done.
Qed.

Lemma TimeWithinDay_range t : 0 <= TimeWithinDay t < msPerDay.
Proof. apply Z.mod_pos_bound. done. Qed.

Lemma getMonth_range t : 0 <= getMonth t < 12.
Proof.
  unfold getMonth, MonthFromDay. generalize (leap (YearFromDay (Day (local t)))), (DayWithinYear (Day (local t))).
  intros lp d. assert (Hm : forall n m, m <= month_from n lp d m <= m + Z.of_nat n).
  { induction n as [|n IH]; intros m; cbn [month_from]; [lia|]. destruct (_ <=? _); [|lia]. specialize (IH (m + 1)). lia. }
  specialize (Hm 11%nat 0). lia.
Qed.

Lemma getDate_pos t : 1 <= getDate t.
Proof.
  unfold getDate, DateFromDay, MonthFromDay. pose proof (YearFromDay_spec (Day (local t))) as Hy.
  assert (Hd : 0 <= DayWithinYear (Day (local t))) by (unfold DayWithinYear; lia). revert Hd.
  generalize (leap (YearFromDay (Day (local t)))), (DayWithinYear (Day (local t))). intros lp d Hd.
  assert (Hm : forall n m, days_before lp m <= d -> days_before lp (month_from n lp d m) <= d).
  { induction n as [|n IH]; intros m Hb; cbn [month_from]; [done|]. destruct (Z.leb_spec (days_before lp (m + 1)) d); auto. }
  specialize (Hm 11%nat 0). assert (days_before lp 0 = 0) by (by destruct lp). lia.
Qed.

Lemma month_length_min lp m : 0 <= m < 12 -> 28 <= month_length lp m.
Proof.
  intros Hm. destruct lp; apply month_cases in Hm; repeat destruct Hm as [->|Hm]; subst; vm_compute; discriminate.
Qed.

(** The local times that [parseDate] passes through: the fields are set one after the other, from the present. *)
Definition passed_ymd (now y m d : Z) : list Z :=
  (fun day => day * msPerDay + TimeWithinDay (local now)) <$>
    [MakeDay y (getMonth now) (getDate now); MakeDay y m (getDate now); MakeDay y m d].
Definition read_time (now y m d h mi : Z) : Z :=
  MakeDay y m d * msPerDay + MakeTime h mi (getSeconds now) (getMilliseconds now).

(** Year, month, day set one after the other. *)
Lemma set_ymd_ok now y m d :
  2000 <= y <= 2099 -> valid_ymd y m d -> getDate now <= 28 -> Forall shown (passed_ymd now y m d) ->
  exists t, (t1 ← setFullYear y now; t2 ← setMonth m t1; setDate d t2) = Some t /\
    getFullYear t = y /\ getMonth t = m /\ getDate t = d /\ TimeWithinDay (local t) = TimeWithinDay (local now).
Proof.
  intros Hy Hv Hnow Hsh. apply Forall_cons in Hsh as [S1 [S2 [S3 _]%Forall_cons]%Forall_cons].
  pose proof (getMonth_range now) as Hm0. pose proof (getDate_pos now) as Hd0. destruct Hv as [Hm Hd].
  pose proof (TimeWithinDay_range (local now)) as Ht.
  destruct (set_fields y (getMonth now) (getDate now) (TimeWithinDay (local now)) Hy) as (t1 & E1 & F1 & F2 & F3 & _ & F4);
    [split; [done|]; pose proof (month_length_min (leap y) _ Hm0); lia|done|done|].
  destruct (set_fields y m (getDate now) (TimeWithinDay (local now)) Hy) as (t2 & E2 & G1 & G2 & G3 & _ & G4);
    [split; [done|]; pose proof (month_length_min (leap y) m Hm); lia|done|done|].
  destruct (set_fields y m d (TimeWithinDay (local now)) Hy) as (t3 & E3 & J1 & J2 & J3 & _ & J4); [by split|done|done|].
  exists t3. split; [|done]. unfold setFullYear, setMonth, setDate. rewrite E1. cbn [mbind option_bind].
  rewrite F1, F3, F4, E2. cbn [mbind option_bind]. by rewrite G1, G2, G4, E3.
Qed.

Lemma set_hours_ok t y m d h mi :
  2000 <= y <= 2099 -> valid_ymd y m d -> getFullYear t = y -> getMonth t = m -> getDate t = d ->
  0 <= h < 24 -> 0 <= mi < 60 -> shown (read_time t y m d h mi) ->
  exists t', setHours h mi t = Some t' /\ getFullYear t' = y /\ getMonth t' = m /\ getDate t' = d /\
    getHours t' = h /\ getMinutes t' = mi /\ getSeconds t' = getSeconds t /\ getMilliseconds t' = getMilliseconds t.
Proof.
  intros Hy Hv E1 E2 E3 Hh Hmi Hsh.
  assert (Hs : 0 <= getSeconds t < 60) by (apply Z.mod_pos_bound; done).
  assert (Hms : 0 <= getMilliseconds t < 1000) by (apply Z.mod_pos_bound; done).
  assert (Hday : Day (local t) = MakeDay y m d).
  { rewrite <- E1, <- E2, <- E3. symmetry. apply MakeDay_of_day. }
  unfold setHours. rewrite Hday. set (s := getSeconds t) in *. set (ms := getMilliseconds t) in *.
  destruct (set_fields y m d (MakeTime h mi s ms) Hy Hv) as (t' & E & F1 & F2 & F3 & _ & F4).
  { unfold MakeTime, msPerDay. lia. }
  { exact Hsh. }
  exists t'. split; [done|]. do 3 (split; [done|]). unfold getHours, getMinutes, getSeconds, getMilliseconds. rewrite F4.
  unfold MakeTime. split_and!; Z.to_euclidean_division_equations; lia.
Qed.

End local_lemmas.

(** ** Printed dates *)

(** [YYYY-MM-DD HH:MM] *)
Definition pad2 (n : Z) : jsstr := [48 + n / 10; 48 + n mod 10].
Definition print_date (y m d h mi : Z) : jsstr :=
  js "20" ++ pad2 (y - 2000) ++ js "-" ++ pad2 m ++ js "-" ++ pad2 d ++ js " " ++ pad2 h ++ js ":" ++ pad2 mi.

(** [pad2] is the decimal number of two digits. *)
Lemma pad2_num n : 10 <= n < 100 -> pad2 n = num_to_str n.
Proof.
  intros Hn. assert (Hc : forallb (fun k => bool_decide (pad2 (Z.of_nat k) = num_to_str (Z.of_nat k))) (seq 10 90) = true)
    by (vm_compute; reflexivity).
  rewrite forallb_forall in Hc. specialize (Hc (Z.to_nat n)). rewrite Z2Nat.id in Hc by lia.
  apply (bool_decide_eq_true_1 (pad2 n = num_to_str n)), Hc, in_seq. lia.
Qed.

Lemma pad2_digits n : 0 <= n < 100 -> is_digit (48 + n / 10) = true /\ is_digit (48 + n mod 10) = true.
Proof. intros Hn. rewrite !digit_bounds. Z.to_euclidean_division_equations. lia. Qed.

Lemma field_pad2 lead n :
  0 <= n < 100 -> (10 <= n -> lead (48 + n / 10) = true) -> field lead (pad2 n) = Some n.
Proof.
  intros Hn Hl. unfold field, pad2. destruct (Z.lt_ge_cases n 10) as [Hs|Hs].
  - rewrite Z.div_small, Z.mod_small by lia. cbn. f_equal. lia.
  - pose proof (Z.div_le_lower_bound n 10 1 ltac:(lia) ltac:(lia)).
    assert (Hne : forall X Y : option Z, match 48 + n / 10 with 48 => X | _ => Y end = Y).
    { intros X Y. assert (Hr : 49 <= 48 + n / 10 <= 57) by (pose proof (Z.div_lt_upper_bound n 10 10 ltac:(lia) ltac:(lia)); lia).
      generalize dependent (48 + n / 10). intros z _ Hz.
      assert (z = 49 \/ z = 50 \/ z = 51 \/ z = 52 \/ z = 53 \/ z = 54 \/ z = 55 \/ z = 56 \/ z = 57) as Hc by lia.
      repeat destruct Hc as [->|Hc]; subst; done. }
    rewrite Hne. cbn. rewrite Hl by lia. f_equal. Z.to_euclidean_division_equations. lia.
Qed.

Lemma span_two n s :
  0 <= n < 100 -> match s with c :: _ => is_digit c = false | [] => True end -> span is_digit (pad2 n ++ s) = (pad2 n, s).
Proof.
  intros Hn Hs. destruct (pad2_digits n Hn) as [H1 H2]. unfold pad2. cbn. rewrite H1, H2.
  destruct s as [|c s]; [done|]. cbn. by rewrite Hs.
Qed.

Lemma skip_none c s : c <> 32 -> skip_spaces (c :: s) = c :: s.
Proof. intros Hc. unfold skip_spaces. cbn. by rewrite (proj2 (Z.eqb_neq c 32)). Qed.

Lemma skip_one s : skip_spaces (32 :: s) = skip_spaces s.
Proof. unfold skip_spaces. cbn. by destruct (span _ s). Qed.

Lemma parse_printed_ymd y m d rest :
  2000 <= y <= 2099 -> 1 <= m <= 12 -> 1 <= d <= 31 ->
  match rest with c :: _ => is_digit c = false | [] => True end ->
  parse_ymd (js "20" ++ pad2 (y - 2000) ++ js "-" ++ pad2 m ++ js "-" ++ pad2 d ++ rest) = Some (y, m, d, rest).
Proof.
  intros Hy Hm Hd Hr. destruct (pad2_digits (y - 2000) ltac:(lia)) as [H1 H2].
  change (parse_ymd (js "20" ++ pad2 (y - 2000) ++ js "-" ++ pad2 m ++ js "-" ++ pad2 d ++ rest)) with
    (if is_digit (48 + (y - 2000) / 10) && is_digit (48 + (y - 2000) mod 10) then
       let (ms, r) := span is_digit (pad2 m ++ js "-" ++ pad2 d ++ rest) in
       match r with
       | 45 :: r' =>
           let (ds, rest) := span is_digit r' in
           m ← field (fun d => d =? 49) ms;
           d ← field (fun d => (49 <=? d) && (d <=? 51)) ds;
           Some (2000 + (48 + (y - 2000) / 10 - 48) * 10 + (48 + (y - 2000) mod 10 - 48), m, d, rest)
       | _ => None
       end
     else None).
  rewrite H1, H2. cbn [andb]. rewrite (span_two m) by (lia || done). cbv iota beta.
  change (js "-" ++ pad2 d ++ rest) with (45 :: (pad2 d ++ rest)). cbv iota beta.
  rewrite (span_two d rest) by (lia || done). rewrite !field_pad2; [cbn [mbind option_bind]|lia| |lia|].
  - f_equal. do 3 f_equal. Z.to_euclidean_division_equations. lia.
  - intros H10. rewrite Z.eqb_eq. Z.to_euclidean_division_equations. lia.
  - intros H10. rewrite andb_true_iff, !Z.leb_le. Z.to_euclidean_division_equations. lia.
Qed.

Lemma parse_printed_hm h mi : 0 <= h < 24 -> 0 <= mi < 60 -> parse_hm (js " " ++ pad2 h ++ js ":" ++ pad2 mi) = Some (h, mi).
Proof.
  intros Hh Hm. destruct (pad2_digits h ltac:(lia)) as [H1 H2]. destruct (pad2_digits mi ltac:(lia)) as [H3 H4].
  assert (Hs : skip_spaces (js " " ++ pad2 h ++ js ":" ++ pad2 mi) = pad2 h ++ js ":" ++ pad2 mi).
  { change (js " " ++ pad2 h ++ js ":" ++ pad2 mi) with (32 :: pad2 h ++ js ":" ++ pad2 mi). rewrite skip_one.
    apply skip_none. Z.to_euclidean_division_equations. lia. }
  unfold parse_hm. rewrite Hs. change (js " " ++ pad2 h ++ js ":" ++ pad2 mi) with (32 :: pad2 h ++ js ":" ++ pad2 mi).
  change (pad2 h ++ js ":" ++ pad2 mi) with [48 + h / 10; 48 + h mod 10; 58; 48 + mi / 10; 48 + mi mod 10]. cbv iota beta.
  rewrite H2, H4.
  assert ((48 <=? 48 + h / 10) && (48 + h / 10 <=? 50) = true) as -> by (rewrite andb_true_iff, !Z.leb_le; Z.to_euclidean_division_equations; lia).
  rewrite (proj2 (Z.leb_le 48 (48 + mi / 10))), (proj2 (Z.leb_le (48 + mi / 10) 53)) by (Z.to_euclidean_division_equations; lia).
  cbn. do 2 f_equal; Z.to_euclidean_division_equations; lia.
Qed.

Lemma month_length_max lp m : 0 <= m < 12 -> month_length lp m <= 31.
Proof.
  intros Hm. destruct lp; apply month_cases in Hm; repeat destruct Hm as [->|Hm]; subst; vm_compute; discriminate.
Qed.

(** ** Properties *)

(** C36: [parseDate] reads a printed date back.  For every valid date of the years 2000 to 2099 written as
    [YYYY-MM-DD HH:MM], read on a day of the month up to the 28th, the result has that
    year, month, day, hour and minute in local time, with the seconds and milliseconds of the present; provided that the
    local clock shows that time, and the times passed through while the year, the month and the day are set
    with the present time of day (it skips an hour when it is put forward, see [parse_date_skipped]). *)
Theorem parse_date_roundtrip `{LocalZone} now y m d h mi :
  2000 <= y <= 2099 -> 1 <= m <= 12 -> 1 <= d <= month_length (leap y) (m - 1) -> 0 <= h < 24 -> 0 <= mi < 60 ->
  getDate now <= 28 -> Forall shown (passed_ymd now y (m - 1) d) -> shown (read_time now y (m - 1) d h mi) ->
  exists t, parseDate now (print_date y m d h mi) = Some (Some t) /\
    getFullYear t = y /\ getMonth t = m - 1 /\ getDate t = d /\ getHours t = h /\ getMinutes t = mi /\
    getSeconds t = getSeconds now /\ getMilliseconds t = getMilliseconds now.
Proof.
  intros Hy Hm Hd Hh Hmi Hnow Hsh1 Hsh2. pose proof (month_length_max (leap y) (m - 1) ltac:(lia)).
  assert (Hv : valid_ymd y (m - 1) d) by (split; lia).
  destruct (set_ymd_ok now y (m - 1) d Hy Hv Hnow Hsh1) as (t & E & F1 & F2 & F3 & F4).
  assert (Hst : getSeconds t = getSeconds now /\ getMilliseconds t = getMilliseconds now) by (unfold getSeconds, getMilliseconds; by rewrite F4).
  destruct Hst as [Hs Hms].
  destruct (set_hours_ok t y (m - 1) d h mi Hy Hv F1 F2 F3 Hh Hmi) as (t' & E' & G1 & G2 & G3 & G4 & G5 & G6 & G7).
  { unfold read_time in *. by rewrite Hs, Hms. }
  exists t'. split_and!; [|done|done|done|done|done|congruence|congruence].
  assert (Hsk : skip_spaces (print_date y m d h mi) = print_date y m d h mi) by exact (skip_none 50 _ ltac:(done)).
  unfold parseDate. rewrite Hsk. unfold print_date.
  pose proof (parse_printed_ymd y m d (js " " ++ pad2 h ++ js ":" ++ pad2 mi) Hy Hm ltac:(lia) eq_refl) as Hp.
  rewrite Hp, parse_printed_hm by done. rewrite E. cbn [mbind option_bind]. by rewrite E'.
Qed.

(** The zone of a clock put forward on 31 March 2024 at 01:00. *)
Definition zone1 : LocalZone := summer_zone (@MakeDay 2024 2 31 * msPerDay + 3600000).

Lemma parse_date_roundtrip_witness :
  exists t, @parseDate zone1 1700000000000 (js "2024-02-29 23:59") = Some (Some t) /\ @getDate zone1 t = 29.
Proof.
  destruct (@parse_date_roundtrip zone1 1700000000000 2024 2 29 23 59) as (t & E & _ & _ & E1 & _);
    [lia|lia|vm_compute; split; discriminate|lia|lia|vm_compute; discriminate| | |].
  - apply Forall_cons_2; [|apply Forall_cons_2; [|apply Forall_cons_2; [|apply Forall_nil_2]]].
    + exists (@MakeDay 2024 10 14 * msPerDay + 80000000 - 3600000). vm_compute. reflexivity.
    + exists (@MakeDay 2024 1 14 * msPerDay + 80000000). vm_compute. reflexivity.
    + exists (@MakeDay 2024 1 29 * msPerDay + 80000000). vm_compute. reflexivity.
  - exists (@MakeDay 2024 1 29 * msPerDay + 86360000). vm_compute. reflexivity.
  - exists t. split; [exact E|exact E1].
Defined.

(** A time that the clock skips is read as a later one: [2024-03-31 01:30] is 02:30. *)
Theorem parse_date_skipped :
  exists t, @parseDate zone1 1700000000000 (js "2024-03-31 01:30") = Some (Some t) /\
    @getDate zone1 t = 31 /\ @getHours zone1 t = 2 /\ @getMinutes zone1 t = 30.
Proof. eexists. split; [vm_compute; reflexivity|]. vm_compute. done. Qed.

(** On the last days of a month [parseDate] may read another month: the fields are set one by one, and
    the day of the present overflows a shorter month.  At noon of 31 January 2024 (UTC), [2024-02-10] is read as 10 March
    at noon. *)
Theorem parse_date_overflows :
  let zone := fixed_zone 0 ltac:(lia) in
  let now := @MakeDay 2024 0 31 * msPerDay + 43200000 in
  exists t, @parseDate zone now (js "2024-02-10") = Some (Some t) /\
    @getMonth zone t = 2 /\ @getDate zone t = 10 /\ @getHours zone t = 12.
Proof. eexists. split; [vm_compute; reflexivity|]. vm_compute. done. Qed.

(** What an accepted answer leaves, whether the reloads throw or not. *)
Lemma range_set f t maxSamples w :
  let m := modify (set_maxSamples maxSamples);; resetDateRange f t;; mret true in
  let w1 := exec (guarded "" (resetDateRange f t)) (set_maxSamples maxSamples w) in
  (exists r, guard "" m w = (w1, Ok r) /\ r <> Some false) /\
    theOriginalDates (w_time w1) = mkDates f t /\ theCurrentDates (w_time w1) = mkDates f t /\
    ts_manual (theTimeSlider (w_time w1)) = true /\ isAutoRefresh (w_time w1) = Some (JBool false) /\
    w_maxSamples w1 = maxSamples /\ w_grid w1 = w_grid w /\ w_graphs w1 = w_graphs w.
Proof.
  intros m. set (w0 := set_maxSamples maxSamples w).
  assert (Hm : m w = (resetDateRange f t;; mret true) w0) by reflexivity.
  destruct (resetDateRange_time f t w0) as (T1 & T2 & T3 & T4).
  assert (T5 : w_maxSamples (exec (resetDateRange f t) w0) = maxSamples).
  { transitivity (w_maxSamples w0); [|done]. apply (pres_eq w_maxSamples). intros. pres. }
  assert (T6 : w_grid (exec (resetDateRange f t) w0) = w_grid w).
  { transitivity (w_grid w0); [|done]. apply (pres_eq w_grid). intros. pres. }
  assert (T7 : w_graphs (exec (resetDateRange f t) w0) = w_graphs w).
  { transitivity (w_graphs w0); [|done]. apply (pres_eq w_graphs). intros. pres. }
  cbv zeta. unfold guard, guarded, exec in *. rewrite Hm. unfold mbind, M_bind, guard.
  destruct (resetDateRange f t w0) as [w1 [[]|e]]; cbn [fst] in *.
  - split; [|done]. exists (Some true). split; [reflexivity|done].
  - split; [|done]. exists None. split; [reflexivity|done].
Qed.

(** The page with an error message, and nothing else: the dialog is shown and the progress bar hidden. *)
Definition with_message (msg : string) (w : World) : World :=
  set_ui (fun u => mkUi 0 (ui_tokens u) (ui_nulled u) (ui_errors u ++ [EText (js msg)]) (ui_dialog u))
    (set_io (fun s => mkSys (sy_now s) (sy_hidden s) (sy_hash s) (sy_timers s) (sy_next_timer s) (sy_xhrs s) (sy_next_xhr s)
      (sy_log s ++ [EDom ".dialog.error" "prependTo" [AStr (js "body")]; EDom "div#progressbar" "show" []; EAnimate "0" AnimHide])) w).

Lemma message_shown msg w : htmlescape (js msg) = js msg -> exec (errorText msg) w = with_message msg w.
Proof.
  intros Hm. change (exec (errorText msg) w) with
    (exec (emit (EAnimate "0" AnimHide)) (exec (dom "div#progressbar" "show" []) (exec (set_nesting 0)
      (exec (dom ".dialog.error" "prependTo" [AStr (js "body")]) (exec (show_error (EText (js msg))) w))))).
  unfold show_error. rewrite Hm. unfold with_message, set_io, set_ui, set_sys, exec, modify, dom, emit, set_nesting.
  cbn -[js]. unfold set_ui, set_sys. cbn -[js]. by rewrite <- !app_assoc.
Qed.

(** A rejected answer leaves its message. *)
Lemma daterange_rejected `{LocalZone} from to maxSamples msg w :
  htmlescape (js msg) = js msg -> daterange_answer from to maxSamples w = (errorText msg;; mret false) w ->
  exec (daterange_submit from to maxSamples) w = with_message msg w.
Proof.
  intros Hmsg Hm. rewrite <- message_shown by done. unfold daterange_submit. set (w1 := exec (errorText msg) w).
  assert (Hw1 : daterange_answer from to maxSamples w = (w1, Ok false)) by exact Hm.
  unfold exec. rewrite (guarded_Ok _ _ w w1); [done|]. by rewrite (bind_Ok _ _ _ _ _ (guard_Ok _ _ _ _ _ Hw1)).
Qed.

(** C35: the dialog for a range of dates.  When a date cannot be read, when the end is not after the start or when the number of
    samples is not made of digits, the page is exactly as it was with one message more, the one for the first of these
    problems, and the dialog stays open.  Otherwise the range is set as it was entered, the slider is in manual mode, the
    automatic refresh off, the number of samples the one entered or none when it is blank, the graphs and what they show as
    they were, and the dialog closes; the rest is what [resetDateRange] does. *)
Theorem daterange_checked `{LocalZone} from to maxSamples w :
  let w' := exec (daterange_submit from to maxSamples) w in
  match parseDate (sy_now (w_sys w)) from, parseDate (sy_now (w_sys w)) to with
  | None, _ => w' = with_message "The start date is not valid." w
  | Some _, None => w' = with_message "The end date is not valid." w
  | Some f, Some t =>
      let late := exists x y, f = Some x /\ t = Some y /\ y <= x in
      let digits := Forall (fun c => 48 <= c <= 57) maxSamples in
      (late -> w' = with_message "The end date must be after the start date." w) /\
      (~ late -> ~ digits -> w' = with_message "Max sample count must be a positive integer, or left blank." w) /\
      (~ late -> digits ->
         theOriginalDates (w_time w') = mkDates f t /\ theCurrentDates (w_time w') = mkDates f t /\
         ts_manual (theTimeSlider (w_time w')) = true /\ isAutoRefresh (w_time w') = Some (JBool false) /\
         w_maxSamples w' = parseInt maxSamples /\ (maxSamples = [] -> w_maxSamples w' = None) /\
         (forall n, 0 <= n -> maxSamples = num_to_str n -> w_maxSamples w' = Some n) /\
         w_grid w' = w_grid w /\ w_graphs w' = w_graphs w /\ ui_dialog (w_ui w') = None /\
         w' = exec dialog_close (exec (guarded "" (resetDateRange f t)) (set_maxSamples (parseInt maxSamples) w)))
  end.
Proof.
  intros w'. set (now := sy_now (w_sys w)).
  pose proof (fun msg (E : htmlescape (js msg) = js msg) => daterange_rejected from to maxSamples msg w E) as Hrej. fold w' in Hrej.
  pose proof (eq_refl (daterange_answer from to maxSamples w)) as Ha. unfold daterange_answer in Ha at 2.
  rewrite (bind_Ok _ _ w w now) in Ha by done.
  destruct (parseDate now from) as [f|]; [|by apply Hrej]. destruct (parseDate now to) as [t|]; [|by apply Hrej].
  intros late digits.
  assert (Hlate : late <-> date_geb f t = true).
  { unfold late, date_geb. destruct f as [x|], t as [y|]; try (split; [by intros (? & ? & ? & ? & ?)|done]). rewrite Z.leb_le.
    split; [by intros (? & ? & [= <-] & [= <-] & ?)|intros ?; eauto]. }
  assert (Hdig : digits <-> forallb is_digit maxSamples = true).
  { unfold digits. rewrite Forall_forall, forallb_forall. split; intros Hf x Hx; [apply digit_bounds, Hf, list_elem_of_In, Hx|].
    apply digit_bounds, Hf, list_elem_of_In, Hx. }
  destruct (date_geb f t) eqn:Eg.
  { split; [intros _; by apply Hrej|]. assert late by (by apply Hlate). split; done. }
  assert (Hnl : ~ late) by (rewrite Hlate; discriminate).
  split; [done|]. destruct (forallb is_digit maxSamples) eqn:Ed.
  - assert digits by (by apply Hdig). split; [done|]. intros _ _.
    destruct (range_set f t (parseInt maxSamples) w) as ((r & Hg & Hr) & R1 & R2 & R3 & R4 & R5 & R6 & R7). set (w1 := exec (guarded _ _) _) in *.
    assert (Hw' : w' = exec dialog_close w1).
    { unfold w', daterange_submit. unfold exec. rewrite (guarded_Ok _ _ w (exec dialog_close w1)); [done|].
      rewrite (bind_Ok _ _ w w1 r).
      - rewrite bool_decide_false by done. done.
      - rewrite <- Hg. unfold guard. by rewrite Ha. }
    rewrite Hw'. change (w_maxSamples (exec dialog_close w1)) with (w_maxSamples w1).
    split; [done|]. do 3 (split; [done|]). rewrite R5. split; [done|].
    split; [by intros -> |]. split; [intros n Hn ->; by apply parseInt_num_to_str|]. done.
  - split; [intros _ _; by apply Hrej|]. intros _ Hd%Hdig. discriminate.
Qed.

End Dates.
