(* ===== verification/Plot.v ===== *)
(** * Painting a graph ([GraphSurface.repaint] of [files/graph.js])

    The data of the last answer becomes rows of cells, one row per plot time and
    one cell per series, with the value range, the annotations and the options
    that are handed to Dygraph.  Dygraph itself is outside: its construction is
    an entry of the log with the graph, the rows and the options.  The texts made from numbers (annotations, summary)
    are kept as the numbers. *)

From stdpp Require Import sets.
From S2P Require Import Prelude JsString JsObject JsNumber Json World Shell Loader Grid TimeRange.
Import Shell Interval Grid TimeRange.
Import (hints) Loader.
From Stdlib Require Import SpecFloat.

Local Open Scope Z_scope.

Module Plot.

(** ** The plot times *)

(** The loop [while (i < stop) { plotTimes.push(i * 1000); i += interval; }] in seconds;
    [None] when the fuel runs out. *)
Fixpoint times_loop (fuel : nat) (i stop interval : Z) : option (list Z) :=
  if i <? stop then
    match fuel with
    | O => None
    | S fuel' => cons (i * 1000) <$> times_loop fuel' (i + interval) stop interval
    end
  else Some [].

(** A property of the data that is a number. *)
Definition number_of (d : RenderData) (k : string) : option Z :=
  match obj_get d (js k) with Some (Some (DNum n)) => Some n | _ => None end.

(** Without numbers the comparisons are false; without an interval [i] is [NaN] after the first step.
    A positive interval needs at most one step per second. *)
Definition plotTimes (d : RenderData) : option (list Z) :=
  match number_of d "start", number_of d "stop" with
  | Some start, Some stop =>
      match number_of d "interval" with
      | Some interval => times_loop (Z.to_nat (stop - start)) start stop interval
      | None => Some (if start <? stop then [start * 1000] else [])
      end
  | _, _ => Some []
  end.

(** ** The cells of a series *)

(** The annotation state: the least [min] and the greatest [max] seen, with the plot times at which they were seen. *)
Record Ann := mkAnn { an_min : num; an_min_ts : option Z; an_max : num; an_max_ts : option Z }.

Definition pow100 : num := num_of_Z (2 ^ 100).
Definition ann0 : Ann := mkAnn pow100 None (nopp pow100) None.

Definition see_bucket (t : Z) (b : Bucket) (a : Ann) : Ann :=
  let a := if nlt (bk_min b) (an_min a) then mkAnn (bk_min b) (Some t) (an_max a) (an_max_ts a) else a in
  if nlt (an_max a) (bk_max b) then mkAnn (an_min a) (an_min_ts a) (bk_max b) (Some t) else a.

(** [while (bidx < buckets.length && buckets[bidx].time == 0) bidx++] *)
Fixpoint skip_zero (bs : list Bucket) : list Bucket :=
  match bs with
  | b :: bs' => if bk_time b =? 0 then skip_zero bs' else bs
  | [] => []
  end.

(** The loop over the plot times: the bucket pushed at each of them. *)
Fixpoint place (times : list Z) (bs : list Bucket) (a : Ann) : list (option Bucket) * Ann :=
  match times with
  | [] => ([], a)
  | t :: times' =>
      match skip_zero bs with
      | [] => let (r, a') := place times' [] a in (None :: r, a')
      | b :: bs' =>
          let a := see_bucket t b a in
          if bk_time b * 1000 =? t then let (r, a') := place times' bs' a in (Some b :: r, a')
          else let (r, a') := place times' (b :: bs') a in (None :: r, a')
      end
  end.

(** What [pushfn] pushes. *)
Definition push_cell (f : fmt) (b : option Bucket) : cell :=
  match f, b with
  | (noBars | stacked | area), None => Cell1 nNaN
  | (noBars | stacked | area), Some b => Cell1 (bk_avg b)
  | errorBars, None => Cell2 nNaN nNaN
  | errorBars, Some b => Cell2 (bk_avg b) (bk_sdev b)
  | customBars, None => Cell3 nNaN nNaN nNaN
  | customBars, Some b => Cell3 (bk_min b) (bk_avg b) (bk_max b)
  end.

(** ** The range of values *)

Record Extent := mkExt { ex_min : num; ex_max : num; ex_minVal : num; ex_got : bool }.

Definition big : num := num_of_Z (2 ^ 100 - 1).
Definition ext0 : Extent := mkExt big (nopp big) big false.

(** The interval a bucket takes on the value axis, and the value that decides the clamp. *)
Definition low (f : fmt) (b : Bucket) : num :=
  match f with
  | noBars | stacked | area => bk_avg b
  | errorBars => nsub (bk_avg b) (bk_sdev b)
  | customBars => bk_min b
  end.
Definition high (f : fmt) (b : Bucket) : num :=
  match f with
  | noBars | stacked | area => bk_avg b
  | errorBars => nadd (bk_avg b) (bk_sdev b)
  | customBars => bk_max b
  end.
Definition base (f : fmt) (b : Bucket) : num :=
  match f with customBars => bk_min b | _ => bk_avg b end.

Definition push_extent (f : fmt) (e : Extent) (b : option Bucket) : Extent :=
  match b with
  | None => e
  | Some b => mkExt (math_min (low f b) (ex_min e)) (math_max (high f b) (ex_max e))
                (math_min (base f b) (ex_minVal e)) true
  end.

(** The sums of a stacked graph, by index: an entry without a bucket stays [undefined]. *)
Fixpoint add_sums (bs : list Bucket) (sums : list (option num)) : list (option num) :=
  match bs, sums with
  | [], _ => sums
  | b :: bs', [] => Some (bk_avg b) :: add_sums bs' []
  | b :: bs', None :: sums' => Some (bk_avg b) :: add_sums bs' sums'
  | b :: bs', Some v :: sums' => Some (nadd v (bk_avg b)) :: add_sums bs' sums'
  end.

(** [Math.max(value, maximum)] over the sums; [undefined] is [NaN] there. *)
Definition stacked_max (n : nat) (series : list (list Bucket)) : num :=
  foldl (fun m v => math_max (default nNaN v) m) (nsub (nopp pow100) (num_of_Z 1))
    (foldl (fun sums bs => add_sums bs sums) (replicate n None) series).

Definition num_of_ratio (a b : Z) : num := ndiv (num_of_Z a) (num_of_Z b).

(** The slop above and below, and the clamp at 0. *)
Definition value_range (e : Extent) : num * num :=
  let '(mn, mx) :=
    if ex_got e then
      let range_slop := nmul (nsub (ex_max e) (ex_min e)) (num_of_ratio 5 100) in
      let range_slop := if neq range_slop (num_of_Z 0) then num_of_ratio 1 2 else range_slop in
      (nsub (ex_min e) range_slop, nadd (ex_max e) (nmul range_slop (num_of_Z 2)))
    else (num_of_Z 0, num_of_ratio 11 10) in
  (if nle (num_of_Z 0) (ex_minVal e) && nlt mn (num_of_Z 0) then num_of_Z 0 else mn, mx).

(** ** The plot *)

Record PlotData := mkPlot {
  pl_times : list Z;
  pl_labels : list jsstr;                 (** after ["time"] *)
  pl_series : list (list cell);           (** one list of cells per label *)
  pl_range : num * num;
  pl_annotations : list Annotation;
  pl_maxval : num; pl_maxtime : option Z; pl_minval : num; pl_mintime : option Z;
  pl_format : fmt }.

(** The series of the data in enumeration order; [None] for a [TypeError], when a
    counter is missing from the answer. *)
Definition series_of_data (d : RenderData) : option (list (jsstr * list Bucket)) :=
  foldr (fun k acc =>
    match obj_get d k with
    | Some (Some (DSeries bs)) => cons (k, bs) <$> acc
    | Some (Some _) => acc
    | _ => None
    end) (Some []) (obj_keys d).

(** The graph's least and greatest values over the series, with their times. *)
Record Summary := mkSummary { su_max : num; su_maxtime : option Z; su_min : num; su_mintime : option Z }.
Definition summary0 : Summary := mkSummary (nopp big) None big None.
Definition summarize (s : Summary) (a : Ann) : Summary :=
  let mn := math_min (an_min a) (su_min s) in
  let mx := math_max (an_max a) (su_max s) in
  mkSummary mx (if neq mx (an_max a) then an_max_ts a else su_maxtime s)
            mn (if neq mn (an_min a) then an_min_ts a else su_mintime s).

Definition plot_series (times : list Z) (series : list (jsstr * list Bucket)) : list (list (option Bucket) * Ann) :=
  (fun p => place times p.2 ann0) <$> series.

Definition annotations_of (key : jsstr) (a : Ann) : list Annotation :=
  [mkAnnotation key (an_min_ts a) (an_min a); mkAnnotation key (an_max_ts a) (an_max a)].

(** The extent of all cells, in the order they are pushed. *)
Definition extent_of (f : fmt) (cells : list (list (option Bucket))) : Extent :=
  foldl (foldl (push_extent f)) ext0 cells.

Definition make_plot (f : fmt) (times : list Z) (series : list (jsstr * list Bucket)) : PlotData :=
  let placed := plot_series times series in
  let e := extent_of f placed.*1 in
  let e := match f with
           | stacked => mkExt (ex_min e) (stacked_max (length times) series.*2) (ex_minVal e) (ex_got e)
           | _ => e
           end in
  let su := foldl summarize summary0 placed.*2 in
  mkPlot times series.*1 ((fun r : list (option Bucket) => push_cell f <$> r) <$> placed.*1) (value_range e)
    (concat (zip_with (fun k p => annotations_of k p.2) series.*1 placed))
    (su_max su) (su_maxtime su) (su_min su) (su_mintime su) f.

(** The rows: at each plot time, the cells that were pushed there, one per series. *)
Definition pl_rows (p : PlotData) : list (Z * list cell) :=
  imap (fun j t => (t, omap (fun cells => cells !! j) (pl_series p))) (pl_times p).

(** ** The parameters of the Dygraph *)

Definition params_of (p : PlotData) : Params :=
  let labels := js "time" :: pl_labels p in
  let has f := bool_decide (pl_format p = f) in
  mkParams (pl_range p) labels (bool_decide (2 < length labels)%nat) (has errorBars) (has customBars) (has stacked) (has area).

(** The interaction model that all graphs share: the x range at the last mouse up, by the
    text of the graph.  The text of a Dygraph is the library's. *)
Section interaction.
Variable text_of : nat -> jsstr.

Definition interaction_model : list (jsstr * (Z * Z)) := [].
Definition model_mouseup (g : nat) (xAxisRange : Z * Z) (lastDomain : list (jsstr * (Z * Z))) : list (jsstr * (Z * Z)) :=
  obj_set lastDomain (text_of g) xAxisRange.
(** The [zoomCallback] of a graph. *)
Definition on_zoom (lastDomain : list (jsstr * (Z * Z))) (g : nat) (minX maxX : Z) : M unit :=
  zoomCallback minX maxX (obj_get lastDomain (text_of g)).
End interaction.

(** [repaint]: an endless loop is outside the model. *)
Definition repaint_body (g : nat) : M unit :=
  size ← get w_size;
  dom ".graphdiv" "css" [ANum 0; ANum 10];;
  dom ".graphdiv" "width" [ANum (sz_width size - 30)];;
  dom ".graphdiv" "height" [ANum (sz_height size - 60)];;
  s ← surface g;
  match plotTimes (gs_lastRenderData s) with
  | None => throw (Outside "the loop over the plot times does not end")
  | Some [] => mret ()
  | Some times =>
      match series_of_data (gs_lastRenderData s) with
      | None => throw TypeError
      | Some series =>
          let p := make_plot (gs_format s) times series in
          fade "1";;
          destroyDygraph g;;
          update g (set_dygraph true);;
          emit (EDygraph g (pl_rows p) (params_of p));;
          emit (EAnnotate g (pl_annotations p));;
          emit (ESummary g (pl_maxval p) (pl_maxtime p) (pl_minval p) (pl_mintime p))
      end
  end.

Definition repaint (g : nat) : M unit := guarded "GraphSurface_repaint" (repaint_body g).

(** The closures given to [setTimeout] by [renderData] and [repaintAll]. *)
Definition paint_visible (g : nat) : M unit :=
  hidden ← pageIsHidden;
  if (hidden : bool) then mret () else repaint g.

(** [model.dblclick]: before Dygraph's own handler. *)
Definition dblclick : M unit := guarded "" zoomOutIntervals.

(** ** Lemmas *)

Lemma times_loop_grid fuel i stop interval :
  0 < interval -> stop - i <= Z.of_nat fuel ->
  exists l, times_loop fuel i stop interval = Some l /\
    forall t, t ∈ l <-> exists k, 0 <= k /\ t = (i + k * interval) * 1000 /\ i + k * interval < stop.
Proof.
  intros Hi. revert i; induction fuel as [|fuel IH]; intros i Hf; cbn [times_loop]; destruct (Z.ltb_spec i stop); try lia.
  - exists []. split; [done|]. intros t. rewrite elem_of_nil. split; [done|]. intros (k & Hk & _ & Hl). nia.
  - destruct (IH (i + interval)) as (l & E & Hl); [lia|]. rewrite E. eexists. split; [done|]. intros t.
    rewrite elem_of_cons, Hl. split.
    + intros [->|(k & Hk & -> & Hlt)]; [exists 0; lia|]. exists (k + 1). split_and!; nia.
    + intros (k & Hk & -> & Hlt). destruct (Z.eq_dec k 0) as [->|]; [left; lia|]. right. exists (k - 1). split_and!; nia.
  - exists []. split; [done|]. intros t. rewrite elem_of_nil. split; [done|]. intros (k & Hk & _ & Hl). nia.
Qed.

Lemma times_loop_sorted fuel i stop interval l :
  0 < interval -> times_loop fuel i stop interval = Some l -> StronglySorted Z.lt l /\ Forall (fun t => i * 1000 <= t) l.
Proof.
  intros Hi. revert i l; induction fuel as [|fuel IH]; intros i l; cbn [times_loop]; destruct (i <? stop); try done;
    try (intros [= <-]; split; constructor).
  destruct (times_loop fuel (i + interval) stop interval) as [l'|] eqn:E; [|done]. intros [= <-].
  destruct (IH _ _ E) as [H1 H2]. split; constructor; try done; try lia; (eapply Forall_impl; [exact H2|]; cbn; lia).
Qed.

Lemma times_loop_endless fuel i stop interval : interval <= 0 -> i < stop -> times_loop fuel i stop interval = None.
Proof.
  intros Hi. revert i; induction fuel as [|fuel IH]; intros i Hs; cbn [times_loop]; rewrite (proj2 (Z.ltb_lt i stop)) by done; [done|].
  by rewrite IH by lia.
Qed.

Lemma skip_zero_nonzero bs : Forall (fun b => bk_time b <> 0) bs -> skip_zero bs = bs.
Proof. intros H. destruct H as [|b bs Hb _]; [done|]. cbn. by rewrite (proj2 (Z.eqb_neq _ _)). Qed.

Lemma skip_zero_spec bs : exists pre, bs = pre ++ skip_zero bs /\ Forall (fun b => bk_time b = 0) pre /\
  match skip_zero bs with b :: _ => bk_time b <> 0 | [] => True end.
Proof.
  induction bs as [|b bs (pre & E & Hp & Hn)]; [by exists []|]. cbn. destruct (Z.eqb_spec (bk_time b) 0).
  - exists (b :: pre). split_and!; [cbn; by rewrite <- E|by constructor|done].
  - by exists [].
Qed.

Lemma place_length times bs a : length (place times bs a).1 = length times.
Proof.
  revert bs a; induction times as [|t times IH]; intros bs a; [done|]. cbn [place].
  destruct (skip_zero bs) as [|b bs'].
  - specialize (IH [] a). destruct (place times [] a). cbn in *. lia.
  - destruct (_ =? t).
    + specialize (IH bs' (see_bucket t b a)). destruct (place times bs' _). cbn in *. lia.
    + specialize (IH (b :: bs') (see_bucket t b a)). destruct (place times (b :: bs') _). cbn in *. lia.
Qed.

(** What is placed does not depend on the annotations. *)
Definition placed (times : list Z) (bs : list Bucket) : list (option Bucket) := (place times bs ann0).1.

Lemma place_ann times bs a : (place times bs a).1 = placed times bs.
Proof.
  unfold placed. generalize ann0 as a'. intros a'. revert bs a a'; induction times as [|t times IH]; intros bs a a'; [done|]. cbn [place].
  destruct (skip_zero bs) as [|b bs'].
  - specialize (IH [] a a'). destruct (place times [] a), (place times [] a'). cbn in *. congruence.
  - destruct (_ =? t).
    + specialize (IH bs' (see_bucket t b a) (see_bucket t b a')).
      destruct (place times bs' (see_bucket t b a)), (place times bs' (see_bucket t b a')). cbn in *. congruence.
    + specialize (IH (b :: bs') (see_bucket t b a) (see_bucket t b a')).
      destruct (place times (b :: bs') (see_bucket t b a)), (place times (b :: bs') (see_bucket t b a')). cbn in *. congruence.
Qed.

Lemma placed_cons t times bs :
  placed (t :: times) bs = match skip_zero bs with
                           | [] => None :: placed times []
                           | b :: bs' => if bk_time b * 1000 =? t then Some b :: placed times bs'
                                         else None :: placed times (b :: bs')
                           end.
Proof.
  unfold placed at 1. cbn [place]. destruct (skip_zero bs) as [|b bs'].
  - pose proof (place_ann times [] ann0). destruct (place times [] ann0). cbn in *. congruence.
  - destruct (_ =? t).
    + pose proof (place_ann times bs' (see_bucket t b ann0)). destruct (place times bs' _). cbn in *. congruence.
    + pose proof (place_ann times (b :: bs') (see_bucket t b ann0)). destruct (place times (b :: bs') _). cbn in *. congruence.
Qed.

(** The bucket with a time, among those that have one. *)
Fixpoint bucket_at (t : Z) (bs : list Bucket) : option Bucket :=
  match bs with
  | [] => None
  | b :: bs' => if negb (bk_time b =? 0) && (bk_time b * 1000 =? t) then Some b else bucket_at t bs'
  end.

Definition later (a b : Bucket) : Prop := bk_time a < bk_time b.

(** Buckets with increasing times, all on the grid of increasing times. *)
Record aligned (times : list Z) (bs : list Bucket) : Prop := {
  al_times : StronglySorted Z.lt times;
  al_order : StronglySorted later (List.filter (fun b => negb (bk_time b =? 0)) bs);
  al_grid : forall b, b ∈ bs -> bk_time b <> 0 -> (bk_time b * 1000) ∈ times }.

Definition real (bs : list Bucket) : list Bucket := List.filter (fun b => negb (bk_time b =? 0)) bs.

Lemma placed_real times bs : placed times bs = placed times (real bs).
Proof.
  revert bs; induction times as [|t times IH]; intros bs; [done|]. rewrite !placed_cons.
  assert (Hr : Forall (fun b => bk_time b <> 0) (real bs)).
  { apply Forall_forall. intros b Hb%list_elem_of_In. unfold real in Hb. apply filter_In in Hb as [_ Hb].
    apply negb_true_iff, Z.eqb_neq in Hb. done. }
  rewrite (skip_zero_nonzero (real bs) Hr).
  assert (Hs : real bs = match skip_zero bs with [] => [] | b :: bs' => b :: real bs' end).
  { clear. induction bs as [|b bs IH]; [done|]. cbn. destruct (bk_time b =? 0) eqn:E; [exact IH|done]. }
  rewrite Hs. destruct (skip_zero bs) as [|b bs'] eqn:Es; [done|].
  destruct (_ =? t); f_equal; [apply IH|]. rewrite IH. f_equal.
  destruct (skip_zero_spec bs) as (_ & _ & _ & Hn). rewrite Es in Hn. unfold real at 1. cbn.
  by rewrite (proj2 (Z.eqb_neq _ _)).
Qed.

Lemma bucket_at_real t bs : bucket_at t bs = bucket_at t (real bs).
Proof.
  induction bs as [|b bs IH]; [done|]. cbn. unfold real. cbn. destruct (bk_time b =? 0) eqn:E; cbn; [done|].
  rewrite E. cbn. destruct (_ =? t); [done|exact IH].
Qed.

Lemma bucket_at_none t bs : Forall (fun b => t < bk_time b * 1000) bs -> bucket_at t bs = None.
Proof.
  induction 1 as [|b bs Hb _ IH]; [done|]. cbn. rewrite (proj2 (Z.eqb_neq (bk_time b * 1000) t)) by lia. by rewrite andb_false_r.
Qed.

Lemma placed_aligned_real times bs :
  StronglySorted Z.lt times -> StronglySorted later bs -> Forall (fun b => bk_time b <> 0) bs ->
  (forall b, b ∈ bs -> (bk_time b * 1000) ∈ times) ->
  placed times bs = (fun t => bucket_at t bs) <$> times.
Proof.
  intros Ht. revert bs; induction Ht as [|t times Ht IH Hall]; intros bs Hs Hnz Hg; [done|].
  rewrite placed_cons, skip_zero_nonzero, fmap_cons by done. rewrite Forall_forall in Hall.
  destruct Hs as [|b bs Hs Hb].
  { f_equal. apply IH; [constructor|constructor|by intros b ?%not_elem_of_nil]. }
  apply Forall_cons in Hnz as [Hz Hnz]. cbn [bucket_at]. rewrite (proj2 (Z.eqb_neq (bk_time b) 0)) by done. cbn [negb andb].
  rewrite Forall_forall in Hb.
  destruct (Z.eqb_spec (bk_time b * 1000) t) as [E|Hne].
  - f_equal. rewrite IH; [|done|done|].
    + apply list_fmap_ext. intros i u Hu. apply list_elem_of_lookup_2, Hall in Hu.
      rewrite (proj2 (Z.eqb_neq (bk_time b * 1000) u)) by lia. done.
    + intros c Hc. specialize (Hg c ltac:(by right)). apply elem_of_cons in Hg as [Hg|Hg]; [|done].
      specialize (Hb c Hc). unfold later in Hb. lia.
  - assert (Hlt : t < bk_time b * 1000).
    { specialize (Hg b ltac:(left)). apply elem_of_cons in Hg as [Hg|Hg]; [done|]. by apply Hall. }
    rewrite bucket_at_none.
    + f_equal. rewrite IH; [|by constructor; [|apply Forall_forall]|by constructor|].
      * apply list_fmap_ext. intros i u _. cbn. by rewrite (proj2 (Z.eqb_neq (bk_time b) 0)).
      * intros c Hc. specialize (Hg c Hc). apply elem_of_cons in Hg as [Hg|Hg]; [|done].
        apply elem_of_cons in Hc as [->|Hc]; [done|]. specialize (Hb c Hc). unfold later in Hb. lia.
    + apply Forall_forall. intros c Hc. specialize (Hb c Hc). unfold later in Hb. lia.
Qed.

Lemma placed_aligned times bs : aligned times bs -> placed times bs = (fun t => bucket_at t bs) <$> times.
Proof.
  intros [Ht Ho Hg]. rewrite placed_real.
  assert (Hnz : Forall (fun b => bk_time b <> 0) (real bs)).
  { apply Forall_forall. intros b Hb%list_elem_of_In. apply filter_In in Hb as [_ Hb].
    by apply negb_true_iff, Z.eqb_neq in Hb. }
  rewrite placed_aligned_real; [|done|done|done|].
  - apply list_fmap_ext. intros j t _. by rewrite <- bucket_at_real.
  - intros b Hb. rewrite Forall_forall in Hnz. pose proof (Hnz b Hb). apply Hg; [|done].
    apply list_elem_of_In, filter_In in Hb as [Hb _]. by apply list_elem_of_In.
Qed.

(** ** The extent *)











(** ** The rows *)

Lemma omap_column {A} (columns : list (list A)) j :
  Forall (fun col => (j < length col)%nat) columns ->
  length (omap (fun col => col !! j) columns) = length columns /\
  forall i col, columns !! i = Some col -> omap (fun col => col !! j) columns !! i = col !! j.
Proof.
  induction 1 as [|col columns Hc _ [IH1 IH2]]; [done|]. destruct (lookup_lt_is_Some_2 col j Hc) as [x Hx]. cbn.
  rewrite Hx. cbn. split; [by rewrite IH1|]. intros [|i] col' Hi; [by injection Hi as ->|]. by apply IH2.
Qed.

(** The row at a plot time has, for each series, the cell of the bucket that was placed there. *)
Lemma plot_row f times series j t :
  times !! j = Some t ->
  exists cells, pl_rows (make_plot f times series) !! j = Some (t, cells) /\ length cells = length series /\
    forall i key bs, series !! i = Some (key, bs) -> cells !! i = push_cell f <$> placed times bs !! j.
Proof.
  intros Ht. unfold pl_rows. rewrite list_lookup_imap. cbn [pl_times make_plot pl_series]. rewrite Ht. cbn [fmap option_fmap option_map].
  set (columns := (fun r : list (option Bucket) => push_cell f <$> r) <$> (plot_series times series).*1).
  assert (Hcol : Forall (fun col => (j < length col)%nat) columns).
  { apply Forall_forall. intros col. unfold columns, plot_series. rewrite <- !list_fmap_compose. intros ([key bs] & -> & _)%list_elem_of_fmap.
    cbn. rewrite length_fmap, place_length. by eapply lookup_lt_Some. }
  destruct (omap_column columns j Hcol) as [H1 H2]. eexists. split; [done|]. split.
  - rewrite H1. unfold columns, plot_series. by rewrite !length_fmap.
  - intros i key bs Hi. rewrite (H2 i (push_cell f <$> placed times bs)); [by rewrite list_lookup_fmap|].
    unfold columns, plot_series. by rewrite !list_lookup_fmap, Hi.
Qed.

Lemma rows_times f times series : (pl_rows (make_plot f times series)).*1 = times.
Proof.
  unfold pl_rows. cbn [pl_times make_plot]. apply list_eq. intros j. rewrite list_lookup_fmap, list_lookup_imap.
  by destruct (times !! j).
Qed.

(** ** The sums of a stacked graph *)

Lemma add_sums_lookup bs sums i :
  (length bs <= i)%nat -> (i < length sums)%nat -> add_sums bs sums !! i = sums !! i.
Proof.
  revert sums i; induction bs as [|b bs IH]; intros sums i Hb Hs; [by destruct sums|]. cbn in Hb.
  destruct sums as [|v sums]; [cbn in Hs; lia|]. destruct i as [|i]; [lia|]. cbn in Hs.
  destruct v; cbn; apply IH; lia.
Qed.

Lemma add_sums_length bs sums : (length sums <= length (add_sums bs sums))%nat.
Proof.
  revert sums; induction bs as [|b bs IH]; intros [|v sums]; cbn; try lia. destruct v; cbn; specialize (IH sums); lia.
Qed.

Lemma sums_hole series sums i :
  Forall (fun bs => (length bs <= i)%nat) series -> sums !! i = Some None ->
  foldl (fun sums bs => add_sums bs sums) sums series !! i = Some None.
Proof.
  intros Hs. revert sums; induction Hs as [|bs series Hb _ IH]; intros sums Hi; [done|]. cbn. apply IH.
  rewrite add_sums_lookup; [done|done|by eapply lookup_lt_Some].
Qed.

Lemma max_nan_stays l m : is_nan m = true -> is_nan (foldl (fun m v => math_max (default nNaN v) m) m l) = true.
Proof.
  revert m; induction l as [|v l IH]; intros m Hm; [done|]. cbn. apply IH. rewrite math_max_nan, Hm. apply orb_true_r.
Qed.

Lemma max_hole l m i : l !! i = Some None -> is_nan (foldl (fun m v => math_max (default nNaN v) m) m l) = true.
Proof.
  revert m i; induction l as [|v l IH]; intros m i Hi; [done|]. cbn. destruct i as [|i]; [|by eapply IH].
  injection Hi as ->. apply max_nan_stays. by rewrite math_max_nan.
Qed.

Lemma range_nan e : ex_got e = true -> is_nan (ex_max e) = true -> is_nan (value_range e).2 = true.
Proof. intros Hg Hn. unfold value_range. rewrite Hg. cbn [snd]. by destruct (ex_max e). Qed.

(** ** What painting changes *)

(** A surface but for its Dygraph. *)
Definition unpainted (s : GraphSurface) : GraphSurface := set_dygraph false s.

Lemma pres_repaint (P : World -> Prop) `{!Stable P set_io} `{!Stable P set_ui} g :
  (forall b, preserves P (update g (set_dygraph b))) -> preserves P (repaint g).
Proof.
  intros Hu. unfold repaint, repaint_body, destroyDygraph, surface, fade. presg; apply Hu.
Qed.

Lemma unpainted_alter b (g : nat) (l : list GraphSurface) : unpainted <$> alter (set_dygraph b) g l = unpainted <$> l.
Proof.
  apply list_eq. intros i. rewrite !list_lookup_fmap. destruct (decide (i = g)) as [->|Hne].
  - rewrite list_lookup_alter_eq. by destruct (l !! g).
  - by rewrite list_lookup_alter_ne.
Qed.

Lemma repaint_unpainted g w : unpainted <$> w_graphs (exec (repaint g) w) = unpainted <$> w_graphs w.
Proof.
  apply (pres_eq (fun w => unpainted <$> w_graphs w)). intros l. apply pres_repaint; [exact _|exact _|].
  intros b w0 Hw0. cbn. by rewrite unpainted_alter.
Qed.

Lemma grid_ok_unpainted w w' :
  w_grid w' = w_grid w -> unpainted <$> w_graphs w' = unpainted <$> w_graphs w -> grid_ok w -> grid_ok w'.
Proof.
  intros Eg Eu [H1 H2 H3 H4]. constructor; rewrite Eg; try done.
  - apply (f_equal length) in Eu. rewrite !length_fmap in Eu. by rewrite Eu.
  - intros g s Hg Hs. apply (f_equal (fun l => l !! g)) in Eu. rewrite !list_lookup_fmap, Hs in Eu.
    destruct (w_graphs w !! g) as [s0|] eqn:E; [|done]. cbn in Eu. injection Eu as Eu _ _.
    destruct (H4 g s0 Hg E) as (o & Ho & Hrest). exists o. by rewrite Eu.
Qed.

Lemma grid_ok_repaint g w : grid_ok w -> grid_ok (exec (repaint g) w).
Proof.
  apply grid_ok_unpainted; [|apply repaint_unpainted].
  apply (pres_eq w_grid). intros. by apply pres_repaint; [exact _|exact _|intros ? ?].
Qed.

(** ** Properties *)

(** C19: the plot times.  With a positive interval, the loop ends and the rows are exactly at the multiples of the
    interval after [start] and before [stop]. *)
Theorem plot_times_grid d start stop interval :
  number_of d "start" = Some start -> number_of d "stop" = Some stop -> number_of d "interval" = Some interval ->
  0 < interval ->
  exists l, plotTimes d = Some l /\
    forall t, t ∈ l <-> exists k, 0 <= k /\ t = (start + k * interval) * 1000 /\ start + k * interval < stop.
Proof.
  intros H1 H2 H3 Hi. unfold plotTimes. rewrite H1, H2, H3. apply times_loop_grid; [done|lia].
Qed.

(** With an interval of zero or less the loop over the plot times never ends, however long it runs:
    [repaint] hangs the page on such an answer. *)
Theorem plot_times_endless d start stop interval fuel :
  number_of d "start" = Some start -> number_of d "stop" = Some stop -> number_of d "interval" = Some interval ->
  interval <= 0 -> start < stop -> times_loop fuel start stop interval = None /\ plotTimes d = None.
Proof.
  intros H1 H2 H3 Hi Hs. unfold plotTimes. rewrite H1, H2, H3. split; by apply times_loop_endless.
Qed.

(** C17: every bucket is plotted at its own time.  When the buckets of a series have increasing times that
    are plot times (buckets without a time are skipped), the cells of the series in the plot are, at each
    plot time, those of the bucket with that time, and [NaN] where there is none. *)
Theorem buckets_at_their_times f times series i key bs :
  series !! i = Some (key, bs) -> aligned times bs ->
  pl_labels (make_plot f times series) !! i = Some key /\
  pl_series (make_plot f times series) !! i = Some ((fun t => push_cell f (bucket_at t bs)) <$> times).
Proof.
  intros Hi Hal. unfold make_plot, plot_series. cbn [pl_labels pl_series].
  rewrite !list_lookup_fmap, Hi. cbn [fmap option_fmap option_map fst snd]. split; [done|]. f_equal.
  fold (placed times bs). rewrite placed_aligned by done. by rewrite <- list_fmap_compose.
Qed.

(** A bucket whose time is not a plot time stops its series: from there on every cell is [NaN], whatever
    buckets follow. *)
Theorem misaligned_bucket_stalls times bs b rest :
  skip_zero bs = b :: rest -> (bk_time b * 1000) ∉ times -> placed times bs = replicate (length times) None.
Proof.
  intros Hs Hb.
  assert (Hz : bk_time b <> 0) by (destruct (skip_zero_spec bs) as (_ & _ & _ & H); by rewrite Hs in H).
  assert (Hgen : forall bs, skip_zero bs = b :: rest -> placed times bs = replicate (length times) None); [|by apply Hgen].
  clear bs Hs. induction times as [|t times IH]; intros bs Hs; [done|]. apply not_elem_of_cons in Hb as [Hne Hb].
  rewrite placed_cons, Hs, (proj2 (Z.eqb_neq _ _)) by done. cbn. f_equal. apply IH; [done|]. cbn.
  by rewrite (proj2 (Z.eqb_neq _ _)).
Qed.


(** A stacked graph in which every series has fewer buckets than there are plot times gets [NaN] as the upper
    end of its value range, because the sums it takes the maximum of are [undefined] there. *)
Theorem stacked_range_undefined times series :
  Forall (fun p => (length p.2 < length times)%nat) series -> ex_got (extent_of stacked (plot_series times series).*1) = true ->
  is_nan (pl_range (make_plot stacked times series)).2 = true.
Proof.
  intros Hs Hg. unfold make_plot. cbn [pl_range]. apply range_nan; [done|]. cbn [ex_max]. unfold stacked_max.
  destruct times as [|t times]; [destruct series as [|p series]; [done|]; apply Forall_cons in Hs as [H _]; cbn in H; lia|].
  apply (max_hole _ _ (length times)). apply sums_hole.
  - apply Forall_fmap. eapply Forall_impl; [exact Hs|]. intros p Hp. cbn in *. lia.
  - apply lookup_replicate. split; [done|cbn; lia].
Qed.

(** Painting a graph changes nothing but which graphs have a Dygraph: the grid, all series, formats and data,
    the time range and the loader stay; and it never throws. *)
Theorem repaint_changes_dygraph_only g w :
  let w' := exec (repaint g) w in
  result (repaint g) w = Ok () /\ w_grid w' = w_grid w /\ (unpainted <$> w_graphs w') = (unpainted <$> w_graphs w) /\
  w_time w' = w_time w /\ w_loader w' = w_loader w.
Proof.
  cbv zeta. split_and!; [| |apply repaint_unpainted| |].
  - unfold repaint. destruct (guarded_total "GraphSurface_repaint" (repaint_body g) w) as [[] H]. exact H.
  - apply (pres_eq w_grid). intros. by apply pres_repaint; [exact _|exact _|intros ? ?].
  - apply (pres_eq w_time). intros. by apply pres_repaint; [exact _|exact _|intros ? ?].
  - apply (pres_eq w_loader). intros. by apply pres_repaint; [exact _|exact _|intros ? ?].
Qed.

(** ** Concrete plots *)

Definition a_bucket (t v : Z) : Bucket := mkBucket t (num_of_Z v) (num_of_Z (v + 2)) (num_of_Z (v + 1)) (num_of_Z 1).
Definition some_buckets : list Bucket := [a_bucket 100 5; a_bucket 0 0; a_bucket 120 (-3); a_bucket 130 9].
Definition some_times : list Z := [100000; 110000; 120000; 130000; 140000].
Definition some_data : RenderData :=
  [(js "start", Some (DNum 100)); (js "stop", Some (DNum 150)); (js "interval", Some (DNum 10)); (js "cpu", Some (DSeries some_buckets))].

Lemma plot_times_grid_witness : exists l, plotTimes some_data = Some l /\ (110000 ∈ l).
Proof.
  destruct (plot_times_grid some_data 100 150 10) as (l & E & H); [reflexivity..|lia|]. exists l. split; [exact E|].
  apply H. exists 1. lia.
Defined.

Lemma plot_times_endless_witness :
  times_loop 1000 100 150 0 = None /\ plotTimes (obj_set some_data (js "interval") (Some (DNum 0))) = None.
Proof.
  apply (plot_times_endless (obj_set some_data (js "interval") (Some (DNum 0))) 100 150 0 1000%nat); try reflexivity; lia.
Defined.

Lemma some_aligned : aligned some_times some_buckets.
Proof.
  constructor.
  - apply (bool_decide_unpack _). vm_compute. exact I.
  - cbn. unfold later. repeat (constructor; [|repeat (constructor; cbn; try lia)]). constructor.
  - intros b Hb. unfold some_buckets in Hb. intros Hz.
    repeat (apply elem_of_cons in Hb as [->|Hb]; [apply (bool_decide_unpack _); vm_compute; exact I || (cbn in Hz; lia)|]).
    by apply not_elem_of_nil in Hb.
Defined.

Lemma buckets_at_their_times_witness :
  pl_series (make_plot noBars some_times [(js "cpu", some_buckets)]) !! 0%nat
    = Some [Cell1 (num_of_Z 6); Cell1 nNaN; Cell1 (num_of_Z (-2)); Cell1 (num_of_Z 10); Cell1 nNaN].
Proof.
  destruct (buckets_at_their_times noBars some_times [(js "cpu", some_buckets)] 0%nat (js "cpu") some_buckets eq_refl some_aligned)
    as [_ ->]. reflexivity.
Defined.

Lemma misaligned_bucket_stalls_witness :
  placed some_times [a_bucket 105 5; a_bucket 110 6] = [None; None; None; None; None].
Proof.
  apply (misaligned_bucket_stalls some_times [a_bucket 105 5; a_bucket 110 6] (a_bucket 105 5) [a_bucket 110 6]); [reflexivity|].
  apply (bool_decide_unpack _). vm_compute. exact I.
Defined.


Lemma stacked_range_undefined_witness :
  is_nan (pl_range (make_plot stacked some_times [(js "cpu", some_buckets)])).2 = true.
Proof. apply stacked_range_undefined; [repeat constructor|vm_compute; reflexivity]. Defined.

End Plot.
