(* ===== verification/Delivery.v ===== *)
(** * From the answer of the server to the graphs (the loader, the grid and the plot of [files/graph.js] together)

    An answer serves the callbacks of its batch; each one stores the data of its series in its graph and
    leaves a timer behind; the timer paints the graph.  This file follows one answer to the
    Dygraphs that are made for it. *)

From S2P Require Import Prelude JsString JsObject JsNumber World Shell Loader Grid TimeRange Plot.
Import Shell Grid TimeRange Plot.

Local Open Scope Z_scope.

Module Delivery.

(** The series that the last callback of a batch for a graph asked for; a callback without series renders nothing. *)
Fixpoint answered (g : nat) (cbs : list CbObj) : option (list jsstr) :=
  match cbs with
  | [] => None
  | c :: cbs' =>
      match answered g cbs' with
      | Some ks => Some ks
      | None => if bool_decide (cb_graph c = g /\ cb_seriesKeys c <> []) then Some (cb_seriesKeys c) else None
      end
  end.

(** What a batch makes of a graph. *)
Definition served (data : Data) (r : option (list jsstr)) (s : GraphSurface) : GraphSurface :=
  match r with Some ks => set_lastRenderData (render_data ks data) s | None => s end.

(** A timer that paints a graph. *)
Definition paint_due (g : nat) (w : World) : Prop := exists t, t ∈ sy_timers (w_sys w) /\ tm_code t = TPaintVisible g.

(** ** One batch *)

Lemma served_none data (o : option GraphSurface) : o = served data None <$> o.
Proof. by destruct o. Qed.

Lemma deliver_graphs c data w g :
  w_graphs (exec (deliver c data) w) !! g = served data (answered g [c]) <$> w_graphs w !! g /\
  (forall t, t ∈ sy_timers (w_sys w) -> t ∈ sy_timers (w_sys (exec (deliver c data) w))) /\
  (answered g [c] <> None -> paint_due g (exec (deliver c data) w)).
Proof.
  cbn [answered deliver surface_client]. unfold on_data, renderData. destruct (cb_seriesKeys c) as [|k ks] eqn:E.
  { rewrite bool_decide_eq_false_2 by (by intros [_ ?]). split_and!; [apply served_none|done|done]. }
  change (sy_timers (w_sys (exec _ w))) with (sy_timers (w_sys w) ++ [mkTimer (sy_next_timer (w_sys w)) (sy_now (w_sys w) + 1) (TPaintVisible (cb_graph c))]).
  change (w_graphs (exec _ w)) with (alter (set_lastRenderData (render_data (k :: ks) data)) (cb_graph c) (w_graphs w)).
  split_and!.
  - destruct (decide (cb_graph c = g)) as [->|Hne].
    + rewrite bool_decide_eq_true_2 by done. by rewrite list_lookup_alter, decide_True.
    + rewrite bool_decide_eq_false_2 by (by intros [? _]). rewrite list_lookup_alter, decide_False by done. apply served_none.
  - intros t Ht. apply elem_of_app. by left.
  - destruct (decide (cb_graph c = g)) as [<-|Hne]; [|by rewrite bool_decide_eq_false_2 by (by intros [? _])]. intros _.
    eexists. split; [apply elem_of_app; right; by left|done].
Qed.

Lemma served_twice data r1 r2 s : served data r2 (served data r1 s) = served data (match r2 with Some ks => Some ks | None => r1 end) s.
Proof. by destruct r1, r2. Qed.

Lemma batch_graphs cbs data w g :
  w_graphs (exec (for_each cbs (fun c => deliver c data)) w) !! g = served data (answered g cbs) <$> w_graphs w !! g /\
  (forall t, t ∈ sy_timers (w_sys w) -> t ∈ sy_timers (w_sys (exec (for_each cbs (fun c => deliver c data)) w))) /\
  (answered g cbs <> None -> paint_due g (exec (for_each cbs (fun c => deliver c data)) w)).
Proof.
  revert w. induction cbs as [|c cbs IH]; intros w.
  { split_and!; [apply served_none|done|done]. }
  cbn [for_each]. rewrite exec_seq by apply deliver_total. destruct (deliver_graphs c data w g) as (D1 & D2 & D3).
  destruct (IH (exec (deliver c data) w)) as (I1 & I2 & I3). split_and!.
  - rewrite I1, D1. destruct (w_graphs w !! g) as [s|]; [|done]. cbn [fmap option_fmap option_map]. f_equal. apply served_twice.
  - eauto.
  - change (answered g (c :: cbs)) with (match answered g cbs with Some ks => Some ks | None => answered g [c] end).
    destruct (answered g cbs) as [ks|]; [intros _; by apply I3|]. intros H. destruct (D3 H) as (t & Ht & Hc). exists t. auto.
Qed.

Lemma startRequest_timers w : sy_timers (w_sys (exec Loader.startRequest w)) = sy_timers (w_sys w).
Proof.
  unfold Loader.startRequest. set (body := (_ ≫= _ : M unit)). destruct (body w) as [w1 r] eqn:E.
  rewrite (Loader.sv_timers _ _ (Loader.guarded_view _ body w w1 r E)). revert E. unfold body, mbind, M_bind, get.
  destruct (ld_xhr (w_loader w)); [by intros [= <- _]|]. destruct (empty _); by intros [= <- _].
Qed.

(** A good answer serves its batch. *)
Lemma complete_graphs a data x gotten cbs rest w w' g :
  loader_xhrs w = (x, XLoader gotten cbs) :: rest -> Loader.an_status a <= 299 -> Loader.an_body a = Some data ->
  Loader.step (Loader.Complete a) w = Some w' ->
  w_graphs w' !! g = served data (answered g (Loader.batch cbs)) <$> w_graphs w !! g /\
  (answered g (Loader.batch cbs) <> None -> paint_due g w').
Proof.
  intros Hx Hs Hb. unfold Loader.step. rewrite Hx. intros [= <-]. unfold Loader.onXhrComplete.
  rewrite (proj2 (Z.ltb_ge _ _) Hs), Hb.
  set (w1 := exec (modify (set_loader (Loader.set_xhr None))) (Loader.remove_xhr x w)).
  set (w2 := exec (for_each (Loader.batch cbs) (fun c => deliver c data)) w1).
  destruct (batch_graphs (Loader.batch cbs) data w1 g) as (B1 & _ & B3). fold w2 in B1, B3.
  assert (Ew : exec (guarded "Loader_onXhrComplete" (modify (set_loader (Loader.set_xhr None));;
      Loader.deliverData data cbs;; Loader.startRequest)) (Loader.remove_xhr x w) = exec Loader.startRequest w2).
  { set (m := Loader.deliverData data cbs;; Loader.startRequest).
    destruct (Loader.deliverData_frame data cbs w1) as [Hr _]. destruct (guarded_total _ _ : total Loader.startRequest) with w2 as [[] Hq].
    assert (Em : (modify (set_loader (Loader.set_xhr None));; m) (Loader.remove_xhr x w) = (exec Loader.startRequest w2, Ok ())).
    { change ((modify _;; m) _) with (m w1). unfold m. rewrite (bind_Ok _ _ _ _ _ (eta _ _ _ Hr)). exact (eta _ _ _ Hq). }
    unfold exec at 1. by rewrite (guarded_Ok _ _ _ _ Em). }
  rewrite Ew. assert (Eg : w_graphs (exec Loader.startRequest w2) = w_graphs w2) by (apply (pres_eq w_graphs); intros b; apply Loader.pres_startRequest; apply _).
  unfold paint_due in *. by rewrite Eg, startRequest_timers.
Qed.

(** ** The data of a graph *)

Definition reserved : list jsstr := [js "start"; js "stop"; js "interval"].

(** Names of series that do not hide the range of the answer, each of them answered. *)
Record names_answered (ks : list jsstr) (data : Data) : Prop := {
  na_nodup : NoDup ks;
  na_names : forall k, k ∈ ks -> k ∉ reserved;
  na_there : forall k, k ∈ ks -> data_get data k <> None }.

(** The series of the answer, in the order in which the object of the names is enumerated. *)
Definition series_in (data : Data) (ks : list jsstr) : list (jsstr * list Bucket) :=
  omap (fun k => match data_get data k with Some (DSeries bs) => Some (k, bs) | _ => None end) (enum_order ks).

Lemma render_loop ks data r :
  NoDup ks -> (forall k, k ∈ ks -> k ∉ r.*1) ->
  foldl (fun r k => obj_set r k (data_get data k)) r ks = r ++ ((fun k => (k, data_get data k)) <$> ks).
Proof.
  intros Hnd. revert r. induction Hnd as [|k ks Hk _ IH]; intros r Hr; [by rewrite app_nil_r|]. cbn [foldl fmap list_fmap].
  rewrite obj_set_new by (apply Hr; left). rewrite IH, <- app_assoc; [done|].
  intros j Hj. rewrite fmap_app, elem_of_app; cbn [fmap list_fmap fst]; rewrite list_elem_of_singleton. intros [Hin| ->]; [|done]. apply (Hr j); [by right|done].
Qed.

(** The answer gives the range, as numbers. *)
Definition ranged (data : Data) (start stop interval : Z) : Prop :=
  obj_get data (js "start") = Some (DNum start) /\ obj_get data (js "stop") = Some (DNum stop) /\
  obj_get data (js "interval") = Some (DNum interval).

Section Rendered.
Context (ks : list jsstr) (data : Data) (start stop interval : Z).
Context (Hks : names_answered ks data) (Hr : ranged data start stop interval).

Lemma rendered :
  render_data ks data = (fun k => (k, data_get data k)) <$> reserved ++ ks.
Proof. unfold render_data. rewrite render_loop; [done|apply Hks|]. intros k Hk. by apply (na_names _ _ Hks). Qed.

Lemma rendered_wf : obj_wf (render_data ks data).
Proof.
  rewrite rendered. unfold obj_wf. rewrite <- list_fmap_compose, list_fmap_id. apply NoDup_app. split; [|split; [|apply Hks]].
  - apply (bool_decide_unpack _). vm_compute. exact I.
  - intros k Hk Hin. by apply (na_names _ _ Hks k).
Qed.

Lemma rendered_get k : k ∈ reserved ++ ks -> obj_get (render_data ks data) k = Some (data_get data k).
Proof. intros Hk. apply obj_in_get; [apply rendered_wf|]. rewrite rendered. apply list_elem_of_fmap. eauto. Qed.

Lemma ranged_get : data_get data (js "start") = Some (DNum start) /\ data_get data (js "stop") = Some (DNum stop) /\
  data_get data (js "interval") = Some (DNum interval).
Proof. destruct Hr as (H1 & H2 & H3). unfold data_get. by rewrite H1, H2, H3. Qed.

(** The series that are painted are those of the answer. *)
Lemma rendered_series : series_of_data (render_data ks data) = Some (series_in data ks).
Proof.
  assert (G : forall l, (forall k, k ∈ l -> k ∈ reserved ++ ks) ->
    foldr (fun k acc => match obj_get (render_data ks data) k with
      | Some (Some (DSeries bs)) => cons (k, bs) <$> acc | Some (Some _) => acc | _ => None end) (Some []) l =
    Some (omap (fun k => match data_get data k with Some (DSeries bs) => Some (k, bs) | _ => None end) l)).
  { induction l as [|k l IH]; intros Hl; [done|]. cbn [foldr omap list_omap]. rewrite IH by (intros j Hj; apply Hl; by right).
    rewrite rendered_get by (apply Hl; left). destruct (data_get data k) as [[]|] eqn:E; try done. exfalso.
    destruct (elem_of_app reserved ks k) as [Hin _]. destruct (Hin (Hl k ltac:(left))) as [Hin'|Hin'].
    - destruct ranged_get as (R1 & R2 & R3). unfold reserved in Hin'. rewrite !elem_of_cons, elem_of_nil in Hin'.
      destruct Hin' as [->|[->|[->|[]]]]; congruence.
    - by apply (na_there _ _ Hks k). }
  unfold series_of_data, series_in. rewrite G.
  - f_equal. unfold obj_keys. rewrite rendered, <- list_fmap_compose, list_fmap_id. unfold enum_order. rewrite !filter_app.
    assert (E1 : filter is_index reserved = []) by (vm_compute; reflexivity).
    assert (E2 : filter (fun k => ~ is_index k) reserved = reserved) by (vm_compute; reflexivity).
    rewrite E1, E2. cbn [app]. rewrite !omap_app. f_equal. unfold reserved. cbn [omap list_omap].
    destruct ranged_get as (R1 & R2 & R3). by rewrite R1, R2, R3.
  - intros k. unfold obj_keys. rewrite elem_of_enum_order, rendered, <- list_fmap_compose, list_fmap_id. done.
Qed.

Lemma rendered_times : plotTimes (render_data ks data) = times_loop (Z.to_nat (stop - start)) start stop interval.
Proof.
  unfold plotTimes, number_of. destruct ranged_get as (R1 & R2 & R3).
  rewrite !rendered_get by (apply elem_of_app; left; unfold reserved; rewrite !elem_of_cons; auto). by rewrite R1, R2, R3.
Qed.

End Rendered.

(** ** Painting *)

(** The Dygraphs made so far: the graph, the rows and the options given to the constructor. *)
Definition drawing_of (e : effect) : option (nat * list (Z * list cell) * Params) :=
  match e with EDygraph g rows params => Some (g, rows, params) | _ => None end.
Definition drawn (w : World) : list (nat * list (Z * list cell) * Params) := omap drawing_of (sy_log (w_sys w)).

(** Painting makes one Dygraph, of the plot. *)
Lemma repaint_draws g s times series w :
  w_graphs w !! g = Some s -> plotTimes (gs_lastRenderData s) = Some times -> times <> [] ->
  series_of_data (gs_lastRenderData s) = Some series ->
  let p := make_plot (gs_format s) times series in
  exists w', repaint g w = (w', Ok ()) /\ drawn w' = drawn w ++ [(g, pl_rows p, params_of p)] /\
    w_graphs w' !! g = Some (set_dygraph true s).
Proof.
  intros Hs Ht Hne Hd p. unfold repaint.
  assert (Hb : exists w', repaint_body g w = (w', Ok ()) /\
    (exists pre post, sy_log (w_sys w') = sy_log (w_sys w) ++ pre ++ [EDygraph g (pl_rows p) (params_of p)] ++ post /\
      omap drawing_of pre = [] /\ omap drawing_of post = []) /\
    w_graphs w' !! g = Some (set_dygraph true s)).
  { unfold repaint_body, destroyDygraph, surface, fade, dom, emit, update, modify, get, mret, M_ret, mbind, M_bind.
    cbn [w_graphs set_sys w_size]. rewrite Hs, Ht. destruct times as [|t times]; [done|]. rewrite Hd. fold p. clearbody p.
    cbn [w_graphs set_sys]. rewrite Hs. destruct (gs_dygraph s); (eexists; split; [reflexivity|]; split; [|cbn; by rewrite !list_lookup_alter, !decide_True, Hs]).
    - eexists [_; _; _; _; _], [_; _]. split; [cbn [sy_log w_sys set_sys set_graphs]; rewrite <- !app_assoc; reflexivity|done].
    - eexists [_; _; _; _], [_; _]. split; [cbn [sy_log w_sys set_sys set_graphs]; rewrite <- !app_assoc; reflexivity|done]. }
  destruct Hb as (w' & E & (pre & post & El & E1 & E2) & H). exists w'. split; [by apply guarded_Ok|]. split; [|done].
  unfold drawn. rewrite El, !omap_app, E1, E2. done.
Qed.

(** C6: an answer reaches its graphs.  A good answer stores in every graph of its batch the data of the series that the
    graph's last question asked for, leaves the other graphs alone, and leaves a timer that paints the graph.  When the
    answer has a range and an entry for each series, the timer, on a visible page, makes one Dygraph for the graph: its rows are at
    the multiples of the interval from the start up to the stop, in order; each row has one cell per series of the answer; the
    cell of a series whose buckets have increasing times of rows is that of the bucket with the row's time ([NaN]
    without one), in the graph's format; and the options are those of the plot of the series, labelled by them. *)
Theorem answer_drawn a data x gotten cbs rest w w' g s ks start stop interval :
  loader_xhrs w = (x, XLoader gotten cbs) :: rest -> Loader.an_status a <= 299 -> Loader.an_body a = Some data ->
  Loader.step (Loader.Complete a) w = Some w' ->
  w_graphs w !! g = Some s -> answered g (Loader.batch cbs) = Some ks -> names_answered ks data ->
  ranged data start stop interval -> start < stop -> 0 < interval ->
  (forall h, answered h (Loader.batch cbs) = None -> w_graphs w' !! h = w_graphs w !! h) /\
  w_graphs w' !! g = Some (set_lastRenderData (render_data ks data) s) /\
  paint_due g w' /\
  forall v s', w_graphs v !! g = Some s' -> gs_lastRenderData s' = render_data ks data -> sy_hidden (w_sys v) = false ->
    exists v' rows params, paint_visible g v = (v', Ok ()) /\
      drawn v' = drawn v ++ [(g, rows, params)] /\
      w_graphs v' !! g = Some (set_dygraph true s') /\
      StronglySorted Z.lt rows.*1 /\
      (forall t, t ∈ rows.*1 <-> exists k, 0 <= k /\ t = (start + k * interval) * 1000 /\ start + k * interval < stop) /\
      (forall t cells, (t, cells) ∈ rows -> length cells = length (series_in data ks) /\
         forall i key bs, series_in data ks !! i = Some (key, bs) -> aligned rows.*1 bs ->
           cells !! i = Some (push_cell (gs_format s') (bucket_at t bs))) /\
      params = params_of (make_plot (gs_format s') rows.*1 (series_in data ks)) /\
      pr_labels params = js "time" :: (series_in data ks).*1.
Proof.
  intros Hx Hst Hb Hstep Hs Ha Hks Hr Hlt Hi.
  pose proof (fun h => complete_graphs a data x gotten cbs rest w w' h Hx Hst Hb Hstep) as Hc.
  destruct (times_loop_grid (Z.to_nat (stop - start)) start stop interval Hi ltac:(lia)) as (times & Et & Hin).
  pose proof (proj1 (times_loop_sorted _ _ _ _ _ Hi Et)) as Hsort.
  rewrite <- (rendered_times ks data start stop interval Hks Hr) in Et.
  pose proof (rendered_series ks data start stop interval Hks Hr) as Hd.
  assert (Hne : times <> []).
  { intros ->. apply (not_elem_of_nil (start * 1000)), Hin. exists 0. lia. }
  split_and!.
  - intros h Hn. destruct (Hc h) as [-> _]. rewrite Hn. symmetry. apply served_none.
  - destruct (Hc g) as [-> _]. by rewrite Ha, Hs.
  - apply Hc. by rewrite Ha.
  - intros v s' Hs' El Hv. rewrite <- El in Et, Hd.
    destruct (repaint_draws g s' times (series_in data ks) v Hs' Et Hne Hd) as (v' & Ep & Edr & Eg).
    exists v'. eexists _, _. split; [unfold paint_visible, pageIsHidden, mbind, M_bind, get; rewrite Hv; exact Ep|].
    split; [exact Edr|]. rewrite rows_times. split_and!; try done.
    intros t cells (j & Hj)%list_elem_of_lookup. assert (Ht : times !! j = Some t).
    { rewrite <- (rows_times (gs_format s') times (series_in data ks)), list_lookup_fmap, Hj. done. }
    destruct (plot_row (gs_format s') times (series_in data ks) j t Ht) as (cells' & E & Hl & Hcell). rewrite Hj in E.
    injection E as <-. split; [done|]. intros i key bs Hi' Hal. rewrite (Hcell i key bs Hi'), (placed_aligned _ _ Hal), list_lookup_fmap, Ht. done.
Qed.

End Delivery.
