(* ===== verification/Legend.v ===== *)
(** * The legend plugin ([files/istatd-legend.js])

    Dygraph calls the plugin with a graph; what the plugin asks of the graph
    (options, labels, colours, the plot area) and of the browser (the width of
    an em) are the fields of [Graph], which is outside.  The HTML is a list of
    texts and of numbers of ems that the engine prints.  The lengths of a stroke pattern and the width of an em
    are whole numbers of a unit, pixels or a fraction of one: [layout_unit] shows that the unit does not matter. *)

From S2P Require Import Prelude JsString.

Local Open Scope Z_scope.

Module Legend.

(** [Dygraph.PLUGINS = Dygraph.PLUGINS.slice(1)], then [unshift]: the first of
    Dygraph's plugins, its own legend, is replaced. *)
Definition hijack {A} (plugins : list A) (legend : A) : list A := legend :: drop 1 plugins.

(** ** Data *)

(** A text, or the number [n / d]. *)
Inductive piece := Text (s : jsstr) | Ratio (n d : Z).
Abbreviation html := (list piece).

Record Area := mkArea { ar_x : Z; ar_y : Z; ar_w : Z }.

Record Graph := mkGraphView {
  gv_showLabelsOnHighlight : bool;
  gv_legend : jsstr;                        (** the option [legend] *)
  gv_labels : list jsstr;                   (** with the label of the x axis first *)
  gv_series : jsstr -> bool * jsstr;        (** whether the series is visible, and its colour *)
  gv_strokePattern : jsstr -> option (list Z);
  gv_labelsSeparateLines : bool;
  gv_labelsDiv : option html;               (** the user's div, with its contents *)
  gv_labelsDivWidth : Z;
  gv_width : Z;
  gv_area : Area }.

Record Div := mkDiv { dv_innerHTML : html; dv_left : option Z; dv_top : option Z; dv_width : option Z }.

(** The plugin: [legend_div_], [is_generated_div_], [one_em_width_]. *)
Record legend := mkLegend { lg_div : option Div; lg_generated : bool; lg_em : Z }.

Definition new_legend : legend := mkLegend None false 0.

(** ** The dash of a stroke pattern *)

Definition sum (l : list Z) : Z := foldr Z.add 0 l.

(** [strokePattern[i % strokePattern.length]] *)
Definition at_mod (p : list Z) (i : nat) : Z := nth (i mod length p) p 0.

(** The loop to [i <= strokePattern.length]: the first segment counts twice. *)
Definition strokePixelLength (p : list Z) : Z := sum ((fun i => at_mod p i) <$> seq 0 (S (length p))).

(** How often the pattern is repeated, the denominator of its segments and the number of segments;
    [None] when the quotient is infinite and the loop endless. *)
Definition layout (p : list Z) (oneEmWidth : Z) : option (nat * Z * nat) :=
  let len := strokePixelLength p - at_mod p 0 in
  if len =? 0 then if 0 <? oneEmWidth then None else Some (1%nat, strokePixelLength p, S (length p))
  else let loop := oneEmWidth / len in
       if 1 <? loop then Some (Z.to_nat loop, oneEmWidth, length p)
       else Some (1%nat, strokePixelLength p, S (length p)).

(** The even numbers below [n]. *)
Definition evens (n : nat) : list nat := (fun k => (2 * k)%nat) <$> seq 0 (Nat.div2 (S n)).

(** A drawn segment and the space after it. *)
Definition segment (p : list Z) (i : nat) : Z * Z :=
  (at_mod p i, if (i <? length p)%nat then at_mod p (S i) else 0).

Definition segments (p : list Z) (loop n : nat) : list (Z * Z) :=
  concat (replicate loop (segment p <$> evens n)).

Definition style_start : jsstr := js "<div style=" ++ [34] ++ js "display: inline-block; position: relative; bottom: .5ex; ".
Definition style_end (color : jsstr) : jsstr :=
  js "height: 1px; border-bottom: 2px solid " ++ color ++ js ";" ++ [34] ++ js "></div>".

Definition dash_div (color : jsstr) (d : Z) (s : Z * Z) : html :=
  [Text (style_start ++ js "margin-right: "); Ratio s.2 d; Text (js "em; padding-left: "); Ratio s.1 d;
   Text (js "em; " ++ style_end color)].

(** [generateLegendDashHTML]; [isIE] is the test of the browser. *)
Definition generateLegendDashHTML (isIE : bool) (strokePattern : option (list Z)) (color : jsstr) (oneEmWidth : Z)
    : option html :=
  if isIE then Some [Text (js "&mdash;")]
  else match strokePattern with
       | None | Some [] | Some [_] => Some [Text (style_start ++ js "padding-left: 1em; " ++ style_end color)]
       | Some p => '(loop, d, n) ← layout p oneEmWidth; Some (concat (dash_div color d <$> segments p loop n))
       end.

(** ** The legend *)

Definition entry (isIE : bool) (g : Graph) (oneEmWidth : Z) (label : jsstr) : option html :=
  let color := (gv_series g label).2 in
  dash ← generateLegendDashHTML isIE (gv_strokePattern g label) color oneEmWidth;
  Some (Text (js "<span style='font-weight: bold; color: " ++ color ++ js ";'>") :: dash ++
        [Text (js " " ++ label ++ js "</span>")]).

Definition separator (g : Graph) : html := [Text (if gv_labelsSeparateLines g then js "<br/>" else js " ")].

(** [html !== '']: pieces are never empty texts here. *)
Definition add_label (isIE : bool) (g : Graph) (oneEmWidth : Z) (acc : option html) (label : jsstr) : option html :=
  h ← acc;
  if (gv_series g label).1 then
    e ← entry isIE g oneEmWidth label;
    Some (match h with [] => e | _ => h ++ separator g ++ e end)
  else Some h.

(** [generateLegendHTML(g, x, sel_points, oneEmWidth)]: the selection is not used. *)
Definition generateLegendHTML (isIE : bool) (g : Graph) (oneEmWidth : Z) : option html :=
  if negb (gv_showLabelsOnHighlight g) then Some []
  else if negb (bool_decide (gv_legend g = js "always")) then Some []
  else foldl (add_label isIE g oneEmWidth) (Some []) (drop 1 (gv_labels g)).

(** ** The plugin's events; [None] for a [TypeError] after [destroy], or an endless loop *)

Definition activate (g : Graph) (l : legend) : legend :=
  match gv_labelsDiv g with
  | Some h => mkLegend (Some (mkDiv h None None None)) (lg_generated l) 10
  | None =>
      mkLegend (Some (mkDiv [] (Some (gv_width g - gv_labelsDivWidth g - 2)) (Some 0) (Some (gv_labelsDivWidth g)))) true 10
  end.

Definition set_html (h : html) (l : legend) : option legend :=
  d ← lg_div l; Some (mkLegend (Some (mkDiv h (dv_left d) (dv_top d) (dv_width d))) (lg_generated l) (lg_em l)).

Definition select (isIE : bool) (g : Graph) (l : legend) : option legend :=
  h ← generateLegendHTML isIE g (lg_em l); set_html h l.

(** [em] is the width [calculateEmWidthInDiv] measures in the div. *)
Definition deselect (isIE : bool) (g : Graph) (em : Z) (l : legend) : option legend :=
  d ← lg_div l;
  let l := mkLegend (Some d) (lg_generated l) em in
  h ← generateLegendHTML isIE g em; set_html h l.

Definition didDrawChart := deselect.

Definition predraw (g : Graph) (l : legend) : option legend :=
  if lg_generated l then
    d ← lg_div l;
    let a := gv_area g in
    Some (mkLegend (Some (mkDiv (dv_innerHTML d) (Some (ar_x a + ar_w a - gv_labelsDivWidth g - 1)) (Some (ar_y a))
      (Some (gv_labelsDivWidth g)))) true (lg_em l))
  else Some l.

Definition destroy (l : legend) : legend := mkLegend None (lg_generated l) (lg_em l).

(** ** Lemmas *)

Lemma sum_app l l' : sum (l ++ l') = sum l + sum l'.
Proof. unfold sum. induction l as [|x l IH]; cbn; [done|]. lia. Qed.

Lemma at_mod_seq (p : list Z) : (fun i => at_mod p i) <$> seq 0 (length p) = p.
Proof.
  apply list_eq. intros i. rewrite list_lookup_fmap. destruct (p !! i) as [x|] eqn:E.
  - apply lookup_lt_Some in E as Hl. rewrite lookup_seq_lt by done. cbn. unfold at_mod. rewrite Nat.mod_small by done.
    f_equal. apply nth_lookup_Some with (d := 0) in E. done.
  - rewrite lookup_seq_ge by (by apply lookup_ge_None). done.
Qed.

Lemma pixel_length p : p <> [] -> strokePixelLength p = sum p + at_mod p 0.
Proof.
  intros Hp. unfold strokePixelLength. rewrite seq_S, fmap_app, sum_app, at_mod_seq. cbn. unfold at_mod.
  rewrite Nat.Div0.mod_same, Nat.Div0.mod_0_l. lia.
Qed.

(** The width of segments, in units of the denominator. *)
Definition width (l : list (Z * Z)) : Z := sum ((fun s => s.1 + s.2) <$> l).

Lemma width_app l l' : width (l ++ l') = width l + width l'.
Proof. unfold width. by rewrite fmap_app, sum_app. Qed.

(** The segments up to [2 k] are the first [2 k] lengths. *)
Lemma segments_width p k :
  (2 * k <= length p)%nat ->
  width (segment p <$> ((fun j => (2 * j)%nat) <$> seq 0 k)) = sum ((fun i => at_mod p i) <$> seq 0 (2 * k)).
Proof.
  induction k as [|k IH]; intros Hk; [done|]. rewrite seq_S, !fmap_app, width_app, IH by lia. cbn [fmap list_fmap Nat.add].
  replace (2 * S k)%nat with (S (S (2 * k))) by lia. rewrite !seq_S, !fmap_app, !sum_app. cbn [fmap list_fmap Nat.add].
  unfold width, segment. cbn [fmap list_fmap fst snd sum foldr]. rewrite (proj2 (Nat.ltb_lt _ _)) by lia.
  unfold sum. cbn. lia.
Qed.

(** One pass over the pattern with the first segment drawn again. *)
Lemma scaled_width p : p <> [] -> width (segment p <$> evens (S (length p))) = strokePixelLength p.
Proof.
  intros Hp. unfold evens. assert (Hl : (0 < length p)%nat) by (destruct p; [done|cbn; lia]).
  destruct (Nat.Even_or_Odd (length p)) as [[k Hk]|[k Hk]].
  - rewrite Hk. assert (Nat.div2 (S (S (2 * k))) = S k) as -> by (change (S (Nat.div2 (2 * k)) = S k); by rewrite Nat.div2_double).
    rewrite seq_S, !fmap_app, width_app, segments_width, <- Hk, at_mod_seq by lia. cbn [fmap list_fmap Nat.add].
    rewrite pixel_length by done. unfold width, segment. cbn [fmap list_fmap fst snd].
    rewrite <- Hk, (proj2 (Nat.ltb_ge _ _)) by lia. unfold sum. cbn [foldr].
    assert (at_mod p (length p) = at_mod p 0) as ->; [|lia].
    unfold at_mod. rewrite Nat.Div0.mod_same, Nat.Div0.mod_0_l. done.
  - rewrite Hk. replace (2 * k + 1)%nat with (S (2 * k)) by lia.
    assert (Nat.div2 (S (S (S (2 * k)))) = S k) as -> by (change (S (Nat.div2 (S (2 * k))) = S k); by rewrite Nat.div2_succ_double).
    rewrite seq_S, !fmap_app, width_app, segments_width by lia. cbn [fmap list_fmap Nat.add].
    assert (Hsum : sum p = sum ((fun i => at_mod p i) <$> seq 0 (2 * k)) + at_mod p (2 * k)).
    { rewrite <- (at_mod_seq p) at 1. rewrite Hk, Nat.add_1_r, seq_S, fmap_app, sum_app. unfold sum. cbn [fmap list_fmap foldr Nat.add]. lia. }
    rewrite pixel_length, Hsum by done. unfold width, segment. cbn [fmap list_fmap fst snd].
    rewrite (proj2 (Nat.ltb_lt _ _)) by lia. unfold sum. cbn [foldr].
    assert (at_mod p (S (2 * k)) = at_mod p 0) as ->; [|lia].
    unfold at_mod. replace (S (2 * k)) with (length p) by lia. rewrite Nat.Div0.mod_same, Nat.Div0.mod_0_l. done.
Qed.

Lemma repeat_width l n : width (concat (replicate n l)) = Z.of_nat n * width l.
Proof. induction n as [|n IH]; [done|]. cbn [replicate concat]. rewrite width_app, IH. lia. Qed.

Lemma even_width p : Nat.Even (length p) -> width (segment p <$> evens (length p)) = sum p.
Proof.
  intros [k Hk]. unfold evens. rewrite Hk. replace (Nat.div2 (S (2 * k))) with k by (by rewrite Nat.div2_succ_double).
  rewrite segments_width, <- Hk, at_mod_seq by lia. done.
Qed.

(** An odd pattern ends with a drawn segment, and the space after it is the first length. *)
Lemma odd_width p : Nat.Odd (length p) -> width (segment p <$> evens (length p)) = sum p + at_mod p 0.
Proof.
  intros [k Hk]. assert (Hp : p <> []) by (intros ->; cbn in Hk; lia). rewrite <- pixel_length, <- scaled_width by done.
  unfold evens. rewrite Hk. replace (2 * k + 1)%nat with (S (2 * k)) by lia.
  change (Nat.div2 (S (S (S (2 * k))))) with (S (Nat.div2 (S (2 * k)))). change (Nat.div2 (S (S (2 * k)))) with (S (Nat.div2 (2 * k))).
  by rewrite Nat.div2_succ_double, Nat.div2_double.
Qed.

Lemma at_mod_unit k p i : at_mod (Z.mul k <$> p) i = k * at_mod p i.
Proof.
  unfold at_mod. rewrite length_fmap. generalize (i mod length p)%nat. intros j. revert j.
  induction p as [|x p IH]; intros [|j]; cbn; [lia|lia|done|apply IH].
Qed.

Lemma pixel_length_unit k p : strokePixelLength (Z.mul k <$> p) = k * strokePixelLength p.
Proof.
  unfold strokePixelLength. rewrite length_fmap. generalize (seq 0 (S (length p))). intros l. unfold sum.
  induction l as [|i l IH]; [cbn; lia|]. cbn [fmap list_fmap foldr]. rewrite IH, at_mod_unit. lia.
Qed.

(** Lengths in a unit [k] times smaller: the same dash. *)
Lemma layout_unit k p em :
  0 < k ->
  layout (Z.mul k <$> p) (k * em) = (fun '(loop, d, n) => (loop, k * d, n)) <$> layout p em /\
  forall loop n, segments (Z.mul k <$> p) loop n = (fun s => (k * s.1, k * s.2)) <$> segments p loop n.
Proof.
  intros Hk. split.
  - unfold layout. rewrite pixel_length_unit, at_mod_unit, length_fmap. rewrite <- Z.mul_sub_distr_l.
    set (len := strokePixelLength p - at_mod p 0).
    destruct (Z.eqb_spec len 0) as [->|Hne].
    + rewrite Z.mul_0_r. cbn. destruct (Z.ltb_spec 0 em), (Z.ltb_spec 0 (k * em)); try done; nia.
    + rewrite (proj2 (Z.eqb_neq (k * len) 0)) by nia. rewrite Z.div_mul_cancel_l by lia. by destruct (1 <? em / len).
  - intros loop n. unfold segments. induction loop as [|loop IH]; [done|]. cbn [replicate concat]. rewrite fmap_app, IH. f_equal.
    rewrite <- !list_fmap_compose. apply list_fmap_ext. intros _ i _. cbn [compose]. unfold segment. rewrite length_fmap, !at_mod_unit.
    cbn [fst snd]. f_equal. destruct (i <? length p)%nat; lia.
Qed.

(** ** Properties *)

(** C39: the dash of a stroke pattern and the em it stands for.  For a pattern of two or more positive lengths, the dash is
    drawn (the loop ends).  A pattern that fits less than twice is scaled so that its segments, with the first one
    drawn again, are exactly one em wide.  A pattern that fits twice or more is
    repeated as often as it fits: with an even number of lengths it stays within the em and leaves less than one pattern free;
    with an odd number each pass is followed by a space of the first length, so that the dash is wider by that space
    for each pass, which may exceed the em ([odd_dash_overflows]). *)
Theorem dash_fits_em p em :
  (2 <= length p)%nat -> Forall (fun x => 0 < x) p -> 0 <= em ->
  exists loop d n, layout p em = Some (loop, d, n) /\
    (em < 2 * sum p -> width (segments p loop n) = d) /\
    (2 * sum p <= em -> d = em /\ Z.of_nat loop = em / sum p /\
      (Nat.Even (length p) -> width (segments p loop n) = em / sum p * sum p /\ em - sum p < width (segments p loop n) <= em) /\
      (Nat.Odd (length p) -> width (segments p loop n) = em / sum p * (sum p + at_mod p 0))).
Proof.
  intros Hl Hp Hem. assert (Hne : p <> []) by (by destruct p; [cbn in Hl; lia|]).
  assert (Hpos : 0 < sum p).
  { destruct Hp as [|x p Hx Hp]; [done|]. unfold sum. cbn. assert (0 <= foldr Z.add 0 p); [|lia].
    clear -Hp. induction Hp; cbn; lia. }
  unfold layout. rewrite pixel_length by done. replace (sum p + at_mod p 0 - at_mod p 0) with (sum p) by lia.
  rewrite (proj2 (Z.eqb_neq _ _)) by lia.
  pose proof (Z.mul_div_le em (sum p) Hpos) as H1. pose proof (Z.mul_succ_div_gt em (sum p) Hpos) as H2.
  destruct (Z.ltb_spec 1 (em / sum p)) as [Hd|Hd]; do 3 eexists; (split; [reflexivity|]).
  - split; [intros; nia|]. intros _. rewrite Z2Nat.id by lia. split; [done|]. split; [done|]. unfold segments.
    split; intros Hpar; rewrite repeat_width, Z2Nat.id by lia; [rewrite even_width by done; nia|by rewrite odd_width].
  - split; [|intros; nia]. intros _. unfold segments. rewrite repeat_width, scaled_width, pixel_length by done. lia.
Qed.

(** A pattern of three lengths of 5 pixels in an em of 30: a dash of 40 pixels. *)
Lemma odd_dash_overflows :
  layout [5; 5; 5] 30 = Some (2%nat, 30, 3%nat) /\ width (segments [5; 5; 5] 2 3) = 40.
Proof. done. Qed.

Lemma dash_fits_em_witness :
  (exists loop d n, layout [7; 3] 10 = Some (loop, d, n) /\ width (segments [7; 3] loop n) = 17) /\
  exists loop d n, layout [2; 3] 17 = Some (loop, d, n) /\ width (segments [2; 3] loop n) = 15.
Proof.
  split.
  - destruct (dash_fits_em [7; 3] 10) as (loop & d & n & E & H & _); [cbn; lia|repeat constructor; lia|lia|].
    exists loop, d, n. split; [exact E|]. rewrite H by (cbn; lia). vm_compute in E. injection E as _ <- _. reflexivity.
  - destruct (dash_fits_em [2; 3] 17) as (loop & d & n & E & _ & H); [cbn; lia|repeat constructor; lia|lia|].
    exists loop, d, n. split; [exact E|]. destruct H as (_ & _ & H & _); [cbn; lia|]. destruct H as [H _]; [by exists 1%nat|exact H].
Defined.

(** The visible series of a graph. *)
Definition visible (g : Graph) : list jsstr := List.filter (fun k => (gv_series g k).1) (drop 1 (gv_labels g)).

Fixpoint intersperse (sep : html) (es : list html) : html :=
  match es with
  | [] => []
  | [e] => e
  | e :: es' => e ++ sep ++ intersperse sep es'
  end.

Lemma entry_nonempty isIE g em k e : entry isIE g em k = Some e -> e <> [].
Proof. unfold entry. destruct (generateLegendDashHTML _ _ _ _); [|done]. by intros [= <-]. Qed.

Lemma add_labels isIE g em ks es h :
  mapM (entry isIE g em) (List.filter (fun k => (gv_series g k).1) ks) = Some es ->
  foldl (add_label isIE g em) (Some h) ks = Some (match h, es with
                                                  | [], _ => intersperse (separator g) es
                                                  | _, [] => h
                                                  | _, _ => h ++ separator g ++ intersperse (separator g) es
                                                  end).
Proof.
  revert h es; induction ks as [|k ks IH]; intros h es Hm; cbn in Hm |- *.
  { injection Hm as <-. by destruct h. }
  destruct ((gv_series g k).1); [|by apply IH]. cbn in Hm.
  destruct (entry isIE g em k) as [e|] eqn:Ee; [|done]. cbn in Hm. apply entry_nonempty in Ee as Hne.
  destruct (mapM (entry isIE g em) (List.filter _ ks)) as [es'|] eqn:Em; [|done]. injection Hm as <-. cbn.
  rewrite (IH _ es' eq_refl). destruct h as [|x h].
  - destruct e as [|y e]; [done|]. by destruct es'.
  - destruct es' as [|e' es']; [done|]. cbn. by rewrite <- !app_assoc.
Qed.

(** The legend lists the visible series.  With the options that the graphs set, the HTML is the
    entries of the visible series in the order of the labels, with the separator between them, provided each
    dash can be drawn; with other options it is empty. *)
Theorem legend_lists_visible isIE g em es :
  mapM (entry isIE g em) (visible g) = Some es ->
  generateLegendHTML isIE g em
    = Some (if gv_showLabelsOnHighlight g && bool_decide (gv_legend g = js "always")
            then intersperse (separator g) es else []).
Proof.
  intros Hm. unfold generateLegendHTML. destruct (gv_showLabelsOnHighlight g); [|done]. cbn [negb andb].
  destruct (bool_decide _); [|done]. cbn [negb]. by rewrite (add_labels isIE g em _ es []).
Qed.

Definition sample_graph : Graph :=
  mkGraphView true (js "always") [js "time"; js "cpu"; js "net"] (fun k => (true, js "red")) (fun _ => None) false None 250 600
    (mkArea 40 0 500).

Lemma legend_lists_visible_witness :
  exists es, mapM (entry false sample_graph 10) (visible sample_graph) = Some es /\
    generateLegendHTML false sample_graph 10 = Some (intersperse (separator sample_graph) es).
Proof.
  eexists. split; [reflexivity|].
  apply (legend_lists_visible false sample_graph 10). reflexivity.
Defined.

(** The div of the legend.  A div given by the user is never moved; a generated one is kept flush with the right edge
    of the plot area before each drawing; after [destroy] the plugin refuses to draw. *)
Theorem legend_div_position g g' l :
  let l1 := activate g (mkLegend None false (lg_em l)) in
  (gv_labelsDiv g <> None -> predraw g' l1 = Some l1) /\
  (gv_labelsDiv g = None -> exists l2 d, predraw g' l1 = Some l2 /\ lg_div l2 = Some d /\
     dv_width d = Some (gv_labelsDivWidth g') /\
     from_option (fun x => x + gv_labelsDivWidth g' + 1) 0 (dv_left d) = ar_x (gv_area g') + ar_w (gv_area g')) /\
  forall isIE em, deselect isIE g' em (destroy l1) = None /\ (generateLegendHTML isIE g' (lg_em l1) <> None -> select isIE g' (destroy l1) = None).
Proof.
  cbv zeta. unfold activate. destruct (gv_labelsDiv g) as [h|]; split_and!; try done.
  - intros isIE em. split; [done|]. intros Hn. unfold select. cbn [lg_em destroy].
    by destruct (generateLegendHTML isIE g' _).
  - intros _. do 2 eexists. split_and!; [reflexivity|reflexivity|reflexivity|]. cbn. lia.
  - intros isIE em. split; [done|]. intros Hn. unfold select. cbn [lg_em destroy].
    by destruct (generateLegendHTML isIE g' _).
Qed.

End Legend.
