(* ===== verification/CounterTree.v ===== *)
(** * The tree of counters ([asCounterTree] and the jsTree callbacks of [files/graph.js])

    A list of counters is made into a tree by the fields of the dotted names; a node
    with a single child is merged with it.  The filter that chooses the list is in
    [CounterFilter].  A click on a leaf toggles the counter whose name is the
    path of texts from the root.  jsTree, which shows the tree, is outside: the
    text of the node with an id is a parameter, as is the order in which it
    sorts siblings. *)

From stdpp Require Import sets.
From S2P Require Import Prelude JsString JsObject JsNumber Json World Shell Loader Grid TimeRange.
Import Shell TimeRange.

Local Open Scope Z_scope.

Module CounterTree.

(** ** Data *)

(** A leaf of the server's list. *)
Record Counter := mkCounter { c_name : jsstr; c_type : Z }.

Inductive node := Node (text : jsstr) (children : list (jsstr * node)) (type : Z).

Definition n_text (n : node) : jsstr := match n with Node t _ _ => t end.
Definition n_children (n : node) : list (jsstr * node) := match n with Node _ cs _ => cs end.
Definition n_type (n : node) : Z := match n with Node _ _ ty => ty end.

(** [newNode(text)]; the type is 2 until a counter ends here. *)
Definition newNode (text : jsstr) : node := Node text [] 2.
Definition root : node := newNode (js "#").

(** ** [asCounterTree] *)

(** The walk down the fields of a name, [None] for a [TypeError]: [node.children[field]]
    also finds inherited names, whose value has no [children]. *)
Fixpoint insert (fields : list jsstr) (ty : Z) (n : node) : option node :=
  match fields with
  | [] => Some (Node (n_text n) (n_children n) ty)
  | field :: fields' =>
      match obj_get (n_children n) field with
      | Some c => c' ← insert fields' ty c; Some (Node (n_text n) (obj_set (n_children n) field c') (n_type n))
      | None =>
          if decide (inherited field) then match fields' with [] => Some n | _ => None end
          else c' ← insert fields' ty (newNode field); Some (Node (n_text n) (obj_set (n_children n) field c') (n_type n))
      end
  end.

Definition fields (c : Counter) : list jsstr := split_char (ch ".") (c_name c).

Definition parsed_counters (counters : list Counter) : option node :=
  foldl (fun t c => n ← t; insert (fields c) (c_type c) n) (Some root) counters.

(** [maybeMoveUp], the subtree already collapsed. *)
Definition maybeMoveUp (tree : list (jsstr * node)) (key : jsstr) : list (jsstr * node) :=
  match obj_get tree key with
  | Some (Node _ [(child_key, Node _ cs ty)] _) =>
      let new_key := key ++ js "." ++ child_key in
      obj_delete (obj_set tree new_key (Node new_key cs ty)) key
  | _ => tree
  end.

(** [collapse]: the subtrees do not overlap, so all of them are collapsed first;
    [_.each] takes the names before the loop. *)
Fixpoint collapse (n : node) : node :=
  match n with
  | Node t cs ty => Node t (foldl maybeMoveUp (List.map (fun p => (p.1, collapse p.2)) cs) (obj_keys cs)) ty
  end.

Definition asCounterTree (counters : list Counter) : option node := collapse <$> parsed_counters counters.

(** ** Showing the tree *)

(** An entry of a level: an inner node, or a leaf with the class of its icon. *)
Inductive entry := EInner (text : jsstr) | ELeaf (text : jsstr) (icon : option jsstr).

Definition icon (ty : Z) : option jsstr :=
  if ty =? 0 then Some (js "istatd-gauge") else if ty =? 1 then Some (js "istatd-counter") else None.

Definition formatTreeLevel (n : node) : list entry :=
  omap (fun key => match obj_get (n_children n) key with
                   | Some (Node _ [] ty) => Some (ELeaf key (icon ty))
                   | Some _ => Some (EInner key)
                   | None => None
                   end) (obj_keys (n_children n)).

Section jstree.
(** [$('#counter_jstree').jstree('get_node', id).text] *)
Variable text_of : jsstr -> jsstr.

(** [_.clone(parents).reverse().concat(id).slice(1)]: the root's id is dropped. *)
Definition id_path (id : jsstr) (parents : list jsstr) : list jsstr := drop 1 (rev parents ++ [id]).

(** [None] for a [TypeError]. *)
Definition findNodeInCounterTree (tree : node) (id : jsstr) (parents : list jsstr) : option node :=
  foldl (fun n id => n' ← n; obj_get (n_children n') (text_of id)) (Some tree) (id_path id parents).

Definition getCounterName (id : jsstr) (parents : list jsstr) : jsstr :=
  join (js ".") (text_of <$> id_path id parents).

(** The [data] callback: the entries of a node's level; the root's id is [#]. *)
Definition level_data (tree : node) (id : jsstr) (parents : list jsstr) : option (list entry) :=
  if bool_decide (id = js "#") then Some (formatTreeLevel tree)
  else formatTreeLevel <$> findNodeInCounterTree tree id parents.

(** The handler of [select_node.jstree]: a leaf is a counter, an inner node opens or closes. *)
Definition select_node (leaf is_open : bool) (id : jsstr) (parents : list jsstr) : M unit :=
  if leaf then toggleGraphing (getCounterName id parents) None
  else dom "#counter_jstree" (if is_open then "close_node" else "open_node") [AStr id].

End jstree.

(** ** Induction and paths *)

Lemma node_induction (P : node -> Prop) :
  (forall t cs ty, Forall (fun p => P p.2) cs -> P (Node t cs ty)) -> forall n, P n.
Proof.
  intros H. fix IH 1. intros [t cs ty]. apply H. induction cs as [|[k c] cs IHcs]; constructor; [apply IH|exact IHcs].
Qed.

(** The node at the end of a path of names. *)
Fixpoint walk (n : node) (p : list jsstr) : option node :=
  match p with
  | [] => Some n
  | k :: p' => c ← obj_get (n_children n) k; walk c p'
  end.

Lemma walk_app n p q : walk n (p ++ q) = m ← walk n p; walk m q.
Proof. revert n; induction p as [|k p IH]; intros n; [done|]. cbn. by destruct (obj_get _ k) as [c|]; cbn; [apply IH|]. Qed.

Lemma find_is_walk text_of tree id parents :
  findNodeInCounterTree text_of tree id parents = walk tree (text_of <$> id_path id parents).
Proof.
  unfold findNodeInCounterTree. generalize (id_path id parents). intros ids. revert tree.
  assert (Hn : forall l, foldl (fun n id => n' ← n; obj_get (n_children n') (text_of id)) None l = None).
  { induction l; [done|]. cbn. done. }
  induction ids as [|i ids IH]; intros tree; [done|]. cbn. destruct (obj_get _ _) as [c|]; cbn; [apply IH|apply Hn].
Qed.

Lemma id_path_cons id parent parents : id_path id (parent :: parents) = id_path parent parents ++ [id].
Proof. unfold id_path. cbn [rev]. by destruct (rev parents). Qed.

(** A leaf of a level is a leaf of the tree at the path of its node. *)
Lemma level_leaf text_of tree id parent parents es icn :
  (parent = js "#" -> parents = []) -> level_data text_of tree parent parents = Some es -> ELeaf (text_of id) icn ∈ es ->
  id_path id (parent :: parents) <> [] /\
  exists t ty, findNodeInCounterTree text_of tree id (parent :: parents) = Some (Node t [] ty).
Proof.
  intros Hroot Hlev Hin.
  assert (Hn : exists n, walk tree (text_of <$> id_path parent parents) = Some n /\ es = formatTreeLevel n).
  { unfold level_data in Hlev. rewrite find_is_walk in Hlev. case_bool_decide as Hp.
    - rewrite (Hroot Hp), Hp. exists tree. by injection Hlev as <-.
    - destruct (walk tree _) as [n|]; [|done]. exists n. by injection Hlev as <-. }
  destruct Hn as (n & Hw & ->). rewrite id_path_cons. split; [by destruct (id_path parent parents)|].
  rewrite find_is_walk, id_path_cons, fmap_app, walk_app, Hw. cbn [mbind option_bind fmap list_fmap walk].
  unfold formatTreeLevel in Hin. apply list_elem_of_omap in Hin as (key & _ & Hk).
  destruct (obj_get (n_children n) key) as [[t [|p cs] ty]|] eqn:E; [|done..]. injection Hk as -> _. rewrite E. cbn. eauto.
Qed.

(** ** Building the tree *)

Definition ntype (n : node) (p : list jsstr) : option Z := n_type <$> walk n p.

Lemma ntype_cons n k p : ntype n (k :: p) = c ← obj_get (n_children n) k; ntype c p.
Proof. unfold ntype. cbn. by destruct (obj_get _ k). Qed.

Lemma ntype_new t p : ntype (newNode t) p = if decide (p = []) then Some 2 else None.
Proof. by destruct p. Qed.

(** Inserting a name: the nodes along it, the last with the counter's type. *)
Definition inserted (fs : list jsstr) (ty : Z) (p : list jsstr) (old : option Z) : option Z :=
  if decide (p = fs) then Some ty else if decide (p `prefix_of` fs) then Some (default 2 old) else old.

Lemma inserted_cons f fs ty p old : inserted (f :: fs) ty (f :: p) old = inserted fs ty p old.
Proof.
  unfold inserted. destruct (decide (p = fs)) as [->|Hne]; [by rewrite !decide_True|].
  rewrite (decide_False (P := f :: p = f :: fs)) by congruence.
  destruct (decide (p `prefix_of` fs)) as [Hp|Hp].
  - by rewrite decide_True by (by apply prefix_cons).
  - rewrite decide_False; [done|]. intros H. by apply Hp, (prefix_cons_inv_2 _ _ _ _ H).
Qed.

Lemma inserted_ne f g fs ty p old : f <> g -> inserted (f :: fs) ty (g :: p) old = old.
Proof.
  intros Hne. unfold inserted. rewrite decide_False by congruence. rewrite decide_False; [done|].
  intros H. by apply Hne, (eq_sym (prefix_cons_inv_1 _ _ _ _ H)).
Qed.

Lemma insert_total fs ty n :
  Forall (fun f => ~ inherited f) fs ->
  exists n', insert fs ty n = Some n' /\ n_text n' = n_text n /\ forall p, ntype n' p = inserted fs ty p (ntype n p).
Proof.
  intros Hf. revert n; induction Hf as [|f fs Hf _ IH]; intros n.
  { eexists. split; [done|]. split; [done|]. intros [|k p]; [done|]. by rewrite ntype_cons, ntype_cons. }
  assert (Hstep : forall c old, (forall p, ntype c p = old p \/ (p = [] /\ ntype c p = Some 2 /\ old p = None)) ->
    (forall p, old p = ntype n (f :: p)) ->
    exists c', insert fs ty c = Some c' /\
      forall p, ntype (Node (n_text n) (obj_set (n_children n) f c') (n_type n)) p
                = inserted (f :: fs) ty p (ntype n p)).
  { intros c old Hc Ho. destruct (IH c) as (c' & E & _ & Ht). exists c'. split; [done|]. intros [|k p].
    - unfold inserted. rewrite decide_False, decide_True by (done || apply prefix_nil). done.
    - rewrite ntype_cons. cbn [n_children]. destruct (decide (f = k)) as [<-|Hne].
      + rewrite obj_get_set. cbn [mbind option_bind]. rewrite Ht, inserted_cons, <- Ho.
        destruct (Hc p) as [->|(-> & -> & ->)]; [done|]. unfold inserted. destruct (decide ([] = fs)); [done|].
        by rewrite decide_True by apply prefix_nil.
      + rewrite obj_get_set_ne, inserted_ne, ntype_cons by done. done. }
  cbn [insert]. destruct (obj_get (n_children n) f) as [c|] eqn:Ec.
  - destruct (Hstep c (ntype c)) as (c' & E & Ht); [by left|intros p; by rewrite ntype_cons, Ec|].
    rewrite E. cbn. by eexists.
  - rewrite decide_False by done.
    destruct (Hstep (newNode f) (fun _ => None)) as (c' & E & Ht); [|intros p; by rewrite ntype_cons, Ec|].
    { intros p. rewrite ntype_new. destruct (decide (p = [])); [by right|by left]. }
    rewrite E. cbn. by eexists.
Qed.

(** The type at a path after all counters. *)
Definition type_of_path (cs : list Counter) (p : list jsstr) : option Z :=
  foldl (fun old c => inserted (fields c) (c_type c) p old) (if decide (p = []) then Some 2 else None) cs.

Definition proper (cs : list Counter) : Prop := Forall (fun c => Forall (fun f => ~ inherited f) (fields c)) cs.

Lemma parsed_total cs :
  proper cs -> exists t, parsed_counters cs = Some t /\ forall p, ntype t p = type_of_path cs p.
Proof.
  unfold parsed_counters, type_of_path. intros H.
  assert (Hs : forall n, exists t, foldl (fun t c => n ← t; insert (fields c) (c_type c) n) (Some n) cs = Some t /\
    forall p, ntype t p = foldl (fun old c => inserted (fields c) (c_type c) p old) (ntype n p) cs).
  { induction H as [|c cs Hc _ IH]; intros n; [by eexists|]. cbn.
    destruct (insert_total (fields c) (c_type c) n Hc) as (n' & E & _ & Ht). rewrite E.
    destruct (IH n') as (t & Et & Hp). exists t. split; [done|]. intros p. by rewrite Hp, Ht. }
  destruct (Hs root) as (t & E & Ht). exists t. split; [done|]. intros p. rewrite Ht. unfold root. by rewrite ntype_new.
Qed.

Lemma inserted_None fs ty p old : inserted fs ty p old = None <-> ~ p `prefix_of` fs /\ old = None.
Proof.
  unfold inserted. destruct (decide (p = fs)) as [->|]; [split; [done|intros [H _]; by destruct H]|].
  destruct (decide _); split; try done; tauto.
Qed.

Lemma type_of_path_None cs p :
  p <> [] -> type_of_path cs p = None <-> forall c, c ∈ cs -> ~ p `prefix_of` fields c.
Proof.
  intros Hp. unfold type_of_path. rewrite decide_False by done.
  assert (Hs : forall old, foldl (fun old c => inserted (fields c) (c_type c) p old) old cs = None <->
    old = None /\ forall c, c ∈ cs -> ~ p `prefix_of` fields c).
  { induction cs as [|c cs IH]; intros old; cbn.
    { split; [intros ->; split; [done|by intros c ?%not_elem_of_nil]|tauto]. }
    rewrite IH, inserted_None. setoid_rewrite elem_of_cons. split.
    - intros [[H1 H2] H3]. split; [done|]. intros c' [->|Hc]; auto.
    - intros [-> H]. split; [split; [|done]|]; intros; apply H; auto. }
  rewrite Hs. tauto.
Qed.

(** The last counter with a name decides the type. *)
Definition last_type (cs : list Counter) (p : list jsstr) : option Z :=
  foldl (fun old c => if decide (fields c = p) then Some (c_type c) else old) None cs.

Lemma type_of_leaf cs p :
  p <> [] -> (forall c, c ∈ cs -> p `prefix_of` fields c -> fields c = p) -> type_of_path cs p = last_type cs p.
Proof.
  intros Hp. unfold type_of_path, last_type. rewrite decide_False by done. generalize (@None Z) as old.
  induction cs as [|c cs IH]; intros old H; [done|]. cbn. rewrite IH by (intros; apply H; [by right|done]). f_equal.
  unfold inserted. destruct (decide (p = fields c)) as [->|Hne]; [by rewrite decide_True|].
  rewrite (decide_False (P := fields c = p)) by congruence. rewrite decide_False; [done|].
  intros Hpre. apply Hne. symmetry. apply H; [left|done].
Qed.


Lemma last_type_Some cs p : (exists c, c ∈ cs /\ fields c = p) -> exists ty, last_type cs p = Some ty.
Proof.
  unfold last_type. intros (c & Hc & Hf).
  assert (Hs : forall cs old, (exists ty, old = Some ty) ->
    exists ty, foldl (fun old c => if decide (fields c = p) then Some (c_type c) else old) old cs = Some ty).
  { induction cs0 as [|d cs0 IH]; intros old Ho; [done|]. cbn. apply IH. destruct (decide _); eauto. }
  generalize (@None Z). induction cs as [|d cs IH]; intros old; [by apply not_elem_of_nil in Hc|]. cbn.
  apply elem_of_cons in Hc as [->|Hc]; [|by apply IH]. apply Hs. rewrite decide_True by done. by eexists.
Qed.

(** ** Shapes *)

(** Names are distinct at every level. *)
Inductive named : node -> Prop :=
  named_node t cs ty : NoDup cs.*1 -> Forall (fun p => named p.2) cs -> named (Node t cs ty).

(** Names without dots, as before [collapse]. *)
Inductive parsed : node -> Prop :=
  parsed_node t cs ty :
    NoDup cs.*1 -> Forall (fun k => 46 ∉ k) cs.*1 -> Forall (fun p => parsed p.2) cs -> parsed (Node t cs ty).

(** No node but the root has a single child. *)
Inductive shaped : node -> Prop :=
  shaped_node t cs ty :
    NoDup cs.*1 -> Forall (fun p => length (n_children p.2) <> 1%nat /\ shaped p.2) cs -> shaped (Node t cs ty).

Lemma parsed_named n : parsed n -> named n.
Proof.
  induction n as [t cs ty IH] using node_induction. inversion_clear 1 as [? ? ? Hn _ Hc]. constructor; [done|].
  rewrite Forall_forall in *. eauto.
Qed.

Lemma shaped_named n : shaped n -> named n.
Proof.
  induction n as [t cs ty IH] using node_induction. inversion_clear 1 as [? ? ? Hn Hc]. constructor; [done|].
  rewrite Forall_forall in *. intros p Hp. apply IH; [done|]. by apply Hc.
Qed.

Lemma insert_parsed fs ty n n' :
  Forall (fun f => 46 ∉ f) fs -> parsed n -> insert fs ty n = Some n' -> parsed n'.
Proof.
  intros Hf. revert n n'; induction Hf as [|f fs Hf _ IH]; intros n n' Hn; cbn [insert].
  { intros [= <-]. by inversion Hn. }
  assert (Hstep : forall c, parsed c -> (c' ← insert fs ty c; Some (Node (n_text n) (obj_set (n_children n) f c') (n_type n))) = Some n' ->
    parsed n').
  { intros c Hc. destruct (insert fs ty c) as [c'|] eqn:E; [|done]. intros [= <-].
    inversion_clear Hn as [t cs ty0 H1 H2 H3]. cbn [n_children n_text n_type]. constructor.
    - by apply obj_set_wf.
    - rewrite obj_set_names. destruct (decide _); [done|]. apply Forall_app; split; [done|by apply Forall_singleton].
    - apply Forall_obj_set; [done|]. by eapply IH. }
  destruct (obj_get (n_children n) f) as [c|] eqn:E.
  - apply Hstep. apply obj_get_elem in E. inversion Hn as [t cs ty0 H1 H2 H3]; subst. rewrite Forall_forall in H3.
    apply (H3 (f, c) E).
  - destruct (decide (inherited f)); [destruct fs; [intros [= <-]; exact Hn|done]|].
    apply Hstep. constructor; constructor.
Qed.

Lemma parsed_counters_parsed cs t : parsed_counters cs = Some t -> parsed t.
Proof.
  unfold parsed_counters. assert (Hr : parsed root) by (constructor; constructor). revert Hr. generalize root.
  assert (Hnone : forall cs, foldl (fun t c => n ← t; insert (fields c) (c_type c) n) None cs = None).
  { induction cs0; [done|]. cbn. done. }
  induction cs as [|c cs IH]; intros n Hn; cbn; [by intros [= <-]|].
  destruct (insert (fields c) (c_type c) n) as [n'|] eqn:E; [|by rewrite Hnone]. apply IH.
  eapply insert_parsed; [|done|exact E]. apply split_char_pieces.
Qed.

(** ** The names at the leaves *)

Fixpoint leaf_names (n : node) : list (jsstr * Z) :=
  match n with
  | Node _ cs _ =>
      List.flat_map (fun p => match p.2 with
                              | Node _ [] ty => [(p.1, ty)]
                              | Node _ (_ :: _) _ => (fun x => (p.1 ++ js "." ++ x.1, x.2)) <$> leaf_names p.2
                              end) cs
  end.

Definition entry_names (p : jsstr * node) : list (jsstr * Z) :=
  match p.2 with
  | Node _ [] ty => [(p.1, ty)]
  | Node _ (_ :: _) _ => (fun x => (p.1 ++ js "." ++ x.1, x.2)) <$> leaf_names p.2
  end.

Lemma leaf_names_bind n : leaf_names n = n_children n ≫= entry_names.
Proof.
  destruct n as [t cs ty]. change (List.flat_map entry_names cs = cs ≫= entry_names).
  induction cs as [|p cs IH]; [done|]. rewrite bind_cons, <- IH. done.
Qed.

Lemma entry_names_leaf n nm ty :
  named n ->
  (nm, ty) ∈ leaf_names n <->
  exists ps t, ps <> [] /\ walk n ps = Some (Node t [] ty) /\ nm = join (js ".") ps.
Proof.
  revert nm; induction n as [t0 cs ty0 IH] using node_induction. intros nm Hn. inversion_clear Hn as [? ? ? Hnd Hc].
  rewrite leaf_names_bind. cbn [n_children]. rewrite list_elem_of_bind. rewrite Forall_forall in IH, Hc. split.
  - intros ([k c] & He & Hin). assert (Hget : obj_get cs k = Some c) by (apply obj_in_get; done).
    destruct c as [tc [|p cc] tyc]; cbn in He.
    + apply list_elem_of_singleton in He as [= -> ->]. exists [k], tc. split; [done|]. split; [|done]. cbn. by rewrite Hget.
    + apply list_elem_of_fmap in He as ([x tx] & [= -> ->] & Hx). cbn in Hx.
      apply (IH (k, _) Hin) in Hx as (ps & t & Hps & Hw & ->); [|by apply (Hc (k, _))].
      exists (k :: ps), t. split; [done|]. cbn. rewrite Hget. split; [exact Hw|]. by destruct ps.
  - intros (ps & t & Hps & Hw & ->). destruct ps as [|k ps]; [done|]. cbn in Hw.
    destruct (obj_get cs k) as [c|] eqn:Hget; [|done]. cbn in Hw. apply obj_get_elem in Hget as Hin.
    exists (k, c). split; [|done]. destruct ps as [|k' ps].
    + injection Hw as ->. cbn. left.
    + destruct c as [tc [|p cc] tyc]; [done|]. cbn [entry_names fst snd]. apply list_elem_of_fmap.
      exists (join (js ".") (k' :: ps), ty). split; [done|].
      apply (IH (k, _) Hin); [by apply (Hc (k, _))|]. by exists (k' :: ps), t.
Qed.

(** ** Collapsing *)

(** The first field of a name. *)
Definition first_field (k : jsstr) : jsstr := default [] (head (split_char 46 k)).

Lemma first_field_id k : 46 ∉ k -> first_field k = k.
Proof. intros H. unfold first_field. by rewrite split_char_id. Qed.
Lemma first_field_app k x : 46 ∉ k -> first_field (k ++ js "." ++ x) = k.
Proof. intros H. unfold first_field. change (js "." ++ x) with (46 :: x). by rewrite split_char_app. Qed.

(** Every node with children has leaves below. *)
Lemma leaf_names_nonempty n : n_children n <> [] -> leaf_names n <> [].
Proof.
  induction n as [t cs ty IH] using node_induction. cbn [n_children]. intros Hne. destruct cs as [|[k c] cs]; [done|].
  apply Forall_cons in IH as [IH _]. rewrite leaf_names_bind. cbn [n_children]. rewrite bind_cons.
  intros [H _]%app_nil. revert H. unfold entry_names. cbn [fst snd] in *. destruct c as [tc [|p cc] tyc]; [done|].
  intros H%fmap_nil_inv. by apply IH in H.
Qed.

(** The entry of a child that was collapsed. *)
Lemma entry_names_perm k c c' :
  n_type c = n_type c' -> (n_children c = [] -> n_children c' = []) -> leaf_names c ≡ₚ leaf_names c' ->
  entry_names (k, c) ≡ₚ entry_names (k, c').
Proof.
  intros Ht Hl Hp. unfold entry_names. cbn [fst snd]. destruct c as [tc [|p cc] tyc]; cbn in Ht, Hl.
  - specialize (Hl eq_refl). destruct c' as [tc' cc' tyc']. cbn in Ht, Hl. by subst.
  - pose proof (leaf_names_nonempty (Node tc (p :: cc) tyc) ltac:(done)) as Hne.
    destruct c' as [tc' [|p' cc'] tyc']; [by apply Permutation_nil_r in Hp|]. by apply fmap_Permutation.
Qed.

(** Moving a single child up keeps the names below. *)
Lemma entry_names_up k t t' t'' ck cs ty0 ty :
  entry_names (k, Node t [(ck, Node t' cs ty)] ty0) = entry_names (k ++ js "." ++ ck, Node t'' cs ty).
Proof.
  unfold entry_names at 1. cbn [snd fst]. rewrite leaf_names_bind. cbn [n_children]. rewrite bind_singleton.
  unfold entry_names. cbn [snd fst]. destruct cs as [|p cs]; [done|]. rewrite <- list_fmap_compose.
  rewrite !leaf_names_bind. apply list_fmap_ext. intros i [x tx] _. cbn. by rewrite <- !app_assoc.
Qed.

(** What one step of [maybeMoveUp] does. *)
Lemma maybeMoveUp_spec tree key :
  46 ∉ key -> NoDup (first_field <$> tree.*1) ->
  maybeMoveUp tree key = tree /\ (forall c, obj_get tree key = Some c -> length (n_children c) <> 1%nat) \/
  exists t ck t' cs ty ty0, obj_get tree key = Some (Node t [(ck, Node t' cs ty)] ty0) /\
    maybeMoveUp tree key = obj_delete tree key ++ [(key ++ js "." ++ ck, Node (key ++ js "." ++ ck) cs ty)].
Proof.
  intros Hk Hnd. unfold maybeMoveUp. destruct (obj_get tree key) as [[t cc ty0]|] eqn:E; [|by left].
  destruct cc as [|[ck [t' cs ty]] [|]]; [left|right|left]; try (split; [done|by intros c [= <-]]).
  exists t, ck, t', cs, ty, ty0. split; [done|]. set (nk := key ++ js "." ++ ck).
  assert (Hne : nk <> key) by (unfold nk; intros H; apply (f_equal length) in H; rewrite !length_app in H; cbn in H; lia).
  assert (Hnew : nk ∉ tree.*1).
  { intros Hin. apply Hne. apply obj_get_Some_in in E. apply list_elem_of_lookup in Hin as [i Hi].
    apply list_elem_of_lookup in E as [j Hj].
    assert (i = j) as ->; [|congruence]. apply (NoDup_lookup (first_field <$> tree.*1) i j key Hnd).
    - rewrite list_lookup_fmap, Hi. cbn. f_equal. by apply first_field_app.
    - rewrite list_lookup_fmap, Hj. cbn. f_equal. by apply first_field_id. }
  rewrite obj_set_new by done. unfold obj_delete. rewrite filter_app. f_equal. by rewrite filter_cons_True, filter_nil.
Qed.

(** The state of the loop over the names still to visit. *)
Record moving (ks : list jsstr) (tree : list (jsstr * node)) : Prop := {
  mv_names : NoDup (first_field <$> tree.*1);
  mv_shape : Forall (fun p => shaped p.2 /\ (p.1 ∈ ks \/ length (n_children p.2) <> 1%nat)) tree }.

Lemma first_fields_wf {V} (o : list (jsstr * V)) : NoDup (first_field <$> o.*1) -> obj_wf o.
Proof. apply NoDup_fmap_1. Qed.

Lemma maybeMoveUp_moving key ks tree :
  46 ∉ key -> moving (key :: ks) tree ->
  moving ks (maybeMoveUp tree key) /\ (maybeMoveUp tree key ≫= entry_names) ≡ₚ (tree ≫= entry_names).
Proof.
  intros Hk [Hnd Hs]. pose proof (first_fields_wf tree Hnd) as Hwf.
  destruct (maybeMoveUp_spec tree key Hk Hnd) as [[E Hne]|(t & ck & t' & cs & ty & ty0 & Hg & E)]; rewrite E.
  - split; [|done]. constructor; [done|]. rewrite Forall_forall in *. intros p Hp. destruct (Hs p Hp) as [H1 H2].
    split; [done|]. destruct H2 as [H2|H2]; [|by right]. apply elem_of_cons in H2 as [Hpk|H2]; [|by left]. right.
    apply Hne. apply obj_in_get; [done|]. rewrite <- Hpk. by destruct p.
  - pose proof (obj_delete_Permutation tree key _ Hwf Hg) as Hp.
    rewrite Hp, fmap_cons, fmap_cons in Hnd. cbn [fst] in Hnd.
    rewrite Hp in Hs. apply Forall_cons in Hs as [[Hc _] Hs]. cbn [snd] in Hc.
    inversion_clear Hc as [? ? ? _ Hc1]. apply Forall_cons in Hc1 as [[Hl Hsub] _]. cbn [snd n_children] in Hl, Hsub. split.
    + constructor.
      * rewrite !fmap_app. cbn [fmap list_fmap fst]. rewrite first_field_app by done. rewrite first_field_id in Hnd by done.
        by rewrite <- Permutation_cons_append.
      * apply Forall_app; split.
        -- rewrite Forall_forall in *. intros p Hin. destruct (Hs p Hin) as [H1 H2]. split; [done|].
           destruct H2 as [[Hpk|H2]%elem_of_cons|H2]; [|by left|by right].
           exfalso. unfold obj_delete in Hin. apply list_elem_of_filter in Hin as [Hin _]. by apply Hin.
        -- apply Forall_singleton. cbn. split; [|by right]. inversion_clear Hsub. by constructor.
    + rewrite Hp at 2. rewrite bind_app, bind_singleton, bind_cons, (entry_names_up _ _ _ (key ++ js "." ++ ck)).
      apply Permutation_app_comm.
Qed.

Lemma moving_all ks tree :
  Forall (fun k => 46 ∉ k) ks -> moving ks tree ->
  moving [] (foldl maybeMoveUp tree ks) /\ (foldl maybeMoveUp tree ks ≫= entry_names) ≡ₚ (tree ≫= entry_names).
Proof.
  intros Hk. revert tree; induction Hk as [|key ks Hk _ IH]; intros tree Hm; [done|]. cbn.
  destruct (maybeMoveUp_moving key ks tree Hk Hm) as [Hm' Hp]. destruct (IH _ Hm') as [H1 H2].
  split; [done|]. by rewrite H2.
Qed.

Lemma collapse_spec n : parsed n -> shaped (collapse n) /\ leaf_names (collapse n) ≡ₚ leaf_names n.
Proof.
  induction n as [t cs ty IH] using node_induction. intros Hn. inversion_clear Hn as [? ? ? Hnd Hd Hc].
  cbn [collapse]. set (tree := List.map _ cs).
  assert (Hnames : tree.*1 = cs.*1).
  { unfold tree. clear. induction cs as [|p cs IH]; [done|]. cbn. by rewrite IH. }
  rewrite Forall_forall in IH, Hc.
  assert (Hm : moving (obj_keys cs) tree).
  { constructor.
    - rewrite Hnames. replace (first_field <$> cs.*1) with cs.*1; [done|]. rewrite <- (list_fmap_id cs.*1) at 1.
      apply list_fmap_ext. intros i k Hk. rewrite Forall_lookup in Hd. symmetry. apply first_field_id, (Hd i k Hk).
    - apply Forall_forall. intros p Hp. unfold tree in Hp. apply list_elem_of_In, in_map_iff in Hp as (q & <- & Hq%list_elem_of_In).
      cbn. split; [by apply IH, Hc|]. left. unfold obj_keys. apply elem_of_enum_order, list_elem_of_fmap. by exists q. }
  assert (Hdk : Forall (fun k => 46 ∉ k) (obj_keys cs)) by (unfold obj_keys; by rewrite enum_order_Permutation).
  destruct (moving_all _ _ Hdk Hm) as [[Hnd' Hs] Hp]. split.
  - constructor; [by apply first_fields_wf|]. eapply Forall_impl; [exact Hs|]. cbn. intros p [H [Hx|H']]; [by apply not_elem_of_nil in Hx|done].
  - rewrite !leaf_names_bind. cbn [n_children]. rewrite Hp. clear Hm Hp Hnd' Hs Hdk Hnd Hd Hnames. unfold tree.
    induction cs as [|[k c] cs IHcs]; [done|]. cbn [List.map fst snd]. rewrite !bind_cons. apply Permutation_app.
    + destruct (IH (k, c)) as [_ Hl]; [left|apply (Hc (k, c)); left|]. cbn [snd] in Hl. symmetry.
      apply entry_names_perm; [by destruct c|intros Hnil; destruct c; cbn in Hnil; by subst|by symmetry].
    + apply IHcs; intros; [apply IH|apply Hc]; by right || done.
Qed.

(** ** Names and paths *)

Lemma split_dot_app s t : split_char 46 (s ++ 46 :: t) = split_char 46 s ++ split_char 46 t.
Proof.
  induction s as [|x s IH]; [done|]. cbn. rewrite IH. destruct (x =? 46); [done|].
  destruct (split_char 46 s) as [|p ps] eqn:E; [by apply split_char_nonempty in E|done].
Qed.

Lemma join_app ps f q : ps <> [] -> join [46] (ps ++ f :: q) = join [46] ps ++ [46] ++ join [46] (f :: q).
Proof.
  intros Hne. induction ps as [|p ps IH]; [done|]. destruct ps as [|p' ps]; [done|].
  change (p ++ [46] ++ join [46] ((p' :: ps) ++ f :: q) = (p ++ [46] ++ join [46] (p' :: ps)) ++ [46] ++ join [46] (f :: q)).
  rewrite IH, <- !app_assoc by done. done.
Qed.

(** A path extends a name's fields when a longer name does. *)
Lemma strict_prefix_name nm c :
  (exists f, (split_char 46 nm ++ [f]) `prefix_of` fields c) <-> exists rest, c_name c = nm ++ js "." ++ rest.
Proof.
  unfold fields. change (ch ".") with 46. split.
  - intros (f & q & Hq). exists (join [46] (f :: q)). rewrite <- (join_split_char 46 (c_name c)), Hq.
    rewrite <- app_assoc. cbn [app]. rewrite <- (join_split_char 46 nm) at 2.
    apply join_app, split_char_nonempty.
  - intros (rest & ->). change (js "." ++ rest) with (46 :: rest). rewrite split_dot_app.
    destruct (split_char 46 rest) as [|f q] eqn:E; [by apply split_char_nonempty in E|]. exists f, q. by rewrite <- app_assoc.
Qed.

(** The leaves of the parsed tree. *)
Lemma parsed_leaf cs t ps ty :
  (forall p, ntype t p = type_of_path cs p) -> ps <> [] ->
  (exists tx, walk t ps = Some (Node tx [] ty)) <->
  (exists c, c ∈ cs /\ fields c = ps) /\ (forall c f, c ∈ cs -> ~ (ps ++ [f]) `prefix_of` fields c) /\
  last_type cs ps = Some ty.
Proof.
  intros Ht Hps.
  assert (Hext : forall m, walk t ps = Some m -> n_children m = [] <-> forall c f, c ∈ cs -> ~ (ps ++ [f]) `prefix_of` fields c).
  { intros m Hm. assert (Hnone : forall f, obj_get (n_children m) f = None <-> forall c, c ∈ cs -> ~ (ps ++ [f]) `prefix_of` fields c).
    { intros f. rewrite <- type_of_path_None, <- Ht by (by destruct ps). unfold ntype. rewrite walk_app, Hm. cbn.
      by destruct (obj_get _ f). }
    split.
    - intros Hnil c f. apply Hnone. by rewrite Hnil.
    - intros H. destruct (n_children m) as [|[k c] cc] eqn:E; [done|]. exfalso.
      assert (Hk : obj_get ((k, c) :: cc) k = None) by (apply Hnone; intros; by apply H). cbn in Hk. by rewrite decide_True in Hk. }
  split.
  - intros [tx Hw]. pose proof (proj1 (Hext _ Hw) eq_refl) as Hno.
    assert (Hty : type_of_path cs ps = Some ty) by (rewrite <- Ht; unfold ntype; by rewrite Hw).
    assert (Heq : forall c, c ∈ cs -> ps `prefix_of` fields c -> fields c = ps).
    { intros c Hc [[|f q] Hq]; [by rewrite Hq, app_nil_r|]. destruct (Hno c f Hc). exists q. by rewrite <- app_assoc. }
    split; [|split; [done|by rewrite <- type_of_leaf]].
    destruct (decide (Exists (fun c => ps `prefix_of` fields c) cs)) as [He|Hn].
    + apply Exists_exists in He as (c & Hc & Hp). exists c. auto.
    + assert (type_of_path cs ps = None) as Hnone; [|congruence]. apply type_of_path_None; [done|].
      intros c Hc Hp. apply Hn, Exists_exists. eauto.
  - intros ((c & Hc & Hf) & Hno & Hl). rewrite <- type_of_leaf, <- Ht in Hl; [|done|].
    + unfold ntype in Hl. destruct (walk t ps) as [[tx cc ty']|] eqn:Hw; [|done]. cbn in Hl. injection Hl as ->.
      exists tx. pose proof (proj2 (Hext _ eq_refl) Hno) as Hnil. cbn in Hnil. by subst.
    + intros c' Hc' [[|f q] Hq]; [by rewrite Hq, app_nil_r|]. destruct (Hno c' f Hc'). exists q. by rewrite <- app_assoc.
Qed.

(** A path of fields is the fields of the joined name. *)
Lemma parsed_paths t ps m : parsed t -> walk t ps = Some m -> Forall (fun k => 46 ∉ k) ps.
Proof.
  revert t; induction ps as [|k ps IH]; intros t Ht Hw; [constructor|]. cbn in Hw.
  destruct (obj_get (n_children t) k) as [c|] eqn:E; [|done]. apply obj_get_elem in E. inversion Ht as [? ? ? H1 H2 H3]; subst.
  cbn in E, Hw. rewrite Forall_forall in H2. rewrite Forall_forall in H3. constructor; [|eapply IH; [apply (H3 (k, c) E)|exact Hw]].
  apply H2, list_elem_of_fmap. by exists (k, c).
Qed.

(** The names at the leaves of the tree shown. *)
Definition is_leaf_name (tree : node) (nm : jsstr) (ty : Z) : Prop :=
  exists ps t, ps <> [] /\ walk tree ps = Some (Node t [] ty) /\ nm = join (js ".") ps.

Lemma asCounterTree_leaves cs :
  proper cs ->
  exists tree, asCounterTree cs = Some tree /\ shaped tree /\
  forall nm ty, is_leaf_name tree nm ty <->
    (exists c, c ∈ cs /\ c_name c = nm) /\ (forall c rest, c ∈ cs -> c_name c <> nm ++ js "." ++ rest) /\
    last_type cs (split_char 46 nm) = Some ty.
Proof.
  intros Hp. destruct (parsed_total cs Hp) as (t & Et & Ht). pose proof (parsed_counters_parsed cs t Et) as Hpt.
  destruct (collapse_spec t Hpt) as [Hs Hl]. exists (collapse t). unfold asCounterTree. rewrite Et. split; [done|]. split; [done|].
  intros nm ty. unfold is_leaf_name. rewrite <- entry_names_leaf by (by apply shaped_named).
  rewrite Hl, entry_names_leaf by (by apply parsed_named).
  set (ps := split_char 46 nm). assert (Hne : ps <> []) by apply split_char_nonempty.
  transitivity (exists tx, walk t ps = Some (Node tx [] ty)).
  { split; [intros (qs & tx & Hq & Hw & ->)|intros [tx Hw]].
    - exists tx. unfold ps. change (js ".") with [46]. rewrite split_char_join; [done|done|]. by eapply parsed_paths.
    - exists ps, tx. split; [done|]. split; [done|]. symmetry. apply join_split_char. }
  rewrite (parsed_leaf cs t ps ty Ht Hne). unfold ps.
  assert (Hname : forall c, fields c = split_char 46 nm <-> c_name c = nm).
  { intros c. unfold fields. split; [|by intros ->]. intros H. rewrite <- (join_split_char 46 (c_name c)).
    change (ch ".") with 46 in H. rewrite H. apply join_split_char. }
  setoid_rewrite Hname. split; intros (H1 & H2 & H3); (split_and!; [done| |done]).
  - intros c rest Hc Hr. destruct (proj2 (strict_prefix_name nm c)) as [f Hf]; [by exists rest|]. by apply (H2 c f).
  - intros c f Hc Hf. destruct (proj1 (strict_prefix_name nm c)) as [rest Hr]; [by exists f|]. by apply (H2 c rest).
Qed.

(** ** Properties *)

(** C16: the tree of counters.  For counters whose fields are not names of [Object.prototype],
    [asCounterTree] returns a tree in which no node below the root has a single child, and whose leaves, by
    the path of texts joined with dots, are exactly the counters that are not a dotted prefix
    of another one, each with the type of the last counter of that name.  (A counter that is a prefix of
    another is an inner node, or merged away: it cannot be selected.) *)
Theorem counter_tree_leaves cs :
  proper cs ->
  exists tree, asCounterTree cs = Some tree /\ shaped tree /\
  forall nm ty, is_leaf_name tree nm ty <->
    (exists c, c ∈ cs /\ c_name c = nm) /\ (forall c rest, c ∈ cs -> c_name c <> nm ++ js "." ++ rest) /\
    last_type cs (split_char 46 nm) = Some ty.
Proof. apply asCounterTree_leaves. Qed.

(** ** Concrete runs *)

Definition ct_names : list Counter :=
  [mkCounter (js "cpu.user") 0; mkCounter (js "net.eth0.in") 1; mkCounter (js "cpu.idle") 0; mkCounter (js "net.eth0.out") 1].
Lemma ct_proper : proper ct_names.
Proof. apply (bool_decide_unpack _); vm_compute; exact I. Defined.

Lemma counter_tree_leaves_witness :
  exists tree, asCounterTree ct_names = Some tree /\ is_leaf_name tree (js "net.eth0.in") 1.
Proof.
  destruct (counter_tree_leaves ct_names ct_proper) as (tree & E & _ & H). exists tree. split; [exact E|]. apply H.
  split; [exists (mkCounter (js "net.eth0.in") 1); split; [unfold ct_names; right; left|reflexivity]|].
  split; [|vm_compute; reflexivity]. intros c rest Hc Hr. unfold ct_names in Hc.
  repeat (apply elem_of_cons in Hc as [->|Hc]; [vm_compute in Hr; discriminate Hr|]). by apply not_elem_of_nil in Hc.
Defined.

End CounterTree.
