(* ===== verification/CounterFilter.v ===== *)
(** * The counter model and its filter ([CounterTreeModel], [CounterTreeFilterView], [CounterTreeView] of [files/graph.js])

    The pattern of the search box becomes a regular expression; the counters of the
    server's list that match it are sorted and shown as a tree.  The tree is rendered when the
    Backbone model announces a change.  A pattern that is not a regular expression makes the
    rendering throw, inside the model's [set].  jsTree's own state (what is open and selected) is
    outside. *)

From S2P Require Import Prelude JsString JsObject Backbone LiveModel RegExp JsNumber Json JsValue World Shell Loader Grid TimeRange CounterTree.
Import Shell TimeRange JsValue CounterTree.

Local Open Scope Z_scope.

Module CounterFilter.

(** ** Filtering *)

(** The text given to [RegExp]; [/.*/] for the pattern ["*"]. *)
Definition proto_pat (pattern : jsstr) : jsstr :=
  if bool_decide (pattern = js "*") then js ".*"
  else match indexOf (js "*") pattern with
       | None => js ".*" ++ pattern ++ js ".*"
       | Some _ => join (js ".*") (split_char (ch "*") pattern)
       end.

(** [_.sortBy("name")], stable. *)
Fixpoint insert_by_name (c : Counter) (l : list Counter) : list Counter :=
  match l with
  | [] => [c]
  | d :: l' => if str_leb (c_name c) (c_name d) then c :: l else d :: insert_by_name c l'
  end.
Definition sort_by_name (l : list Counter) : list Counter := foldr insert_by_name [] l.

Definition matching_counters (pat : RegExp.re) (counters : list Counter) : list Counter :=
  sort_by_name (List.filter (fun c => RegExp.search (c_name c) pat) counters).

(** Why a rendering stops: an exception, or an expression or a value that is outside the model. *)
Inductive failure := Throws (e : exn) | NotModelled.

(** The type of a counter as a key of the icons: [icons[type]] takes any value by its text. *)
Definition read_type (v : option json) : Z :=
  match v ≫= as_int with
  | Some n => n
  | None => if bool_decide (opt_string v = js "0") then 0 else if bool_decide (opt_string v = js "1") then 1 else -1
  end.

(** [counter.is_leaf && counter.name.search(pat)]: whether an element is a leaf, and its name;
    [None] for a [TypeError]. *)
Definition read_counter (v : json) : option (option Counter) :=
  is_leaf ← prop v "is_leaf";
  if from_option truthy false is_leaf then
    match prop v "name" with
    | Some (Some (JStr name)) => Some (Some (mkCounter name (read_type (mjoin (prop v "type")))))
    | _ => None
    end
  else Some None.

(** The leaves that [_.filter] sees in the attribute [matching_names]. *)
Definition read_counters (v : option json) : list Counter + failure :=
  match v with
  | None | Some JNull | Some (JStr _) => inl []
  | Some (JArr l) => match mapM read_counter l with Some cs => inl (omap id cs) | None => inr (Throws TypeError) end
  | Some (JBool _) | Some (JNum _ _) | Some (JObj _) => inr NotModelled
  end.

(** ** The model and its views *)

Abbreviation model := (Model.model json).

Definition model_defaults : list (jsstr * option json) :=
  [(js "pattern", Some (JStr (js "*"))); (js "matching_names", Some (JArr []))].

(** [url] of the model *)
Definition url (m : model) : jsstr := js "/?q=" ++ opt_string (Model.get m (js "pattern")).

(** The tree of the model's attributes. *)
Definition build (m : model) : node + failure :=
  match Model.get m (js "pattern") with
  | Some (JStr pattern) =>
      match RegExp.compile (proto_pat pattern) with
      | RegExp.Fine pat =>
          match read_counters (Model.get m (js "matching_names")) with
          | inl counters =>
              match asCounterTree (matching_counters pat counters) with
              | Some tree => inl tree
              | None => inr (Throws TypeError)
              end
          | inr f => inr f
          end
      | RegExp.Invalid => inr (Throws SyntaxError)
      | RegExp.Outside => inr NotModelled
      end
  | Some (JArr _) => inr NotModelled
  | _ => inr (Throws TypeError)
  end.

(** [initialize] of the filter view and of the tree's view: their elements. *)
Definition filter_initialize : M unit :=
  for_each ["#counter_filter_label"; "#counter_filter_text"; ".magnifying_glass"; "#counter_filter_clear"]%string
    (fun child => dom "#counter_filter" "append" [AStr (js child)]);;
  dom "#counters" "append" [AStr (js "#counter_filter")].

Definition tree_initialize : M unit :=
  x ← new_xhr XCounters;
  emit (EHttp x "GET" (url (Model.new_model [] model_defaults)) []);;
  filter_initialize;;
  dom ".scroll" "append" [AStr (js "#counter_jstree")];;
  dom "#counters" "append" [AStr (js ".scroll")].

(** ** What patterns mean *)

(** The names a pattern selects. *)
Definition selects (p nm : jsstr) : Prop := exists r, RegExp.compile (proto_pat p) = RegExp.Fine r /\ exists i j, RegExp.spans nm r i j.
Definition valid_pattern (p : jsstr) : Prop := exists r, RegExp.compile (proto_pat p) = RegExp.Fine r.

(** A pattern of ordinary characters, dots and stars. *)
Definition metachars : list Z := js "\^$+?()[]{}|".
Definition plain_pattern (p : jsstr) : Prop := Forall (fun c => c ∉ metachars) p.

(** A piece of a pattern fits a text: [.] fits any character. *)
Definition fits (p m : jsstr) : Prop := Forall2 (fun a b => a = 46 \/ a = b) p m.

#[global] Instance fits_dec p m : Decision (fits p m).
Proof. unfold fits. apply _. Defined.

(** The pieces, in order and apart. *)
Fixpoint in_order (ps : list jsstr) (s : jsstr) : Prop :=
  match ps with
  | [] => True
  | p :: ps' => exists u m v, s = u ++ m ++ v /\ fits p m /\ in_order ps' v
  end.

Definition no_line_end (s : jsstr) : Prop := Forall (fun c => RegExp.line_end c = false) s.

(** *** Compiling a plain pattern *)

Definition literal (c : Z) : Prop := c <> 42 /\ c ∉ metachars.
Definition char_re (c : Z) : RegExp.re := if c =? 46 then RegExp.Dot else RegExp.Lit c.
Definition star_re : RegExp.re := RegExp.Rep RegExp.Dot 0 None.

Definition lexs (s : jsstr) : RegExp.outcome (list RegExp.token) := RegExp.lex (length s) s.

Lemma lexs_cons x s t r : RegExp.lex1 x s = RegExp.Fine (t, r) -> lexs (x :: s) = RegExp.obind (lexs r) (fun ts => RegExp.Fine (t :: ts)).
Proof.
  intros E. unfold lexs. cbn [RegExp.lex length]. rewrite E. cbn [RegExp.obind].
  by rewrite RegExp.lex_fuel by (by eapply RegExp.lex1_length).
Qed.

Lemma lex1_literal c s : literal c -> RegExp.lex1 c s = RegExp.Fine (RegExp.TAtom (char_re c), s).
Proof.
  intros [H1 H2]. unfold RegExp.lex1, char_re. change (ch ".") with 46. destruct (c =? 46); [done|].
  unfold metachars in H2. rewrite (proj2 (Z.eqb_neq c (ch "*"))) by exact H1.
  repeat (apply not_elem_of_cons in H2 as [? H2]).
  repeat (rewrite (proj2 (Z.eqb_neq c _)) by (vm_compute; assumption)). done.
Qed.

(** The tokens of a list of pieces with [.*] between them. *)
Definition lit_tokens (p : jsstr) : list RegExp.token := (fun c => RegExp.TAtom (char_re c)) <$> p.
Definition star_tokens : list RegExp.token := [RegExp.TAtom RegExp.Dot; RegExp.TQuant 0 None false].
Fixpoint tokens (ps : list jsstr) : list RegExp.token :=
  match ps with
  | [] => []
  | [p] => lit_tokens p
  | p :: ps' => lit_tokens p ++ star_tokens ++ tokens ps'
  end.

Lemma lexs_literals p r ts : Forall literal p -> lexs r = RegExp.Fine ts -> lexs (p ++ r) = RegExp.Fine (lit_tokens p ++ ts).
Proof.
  intros Hp Hr. induction Hp as [|c p Hc _ IH]; [done|]. cbn [app]. by rewrite (lexs_cons _ _ _ _ (lex1_literal _ _ Hc)), IH.
Qed.

Lemma lexs_pieces ps : ps <> [] -> Forall (Forall literal) ps -> lexs (join (js ".*") ps) = RegExp.Fine (tokens ps).
Proof.
  intros Hne H. induction H as [|p ps Hp Hps IH]; [done|]. destruct ps as [|q ps].
  - pose proof (lexs_literals p [] [] Hp eq_refl) as H. by rewrite !app_nil_r in H.
  - change (join (js ".*") (p :: q :: ps)) with (p ++ 46 :: 42 :: join (js ".*") (q :: ps)).
    change (tokens (p :: q :: ps)) with (lit_tokens p ++ star_tokens ++ tokens (q :: ps)). apply lexs_literals; [done|].
    rewrite (lexs_cons 46 _ (RegExp.TAtom RegExp.Dot) (42 :: join (js ".*") (q :: ps))) by done.
    rewrite (lexs_cons 42 _ (RegExp.TQuant 0 None false) (join (js ".*") (q :: ps))) by done.
    by rewrite IH.
Qed.

(** The items that the parser puts in sequence. *)
Fixpoint items (ps : list jsstr) : list RegExp.re :=
  match ps with
  | [] => []
  | [p] => char_re <$> p
  | p :: ps' => (char_re <$> p) ++ star_re :: items ps'
  end.

Lemma parse_literals p ts f :
  RegExp.f_alts f = None ->
  exists f', RegExp.f_alts f' = None /\ RegExp.flush f' = foldl RegExp.Seq (RegExp.flush f) (char_re <$> p) /\
    RegExp.parse (lit_tokens p ++ ts) f [] = RegExp.parse ts f' [].
Proof.
  revert f. induction p as [|c p IH]; intros f Hf; [by exists f|].
  destruct (IH (RegExp.push_atom (char_re c) f) Hf) as (f' & H1 & H2 & H3). by exists f'.
Qed.

Lemma parse_tokens ps f :
  RegExp.f_alts f = None -> RegExp.parse (tokens ps) f [] = RegExp.Fine (foldl RegExp.Seq (RegExp.flush f) (items ps)).
Proof.
  assert (Hend : forall g, RegExp.f_alts g = None -> RegExp.parse [] g [] = RegExp.Fine (RegExp.flush g)).
  { intros g Hg. cbn [RegExp.parse]. unfold RegExp.close_alt. by rewrite Hg. }
  revert f. induction ps as [|p ps IH]; intros f Hf; [by apply Hend|]. destruct ps as [|q ps].
  - cbn [tokens items]. rewrite <- (app_nil_r (lit_tokens p)). destruct (parse_literals p [] f Hf) as (f' & H1 & H2 & ->).
    by rewrite Hend, H2.
  - change (tokens (p :: q :: ps)) with (lit_tokens p ++ star_tokens ++ tokens (q :: ps)).
    change (items (p :: q :: ps)) with ((char_re <$> p) ++ star_re :: items (q :: ps)).
    destruct (parse_literals p (star_tokens ++ tokens (q :: ps)) f Hf) as (f' & H1 & H2 & ->).
    cbn [star_tokens app RegExp.parse]. unfold RegExp.quantify. cbn [RegExp.push_atom RegExp.f_last RegExp.obind].
    rewrite IH by done. rewrite foldl_app, <- H2. done.
Qed.

(** *** What the items match *)

Section Items.
Context (s : jsstr) (Hs : no_line_end s).

Fixpoint path (l : list RegExp.re) (i j : nat) : Prop :=
  match l with [] => i = j | r :: l' => exists k, RegExp.spans s r i k /\ path l' k j end.

Lemma spans_sequence l r i j : RegExp.spans s (foldl RegExp.Seq r l) i j <-> exists k, RegExp.spans s r i k /\ path l k j.
Proof.
  revert r. induction l as [|q l IH]; intros r; cbn [foldl path]; [split; [eauto|by intros (k & ? & ->)]|].
  rewrite IH. split.
  - intros (k & H & Hp). inversion H; subst. eauto.
  - intros (k & Hk & m & Hm & Hp). exists m. split; [by apply RegExp.sp_seq with k|done].
Qed.

Lemma path_bounds l i j : (i <= length s)%nat -> path l i j -> (i <= j <= length s)%nat.
Proof.
  revert i. induction l as [|r l IH]; intros i Hi; cbn [path]; [intros ->; lia|]. intros (k & Hk%RegExp.spans_bounds & Hp).
  apply IH in Hp; lia.
Qed.

Lemma dot_class c : c ∈ s -> RegExp.in_class true [RegExp.Rng 10 10; RegExp.Rng 13 13; RegExp.Rng 8232 8233] c = true.
Proof.
  intros Hc. unfold no_line_end in Hs. rewrite Forall_forall in Hs. specialize (Hs c Hc).
  unfold RegExp.line_end in Hs. unfold RegExp.in_class. cbn [existsb RegExp.in_item].
  rewrite !orb_false_iff, !Z.eqb_neq in Hs. destruct ((10 <=? c) && (c <=? 10)) eqn:E1; [lia|]. cbn [orb].
  destruct ((13 <=? c) && (c <=? 13)) eqn:E2; [lia|]. cbn [orb]. destruct ((8232 <=? c) && (c <=? 8233)) eqn:E3; [lia|done].
Qed.

Lemma spans_char c i k : RegExp.spans s (char_re c) i k <-> k = S i /\ exists x, s !! i = Some x /\ (c = 46 \/ c = x).
Proof.
  unfold char_re. destruct (Z.eqb_spec c 46) as [->|Hc]; split.
  - inversion 1; subst. eauto.
  - intros (-> & x & Hx & _). apply RegExp.sp_chr with x; [done|]. apply dot_class. by apply list_elem_of_lookup_2 with i.
  - inversion 1 as [|? ? ? x Hx Hin| | | | | | | |]; subst. split; [done|]. exists x. split; [done|]. right.
    unfold RegExp.in_class in Hin. cbn in Hin. rewrite orb_false_r in Hin. lia.
  - intros (-> & x & Hx & [Hx'|<-]); [done|]. apply RegExp.sp_chr with c; [done|]. unfold RegExp.in_class. cbn. lia.
Qed.

Lemma spans_star i k : RegExp.spans s star_re i k <-> (i <= k <= length s)%nat.
Proof.
  split; [apply RegExp.spans_bounds|]. intros [H1 H2]. apply RegExp.spans_rep. split; [lia|].
  exists (k - i)%nat. split_and!; [lia|done|]. remember (k - i)%nat as n eqn:En. revert i H1 En.
  induction n as [|n IH]; intros i H1 En; cbn [RegExp.chain]; [lia|]. exists (S i). split; [|apply IH; lia].
  destruct (lookup_lt_is_Some_2 s i) as [x Hx]; [lia|]. apply RegExp.sp_chr with x; [done|]. apply dot_class.
  by apply list_elem_of_lookup_2 with i.
Qed.

Lemma path_literals p l i j :
  path ((char_re <$> p) ++ l) i j <-> exists m v, drop i s = m ++ v /\ fits p m /\ path l (i + length m) j.
Proof.
  revert i. induction p as [|c p IH]; intros i; cbn [fmap list_fmap app path].
  { split; [intros H; exists [], (drop i s); rewrite Nat.add_0_r; split_and!; [done|constructor|done]|].
    intros (m & v & _ & Hm & H). inversion Hm; subst. by rewrite Nat.add_0_r in H. }
  setoid_rewrite spans_char. setoid_rewrite IH. split.
  - intros (k & (-> & x & Hx & Hc) & m & v & E & Hm & H). exists (x :: m), v.
    rewrite (drop_S _ _ _ Hx), E. split_and!; [done|by constructor|]. cbn [length]. by rewrite Nat.add_succ_r.
  - intros (m & v & E & Hm & H). inversion Hm as [|? x ? m' Hx Hm']; subst. exists (S i).
    assert (Hi : s !! i = Some x) by (rewrite <- (Nat.add_0_r i), <- lookup_drop, E; done).
    split; [eauto|]. exists m', v. rewrite (drop_S _ _ _ Hi) in E. injection E as E. split_and!; [done|done|].
    cbn [length] in H. by rewrite Nat.add_succ_r in H.
Qed.

Lemma drop_between i k : (i <= k)%nat -> drop i s = take (k - i) (drop i s) ++ drop k s.
Proof. intros H. rewrite <- (take_drop (k - i) (drop i s)) at 1. rewrite drop_drop. do 2 f_equal. lia. Qed.

Lemma drop_past i u w : (i <= length s)%nat -> drop i s = u ++ w -> drop (i + length u) s = w /\ (i + length u <= length s)%nat.
Proof.
  intros Hi E. split; [by rewrite <- drop_drop, E, drop_app_length|]. apply (f_equal length) in E.
  rewrite length_drop, length_app in E. lia.
Qed.

Lemma path_in_order ps i :
  ps <> [] -> (i <= length s)%nat ->
  (exists k j, (i <= k <= length s)%nat /\ path (items ps) k j) <-> in_order ps (drop i s).
Proof.
  intros Hne. revert i. induction ps as [|p ps IH]; intros i Hi; [done|]. destruct ps as [|q ps].
  - cbn [items in_order]. rewrite <- (app_nil_r (char_re <$> p)). setoid_rewrite path_literals. cbn [path]. split.
    + intros (k & j & Hk & m & v & E & Hm & _). exists (take (k - i) (drop i s)), m, v.
      rewrite <- E, <- drop_between by lia. done.
    + intros (u & m & v & E & Hm & _). destruct (drop_past _ _ _ Hi E) as [E' Hle].
      exists (i + length u)%nat, (i + length u + length m)%nat. split; [lia|]. by exists m, v.
  - change (items (p :: q :: ps)) with ((char_re <$> p) ++ star_re :: items (q :: ps)).
    cbn [in_order]. fold (in_order (q :: ps)). setoid_rewrite path_literals. cbn [path]. setoid_rewrite spans_star. split.
    + intros (k & j & Hk & m & v & E & Hm & h & Hh & Hp). exists (take (k - i) (drop i s)), m, v.
      rewrite <- E, <- drop_between by lia. split_and!; [done|done|].
      destruct (drop_past k m v (proj2 Hk) E) as [<- Hle]. apply IH; [done|done|]. exists h, j. split; [lia|done].
    + intros (u & m & v & E & Hm & Ho). destruct (drop_past _ _ _ Hi E) as [E' Hle].
      destruct (drop_past _ _ _ Hle E') as [Ev Hle']. rewrite <- Ev in Ho. apply IH in Ho as (k & j & Hk & Hp); [|done|done].
      exists (i + length u)%nat, j. split; [lia|]. exists m, v. split_and!; [done|done|]. eauto.
Qed.

End Items.

Lemma compile_pieces ps :
  ps <> [] -> Forall (Forall literal) ps ->
  RegExp.compile (join (js ".*") ps) = RegExp.Fine (foldl RegExp.Seq RegExp.Empty (items ps)).
Proof.
  intros Hne H. unfold RegExp.compile. change (RegExp.obind (lexs (join (js ".*") ps)) (fun ts => RegExp.parse ts RegExp.new_frame []) = 
    RegExp.Fine (foldl RegExp.Seq RegExp.Empty (items ps))).
  rewrite lexs_pieces by done. cbn [RegExp.obind]. by rewrite parse_tokens.
Qed.

Lemma pieces_found ps s : ps <> [] -> no_line_end s ->
  (exists i j, RegExp.spans s (foldl RegExp.Seq RegExp.Empty (items ps)) i j) <-> in_order ps s.
Proof.
  intros Hne Hs. rewrite <- (path_in_order s Hs ps 0 Hne) by lia. setoid_rewrite spans_sequence. split.
  - intros (i & j & k & He & Hp). inversion He; subst. exists k, j. split; [lia|done].
  - intros (k & j & Hk & Hp). exists k, j, k. split; [apply RegExp.sp_empty; lia|done].
Qed.

(** The pieces of the expression for a pattern. *)
Definition pattern_pieces (p : jsstr) : list jsstr :=
  if bool_decide (p = js "*") then [[]; []]
  else match indexOf (js "*") p with None => [[]; p; []] | Some _ => split_char 42 p end.

Lemma proto_pat_pieces p : proto_pat p = join (js ".*") (pattern_pieces p).
Proof. unfold proto_pat, pattern_pieces. destruct (bool_decide _); [done|]. by destruct (indexOf _ _). Qed.

Lemma pieces_literal p : plain_pattern p -> Forall (Forall literal) (split_char 42 p).
Proof.
  intros Hp. pose proof (split_char_pieces 42 p) as H1. apply Forall_forall. intros q Hq. apply Forall_forall. intros c Hc.
  rewrite Forall_forall in H1. split; [intros ->; by apply (H1 q Hq)|]. unfold plain_pattern in Hp. rewrite Forall_forall in Hp. apply Hp.
  apply (split_char_sub 42 p q); done.
Qed.

Lemma pattern_pieces_literal p : plain_pattern p -> pattern_pieces p <> [] /\ Forall (Forall literal) (pattern_pieces p).
Proof.
  intros Hp%pieces_literal. unfold pattern_pieces. destruct (bool_decide _); [split; [done|by repeat constructor]|].
  destruct (indexOf (js "*") p) as [i|] eqn:Ei; [split; [apply split_char_nonempty|done]|].
  rewrite split_char_id in Hp by (by apply indexOf_unit). apply Forall_inv in Hp. split; [done|by repeat apply Forall_cons_2; try apply Forall_nil_2].
Qed.

Lemma pattern_pieces_order p s : in_order (pattern_pieces p) s <-> in_order (split_char 42 p) s.
Proof.
  unfold pattern_pieces. case_bool_decide as E; [by rewrite E|]. destruct (indexOf (js "*") p) as [i|] eqn:Ei; [done|].
  rewrite split_char_id by (by apply indexOf_unit). cbn [in_order]. split.
  - intros (u & m & v & -> & Hm & u' & m' & v' & -> & Hm' & _). inversion Hm; subst. by exists (u ++ u'), m', v'; rewrite <- !app_assoc.
  - intros (u & m & v & -> & Hm & _). exists [], [], (u ++ m ++ v). split; [done|]. split; [constructor|].
    exists u, m, v. split; [done|]. split; [done|]. exists [], [], v. split; [done|]. split; [constructor|done].
Qed.

Lemma plain_compiles p : plain_pattern p ->
  RegExp.compile (proto_pat p) = RegExp.Fine (foldl RegExp.Seq RegExp.Empty (items (pattern_pieces p))).
Proof. intros [Hne Hl]%pattern_pieces_literal. rewrite proto_pat_pieces. by apply compile_pieces. Qed.

Lemma plain_valid p : plain_pattern p -> valid_pattern p.
Proof. intros H. eexists. by apply plain_compiles. Qed.

Lemma plain_selects p nm : plain_pattern p -> no_line_end nm -> selects p nm <-> in_order (split_char 42 p) nm.
Proof.
  intros Hp Hn. unfold selects. rewrite (plain_compiles p Hp). rewrite <- pattern_pieces_order, <- pieces_found;
    [|by apply pattern_pieces_literal|done].
  split; [by intros (r & [= <-] & H)|eauto].
Qed.

(** ** Sorting and rendering *)

Lemma sort_by_name_Permutation l : sort_by_name l ≡ₚ l.
Proof.
  assert (Hi : forall c l, insert_by_name c l ≡ₚ c :: l).
  { intros c l0. induction l0 as [|d l0 IH]; [done|]. cbn. destruct (str_leb _ _); [done|]. rewrite IH. constructor. }
  induction l as [|c l IH]; [done|]. cbn. by rewrite Hi, IH.
Qed.

(** The counters of a list that a pattern selects. *)
Definition shown (p : jsstr) (counters : list Counter) (c : Counter) : Prop := c ∈ counters /\ selects p (c_name c).

(** The attributes that the tree is built from. *)
Definition holds (m : model) (p : jsstr) (counters : list Counter) : Prop :=
  Model.get m (js "pattern") = Some (JStr p) /\ read_counters (Model.get m (js "matching_names")) = inl counters.

Lemma build_shown m tree :
  build m = inl tree ->
  exists p counters cs, holds m p counters /\ valid_pattern p /\ asCounterTree cs = Some tree /\ forall c, c ∈ cs <-> shown p counters c.
Proof.
  unfold build, holds. destruct (Model.get m (js "pattern")) as [[| | |p| |]|]; try done.
  destruct (RegExp.compile (proto_pat p)) as [r| |] eqn:Er; [|done..].
  destruct (read_counters _) as [counters|]; [|done]. destruct (asCounterTree _) as [t|] eqn:Et; [|done]. intros [= <-].
  exists p, counters, (matching_counters r counters). split_and!; [done|done|by exists r|done|]. intros c. unfold matching_counters, shown, selects.
  rewrite sort_by_name_Permutation, list_elem_of_In, filter_In, <- list_elem_of_In, RegExp.search_spec, Er.
  split; intros (H1 & H2); (split; [done|]); [eauto|by destruct H2 as (r' & [= <-] & ?)].
Qed.

Lemma build_total m p counters : holds m p counters -> valid_pattern p -> proper counters -> exists tree, build m = inl tree.
Proof.
  intros [H1 H2] [r Hr] Hp. unfold build. rewrite H1, Hr, H2.
  destruct (asCounterTree_leaves (matching_counters r counters)) as (tree & -> & _); [|by exists tree].
  unfold proper, matching_counters in *. rewrite sort_by_name_Permutation, Forall_forall in *. intros c.
  rewrite list_elem_of_In, filter_In, <- list_elem_of_In. intros [Hc _]. by apply Hp.
Qed.

(** The leaves of the tree of a model whose counters have proper names. *)
Lemma build_leaves m tree :
  build m = inl tree ->
  exists p counters, holds m p counters /\ valid_pattern p /\
    (proper counters -> forall nm, (exists ty, is_leaf_name tree nm ty) <->
       (exists c, shown p counters c /\ c_name c = nm) /\ (forall c rest, shown p counters c -> c_name c <> nm ++ js "." ++ rest)).
Proof.
  intros H. destruct (build_shown m tree H) as (p & counters & cs & Hm & Hv & Et & Hcs). exists p, counters. split_and!; [done..|].
  intros Hp. assert (Hpc : proper cs).
  { unfold proper in *. rewrite Forall_forall in *. intros c Hc. apply Hp. by apply Hcs in Hc as [Hc _]. }
  destruct (asCounterTree_leaves cs Hpc) as (tree' & Et' & _ & Hl). rewrite Et in Et'. injection Et' as <-.
  intros nm. setoid_rewrite Hl. setoid_rewrite Hcs. split.
  - intros (ty & H1 & H2 & _). done.
  - intros [(c & Hc & <-) H2]. assert (Hex : exists ty, last_type cs (split_char 46 (c_name c)) = Some ty).
    { apply last_type_Some. exists c. split; [by apply Hcs|done]. }
    destruct Hex as [ty Hty]. exists ty. split; [eauto|done].
Qed.

(** ** The views *)

Section Views.

(** The rest of the page, and how it is laid out again. *)
Context {W : Type} (documentResize : W -> W).

Record State := mkState {
  st_page : W;
  st_live : Live.live json;       (** the model *)
  st_input : jsstr;               (** the text of the search box *)
  st_label : bool;                (** its label is shown *)
  st_tree : option node }.        (** the tree shown, [None] before the first render *)

Definition st_model (s : State) : model := Live.lv_model (st_live s).

Definition initial (w : W) : State := mkState w (Live.mkLive (Model.new_model [] model_defaults) false false) [] true None.

(** [render]: handing the tree to jsTree is showing it. *)
Definition render (m : model) (v : W * option node) : (W * option node) * option failure :=
  match build m with
  | inl tree => ((documentResize v.1, Some tree), None)
  | inr f => (v, Some f)
  end.

(** [this.listenTo(this.counterTreeModel, 'change', this.render)] *)
Definition on_event (name : jsstr) (m : model) (v : W * option node) : (W * option node) * option failure :=
  if bool_decide (name = js "change") then render m v else (v, None).

(** [model.set]: the listener does not set the model, so one announcement is enough. *)
Definition set_model (given : list (jsstr * option json)) (s : State) : State * Live.outcome failure :=
  let '((l, (w, t)), o) := Live.set (Live.observe on_event) 1 false false given (st_live s, (st_page s, st_tree s)) in
  (mkState w l (st_input s) (st_label s) t, o).

(** [model.set("pattern", p)] *)
Definition set_pattern (p : jsstr) : State -> State * Live.outcome failure := set_model [(js "pattern", Some (JStr p))].

(** The answer of the [fetch] of [initialize]; nothing listens to the ["sync"] that follows. *)
Definition fetched (resp : list (jsstr * json)) : State -> State * Live.outcome failure :=
  set_model ((fun p => (p.1, Some p.2)) <$> resp).

Definition input_focus (s : State) : State := mkState (st_page s) (st_live s) (st_input s) false (st_tree s).
(** A click on the label focuses the input. *)
Definition label_click (s : State) : State := input_focus s.
Definition input_blur (s : State) : State :=
  mkState (st_page s) (st_live s) (st_input s) (if bool_decide (st_input s = []) then true else st_label s) (st_tree s).
(** Return sets the pattern; that jsTree deselects its nodes first is not part of the state. *)
Definition input_keydown (which : Z) (s : State) : State * Live.outcome failure :=
  if which =? 13 then set_pattern (st_input s) s else (s, Live.Normal).
Definition clear_filter (s : State) : State * Live.outcome failure :=
  set_pattern [] (mkState (st_page s) (st_live s) [] true (st_tree s)).

(** ** A session *)

(** What the user and the server do: text typed in the search box, its focus, blur and keys, the
    label, the clear button, the answer to [fetch]. *)
Inductive ui_event :=
  | UType (text : jsstr) | UFocus | UBlur | UKey (which : Z) | ULabel | UClear
  | UFetched (resp : list (jsstr * json)).

Definition ui_step (e : ui_event) (s : State) : State * Live.outcome failure :=
  match e with
  | UType text => (mkState (st_page s) (st_live s) text (st_label s) (st_tree s), Live.Normal)
  | UFocus => (input_focus s, Live.Normal)
  | UBlur => (input_blur s, Live.Normal)
  | UKey which => input_keydown which s
  | ULabel => (label_click s, Live.Normal)
  | UClear => clear_filter s
  | UFetched resp => fetched resp s
  end.

(** An exception that a handler does not catch ends the handler, not the session. *)
Definition ui_run (es : list ui_event) (s : State) : State := foldl (fun s e => (ui_step e s).1) s es.

(** The runs whose handlers all return. *)
Fixpoint returns (es : list ui_event) (s : State) : Prop :=
  match es with [] => True | e :: es' => (ui_step e s).2 = Live.Normal /\ returns es' (ui_step e s).1 end.

(** ** The views over a session *)

(** A rendering that throws leaves the model marked as changing. *)
Definition stuck (s : State) : Prop := Live.lv_changing (st_live s) = true.

(** The model is at rest, and the tree shown is that of its attributes; there is none while these are the defaults. *)
Definition in_step (s : State) : Prop :=
  st_live s = Live.mkLive (st_model s) false false /\
  match st_tree s with
  | Some tree => build (st_model s) = inl tree
  | None => holds (st_model s) (js "*") []
  end.

(** Answers are objects without repeated names. *)
Definition wf_event (e : ui_event) : Prop := match e with UFetched resp => obj_wf resp | _ => True end.

(** What a handler does to the tree and to the page around it. *)
Record tree_step (s : State) (r : State * Live.outcome failure) : Prop := {
  ts_rest : in_step s ->
    match r.2 with Live.Normal => in_step r.1 | Live.Raised _ => stuck r.1 /\ st_tree r.1 = st_tree s | Live.Endless => False end /\
    (st_page r.1 = st_page s \/ st_page r.1 = documentResize (st_page s));
  ts_stuck : stuck s -> r.2 = Live.Normal /\ stuck r.1 /\ st_tree r.1 = st_tree s /\ st_page r.1 = st_page s }.

(** The listener hears the model's events and reacts to the last one. *)
Lemma observed_changes m v d :
  Live.observe_all on_event (map (app (js "change:")) d ++ match d with [] => [] | _ => [js "change"] end) m v =
  match d with [] => (v, None) | _ => render m v end.
Proof.
  assert (H : forall ks, Live.observe_all on_event (map (app (js "change:")) ks) m v = (v, None)).
  { induction ks as [|k ks IH]; [done|]. cbn [map Live.observe_all]. done. }
  rewrite Live.observe_all_app, H. destruct d; [done|]. cbn [Live.observe_all].
  change (on_event (js "change") m v) with (render m v). by destruct (render m v) as [? [?|]].
Qed.

(** What the tree is built from. *)
Lemma same_model m m' : (forall k, Model.get m' k = Model.get m k) -> build m' = build m /\ forall p cs, holds m p cs -> holds m' p cs.
Proof. intros H. unfold build, holds. split; [by rewrite !H|]. intros p cs. by rewrite !H. Qed.

(** [set] of a model at rest: the new attributes, and the tree and page after a rendering. *)
Lemma set_at_rest given s :
  obj_wf given -> in_step s ->
  let m' := (Model.set false false given (st_model s)).1 in
  (set_model given s = (mkState (st_page s) (Live.mkLive m' false false) (st_input s) (st_label s) (st_tree s), Live.Normal) /\
   Model.differing given (Model.m_attributes (st_model s)) = []) \/
  (Model.differing given (Model.m_attributes (st_model s)) <> [] /\
   match build m' with
   | inl tree => set_model given s =
       (mkState (documentResize (st_page s)) (Live.mkLive m' false false) (st_input s) (st_label s) (Some tree), Live.Normal)
   | inr f => exists p, set_model given s = (mkState (st_page s) (Live.mkLive m' true p) (st_input s) (st_label s) (st_tree s), Live.Raised f)
   end).
Proof.
  intros Hwf [Hr _] m'. unfold set_model. rewrite Hr.
  destruct (Model.set_spec false false given (st_model s) Hwf) as (_ & _ & _ & Hev).
  pose proof (Live.set_observed on_event 1 false false given (st_model s) (st_page s, st_tree s) Nat.lt_0_1) as Ho.
  unfold m'. destruct (Model.set false false given (st_model s)) as [m1 events]. cbn [fst snd] in *. cbn zeta in Hev. subst events.
  rewrite observed_changes in Ho. destruct (Model.differing given _) as [|a d]; [left; by rewrite Ho|right; split; [done|]].
  unfold render in Ho. destruct (build m1) as [tree|f]; [by rewrite Ho|]. destruct Ho as [p ->]. by exists p.
Qed.

Lemma tree_step_set given s : obj_wf given -> tree_step s (set_model given s).
Proof.
  intros Hwf. constructor.
  - intros Hs. pose proof (Model.set_quiet given (st_model s) Hwf) as Hq.
    destruct (Model.set_spec false false given (st_model s) Hwf) as (_ & _ & _ & Hev).
    destruct (set_at_rest given s Hwf Hs) as [[-> Hd]|[_ H]].
    + rewrite Hev, Hd in Hq. destruct (same_model _ _ (Hq (not_elem_of_nil _))) as [H1 H2]. split; [|by left]. split; [done|].
      cbn [fst st_tree]. destruct Hs as [_ Hs]. destruct (st_tree s) as [tree|]; [|by apply H2].
      unfold st_model at 1. cbn [st_live Live.lv_model]. by rewrite H1.
    + destruct (build _) as [tree|f] eqn:E; [rewrite H; split; [by split|by right]|]. destruct H as [p ->]. split; [done|by left].
  - intros Hs. unfold stuck, set_model in *. destruct s as [w [m c p] i l t]. cbn [st_live Live.lv_changing st_tree st_page] in *. subst c.
    destruct (Live.set_stuck (E := failure) on_event 1 false false given m p (w, t)) as (m' & p' & ->); done.
Qed.

Lemma answer_wf (resp : list (jsstr * json)) : obj_wf resp -> obj_wf ((fun p => (p.1, Some p.2)) <$> resp).
Proof. unfold obj_wf. rewrite <- list_fmap_compose. done. Qed.

Lemma tree_step_view s i l : tree_step s (mkState (st_page s) (st_live s) i l (st_tree s), Live.Normal).
Proof. constructor; [by intros ?; split; [|left]|done]. Qed.

Lemma tree_step_ui e s : wf_event e -> tree_step s (ui_step e s).
Proof.
  intros He. destruct e; cbn [ui_step]; try apply tree_step_view.
  - unfold input_keydown. destruct (_ =? _); [apply tree_step_set, NoDup_singleton|]. destruct s. apply tree_step_view.
  - destruct (tree_step_set [(js "pattern", Some (JStr []))] (mkState (st_page s) (st_live s) [] true (st_tree s)) (NoDup_singleton _)) as [H1 H2].
    constructor; [exact H1|exact H2].
  - by apply tree_step_set, answer_wf.
Qed.

Lemma initial_in_step w : in_step (initial w).
Proof. by split. Qed.

Lemma stuck_run es s : Forall wf_event es -> stuck s -> returns es s /\ stuck (ui_run es s) /\ st_tree (ui_run es s) = st_tree s.
Proof.
  intros H. revert s. induction H as [|e es He _ IH]; intros s Hs; [done|]. unfold ui_run. cbn [foldl returns].
  destruct (ts_stuck s _ (tree_step_ui e s He) Hs) as (H1 & H2 & H3 & _). destruct (IH _ H2) as (H4 & H5 & H6). rewrite <- H3. done.
Qed.

(** A session either returned from every handler and is in step, or is stuck. *)
Lemma run_settled es s :
  Forall wf_event es -> in_step s -> (returns es s /\ in_step (ui_run es s)) \/ (~ returns es s /\ stuck (ui_run es s)).
Proof.
  intros H. revert s. induction H as [|e es He Hes IH]; intros s Hs; [by left|].
  destruct (ts_rest s _ (tree_step_ui e s He) Hs) as [Ho _]. unfold ui_run. cbn [foldl returns].
  destruct (ui_step e s) as [s1 [|f|]]; cbn [fst snd] in *; [|right|done].
  - destruct (IH s1 Ho) as [[H1 H2]|[H1 H2]]; [by left|]. right. split; [|done]. by intros [_ ?].
  - split; [by intros [? _]|]. destruct Ho as [Hst _]. by apply (stuck_run es s1 Hes).
Qed.

(** *** Sessions that return *)

(** Texts that are regular expressions, and answers as the server writes them. *)
Definition good_event (e : ui_event) : Prop :=
  match e with
  | UType text => valid_pattern text
  | UFetched resp =>
      obj_wf resp /\
      (forall v, obj_get resp (js "pattern") = Some v -> exists p, v = JStr p /\ valid_pattern p) /\
      (forall v, obj_get resp (js "matching_names") = Some v -> exists cs, read_counters (Some v) = inl cs /\ proper cs)
  | _ => True
  end.

Record good_state (s : State) : Prop := {
  gs_step : in_step s;
  gs_input : valid_pattern (st_input s);
  gs_model : exists p counters, holds (st_model s) p counters /\ valid_pattern p /\ proper counters }.

Lemma good_view s i l : good_state s -> valid_pattern i -> good_state (mkState (st_page s) (st_live s) i l (st_tree s)).
Proof. intros [] ?. by constructor. Qed.

Lemma obj_get_answer (resp : list (jsstr * json)) k : obj_get ((fun p => (p.1, Some p.2)) <$> resp) k = Some <$> obj_get resp k.
Proof. induction resp as [|[j v] resp IH]; [done|]. cbn. destruct (decide (j = k)); [done|]. apply IH. Qed.

Lemma good_set resp s : good_event (UFetched resp) -> good_state s ->
  exists s', fetched resp s = (s', Live.Normal) /\ good_state s'.
Proof.
  intros (Hwf & Hpat & Hnam) [Hs Hi (p & counters & [Hm1 Hm2] & Hp & Hc)]. pose proof (answer_wf resp Hwf) as Hwf'.
  unfold fetched. set (given := (fun p => (p.1, Some p.2)) <$> resp) in *.
  pose proof (tree_step_set given s Hwf') as Hts. apply ts_rest in Hts as [Hts _]; [|done].
  assert (Hk : forall k, Model.get (Model.set false false given (st_model s)).1 k =
    match obj_get resp k with Some v => Some v | None => Model.get (st_model s) k end).
  { intros k. rewrite (proj1 (Model.set_spec false false given (st_model s) Hwf')). unfold Model.after, Model.attr_get, given.
    rewrite obj_get_answer. destruct (obj_get resp k) as [v|] eqn:E.
    - by rewrite bool_decide_eq_true_2 by (apply elem_of_obj_keys; rewrite obj_get_answer, E; done).
    - by rewrite bool_decide_eq_false_2 by (rewrite elem_of_obj_keys, obj_get_answer, E; intros H; by apply H). }
  assert (Hg : exists p' counters', holds (Model.set false false given (st_model s)).1 p' counters' /\ valid_pattern p' /\ proper counters').
  { unfold holds. rewrite !Hk.
    assert (Ha : exists p', match obj_get resp (js "pattern") with Some v => Some v | None => Model.get (st_model s) (js "pattern") end = Some (JStr p') /\ valid_pattern p').
    { destruct (obj_get resp (js "pattern")) as [v|]; [|eauto]. destruct (Hpat v eq_refl) as (p' & -> & ?). eauto. }
    assert (Hb : exists cs, read_counters (match obj_get resp (js "matching_names") with Some v => Some v | None => Model.get (st_model s) (js "matching_names") end) = inl cs /\ proper cs).
    { destruct (obj_get resp (js "matching_names")) as [v|]; eauto. }
    destruct Ha as (p' & ? & ?), Hb as (cs & ? & ?). exists p', cs. done. }
  destruct (set_at_rest given s Hwf' Hs) as [[E _]|[_ E]].
  - rewrite E in *. eexists. split; [done|]. by constructor.
  - destruct Hg as (p' & cs & Hg & Hp' & Hcs). destruct (build_total _ _ _ Hg Hp' Hcs) as [tree Hb]. rewrite Hb in E. rewrite E in *.
    eexists. split; [done|]. constructor; [done|done|]. exists p', cs. done.
Qed.

Lemma set_pattern_answer p s : set_pattern p s = fetched [(js "pattern", JStr p)] s.
Proof. done. Qed.

Lemma good_pattern p : valid_pattern p -> good_event (UFetched [(js "pattern", JStr p)]).
Proof.
  intros Hp. split; [apply NoDup_singleton|]. split.
  - intros v. cbn [obj_get]. rewrite decide_True by done. intros [= <-]. eauto.
  - intros v. cbn [obj_get]. rewrite decide_False by discriminate. done.
Qed.

Lemma good_ui e s : good_event e -> good_state s -> exists s', ui_step e s = (s', Live.Normal) /\ good_state s'.
Proof.
  intros He Hs. pose proof (gs_input s Hs) as Hi. assert (Hnil : valid_pattern []) by (apply plain_valid; constructor).
  destruct e; cbn [ui_step]; try (eexists; split; [reflexivity|by apply good_view]).
  - unfold input_keydown. destruct (_ =? _); [|by exists s]. rewrite set_pattern_answer. by apply good_set; [apply good_pattern|].
  - unfold clear_filter. rewrite set_pattern_answer. by apply good_set; [apply good_pattern|apply good_view].
  - by apply good_set.
Qed.

Lemma good_initial w : good_state (initial w).
Proof.
  assert (Hstar : valid_pattern (js "*")) by (apply plain_valid, (bool_decide_unpack _); vm_compute; exact I).
  constructor; [apply initial_in_step|apply plain_valid; constructor|]. exists (js "*"), []. split; [done|]. split; [done|constructor].
Qed.

Lemma clean_run es s : Forall good_event es -> good_state s -> returns es s /\ good_state (ui_run es s).
Proof.
  intros H. revert s. induction H as [|e es He _ IH]; intros s Hs; [done|]. unfold ui_run. cbn [returns foldl].
  destruct (good_ui e s He Hs) as (s1 & -> & Hs1). cbn [fst snd]. destruct (IH s1 Hs1). done.
Qed.

(** *** A pattern that is not a regular expression *)

(** One attribute set to a new value is the one that differs. *)
Lemma differing_one (k : jsstr) (v : option json) cur : Model.attr_get cur k <> v -> Model.differing [(k, v)] cur = [k].
Proof.
  intros H. unfold Model.differing. assert (obj_keys [(k, v)] = [k]) as -> by apply Permutation_singleton_r, enum_order_Permutation.
  cbn [List.filter].
  assert (Model.attr_get [(k, v)] k = v) as -> by (unfold Model.attr_get; cbn [obj_get]; rewrite decide_True by done; by destruct v).
  by rewrite bool_decide_eq_false_2.
Qed.

Lemma set_bad_pattern p s :
  in_step s -> RegExp.compile (proto_pat p) = RegExp.Invalid ->
  exists s', set_pattern p s = (s', Live.Raised (Throws SyntaxError)) /\
    stuck s' /\ Model.get (st_model s') (js "pattern") = Some (JStr p) /\ st_tree s' = st_tree s.
Proof.
  intros Hs Hp. unfold set_pattern. set (given := [(js "pattern", Some (JStr p))]).
  assert (Hwf : obj_wf given) by apply NoDup_singleton.
  assert (Hpat : Model.get (Model.set false false given (st_model s)).1 (js "pattern") = Some (JStr p)).
  { by rewrite (proj1 (Model.set_spec false false given (st_model s) Hwf)). }
  destruct (set_at_rest given s Hwf Hs) as [[_ Hd]|[_ H]].
  - exfalso. destruct (decide (Model.get (st_model s) (js "pattern") = Some (JStr p))) as [E|E]; [|subst given; by rewrite (differing_one _ _ _ E) in Hd].
    destruct Hs as [_ Hs]. destruct (st_tree s) as [tree|]; [|unfold holds in Hs; rewrite E in Hs; by destruct Hs as [[= ->] _]].
    unfold build in Hs. by rewrite E, Hp in Hs.
  - unfold build in H. rewrite Hpat, Hp in H. destruct H as [pd ->]. eexists. split; [done|]. done.
Qed.

(** ** Properties *)

(** C14: the tree follows the model.  Over any session of typing, focus, keys, clearing and answers of the server:
    if every handler has returned, the tree shown is that of the model's current attributes (none is shown only while they
    are the defaults), and its leaves are the counters of the list that match the pattern, less the dotted
    prefixes of others shown, when the names are proper; if one has thrown, the model stays marked as changing.  Skipping the render
    when Backbone sees no change never leaves a stale tree.  A session of regular expressions and well-formed answers returns. *)
Theorem tree_follows_model es w :
  Forall wf_event es ->
  let s := ui_run es (initial w) in
  (returns es (initial w) ->
   match st_tree s with
   | None => holds (st_model s) (js "*") []
   | Some tree => exists p counters, holds (st_model s) p counters /\ valid_pattern p /\
       (proper counters -> forall nm, (exists ty, is_leaf_name tree nm ty) <->
          (exists c, shown p counters c /\ c_name c = nm) /\ (forall c rest, shown p counters c -> c_name c <> nm ++ js "." ++ rest))
   end) /\
  (~ returns es (initial w) <-> stuck s) /\
  (Forall good_event es -> returns es (initial w)).
Proof.
  intros H s. split_and!.
  - intros Hr. destruct (run_settled es (initial w) H (initial_in_step w)) as [[_ [_ Hs]]|[Hn _]]; [|done]. fold s in Hs.
    destruct (st_tree s) as [tree|]; [|done]. by apply build_leaves.
  - destruct (run_settled es (initial w) H (initial_in_step w)) as [[Hr [Hs _]]|[Hn Hs]]; [|done]. fold s in Hs.
    unfold stuck. rewrite Hs. split; [by intros []|done].
  - intros Hg. by apply clean_run, good_initial.
Qed.

(** C22: a pattern that is not a regular expression.  After any session in which every handler returned, to type one (an open parenthesis,
    say) and press return sets the model's pattern and then throws a [SyntaxError] out of the listener;
    the exception leaves Backbone's model marked as changing, so that whatever the user does and the server answers
    afterwards, no handler throws and the tree stays the one shown before: the filter is dead
    until the page is loaded again. *)
Theorem bad_pattern_freezes es p later w :
  Forall wf_event es -> Forall wf_event later -> returns es (initial w) -> RegExp.compile (proto_pat p) = RegExp.Invalid ->
  let s := ui_run es (initial w) in
  let '(s', o) := ui_step (UKey 13) (ui_step (UType p) s).1 in
  o = Live.Raised (Throws SyntaxError) /\ Model.get (st_model s') (js "pattern") = Some (JStr p) /\
  returns later s' /\ st_tree (ui_run later s') = st_tree s.
Proof.
  intros H Hl Hr Hp s. destruct (run_settled es (initial w) H (initial_in_step w)) as [[_ Hs]|[Hn _]]; [|done]. fold s in Hs.
  change (ui_step (UKey 13) (ui_step (UType p) s).1) with (set_pattern p (mkState (st_page s) (st_live s) p (st_label s) (st_tree s))).
  destruct (set_bad_pattern p (mkState (st_page s) (st_live s) p (st_label s) (st_tree s)) Hs Hp) as (s' & -> & Hst & Hpat & Ht).
  destruct (stuck_run later s' Hl Hst) as (H1 & _ & ->). done.
Qed.

End Views.
Arguments State W : clear implicits.

(** C23: what a plain pattern means.  A pattern of ordinary characters, dots and stars is a regular expression,
    and its test accepts a name without line ends exactly when the pieces between the stars occur in it, in
    order and apart ([.] for any character); without a star, when the pattern occurs in the name. *)
Theorem plain_patterns p nm :
  plain_pattern p -> no_line_end nm ->
  exists r, RegExp.compile (proto_pat p) = RegExp.Fine r /\ (RegExp.search nm r = true <-> in_order (split_char (ch "*") p) nm).
Proof.
  intros Hp Hn. eexists. split; [by apply plain_compiles|]. rewrite RegExp.search_spec.
  change (ch "*") with 42. rewrite <- pattern_pieces_order. apply pieces_found; [by apply pattern_pieces_literal|done].
Qed.

(** C24: a click on a leaf.  When the tree of the model is shown level by level and the level of the clicked node's parent has
    a leaf with the node's text, the handler toggles, in the selected graph, a counter of the server's list that
    matches the pattern: the one that has the path of texts as its name. *)
Theorem click_toggles_counter text_of m tree id parent parents es icn is_open p counters :
  build m = inl tree -> holds m p counters -> proper counters -> (parent = js "#" -> parents = []) ->
  level_data text_of tree parent parents = Some es -> ELeaf (text_of id) icn ∈ es ->
  exists c, shown p counters c /\ forall w, select_node text_of true is_open id (parent :: parents) w = toggleGraphing (c_name c) None w.
Proof.
  intros Hb [Hm1 Hm2] Hp Hroot Hlev Hin. destruct (build_leaves m tree Hb) as (p' & cs & [E1 E2] & _ & Hl).
  rewrite Hm1 in E1. rewrite Hm2 in E2. injection E1 as <-. injection E2 as <-.
  destruct (level_leaf text_of tree id parent parents es icn Hroot Hlev Hin) as (Hne & x & ty & Hf).
  rewrite find_is_walk in Hf. set (ps := text_of <$> id_path id (parent :: parents)) in *.
  destruct (proj1 (Hl Hp (join (js ".") ps))) as ((c & Hc & Hname) & _).
  { exists ty, ps, x. split; [|done]. unfold ps. intros H%fmap_nil_inv. done. }
  exists c. split; [done|]. intros w. unfold select_node, getCounterName. fold ps. by rewrite Hname.
Qed.

(** ** Concrete runs *)

Definition cf_counter (name : string) (type : Z) (leaf : bool) : json :=
  JObj [(js "name", JStr (js name)); (js "is_leaf", JBool leaf); (js "type", JInt type)].
Definition cf_names : json :=
  JArr [cf_counter "cpu" 0 false; cf_counter "cpu.user" 0 true; cf_counter "net.eth0.in" 1 true; cf_counter "cpu.idle" 0 true;
        cf_counter "net.eth0.out" 1 true].
Definition cf_answer : list (jsstr * json) := [(js "pattern", JStr (js "*")); (js "matching_names", cf_names)].

Lemma cf_read : read_counters (Some cf_names) = inl ct_names.
Proof. vm_compute. reflexivity. Defined.

Definition cf_session : list ui_event := [UFetched cf_answer; UFocus; UType (js "^net.*\.(in|cpu)$"); UKey 13].

Lemma cf_session_wf : Forall wf_event cf_session.
Proof. repeat (apply Forall_cons_2; [first [exact I | apply (bool_decide_unpack _); vm_compute; exact I]|]). apply Forall_nil_2. Defined.

Lemma cf_session_good : Forall good_event cf_session.
Proof.
  apply Forall_cons_2; [|apply Forall_cons_2; [exact I|]; apply Forall_cons_2; [eexists; vm_compute; reflexivity|];
    apply Forall_cons_2; [exact I|]; apply Forall_nil_2].
  split; [apply (bool_decide_unpack _); vm_compute; exact I|]. split.
  - intros v Hv. exists (js "*"). split; [vm_compute in Hv; injection Hv as <-; reflexivity|]. eexists. vm_compute. reflexivity.
  - intros v Hv. exists ct_names. split; [|exact ct_proper]. vm_compute in Hv. injection Hv as <-. vm_compute. reflexivity.
Defined.

Definition cf_run (es : list ui_event) : State nat := ui_run S es (initial 0%nat).

Lemma tree_follows_model_witness :
  let s := cf_run cf_session in
  Model.get (st_model s) (js "pattern") = Some (JStr (js "^net.*\.(in|cpu)$")) /\ st_page s = 2%nat /\
  match st_tree s with
  | Some tree => forall nm, (exists ty, is_leaf_name tree nm ty) ->
      exists c, shown (js "^net.*\.(in|cpu)$") ct_names c /\ c_name c = nm
  | None => False
  end.
Proof.
  pose proof (tree_follows_model S cf_session 0%nat cf_session_wf) as (H & _ & Hg). specialize (H (Hg cf_session_good)).
  split; [vm_compute; reflexivity|]. split; [vm_compute; reflexivity|]. fold (cf_run cf_session) in H.
  destruct (st_tree (cf_run cf_session)) as [tree|] eqn:E; [|vm_compute in E; discriminate E].
  destruct H as (p & counters & [H1 H2] & _ & Hl). intros nm Hn.
  assert (p = js "^net.*\.(in|cpu)$") as -> by (vm_compute in H1; injection H1 as <-; reflexivity).
  assert (counters = ct_names) as -> by (vm_compute in H2; injection H2 as <-; reflexivity).
  apply (Hl ct_proper) in Hn as [Hn _]. exact Hn.
Defined.

Lemma bad_pattern_freezes_witness :
  RegExp.compile (proto_pat (js "cpu(")) = RegExp.Invalid /\
  let s := cf_run cf_session in
  let s' := (ui_step S (UKey 13) (ui_step S (UType (js "cpu(")) s).1).1 in
  st_tree (ui_run S [UClear; UType (js "cpu"); UKey 13] s') = st_tree s /\ st_tree s <> None.
Proof.
  split; [vm_compute; reflexivity|]. intros s s'. split; [|vm_compute; discriminate].
  assert (Hr : returns S cf_session (initial 0%nat)) by (repeat split; vm_compute; reflexivity).
  pose proof (bad_pattern_freezes S cf_session (js "cpu(") [UClear; UType (js "cpu"); UKey 13] 0%nat cf_session_wf) as H.
  cbv zeta in H. fold (cf_run cf_session) in H. fold s in H. subst s'. destruct (ui_step S (UKey 13) _) as [s' o].
  apply H; [repeat (apply Forall_cons_2; [exact I|]); apply Forall_nil_2|exact Hr|vm_compute; reflexivity].
Defined.

Lemma plain_patterns_witness :
  exists r, RegExp.compile (proto_pat (js "eth*i.")) = RegExp.Fine r /\ RegExp.search (js "net.eth0.in") r = true.
Proof.
  destruct (plain_patterns (js "eth*i.") (js "net.eth0.in")) as (r & Hr & H); [apply (bool_decide_unpack _); vm_compute; exact I..|].
  exists r. split; [exact Hr|]. apply H. exists (js "net."), (js "eth"), (js "0.in"). split; [vm_compute; reflexivity|].
  split; [apply (bool_decide_unpack _); vm_compute; exact I|]. exists (js "0."), (js "in"), []. split; [vm_compute; reflexivity|].
  split; [apply (bool_decide_unpack _); vm_compute; exact I|exact I].
Defined.

Definition ct_model : model := Model.new_model [] [(js "pattern", Some (JStr (js "eth*i"))); (js "matching_names", Some cf_names)].

Lemma click_toggles_counter_witness :
  exists c, shown (js "eth*i") ct_names c /\
    forall w, select_node (fun id => id) true false (js "net.eth0.in") [js "#"] w = toggleGraphing (c_name c) None w.
Proof.
  destruct (build ct_model) as [tree|f] eqn:E; [|vm_compute in E; discriminate E].
  destruct (level_data (fun id => id) tree (js "#") []) as [es|] eqn:El; [|vm_compute in E; injection E as <-; vm_compute in El; discriminate El].
  apply (click_toggles_counter (fun id => id) ct_model tree (js "net.eth0.in") (js "#") [] es (Some (js "istatd-counter")) false);
    [exact E|split; vm_compute; reflexivity|exact ct_proper|reflexivity|exact El|].
  vm_compute in E. injection E as <-. vm_compute in El. injection El as <-. left.
Defined.

End CounterFilter.
