(* ===== verification/Views.v ===== *)
(** * Widgets, tabs and dropdown menus ([Widget], [TabCollection], [IstatdDropdownView] of [files/graph.js])

    A widget forwards mouse events to its object and is listed by its owner.
    The tabs of the left side show one panel at a time.  A dropdown renders
    a label and a menu once, opens on a click and closes when the mouse is
    released anywhere; choosing an entry runs the action of the item with its text. *)

From S2P Require Import Prelude JsString JsObject World Shell.
Import Shell.

Local Open Scope Z_scope.

(** ** [Widget] *)

Module Widget.

(** The widgets made so far, by allocation order: [children] and [owner]. *)
Record node := mkNode { wg_children : list nat; wg_owner : option nat }.

Abbreviation store := (list node).

Definition push_child (i : nat) (n : node) : node := mkNode (wg_children n ++ [i]) (wg_owner n).

(** [new Widget(obj, $obj, owner)]: the store and the new widget. *)
Definition new_widget (owner : option nat) (s : store) : store * nat :=
  let i := length s in
  (match owner with Some o => alter (push_child i) o s | None => s end ++ [mkNode [] owner], i).

(** The mouse methods an object may have. *)
Record methods := mkMethods {
  on_mousedown : option (M unit); on_mouseup : option (M unit);
  on_mousemove : option (M unit); on_click : option (M unit) }.

Inductive event := Mousedown | Mouseup | Mousemove | Click.

Definition method (obj : methods) (ev : event) : option (M unit) :=
  match ev with
  | Mousedown => on_mousedown obj
  | Mouseup => on_mouseup obj
  | Mousemove => on_mousemove obj
  | Click => on_click obj
  end.

Definition objForward (obj : methods) (ev : event) : M unit :=
  guarded "Widget_objForward" (match method obj ev with Some f => f | None => mret () end).

(** The handler bound to the element, itself guarded. *)
Definition handler (obj : methods) (ev : event) : M unit := guarded "" (objForward obj ev).

(** A widget is listed by its owner, once, and by no other. *)
Definition tree_ok (s : store) : Prop :=
  (forall o n, s !! o = Some n -> NoDup (wg_children n) /\
     forall i, i ∈ wg_children n <-> exists m, s !! i = Some m /\ wg_owner m = Some o) /\
  (forall i m o, s !! i = Some m -> wg_owner m = Some o -> (o < i)%nat).

Lemma handler_total obj ev : total (handler obj ev).
Proof. apply guarded_total. Qed.

Lemma lookup_new owner s i :
  (forall o, owner = Some o -> (o < length s)%nat) ->
  (new_widget owner s).1 !! i =
    if decide (i = length s) then Some (mkNode [] owner)
    else (if decide (owner = Some i) then push_child (length s) else id) <$> s !! i.
Proof.
  intros Ho. unfold new_widget. cbn [fst].
  assert (Hl : length (match owner with Some o => alter (push_child (length s)) o s | None => s end) = length s)
    by (destruct owner; [apply length_alter|done]).
  destruct (decide (i = length s)) as [->|Hi].
  { rewrite lookup_app_r, Hl, Nat.sub_diag by lia. done. }
  destruct (decide (i < length s)%nat) as [Hlt|Hge].
  - rewrite lookup_app_l by lia. destruct owner as [o|].
    + destruct (decide (Some o = Some i)) as [[= ->]|Hne].
      * by rewrite list_lookup_alter_eq.
      * rewrite list_lookup_alter_ne by congruence. by rewrite option_fmap_id.
    + by rewrite decide_False, option_fmap_id by done.
  - rewrite !lookup_ge_None_2; [done|lia|]. rewrite length_app. cbn. lia.
Qed.

(** Making a widget keeps the tree. *)
Lemma tree_ok_new owner s :
  tree_ok s -> (forall o, owner = Some o -> (o < length s)%nat) -> tree_ok (new_widget owner s).1.
Proof.
  intros [Hc Hlt] Ho. split.
  - intros o n. rewrite lookup_new by done. setoid_rewrite lookup_new; [|done].
    destruct (decide (o = length s)) as [->|Hne].
    + intros [= <-]. split; [constructor|]. intros i. split; [by intros ?%not_elem_of_nil|].
      intros (m & Hm & Hmo). exfalso. destruct (decide (i = length s)).
      * injection Hm as <-. apply Ho in Hmo. lia.
      * apply fmap_Some in Hm as (m' & Hm' & ->). pose proof (lookup_lt_Some _ _ _ Hm').
        assert (wg_owner m' = Some (length s)) as Hw by (by destruct (decide (owner = Some i))).
        pose proof (Hlt _ _ _ Hm' Hw). lia.
    + intros (n' & Hn' & ->)%fmap_Some. destruct (Hc o n' Hn') as [Hnd Hin].
      assert (Hchild : forall i, i ∈ wg_children n' -> (i < length s)%nat).
      { intros i (m & Hm & _)%Hin. by eapply lookup_lt_Some. }
      assert (Hold : forall i, i <> length s ->
        (exists m, (if decide (owner = Some i) then push_child (length s) else id) <$> s !! i = Some m /\ wg_owner m = Some o)
        <-> i ∈ wg_children n').
      { intros i Hi. rewrite Hin. split; intros (m & Hm & Hmo).
        - apply fmap_Some in Hm as (m' & Hm' & ->). exists m'. split; [done|]. by destruct (decide _).
        - rewrite Hm. eexists. split; [done|]. by destruct (decide _). }
      destruct (decide (owner = Some o)) as [->|Hno]; cbn [push_child wg_children id].
      * split.
        { apply NoDup_app. split; [done|]. split; [|apply NoDup_singleton].
          intros i Hi ->%list_elem_of_singleton. apply Hchild in Hi. lia. }
        intros i. rewrite elem_of_app, list_elem_of_singleton. destruct (decide (i = length s)) as [->|Hi].
        -- split; [by eexists|by right].
        -- rewrite Hold by done. naive_solver.
      * split; [done|]. intros i. destruct (decide (i = length s)) as [->|Hi]; [|by rewrite Hold].
        split; [intros Hi; apply Hchild in Hi; lia|]. intros (m & [= <-] & Hm). done.
  - intros i m o. rewrite lookup_new by done. destruct (decide (i = length s)) as [->|]; [intros [= <-]; apply Ho|].
    intros (m' & Hm' & ->)%fmap_Some Hmo. apply (Hlt i m'); [done|]. by destruct (decide (owner = Some i)).
Qed.

End Widget.

(** ** [TabCollection] *)

Module Tabs.

Definition put_tabs (f : list Tab -> list Tab) : M unit :=
  modify (set_views (fun v => mkViews (f (vw_tabs v)) (vw_logout v) (vw_chart_size v) (vw_advanced v) (vw_save_disabled v))).

(** [id.charAt(0).toUpperCase() + id.substring(1)] of an ASCII id. *)
Definition capitalize (id : jsstr) : jsstr :=
  match id with
  | c :: s => (if (97 <=? c) && (c <=? 122) then c - 32 else c) :: s
  | [] => []
  end.

(** The labels are removed and made again, one per panel. *)
Definition rebuildTabs : M unit :=
  put_tabs (fmap (fun t => mkTab (tb_id t) (tb_active t) (Some (capitalize (tb_id t), tb_active t)))).

(** A click on the [i]-th label. *)
Definition tab_click (i : nat) : M unit :=
  guarded "" (
    put_tabs (imap (fun j t => mkTab (tb_id t) (bool_decide (j = i))
      ((fun l => (l.1, bool_decide (j = i))) <$> tb_label t)))).

Definition tabs_of (w : World) : list Tab := vw_tabs (w_views w).

Lemma put_tabs_exec f w : tabs_of (exec (put_tabs f) w) = f (tabs_of w).
Proof. done. Qed.

Lemma tab_click_tabs i w :
  tabs_of (exec (tab_click i) w) =
  imap (fun j t => mkTab (tb_id t) (bool_decide (j = i)) ((fun l => (l.1, bool_decide (j = i))) <$> tb_label t)) (tabs_of w).
Proof. done. Qed.

(** After the labels are built and the clicks of [is_], in order. *)
Definition clicked (is_ : list nat) (w : World) : World :=
  foldl (fun w i => exec (tab_click i) w) (exec rebuildTabs w) is_.

(** Every tab has a label with its capitalized id; before any click a label is
    active when its panel is, and after clicks exactly the panel and the label of the tab clicked last are. *)
Theorem tabs_follow_clicks w is_ :
  tabs_of (clicked is_ w) =
  imap (fun j t => let a := match last is_ with Some i => bool_decide (j = i) | None => tb_active t end in
    mkTab (tb_id t) a (Some (capitalize (tb_id t), a))) (tabs_of w).
Proof.
  induction is_ as [|i is_ IH] using rev_ind.
  - unfold clicked. cbn [foldl last]. unfold rebuildTabs. rewrite put_tabs_exec. apply list_eq. intros j.
    rewrite list_lookup_fmap, list_lookup_imap. by destruct (tabs_of w !! j).
  - unfold clicked in *. rewrite foldl_app, last_snoc. cbn [foldl]. rewrite tab_click_tabs, IH. apply list_eq. intros j.
    rewrite !list_lookup_imap. by destruct (tabs_of w !! j).
Qed.

End Tabs.

(** ** [IstatdDropdownView] *)

Module Dropdown.

(** The three dropdowns of the page. *)
Inductive ident := Logout | ChartSize | AdvancedTools.

#[global] Instance ident_eq_dec : EqDecision ident.
Proof. solve_decision. Defined.

Definition view_of (d : ident) (v : Views) : Dropdown :=
  match d with Logout => vw_logout v | ChartSize => vw_chart_size v | AdvancedTools => vw_advanced v end.

Definition set_view (d : ident) (f : Dropdown -> Dropdown) (v : Views) : Views :=
  match d with
  | Logout => mkViews (vw_tabs v) (f (vw_logout v)) (vw_chart_size v) (vw_advanced v) (vw_save_disabled v)
  | ChartSize => mkViews (vw_tabs v) (vw_logout v) (f (vw_chart_size v)) (vw_advanced v) (vw_save_disabled v)
  | AdvancedTools => mkViews (vw_tabs v) (vw_logout v) (vw_chart_size v) (f (vw_advanced v)) (vw_save_disabled v)
  end.

Definition put_view (d : ident) (f : Dropdown -> Dropdown) : M unit := modify (set_views (set_view d f)).
Definition the_view (d : ident) : M Dropdown := get (fun w => view_of d (w_views w)).

(** An [item_definition]; the action is a code of the view that owns it. *)
Record item (A : Type) := mkItem { it_item : jsstr; it_action : A; it_selected : bool }.
Arguments mkItem {A}.
Arguments it_item {A}.
Arguments it_action {A}.
Arguments it_selected {A}.

Section View.
Context {A : Type} (self : ident) (label : M jsstr) (items : list (item A)) (run : A -> M unit).

(** [$label] is made once; [_.result] calls a label that is a function. *)
Definition renderLabel : M unit :=
  v ← the_view self;
  (if bool_decide (dv_label v = None) then
     put_view self (fun v => mkDropdown (Some []) (dv_entries v) (dv_open v))
   else mret ());;
  html ← label;
  put_view self (fun v => mkDropdown (Some html) (dv_entries v) (dv_open v)).

(** [$dropdown] is made once, with an entry per item. *)
Definition renderDropdown : M unit :=
  v ← the_view self;
  if bool_decide (dv_entries v = None) then
    put_view self (fun v => mkDropdown (dv_label v) (Some ((fun i => (it_item i, it_selected i)) <$> items)) (dv_open v))
  else mret ().

Definition render : M unit := renderLabel;; renderDropdown.

(** The events: a click toggles, the mouse released anywhere closes. *)
Definition open : M unit := put_view self (fun v => mkDropdown (dv_label v) (dv_entries v) (negb (dv_open v))).
Definition close : M unit := put_view self (fun v => mkDropdown (dv_label v) (dv_entries v) false).

(** [_.findWhere(this.items, {item: item})['action'](ev, this.model)] *)
Definition doAction (text : jsstr) : M unit :=
  match List.find (fun i => bool_decide (it_item i = text)) items with
  | Some i => run (it_action i)
  | None => throw TypeError
  end.

Definition slideDown : M unit := render;; dom ".tdropdown" "slideDown" [].

End View.

(** A click of the mouse: its release reaches the [mouseup] handlers of the
    body, then the click goes to the label of a dropdown or elsewhere. *)
Definition body_mouseup : M unit := close Logout;; close ChartSize;; close AdvancedTools.

Definition mouse_click (target : option ident) : M unit :=
  body_mouseup;; match target with Some d => open d | None => mret () end.

Definition is_open (w : World) (d : ident) : bool := dv_open (view_of d (w_views w)).

Lemma mouse_click_open t w d : is_open (exec (mouse_click t) w) d = bool_decide (t = Some d).
Proof. by destruct t as [[]|], d. Qed.

(** After any click of the mouse, exactly the dropdown whose label was clicked is
    open: opening one closes the others, and a second click on the label of an open
    dropdown leaves it open, since the release of the button closes it before the
    click toggles it. *)
Theorem dropdown_open_after_clicks w ts t d :
  is_open (foldl (fun w t => exec (mouse_click t) w) w (ts ++ [t])) d = bool_decide (t = Some d).
Proof. rewrite foldl_app. apply mouse_click_open. Qed.

(** Rendering again changes neither the label nor the entries. *)
Lemma view_of_set d e f v : view_of d (set_view e f v) = if decide (d = e) then f (view_of d v) else view_of d v.
Proof. by destruct d, e. Qed.

Section Render.
Context {A : Type} (self : ident) (label : M jsstr) (items : list (item A)) (w : World) (l : jsstr).
(** The label does not depend on the views. *)
Hypothesis Hlabel : forall g, label (set_views g w) = (set_views g w, Ok l).

Lemma label_here : label w = (w, Ok l).
Proof. pose proof (Hlabel id) as H. by destruct w. Qed.

Lemma renderLabel_exec :
  exists g, renderLabel self label w = (set_views g w, Ok ()) /\
    forall d, view_of d (g (w_views w)) =
      if decide (d = self) then mkDropdown (Some l) (dv_entries (view_of d (w_views w))) (is_open w d)
      else view_of d (w_views w).
Proof.
  unfold renderLabel, the_view, put_view, is_open, mbind, M_bind, get, modify.
  set (f l' := set_view self (fun v => mkDropdown (Some l') (dv_entries v) (dv_open v))).
  case_bool_decide; unfold mret, M_ret.
  - rewrite Hlabel. exists (fun v => f l (f [] v)). split; [done|]. intros d. unfold f. rewrite !view_of_set.
    by destruct (decide (d = self)).
  - rewrite label_here. exists (f l). split; [done|]. intros d. unfold f. rewrite view_of_set.
    by destruct (decide (d = self)).
Qed.

Lemma renderDropdown_exec :
  exists g, renderDropdown self items w = (set_views g w, Ok ()) /\
    forall d, view_of d (g (w_views w)) =
      if decide (d = self) then
        mkDropdown (dv_label (view_of d (w_views w)))
          (Some (default ((fun i => (it_item i, it_selected i)) <$> items) (dv_entries (view_of d (w_views w)))))
          (is_open w d)
      else view_of d (w_views w).
Proof.
  clear label l Hlabel. unfold renderDropdown, the_view, put_view, is_open, mbind, M_bind, get, modify.
  destruct (dv_entries (view_of self (w_views w))) as [e|] eqn:Ee.
  - rewrite bool_decide_eq_false_2 by done. exists id. split; [by destruct w|]. intros d.
    destruct (decide (d = self)) as [->|]; [|done]. rewrite Ee. cbn. rewrite <- Ee. by destruct (view_of self _).
  - rewrite bool_decide_eq_true_2 by done. eexists. split; [reflexivity|]. intros d. rewrite view_of_set.
    destruct (decide (d = self)) as [->|]; [|done]. by rewrite Ee.
Qed.
End Render.

Lemma render_exec {A} self label (items : list (item A)) w l :
  (forall g, label (set_views g w) = (set_views g w, Ok l)) ->
  exists g, render self label items w = (set_views g w, Ok ()) /\
    forall d, view_of d (g (w_views w)) =
      if decide (d = self) then
        mkDropdown (Some l)
          (Some (default ((fun i => (it_item i, it_selected i)) <$> items) (dv_entries (view_of d (w_views w)))))
          (is_open w d)
      else view_of d (w_views w).
Proof.
  intros Hl. destruct (renderLabel_exec self label w l Hl) as (g1 & E1 & H1).
  destruct (renderDropdown_exec self items (set_views g1 w)) as (g2 & E2 & H2).
  exists (fun v => g2 (g1 v)). split.
  - unfold render. rewrite (bind_Ok _ _ _ _ _ E1). exact E2.
  - intros d. rewrite H2. cbn [set_views w_views]. unfold is_open. cbn [set_views w_views]. rewrite H1.
    by destruct (decide (d = self)).
Qed.

(** The entry of an item runs that item's action. *)
Lemma doAction_entry {A} (items : list (item A)) run k i :
  NoDup (it_item <$> items) -> items !! k = Some i -> doAction items run (it_item i) = run (it_action i).
Proof.
  intros Hnd Hk. unfold doAction. replace (List.find _ items) with (Some i); [done|]. symmetry.
  revert k Hk. induction items as [|j items IH]; intros k Hk; [done|]. cbn.
  rewrite fmap_cons in Hnd. apply NoDup_cons in Hnd as [Hj Hnd].
  destruct k as [|k]; cbn in Hk; [injection Hk as ->; by rewrite bool_decide_eq_true_2|].
  rewrite bool_decide_eq_false_2; [by eapply IH|]. intros E. apply Hj. rewrite E.
  apply list_elem_of_fmap_2. by eapply list_elem_of_lookup_2.
Qed.

Section preserves.
Context (P : World -> Prop) `{!Stable P set_views}.

Lemma pres_put_view d f : preserves P (put_view d f).
Proof. unfold put_view. pres. Qed.
Lemma pres_mouse_click t : preserves P (mouse_click t).
Proof. unfold mouse_click, body_mouseup, close, open, put_view. pres. Qed.
Lemma pres_render {A} self label (items : list (item A)) : preserves P label -> preserves P (render self label items).
Proof. intros Hl. unfold render, renderLabel, renderDropdown, the_view, put_view. pres. Qed.

End preserves.

(** Rendering a menu leaves the tabs alone. *)
Lemma tabs_render {A} self l (items : list (item A)) ts :
  preserves (fun w => vw_tabs (w_views w) = ts) (render self (mret l) items).
Proof.
  unfold render, renderLabel, renderDropdown, the_view, put_view.
  pres; apply pres_modify; intros w Hw; by destruct self.
Qed.

End Dropdown.
