(* ===== verification/Clicks.v ===== *)
(** * Clicks on a graph ([GraphGrid.newGraph], [GraphSurface], [Widget] of [files/graph.js])

    The boxes and the legend of a graph have handlers of their own; a click on one of them then
    bubbles to the graph, whose widget selects it and stops the event.  Closing a graph removes its
    element and, with jQuery's [remove], its handlers, but the event still bubbles to the
    grid, whose widget clears the selection.

    The handler of a legend entry reads the name of the series from the entry's second
    node.  How the browser reads the HTML of an entry is written out for labels without markup. *)

From S2P Require Import Prelude JsString JsObject World Shell Loader Grid TimeRange Legend Views.
Import Shell Grid TimeRange.

Local Open Scope Z_scope.

Module Clicks.

(** ** Bubbling *)

Definition surface_methods (g : nat) : Widget.methods := Widget.mkMethods None None None (Some (surface_click g)).
Definition grid_methods : Widget.methods := Widget.mkMethods None None None (Some grid_click).

Definition on_page (g : nat) (w : World) : bool := bool_decide (g ∈ gg_allGraphs (w_grid w)).

(** The click reaches the graph, or the grid when the graph has been removed. *)
Definition bubble (g : nat) : M unit :=
  here ← get (on_page g);
  match here with
  | true => Widget.handler (surface_methods g) Widget.Click
  | false => Widget.handler grid_methods Widget.Click
  end.

(** ** The boxes *)

Definition close_box (g : nat) : M unit := guarded "" (close g);; bubble g.
Definition zoomout_box (g : nat) : M unit := guarded "" zoomOutIntervals;; bubble g.
Definition settings_box (g : nat) : M unit := guarded "" (showSettings g);; bubble g.
Definition summary_box (g : nat) : M unit := guarded "" (toggleSummary g);; bubble g.

(** ** The legend *)

Inductive dom_node := Element | TextNode (wholeText : jsstr).

(** The nodes of an entry of [Legend.generateLegendHTML], for a label without markup. *)
Definition span_contents (isIE : bool) (strokePattern : option (list Z)) (em : Z) (label : jsstr) : option (list dom_node) :=
  let text := js " " ++ label in
  if isIE then Some [TextNode (8212 :: text)]
  else match strokePattern with
       | None | Some [] | Some [_] => Some [Element; TextNode text]
       | Some p => '(loop, _, n) ← Legend.layout p em; Some (replicate (length (Legend.segments p loop n)) Element ++ [TextNode text])
       end.

(** [surface.toggleSeries($(this).contents()[1].wholeText.slice(1))] *)
Definition entry_handler (g : nat) (contents : list dom_node) : M unit :=
  guarded "" (match contents !! 1%nat with
              | Some (TextNode text) => toggleSeries g (drop 1 text)
              | _ => throw TypeError
              end).
Definition legend_click (g : nat) (contents : list dom_node) : M unit := entry_handler g contents;; bubble g.

(** ** Lemmas *)

Lemma handler_exec obj ev f w w' :
  Widget.method obj ev = Some f -> f w = (w', Ok ()) -> exec (Widget.handler obj ev) w = w'.
Proof.
  intros Hm Hf. unfold Widget.handler, Widget.objForward, exec. rewrite Hm.
  by rewrite (guarded_Ok _ _ _ _ (guarded_Ok _ _ _ _ Hf)).
Qed.

Lemma bubble_selects g w : g ∈ gg_allGraphs (w_grid w) -> exec (bubble g) w = exec (select (Some g)) w.
Proof.
  intros Hg. unfold bubble. rewrite exec_bind. cbn [get]. unfold on_page. rewrite bool_decide_eq_true_2 by done.
  rewrite <- surface_click_exec. eapply handler_exec; [done|].
  apply (eta (surface_click g) w ()). unfold surface_click. destruct (guarded_total "GraphSurface_click" (select (Some g)) w) as [[] H]. exact H.
Qed.

Lemma bubble_unselects g w : g ∉ gg_allGraphs (w_grid w) -> exec (bubble g) w = exec grid_click w.
Proof.
  intros Hg. unfold bubble. rewrite exec_bind. cbn [get]. unfold on_page. rewrite bool_decide_eq_false_2 by done.
  eapply handler_exec; [done|]. by apply (eta grid_click w ()).
Qed.

Lemma exec_box (body : M unit) g w : exec (guarded "" body;; bubble g) w = exec (bubble g) (exec (guarded "" body) w).
Proof. apply exec_seq. apply guarded_total. Qed.

(** A click on an entry of a solid line toggles the series that the entry names and selects its graph. *)
Lemma legend_click_toggles g label em w :
  exists nodes, span_contents false None em label = Some nodes /\
    exec (legend_click g nodes) w = exec (bubble g) (exec (toggleSeries g label) w).
Proof.
  eexists. split; [done|]. unfold legend_click, entry_handler. rewrite exec_box. cbn [lookup list_lookup]. f_equal.
  change (drop 1 (js " " ++ label)) with label. unfold exec.
  assert (Ht : exists w', toggleSeries g label w = (w', Ok ())).
  { exists (exec (toggleSeries g label) w). apply (eta (toggleSeries g label) w ()).
    unfold toggleSeries. match goal with |- result (guarded ?n ?f) w = _ => destruct (guarded_total n f w) as [[] H] end. exact H. }
  destruct Ht as [w' Ht]. rewrite Ht. by rewrite (guarded_Ok _ _ _ _ Ht).
Qed.


(** A click on the close box closes the graph and, as the event goes on to the grid, clears the selection: a
    graph that was selected elsewhere is no longer. *)
Lemma close_box_unselects g w :
  grid_ok w -> g ∈ gg_allGraphs (w_grid w) ->
  let w' := exec (close_box g) w in
  gg_allGraphs (w_grid w') = arrayRemove (gg_allGraphs (w_grid w)) g /\ gg_selected (w_grid w') = None.
Proof.
  intros [H1 H2 _ _] Hg w'. rewrite Forall_forall in H2. destruct (lookup_lt_is_Some_2 (w_graphs w) g (H2 g Hg)) as [s Hs].
  destruct (close_spec g s w Hs) as (Hr & _ & _ & E & _). destruct (arrayRemove_NoDup (gg_allGraphs (w_grid w)) g H1) as (_ & R & _).
  assert (Ec : exec (guarded "" (close g)) w = exec (close g) w).
  { unfold exec. by rewrite (guarded_Ok _ _ _ _ (eta (close g) w () Hr)). }
  unfold w', close_box. rewrite exec_box, Ec, bubble_unselects by (by rewrite E). split; [|done].
  change (gg_allGraphs (w_grid (exec (close g) w)) = arrayRemove (gg_allGraphs (w_grid w)) g). done.
Qed.

End Clicks.
