(* ===== verification/Dashboard.v ===== *)
(** * Dashboards: describing the page, saving and loading settings

    A dashboard is the JSON text of [GraphGrid.getDashboard], kept by the server
    under [dashboard.<name>] in the settings of a user or of [global].  Opening
    one rebuilds the grid from its text, whatever JSON it is; see [read_dash] for the few values that the
    model has no numbers for.  The server is outside: its answers
    are arguments of the completion handlers. *)

From S2P Require Import Prelude JsString JsObject JsNumber Json UriCodec World JsValue Shell Loader Grid TimeRange.
Import JsValue Shell Interval Grid TimeRange.
Import (hints) Loader.

Local Open Scope Z_scope.

Module Dashboard.

(** A property, [TypeError] when the object is [null]. *)
Definition prop_of (v : json) (k : string) : M (option json) :=
  match prop v k with Some r => mret r | None => throw TypeError end.

(** ** Formats *)

Definition bars_fmt_to_ix (f : fmt) : Z :=
  match f with noBars => 1 | errorBars => 2 | customBars => 3 | stacked => 4 | area => 5 end.

(** [bars_ix_to_fmt[k]] for a key as a string. *)
Definition bars_ix_to_fmt (k : jsstr) : option fmt :=
  obj_get [(js "1", noBars); (js "2", errorBars); (js "3", customBars); (js "4", stacked); (js "5", area)] k.

(** ** [getDashboard] *)

Definition surface_of (w : World) (g : nat) : GraphSurface :=
  default (mkGraph None [] false customBars) (w_graphs w !! g).

(** [graphs] and [formats] of the dashboard: one entry per graph of the grid. *)
Definition dash_graphs (w : World) : list (list jsstr) :=
  (fun g => getSeries (surface_of w g)) <$> gg_allGraphs (w_grid w).
Definition dash_formats (w : World) : list Z :=
  (fun g => bars_fmt_to_ix (gs_format (surface_of w g))) <$> gg_allGraphs (w_grid w).

(** A number that may be [NaN], which [JSON.stringify] writes as [null]. *)
Definition json_milli (ms : option Z) : json := from_option JMilli JNull ms.

Definition json_index (i : sindex) : json := match i with IAt i => JInt i | _ => JNull end.

Definition size_json (s : Size) : json := JObj [(js "width", JInt (sz_width s)); (js "height", JInt (sz_height s))].

(** The object of [getDashboard] as [JSON.stringify] sees it: a property that is
    [undefined] is left out. *)
Definition getDashboard (w : World) : json :=
  let t := w_time w in
  JObj (
    [(js "size", size_json (w_size w))] ++
    match isAutoRefresh t with Some r => [(js "autoRefresh", r)] | None => [] end ++
    [(js "timeInterval", json_milli (date_sub (dt_stop (theCurrentDates t)) (dt_start (theCurrentDates t))));
     (js "timeSlider", if ts_manual (theTimeSlider t) then JStr (js "manual") else json_index (ts_index (theTimeSlider t)));
     (js "sizeDropdown", from_option JInt (JStr (js "manual")) (w_sizeDropdown w));
     (js "graphs", JArr ((fun ks => JArr (JStr <$> ks)) <$> dash_graphs w));
     (js "formats", JArr (JInt <$> dash_formats w))]).

(** ** Settings on the server *)

(** [loadSettings(scope, filter, success, error)] *)
Definition loadSettings (scope filter_ : jsstr) (cb : SettingsCb) : M unit :=
  match encodeURIComponent scope, encodeURIComponent filter_ with
  | Some s, Some f =>
      x ← new_xhr (XLoadSettings cb);
      emit (EHttp x "GET" (js "/?s=" ++ s ++ js "&sk=" ++ f) [])
  | _, _ => throw URIError
  end.

(** [String] of a name that may be [null]. *)
Definition scope_string (s : option jsstr) : jsstr := default (js "null") s.

(** [saveSettings(scope, name, value, cb)]: [None] is the empty string. *)
Definition saveSettings (scope : option jsstr) (name : jsstr) (value : option json) (cb : SaveCb) : M unit :=
  guarded "_saveSettings" (
    done_ ← begin;
    x ← new_xhr (XSaveSettings cb done_);
    emit (EHttp x "POST" (js "/?s=" ++ escape (scope_string scope))
      (stringify (JObj [(name, JStr (from_option stringify [] value))])))).

(** ** The list of dashboards *)

Definition put_dash (f : DashState -> DashState) : M unit := modify (set_dash f).

Definition updateCurrentDashboard : M unit :=
  dom ".picklist li" "removeClass" [AStr (js "current")];;
  d ← get w_dash;
  match da_current d with
  | Some ((_ :: _) as name) =>
      if obj_truthy (da_items d) name then dom "li" "addClass" [AStr (js "current"); AStr name] else mret ()
  | _ => mret ()
  end.

Definition setCurrentDashboard (name : jsstr) : M unit :=
  put_dash (fun d => mkDash (theUserName d) (da_items d) (da_list d) (Some name));;
  updateCurrentDashboard.

Definition prefix : jsstr := js "dashboard.".

(** The body of the loop of [on_userDashboards] for one name. *)
Definition add_item (context : option jsstr) (k : jsstr) : M unit :=
  if bool_decide (take 10 k = prefix) then
    let ds := drop 10 k in
    put_dash (fun d => mkDash (theUserName d) (obj_set (da_items d) ds ()) (da_list d ++ [Some (ds, context)])
      (da_current d))
  else mret ().

(** The names [for ... in] visits. *)
Definition names_of (v : json) : list jsstr :=
  match v with
  | JObj o => obj_keys o
  | JArr l => num_to_str <$> (Z.of_nat <$> seq 0 (length l))
  | JStr s => num_to_str <$> (Z.of_nat <$> seq 0 (length s))
  | _ => []
  end.

Definition on_userDashboards (context : option jsstr) (v : json) : M unit :=
  for_each (names_of v) (add_item context);;
  (if bool_decide (context = Some (js "global")) then mret ()
   else
     put_dash (fun d => mkDash (theUserName d) (da_items d) (da_list d ++ [None]) (da_current d));;
     loadSettings (js "global") (js "dashboard.*") (SUserDashboards true));;
  updateCurrentDashboard.

(** [DashboardList.reload]: the [li]s go, [itemsByName] stays. *)
Definition dashboards_reload : M unit :=
  put_dash (fun d => mkDash (theUserName d) (da_items d) [] (da_current d));;
  u ← get (fun w => theUserName (w_dash w));
  match u with
  | Some ((_ :: _) as name) => loadSettings name (js "dashboard.*") (SUserDashboards false)
  | _ => on_userDashboards u (JObj [])
  end.

(** ** Opening a dashboard *)

Inductive DashSlider := SlManual | SlIndex (i : Z) | SlOther.

(** The parts of a dashboard's text that [openDashboard] reads. *)
Record DashDoc := mkDoc {
  dd_size : option Size;
  dd_slider : DashSlider;
  dd_dropdown : option Z;
  dd_graphs : list (fmt * list jsstr);
  dd_interval : option Z;             (** milliseconds, [None] when falsy *)
  dd_auto : option json }.

(** What [for (var k in v)] visits: the names with their values; a string has its characters. *)
Definition entries (v : json) : list (jsstr * json) :=
  match v with
  | JObj o => omap (fun k => (fun x => (k, x)) <$> obj_get o k) (obj_keys o)
  | JArr l => imap (fun i x => (num_to_str (Z.of_nat i), x)) l
  | JStr s => imap (fun i c => (num_to_str (Z.of_nat i), JStr [c])) s
  | _ => []
  end.

Definition falsy (v : option json) : bool := negb (from_option truthy false v).

Definition read_size (v : option json) : option (option Size) :=
  if falsy v then Some None
  else match v with
       | Some (JObj o) =>
           w ← obj_get o (js "width") ≫= as_int;
           h ← obj_get o (js "height") ≫= as_int;
           Some (Some (mkSize w h))
       | _ => None
       end.

(** [timeSlider == 'manual'] compares an array by its text. *)
Definition read_slider (v : option json) : option DashSlider :=
  match v with
  | Some ((JStr _ | JArr _) as x) => Some (if bool_decide (to_string x = js "manual") then SlManual else SlOther)
  | Some (JNum m e) => SlIndex <$> as_int (JNum m e)
  | _ => Some SlOther
  end.

Definition read_dropdown (v : option json) : option (option Z) :=
  match v with
  | Some (JNum m e) => Some <$> as_int (JNum m e)
  | _ => Some None
  end.

(** [formats ? bars_ix_to_fmt[formats[k]] || "errorBars" : "errorBars"]; [None] when one of the two lookups
    finds what every object inherits. *)
Definition read_format (formats : option json) (k : jsstr) : option fmt :=
  match formats with
  | Some v =>
      if truthy v then
        match obj_get (entries v) k with
        | Some x =>
            if decide (inherited (to_string x)) then None else Some (default errorBars (bars_ix_to_fmt (to_string x)))
        | None => if decide (inherited k \/ k = js "length") then None else Some errorBars
        end
      else Some errorBars
  | None => Some errorBars
  end.

(** The graphs, each with its format and the names that are toggled. *)
Definition read_graphs (formats graphs : option json) : option (list (fmt * list jsstr)) :=
  mapM (fun p => f ← read_format formats p.1; Some (f, (fun q => to_string q.2) <$> entries p.2)) (from_option entries [] graphs).

Definition read_interval (v : option json) : option (option Z) :=
  if falsy v then Some None
  else match v with Some (JNum m e) => Some <$> as_milli (JNum m e) | _ => None end.

(** The typed view of a dashboard that is not [null]; a value without properties is an empty dashboard.  [None] for
    what has no counterpart among the model's numbers: a [size] that is not two integers, an interval that is not a
    whole number of milliseconds, a position of the slider or of the menu that is not an integer, and formats
    looked up under inherited names. *)
Definition read_dash (v : json) : option DashDoc :=
  let get (k : jsstr) := match v with JObj o => obj_get o k | _ => None end in
  size ← read_size (get (js "size"));
  slider ← read_slider (get (js "timeSlider"));
  dropdown ← read_dropdown (get (js "sizeDropdown"));
  graphs ← read_graphs (get (js "formats")) (get (js "graphs"));
  interval ← read_interval (get (js "timeInterval"));
  Some (mkDoc size slider dropdown graphs interval (get (js "autoRefresh"))).

(** [$('.tdropdown.chart_size .tmenuitem').eq(k)], then its index among the four
    items: a negative [k] counts from the end, a missing item has index -1. *)
Definition menu_index (k : Z) : Z :=
  if (0 <=? k) && (k <? 4) then k else if (-4 <=? k) && (k <? 0) then k + 4 else -1.

(** One graph of a dashboard or a bookmark: [newGraph], its format, its series. *)
Definition open_graph (f : fmt) (serii : list jsstr) : M unit :=
  nu ← newGraph;
  match nu with
  | Some g => update g (set_format f);; for_each serii (toggleSeries g)
  | None => throw TypeError
  end.

Definition open_all (l : list (fmt * list jsstr)) : M unit := for_each l (fun p => open_graph p.1 p.2).

(** The parts of [openDashboard]: the size, the interval, the slider. *)
Definition open_size (d : DashDoc) : M unit :=
  match dd_size d with
  | Some sz =>
      let item := match dd_slider d with
                  | SlManual => None
                  | _ => menu_index <$> dd_dropdown d
                  end in
      graph_size (sz_width sz) (sz_height sz) item
  | None => mret ()
  end.

Definition open_interval (d : DashDoc) : M unit :=
  match dd_interval d with
  | Some ms =>
      modify (set_time (fun t => let stop := dt_stop (theOriginalDates t) in
        set_original (mkDates (date_minus stop ms) stop) t));;
      restoreOriginalInterval
  | None => mret ()
  end.

Definition open_slider (d : DashDoc) : M unit :=
  match dd_slider d with
  | SlManual => setManual true
  | SlIndex i => setIndex i
  | SlOther => mret ()
  end.

(** What follows once the grid is empty. *)
Definition open_rest (dashboard : jsstr) (d : DashDoc) : M unit :=
  open_size d;;
  open_all (dd_graphs d);;
  open_interval d;;
  open_slider d;;
  calcReloadInterval;;
  setAutoRefresh (dd_auto d);;
  documentResize;;
  set_hash (js "#?dashboard=" ++ dashboard);;
  setCurrentDashboard dashboard.

(** [openDashboard(scope, dashboard, json)]: the grid is emptied before the document is looked at, so [null] empties the
    page and throws.  A document that [read_dash] has no view of is outside the model. *)
Definition openDashboard (scope dashboard : jsstr) (v : json) : M unit :=
  match prop_str v (prefix ++ dashboard) with
  | None => throw TypeError
  | Some text =>
      match json_parse (opt_string text) with
      | None => throw SyntaxError
      | Some doc =>
          dom "input#arg_filename" "val" [AStr dashboard];;
          clear;;
          match doc with
          | JNull => throw TypeError
          | _ => match read_dash doc with
                 | Some d => open_rest dashboard d
                 | None => throw (Outside "a dashboard")
                 end
          end
      end
  end.

(** [load_dashboard(args, contexts, cb)]: each context is tried in turn. *)
Definition load_dashboard (dashboard : jsstr) (contexts : list jsstr) (cb : nat) : M unit :=
  match contexts with
  | [] => errorText "Error loading dashboard";; finish cb
  | ctx :: contexts' =>
      loadSettings ctx (prefix ++ dashboard) (SLoadDashboard ctx dashboard contexts' cb)
  end.

(** ** Completions *)

Record Reply := mkReply { rp_status : Z; rp_statusText : jsstr; rp_text : jsstr }.

(** The [success] and [error] functions given to [loadSettings]. *)
Definition settings_success (cb : SettingsCb) (v : json) : M unit :=
  match cb with
  | SUserDashboards true => on_userDashboards (Some (js "global")) v
  | SUserDashboards false => u ← get (fun w => theUserName (w_dash w)); on_userDashboards u v
  | SLoadDashboard ctx dashboard _ done_ => openDashboard ctx dashboard v;; finish done_
  end.
Definition settings_error (cb : SettingsCb) : M unit :=
  match cb with
  | SUserDashboards true => on_userDashboards (Some (js "global")) (JObj [])
  | SUserDashboards false => u ← get (fun w => theUserName (w_dash w)); on_userDashboards u (JObj [])
  | SLoadDashboard _ dashboard contexts done_ => load_dashboard dashboard contexts done_
  end.

Definition onLoadSettings (cb : SettingsCb) (r : Reply) : M unit :=
  guarded "" (
    match json_parse (match rp_text r with [] => js "{}" | t => t end) with
    | None => throw SyntaxError
    | Some v => if 299 <? rp_status r then settings_error cb else settings_success cb v
    end).

(** The callbacks given to [saveSettings]. *)
Definition save_cb (cb : SaveCb) : M unit :=
  match cb with
  | SvNothing => mret ()
  | SvReloadDashboards => dashboards_reload
  | SvDeleted name =>
      dashboards_reload;;
      cur ← get (fun w => da_current (w_dash w));
      if bool_decide (cur = Some name) then dom "window.location" "href" [AStr (js "without hash")] else mret ()
  end.

Definition onSaveSettings (cb : SaveCb) (done_ : nat) (r : Reply) : M unit :=
  guarded "_saveSettings_readyStateChange" (
    finish done_;;
    if 299 <? rp_status r then
      errorDialog (EText (js "saveSettings error: " ++ num_to_str (rp_status r) ++ js " " ++ rp_statusText r
        ++ [10] ++ rp_text r));;
      save_cb cb
    else
      match json_parse (rp_text r) with
      | None => throw SyntaxError
      | Some v =>
          success ← prop_of v "success";
          if from_option truthy false success then save_cb cb
          else
            message ← prop_of v "message";
            errorDialog (EText (js "saveSettings error: " ++ [10] ++ opt_string message));;
            save_cb cb
      end).

(** ** Handlers of the list *)

(** A click on a dashboard's name. *)
Definition pick_dashboard (name : jsstr) (context : option jsstr) : M unit :=
  guarded "" (
    cb ← begin;
    load_dashboard name [scope_string context] cb).

(** Its remove button, and the answer to the question. *)
Definition remove_dashboard (name : jsstr) : M unit :=
  guarded "" (choiceDialog (js "Are you sure sure you want to delete '" ++ name ++ js "'?")
    [(js "delete", js "Delete"); (js "no", js "Cancel")] (CDeleteDashboard name)).

Definition remove_answer (name opt : jsstr) : M unit :=
  if bool_decide (opt = js "delete") then
    u ← get (fun w => theUserName (w_dash w));
    saveSettings u (prefix ++ name) None (SvDeleted name)
  else mret ().

(** ** Saving *)

Definition is_word (c : Z) : bool := is_alnum c || (c =? 95).

(** [!fn || fn.match(/[^a-zA-Z_0-9]/)] *)
Definition bad_name (fn : jsstr) : bool := bool_decide (fn = []) || negb (forallb is_word fn).

Definition save_now (fn : jsstr) (dash : json) : M unit :=
  u ← get (fun w => theUserName (w_dash w));
  saveSettings u (prefix ++ fn) (Some dash) SvReloadDashboards;;
  set_hash (js "#?dashboard=" ++ fn).

Definition save_dashboard_named (fn : jsstr) : M unit :=
  if bad_name fn then
    errorText "Please enter a proper file name first. Alphanumeric and underscore characters only."
  else
    theDash ← get getDashboard;
    d ← get w_dash;
    match theUserName d with
    | Some (_ :: _) =>
        if obj_truthy (da_items d) fn then
          choiceDialog (js "Dashboard named '" ++ fn ++ js "' already exists. Overwrite it?")
            [(js "save", js "Save"); (js "no", js "Cancel")] (COverwriteDashboard fn theDash)
        else save_now fn theDash
    | _ => errorText "You must log in to save dashboards"
    end.

Definition overwrite_answer (fn : jsstr) (dash : json) (opt : jsstr) : M unit :=
  if bool_decide (opt = js "save") then save_now fn dash else mret ().

Definition save_dashboard : M unit :=
  promptDialog (js "Save dashboard as: [Valid characters: A-Z, a-z, 0-9, _]") PSaveDashboard;;
  d ← get (fun w => da_current (w_dash w));
  match d with
  | Some ((_ :: _) as name) => dom ".answer" "val" [AStr name]
  | _ => mret ()
  end;;
  dom ".answer" "select" [].

(** [theUser] is never assigned, so the check for it always fails. *)
Definition theUser : option jsstr := None.

Definition save_template (fn : jsstr) : M unit :=
  if bad_name fn then
    errorText "Please enter a proper file name first. Alphanumeric and underscore characters only."
  else
    theDash ← get getDashboard;
    match theUser with
    | Some ((_ :: _) as u) => saveSettings (Some u) (js "template." ++ fn) (Some theDash) SvNothing
    | _ => errorText "You must log in to save templates"
    end;;
    set_hash (js "#?template=" ++ fn).

(** ** What the operations change *)

Section preserves.
Context (P : World -> Prop) `{!Stable P set_io} `{!Stable P set_ui}.

Lemma pres_loadSettings s f cb : preserves P (loadSettings s f cb).
Proof. unfold loadSettings. pres. Qed.
Lemma pres_saveSettings s n v cb : preserves P (saveSettings s n v cb).
Proof. unfold saveSettings. presg. Qed.
Hint Resolve pres_loadSettings pres_saveSettings : pres.
Lemma pres_load_dashboard d c cb : preserves P (load_dashboard d c cb).
Proof. unfold load_dashboard. pres. Qed.

Lemma pres_open_graph `{!Stable P set_grid} `{!Stable P set_graphs} `{!Stable P set_loader} f l :
  preserves P (open_graph f l).
Proof. unfold open_graph. presg. Qed.
Hint Resolve pres_open_graph : pres.
Lemma pres_open_all `{!Stable P set_grid} `{!Stable P set_graphs} `{!Stable P set_loader} l :
  preserves P (open_all l).
Proof. unfold open_all. pres. Qed.

Lemma pres_setCurrentDashboard `{!Stable P set_dash} n : preserves P (setCurrentDashboard n).
Proof. unfold setCurrentDashboard, updateCurrentDashboard, put_dash. pres. Qed.

End preserves.

#[export] Hint Resolve pres_loadSettings pres_saveSettings pres_load_dashboard pres_open_graph pres_open_all
  pres_setCurrentDashboard : pres.

(** ** Rebuilding the graphs *)

(** A series object with the given names, as [toggleSeries] builds it. *)
Definition series_of (ks : list jsstr) : list (jsstr * unit) := (fun k => (k, ())) <$> ks.

Lemma series_of_names ks : (series_of ks).*1 = ks.
Proof. unfold series_of. rewrite <- list_fmap_compose. apply list_fmap_id. Qed.

Lemma toggle_fresh ks k : k ∉ ks -> ~ inherited k -> toggle (series_of ks) k = series_of (ks ++ [k]).
Proof.
  intros Hk Hi. unfold toggle, obj_truthy.
  rewrite (bool_decide_false (obj_get _ k <> None)) by (rewrite obj_get_None, series_of_names; tauto).
  rewrite (bool_decide_false (inherited k)) by done. cbn.
  rewrite obj_set_new by (by rewrite series_of_names). unfold series_of. by rewrite fmap_app.
Qed.

Lemma toggle_list pre ks :
  NoDup (pre ++ ks) -> Forall (fun k => ~ inherited k) ks ->
  foldl toggle (series_of pre) ks = series_of (pre ++ ks).
Proof.
  revert pre; induction ks as [|k ks IH]; intros pre Hnd Hi; [by rewrite app_nil_r|].
  apply Forall_cons in Hi as [Hk Hi]. cbn [foldl]. rewrite toggle_fresh; [| |done].
  - rewrite IH; [by rewrite <- app_assoc|by rewrite <- app_assoc|done].
  - apply NoDup_app in Hnd as (_ & H & _). intros Hin. apply (H k Hin). left.
Qed.

Lemma toggle_series_list g ks s o w :
  w_graphs w !! g = Some s -> gs_series s = Some o ->
  let w' := exec (for_each ks (toggleSeries g)) w in
  w_grid w' = w_grid w /\ w_graphs w' = alter (set_series (Some (foldl toggle o ks))) g (w_graphs w).
Proof.
  revert s o w; induction ks as [|k ks IH]; intros s o w Hg Ho.
  { cbn. split; [done|]. symmetry. eapply alter_id_at; [exact Hg|]. by apply set_series_id. }
  cbn [for_each]. rewrite exec_seq by (unfold toggleSeries; tot).
  destruct (toggleSeries_spec g k s o w Hg Ho) as [E1 E2].
  destruct (IH (set_series (Some (toggle o k)) s) (toggle o k) (exec (toggleSeries g k) w)) as [F1 F2]; [|done|].
  { by rewrite E2, list_lookup_alter_eq, Hg. }
  cbn [foldl]. rewrite F1, F2, E1, E2, list_alter_alter_eq. done.
Qed.

Definition new_surface (f : fmt) (ks : list jsstr) : GraphSurface := mkGraph (Some (series_of ks)) [] false f.

Lemma total_open_graph f ks : total (open_graph f ks).
Proof.
  intros w. destruct (newGraph_spec w) as (w1 & Hn & _). unfold open_graph, result.
  rewrite (bind_Ok _ _ _ _ _ Hn).
  assert (Ht : total (update (length (w_graphs w)) (set_format f);; for_each ks (toggleSeries (length (w_graphs w)))))
    by (unfold toggleSeries, update; tot).
  apply Ht.
Qed.

Lemma open_graph_spec f ks w :
  NoDup ks -> Forall (fun k => ~ inherited k) ks ->
  let w' := exec (open_graph f ks) w in
  result (open_graph f ks) w = Ok () /\
  w_graphs w' = w_graphs w ++ [new_surface f ks] /\
  w_grid w' = set_allGraphs (gg_allGraphs (w_grid w) ++ [length (w_graphs w)]) (w_grid w).
Proof.
  intros Hnd Hi. destruct (newGraph_spec w) as (w1 & Hn & E1 & E2 & _).
  unfold open_graph. unfold exec, result. rewrite (bind_Ok _ _ _ _ _ Hn). set (g := length (w_graphs w)) in *.
  change ((update g (set_format f);; for_each ks (toggleSeries g)) w1)
    with (for_each ks (toggleSeries g) (exec (update g (set_format f)) w1)).
  set (w2 := exec (update g (set_format f)) w1).
  assert (E3 : w_graphs w2 = w_graphs w ++ [mkGraph (Some []) [] false f]).
  { unfold w2. cbn. rewrite E1, alter_app_r_alt by lia. unfold g. by rewrite Nat.sub_diag. }
  destruct (toggle_series_list g ks (mkGraph (Some []) [] false f) [] w2) as [F1 F2]; [|done|].
  { rewrite E3, lookup_app_r by (unfold g; lia). unfold g. by rewrite Nat.sub_diag. }
  split; [|split].
  - assert (total (for_each ks (toggleSeries g))) as Ht by (unfold toggleSeries; tot).
    destruct (Ht w2) as [[] Hr]. exact Hr.
  - unfold exec in F2. rewrite F2, E3, alter_app_r_alt by (unfold g; lia). unfold g. rewrite Nat.sub_diag. cbn.
    pose proof (toggle_list [] ks Hnd Hi) as Ht. cbn in Ht. by rewrite Ht.
  - unfold exec in F1. rewrite F1. unfold w2. cbn. by rewrite E2.
Qed.

(** One new surface per graph, with its format and series. *)
Definition new_surfaces (l : list (fmt * list jsstr)) : list GraphSurface := (fun p => new_surface p.1 p.2) <$> l.

Definition series_ok (ks : list jsstr) : Prop := NoDup ks /\ Forall (fun k => ~ inherited k /\ ~ is_index k) ks.

Lemma open_all_spec l w :
  Forall (fun p => series_ok p.2) l ->
  let w' := exec (open_all l) w in
  result (open_all l) w = Ok () /\
  w_graphs w' = w_graphs w ++ new_surfaces l /\
  w_grid w' = set_allGraphs (gg_allGraphs (w_grid w) ++ seq (length (w_graphs w)) (length l)) (w_grid w).
Proof.
  intros Hgs. revert w; induction Hgs as [|[f ks] l [Hnd Hi] _ IH]; intros w.
  { cbn. rewrite !app_nil_r. split_and!; [done|done|]. by destruct (w_grid w). }
  destruct (open_graph_spec f ks w Hnd) as (Hr & E1 & E2).
  { eapply Forall_impl; [exact Hi|]. by intros ? []. }
  unfold open_all in *. cbn [for_each fst snd]. rewrite exec_seq, result_seq by apply total_open_graph.
  destruct (IH (exec (open_graph f ks) w)) as (Hr' & F1 & F2).
  split; [exact Hr'|]. rewrite F1, F2, E1, E2, length_app, <- !app_assoc. split; [done|].
  cbn. by rewrite <- app_assoc, Nat.add_comm.
Qed.

Lemma total_open_all l : total (open_all l).
Proof. apply for_each_total. intros []. apply total_open_graph. Qed.

(** ** The parts of opening a dashboard *)

(** The whole opening of a document. *)
Definition openDoc (dashboard : jsstr) (d : DashDoc) : M unit :=
  dom "input#arg_filename" "val" [AStr dashboard];;
  clear;;
  open_rest dashboard d.

(** What follows the graphs: the time state, the layout, the list. *)
Definition open_tail (dashboard : jsstr) (d : DashDoc) : M unit :=
  open_interval d;;
  open_slider d;;
  calcReloadInterval;;
  setAutoRefresh (dd_auto d);;
  documentResize;;
  set_hash (js "#?dashboard=" ++ dashboard);;
  setCurrentDashboard dashboard.

Lemma total_open_interval d : total (open_interval d).
Proof. unfold open_interval, restoreOriginalInterval. tot. Qed.
Lemma total_open_slider d : total (open_slider d).
Proof. unfold open_slider. tot. Qed.
Lemma total_open_size d : total (open_size d).
Proof. unfold open_size. tot. Qed.
Lemma total_setCurrentDashboard n : total (setCurrentDashboard n).
Proof. unfold setCurrentDashboard, updateCurrentDashboard, put_dash. tot. Qed.
Hint Resolve total_open_interval total_open_slider total_open_size total_setCurrentDashboard : tot.
Lemma total_open_tail n d : total (open_tail n d).
Proof. unfold open_tail. tot. Qed.

Lemma open_tail_keeps n d w :
  let w' := exec (open_tail n d) w in
  w_grid w' = w_grid w /\ w_graphs w' = w_graphs w /\ w_size w' = w_size w /\ w_sizeDropdown w' = w_sizeDropdown w.
Proof.
  pose (P := fun w' : World => w_grid w' = w_grid w /\ w_graphs w' = w_graphs w /\ w_size w' = w_size w /\
    w_sizeDropdown w' = w_sizeDropdown w).
  assert (Hp : preserves P (open_tail n d)); [|by apply Hp].
  unfold open_tail, open_interval, open_slider. pres.
Qed.

Lemma setCurrentDashboard_exec n v :
  let w' := exec (setCurrentDashboard n) v in
  w_time w' = w_time v /\ sy_hash (w_sys w') = sy_hash (w_sys v) /\ da_current (w_dash w') = Some n.
Proof.
  unfold setCurrentDashboard. rewrite exec_seq by (unfold put_dash; tot).
  set (v1 := exec (put_dash _) v). assert (Hd : da_current (w_dash v1) = Some n) by reflexivity.
  change (w_time v) with (w_time v1). change (sy_hash (w_sys v)) with (sy_hash (w_sys v1)). clearbody v1.
  unfold updateCurrentDashboard. rewrite exec_seq by tot. rewrite exec_bind.
  set (v2 := exec (dom _ _ _) v1). cbn [get]. change (w_dash v2) with (w_dash v1). rewrite Hd.
  destruct n; [done|]. destruct (obj_truthy _ _); done.
Qed.

Lemma open_tail_time n d w :
  let w5 := exec (open_slider d) (exec (open_interval d) w) in
  let w' := exec (open_tail n d) w in
  time_view w' = time_view w5 /\ isAutoRefresh (w_time w') = dd_auto d /\
  sy_hash (w_sys w') = js "#?dashboard=" ++ n /\ da_current (w_dash w') = Some n.
Proof.
  intros w5 w'. unfold w', open_tail. clear w'. rewrite !exec_seq by eauto with tot. fold w5. clearbody w5.
  set (w6 := exec calcReloadInterval w5). set (w7 := exec (setAutoRefresh (dd_auto d)) w6).
  set (w8 := exec documentResize w7). set (w9 := exec (set_hash _) w8).
  destruct (setCurrentDashboard_exec n w9) as (E1 & E2 & E3).
  assert (E8 : w_time w8 = w_time w7) by (apply (pres_eq w_time); intros; pres).
  assert (E9 : w_time w9 = w_time w7) by exact E8.
  split_and!; [|rewrite E1, E9; apply setAutoRefresh_flag|rewrite E2; reflexivity|exact E3].
  unfold time_view. rewrite E1, E9. fold (time_view w7). unfold w7. by rewrite setAutoRefresh_view.
Qed.

Lemma clear_world w :
  Forall (fun g => g < length (w_graphs w))%nat (gg_allGraphs (w_grid w)) ->
  exists w1, clear w = (w1, Ok ()) /\ w_grid w1 = mkGrid [] None /\ length (w_graphs w1) = length (w_graphs w) /\
    w_size w1 = w_size w /\ w_sizeDropdown w1 = w_sizeDropdown w /\
    theOriginalDates (w_time w1) = theOriginalDates (w_time w) /\ theTimeSlider (w_time w1) = theTimeSlider (w_time w).
Proof.
  intros Hv. destruct (clear_spec w Hv) as (Hr & E1 & E2 & _ & E4 & E5). exists (exec clear w).
  split; [by apply eta|]. split_and!.
  - destruct (w_grid (exec clear w)). cbn in *. by subst.
  - rewrite E4. clear. induction (rev (gg_allGraphs (w_grid w))) as [|g l IH]; [done|]. cbn. by rewrite length_alter.
  - apply (pres_eq w_size). intros. pres.
  - apply (pres_eq w_sizeDropdown). intros. pres.
  - rewrite E5. by destruct (gg_allGraphs (w_grid w)).
  - rewrite E5. by destruct (gg_allGraphs (w_grid w)).
Qed.

Lemma graph_size_exec a b i w :
  let w' := exec (graph_size a b i) w in
  w_size w' = mkSize a b /\ w_sizeDropdown w' = i /\ w_grid w' = w_grid w /\ w_graphs w' = w_graphs w /\
  w_time w' = w_time w.
Proof.
  intros w'. assert (H : w_size w' = mkSize a b /\ w_sizeDropdown w' = i).
  { unfold w', graph_size. rewrite !exec_seq by tot.
    set (w1 := exec (modify (set_sizeDropdown None)) _). set (w2 := exec (match i with Some _ => _ | None => _ end) w1).
    assert (Hd : w_sizeDropdown w2 = i) by (unfold w2; by destruct i). clearbody w2.
    unfold setGraphSize. rewrite !exec_seq by tot.
    pose (P := fun w => w_size w = mkSize a b /\ w_sizeDropdown w = i).
    assert (Hp : preserves P documentResize) by pres. apply Hp. by split. }
  destruct H as [H1 H2]. split_and!; try done; unfold w'.
  - apply (pres_eq w_grid). intros. pres.
  - apply (pres_eq w_graphs). intros. pres.
  - apply (pres_eq w_time). intros. pres.
Qed.

Lemma open_size_exec d w :
  let w' := exec (open_size d) w in
  w_size w' = default (w_size w) (dd_size d) /\ w_grid w' = w_grid w /\ w_graphs w' = w_graphs w /\
  w_time w' = w_time w /\
  w_sizeDropdown w' = match dd_size d, dd_slider d with
                      | None, _ => w_sizeDropdown w
                      | Some _, SlManual => None
                      | Some _, _ => menu_index <$> dd_dropdown d
                      end.
Proof.
  unfold open_size. destruct (dd_size d) as [[a b]|]; [|done].
  destruct (graph_size_exec a b (match dd_slider d with SlManual => None | _ => menu_index <$> dd_dropdown d end) w)
    as (E1 & E2 & E3 & E4 & E5). by split_and!.
Qed.

(** The range that opening a dashboard leaves: the saved interval up to the page's end, unless the slider moves to another
    marker, which then shows its own interval. *)
Definition opened_range (slider : DashSlider) (ms stop now : Z) (hidden : bool) (before : sindex) : Dates * Dates :=
  let saved := mkDates (Some (stop - ms)) (Some stop) in
  match slider with
  | SlIndex i =>
      if bool_decide (before = IAt (clamp i)) then (saved, saved)
      else
        let secs := default 0 (markers !! Z.to_nat (clamp i)) in
        let marker := mkDates (Some (stop - secs * 1000)) (Some stop) in
        (marker, if hidden then marker else mkDates (Some (now - 10 * 1000 - secs * 1000)) (Some (now - 10 * 1000)))
  | _ => (saved, saved)
  end.

(** The clock and the visibility, which nothing of the page changes. *)
Definition clock (w : World) : Z * bool := (sy_now (w_sys w), sy_hidden (w_sys w)).

Lemma clock_opening n d w :
  clock (exec (open_interval d) (exec (open_all (dd_graphs d)) (exec (open_size d) (exec clear (exec (dom "input#arg_filename" "val" [AStr n]) w)))))
    = clock w.
Proof.
  rewrite (pres_eq clock (open_interval d)); [|intros; unfold open_interval; pres].
  rewrite (pres_eq clock (open_all _)); [|intros; apply pres_open_all; exact _].
  rewrite (pres_eq clock (open_size d)); [|intros; unfold open_size; pres].
  rewrite (pres_eq clock clear); [done|]. intros; pres.
Qed.

Lemma setIndex_range i w stop ms :
  theOriginalDates (w_time w) = mkDates (Some (stop - ms)) (Some stop) ->
  theCurrentDates (w_time w) = mkDates (Some (stop - ms)) (Some stop) ->
  let t := w_time (exec (setIndex i) w) in
  (theOriginalDates t, theCurrentDates t) = opened_range (SlIndex i) ms stop (sy_now (w_sys w)) (sy_hidden (w_sys w)) (ts_index (theTimeSlider (w_time w))).
Proof.
  intros Ho Hc. cbv zeta. rewrite setIndex_time. unfold index_set, opened_range.
  destruct (decide (ts_index (theTimeSlider (w_time w)) = IAt (clamp i))) as [E|Hne].
  - rewrite !bool_decide_true by done. cbn. by rewrite Ho, Hc.
  - rewrite !bool_decide_false by done.
    destruct (interval_set_dates (default 0 (markers !! Z.to_nat (clamp i))) (sy_now (w_sys w)) (sy_hidden (w_sys w))
      (at_index false (ts_index (theTimeSlider (w_time w))) (w_time w)) stop) as (E1 & E3 & _); [cbn; by rewrite Ho|].
    cbn in *. by rewrite E1, E3.
Qed.

Lemma openDoc_spec n d w :
  Forall (fun g => g < length (w_graphs w))%nat (gg_allGraphs (w_grid w)) -> Forall (fun p => series_ok p.2) (dd_graphs d) ->
  let w' := exec (openDoc n d) w in
  result (openDoc n d) w = Ok () /\
  w_grid w' = mkGrid (seq (length (w_graphs w)) (length (dd_graphs d))) None /\
  (exists old, length old = length (w_graphs w) /\ w_graphs w' = old ++ new_surfaces (dd_graphs d)) /\
  w_size w' = default (w_size w) (dd_size d) /\
  w_sizeDropdown w' = match dd_size d, dd_slider d with
                      | None, _ => w_sizeDropdown w
                      | Some _, SlManual => None
                      | Some _, _ => menu_index <$> dd_dropdown d
                      end /\
  isAutoRefresh (w_time w') = dd_auto d /\
  match dd_slider d with
  | SlManual => ts_manual (theTimeSlider (w_time w')) = true
  | SlIndex i => ts_manual (theTimeSlider (w_time w')) = false /\ ts_index (theTimeSlider (w_time w')) = IAt (clamp i)
  | SlOther => theTimeSlider (w_time w') = theTimeSlider (w_time w)
  end /\
  (forall ms stop, dd_interval d = Some ms -> dt_stop (theOriginalDates (w_time w)) = Some stop ->
    (theOriginalDates (w_time w'), theCurrentDates (w_time w')) = opened_range (dd_slider d) ms stop
      (sy_now (w_sys w)) (sy_hidden (w_sys w)) (ts_index (theTimeSlider (w_time w)))) /\
  sy_hash (w_sys w') = js "#?dashboard=" ++ n /\ da_current (w_dash w') = Some n.
Proof.
  intros Hv Hl w'. set (w0 := exec (dom "input#arg_filename" "val" [AStr n]) w).
  destruct (clear_world w0 Hv) as (w1 & Hc & C1 & C2 & C3 & C4 & C5 & C6).
  assert (Ew1 : exec clear w0 = w1) by (unfold exec; by rewrite Hc).
  pose proof (clock_opening n d w) as Hclock. fold w0 in Hclock. rewrite Ew1 in Hclock.
  destruct (open_size_exec d w1) as (S1 & S2 & S3 & S4 & S5). set (w2 := exec (open_size d) w1) in *.
  destruct (open_all_spec (dd_graphs d) w2 Hl) as (Hg & G1 & G2).
  set (w3 := exec (open_all (dd_graphs d)) w2) in *.
  assert (Hrun : openDoc n d w = (exec (open_tail n d) w3, Ok ())).
  { assert (Hd : dom "input#arg_filename" "val" [AStr n] w = (w0, Ok ())) by reflexivity.
    unfold openDoc. rewrite (bind_Ok _ _ _ _ _ Hd).
    rewrite (bind_Ok _ _ _ _ _ Hc). unfold open_rest. rewrite (bind_Ok _ _ _ _ _ (total_unit _ _ (total_open_size d))). fold w2.
    rewrite (bind_Ok _ _ _ _ _ (eta _ _ _ Hg)). apply (total_unit (open_tail n d)), total_open_tail. }
  assert (T3 : w_time w3 = w_time w1 /\ w_size w3 = w_size w2 /\ w_sizeDropdown w3 = w_sizeDropdown w2).
  { pose (P := fun w => w_time w = w_time w2 /\ w_size w = w_size w2 /\ w_sizeDropdown w = w_sizeDropdown w2).
    assert (Hp : preserves P (open_all (dd_graphs d))) by (apply pres_open_all; exact _).
    rewrite <- S4. by apply Hp. }
  destruct T3 as (T3 & T4 & T5).
  destruct (open_tail_keeps n d w3) as (K1 & K2 & K3 & K4).
  destruct (open_tail_time n d w3) as (V1 & V2 & V3 & V4).
  unfold w', exec, result. rewrite Hrun. clear w' Hrun Hc Hg. cbn [fst snd]. clearbody w3. clearbody w2.
  rewrite K1, K2, K3, K4, V2, V3, V4, G1, G2, S2, S3, T4, T5, S1, S5, C1, C3, C4.
  change (length (w_graphs w)) with (length (w_graphs w0)). rewrite C2.
  change (w_time w) with (w_time w0).
  unfold time_view in V1. injection V1 as V5 V6 V7. rewrite V5, V6, V7.
  set (w4 := exec (open_interval d) w3) in *.
  assert (Hsl : theTimeSlider (w_time w4) = theTimeSlider (w_time w0)).
  { rewrite <- C6, <- T3. unfold w4, open_interval. by destruct (dd_interval d). }
  split_and!; try done.
  { by exists (w_graphs w1). }
  - unfold open_slider. destruct (dd_slider d) as [|i|]; [done|by rewrite setIndex_time|done].
  - intros ms stop Hms Hst. rewrite <- C5, <- T3 in Hst.
    assert (H4 : theOriginalDates (w_time w4) = mkDates (Some (stop - ms)) (Some stop) /\
                 theCurrentDates (w_time w4) = mkDates (Some (stop - ms)) (Some stop)).
    { unfold w4, open_interval. rewrite Hms. change (theOriginalDates (w_time (exec _ w3)))
        with (mkDates (date_minus (dt_stop (theOriginalDates (w_time w3))) ms) (dt_stop (theOriginalDates (w_time w3)))).
      change (theCurrentDates (w_time (exec _ w3)))
        with (mkDates (date_minus (dt_stop (theOriginalDates (w_time w3))) ms) (dt_stop (theOriginalDates (w_time w3)))). by rewrite Hst. }
    destruct H4 as [H4 H5]. unfold clock in Hclock. injection Hclock as Hn Hh.
    unfold open_slider. destruct (dd_slider d) as [|i|];
      [change ((theOriginalDates (w_time w4), theCurrentDates (w_time w4)) = opened_range SlManual ms stop (sy_now (w_sys w)) (sy_hidden (w_sys w)) (ts_index (theTimeSlider (w_time w0)))); by rewrite H4, H5
      | |change ((theOriginalDates (w_time w4), theCurrentDates (w_time w4)) = opened_range SlOther ms stop (sy_now (w_sys w)) (sy_hidden (w_sys w)) (ts_index (theTimeSlider (w_time w0)))); by rewrite H4, H5].
    pose proof (setIndex_range i w4 stop ms H4 H5) as Hr. cbv zeta in Hr. rewrite Hr, Hsl.
    by rewrite Hn, Hh.
Qed.

(** ** The text of a dashboard, read back *)

Lemma norm_num_num m e : exists m' e', norm_num m e = JNum m' e'.
Proof. unfold norm_num. destruct (m =? 0); [by do 2 eexists|]. destruct (strip_zeros _ m e). by do 2 eexists. Qed.

Lemma read_slider_JInt i : read_slider (Some (JInt i)) = Some (SlIndex i).
Proof.
  pose proof (as_int_JInt i) as H. unfold JInt in *. destruct (norm_num_num i 0) as (m & e & E). rewrite E in *.
  change (SlIndex <$> as_int (JNum m e) = Some (SlIndex i)). by rewrite H.
Qed.

Lemma read_dropdown_JInt i : read_dropdown (Some (JInt i)) = Some (Some i).
Proof.
  pose proof (as_int_JInt i) as H. unfold JInt in *. destruct (norm_num_num i 0) as (m & e & E). rewrite E in *.
  change (Some <$> as_int (JNum m e) = Some (Some i)). by rewrite H.
Qed.

Lemma truthy_JMilli n : truthy (JMilli n) = negb (n =? 0).
Proof.
  pose proof (as_milli_JMilli n) as H. unfold JMilli in *. destruct (Z.eqb_spec n 0) as [->|Hn]; [done|].
  destruct (norm_num_num n (-3)) as (m & e & E). rewrite E in *. cbn [truthy]. destruct (Z.eqb_spec m 0) as [->|]; [|done].
  cbn in H. destruct (0 <=? e + 3); injection H as H; lia.
Qed.

Lemma read_interval_JMilli n : read_interval (Some (JMilli n)) = Some (if n =? 0 then None else Some n).
Proof.
  pose proof (as_milli_JMilli n) as H. pose proof (truthy_JMilli n) as Ht. unfold JMilli in *. destruct (norm_num_num n (-3)) as (m & e & E).
  rewrite E in *. unfold read_interval, falsy. cbn [from_option]. rewrite Ht. destruct (n =? 0); [done|]. cbn [negb]. by rewrite H.
Qed.

(** The graphs of the page, as a dashboard describes them. *)
Definition dash_pairs (w : World) : list (fmt * list jsstr) :=
  (fun g => (gs_format (surface_of w g), getSeries (surface_of w g))) <$> gg_allGraphs (w_grid w).

Lemma dash_pairs_parts w : dash_graphs w = (dash_pairs w).*2 /\ dash_formats w = bars_fmt_to_ix <$> (dash_pairs w).*1.
Proof. unfold dash_graphs, dash_formats, dash_pairs. rewrite <- !list_fmap_compose. done. Qed.

(** A format's number, printed as a key, names the format again. *)
Lemma bars_roundtrip f :
  bars_ix_to_fmt (to_string (JInt (bars_fmt_to_ix f))) = Some f /\ ~ inherited (to_string (JInt (bars_fmt_to_ix f))).
Proof. split; [by destruct f|]. destruct f; apply (bool_decide_unpack _); vm_compute; exact I. Qed.

(** The elements of an array, under their indices. *)
Lemma entries_lookup (l : list json) i : obj_get (entries (JArr l)) (num_to_str (Z.of_nat i)) = l !! i.
Proof.
  assert (G : forall (l : list json) k, (k <= i)%nat -> obj_get (imap (fun j x => (num_to_str (Z.of_nat (k + j)), x)) l) (num_to_str (Z.of_nat i)) = l !! (i - k)%nat).
  { clear l. induction l as [|x l IH]; intros k Hk; [by destruct (i - k)%nat|]. cbn [imap obj_get]. rewrite Nat.add_0_r. destruct (decide _) as [E|Hne].
    - apply num_to_str_inj in E; [|lia..]. replace (i - k)%nat with 0%nat by lia. done.
    - assert (k <> i) by (intros ->; done). replace (i - k)%nat with (S (i - S k)) by lia.
      change ((x :: l) !! S (i - S k)) with (l !! (i - S k)%nat). rewrite <- (IH (S k)) by lia. f_equal. apply imap_ext. intros j y _. cbn. by rewrite Nat.add_succ_r. }
  rewrite <- (Nat.sub_0_r i) at 2. rewrite <- (G l 0%nat) by lia. done.
Qed.

Lemma entries_strings ks : (fun q => to_string q.2) <$> entries (JArr (JStr <$> ks)) = ks.
Proof.
  cbn [entries]. apply list_eq. intros i. rewrite list_lookup_fmap, list_lookup_imap, list_lookup_fmap. by destruct (ks !! i).
Qed.

Lemma mapM_lookup {A B} (f : A -> option B) (l : list A) (r : list B) :
  length r = length l -> (forall i x, l !! i = Some x -> f x = r !! i) -> mapM f l = Some r.
Proof.
  revert r; induction l as [|x l IH]; intros [|y r] Hl Hf; try done. cbn. rewrite (Hf 0%nat x eq_refl). cbn.
  rewrite (IH r); [done|by injection Hl|]. intros i z Hz. exact (Hf (S i) z Hz).
Qed.

Lemma read_graphs_list (ps : list (fmt * list jsstr)) :
  read_graphs (Some (JArr (JInt <$> (bars_fmt_to_ix <$> ps.*1)))) (Some (JArr ((fun ks => JArr (JStr <$> ks)) <$> ps.*2))) = Some ps.
Proof.
  unfold read_graphs. cbn [from_option]. apply mapM_lookup.
  - cbn [entries]. by rewrite length_imap, !length_fmap.
  - intros i [k v] Hi. cbn [entries] in Hi. rewrite list_lookup_imap in Hi. apply fmap_Some in Hi as (g & Hg & [= -> ->]).
    rewrite !list_lookup_fmap in Hg. destruct (ps !! i) as [[f ks]|] eqn:Hp; [|done]. injection Hg as <-. cbn [fst snd].
    unfold read_format. cbn [truthy]. rewrite entries_lookup, !list_lookup_fmap, Hp. cbn [fmap option_fmap option_map fst].
    destruct (bars_roundtrip f) as [E Hn]. rewrite decide_False by done. rewrite E. cbn [default mbind option_bind]. by rewrite entries_strings.
Qed.

Definition slider_doc (s : TimeSlider) : DashSlider :=
  if ts_manual s then SlManual else match ts_index s with IAt i => SlIndex i | _ => SlOther end.

Definition doc_of (w : World) : DashDoc :=
  mkDoc (Some (w_size w)) (slider_doc (theTimeSlider (w_time w))) (w_sizeDropdown w) (dash_pairs w)
    (match date_sub (dt_stop (theCurrentDates (w_time w))) (dt_start (theCurrentDates (w_time w))) with
     | Some n => if n =? 0 then None else Some n
     | None => None
     end) (isAutoRefresh (w_time w)).

Lemma read_dash_get w : read_dash (getDashboard w) = Some (doc_of w).
Proof.
  unfold read_dash, getDashboard. cbv zeta. set (o := _ ++ _).
  assert (Hsize : obj_get o (js "size") = Some (size_json (w_size w))) by reflexivity.
  assert (Hs : obj_get o (js "timeSlider") = Some (if ts_manual (theTimeSlider (w_time w)) then JStr (js "manual")
    else json_index (ts_index (theTimeSlider (w_time w))))) by (unfold o; by destruct (isAutoRefresh (w_time w))).
  assert (Hd : obj_get o (js "sizeDropdown") = Some (from_option JInt (JStr (js "manual")) (w_sizeDropdown w)))
    by (unfold o; by destruct (isAutoRefresh (w_time w))).
  assert (Hg : obj_get o (js "graphs") = Some (JArr ((fun ks => JArr (JStr <$> ks)) <$> dash_graphs w)))
    by (unfold o; by destruct (isAutoRefresh (w_time w))).
  assert (Hf : obj_get o (js "formats") = Some (JArr (JInt <$> dash_formats w)))
    by (unfold o; by destruct (isAutoRefresh (w_time w))).
  assert (Hi : obj_get o (js "timeInterval") = Some (json_milli (date_sub (dt_stop (theCurrentDates (w_time w)))
    (dt_start (theCurrentDates (w_time w)))))) by (unfold o; by destruct (isAutoRefresh (w_time w))).
  assert (Ha : obj_get o (js "autoRefresh") = isAutoRefresh (w_time w))
    by (unfold o; by destruct (isAutoRefresh (w_time w))).
  clearbody o. rewrite Hsize, Hs, Hd, Hg, Hf, Hi, Ha.
  assert (read_size (Some (size_json (w_size w))) = Some (Some (w_size w))) as ->.
  { destruct (w_size w) as [a b].
    change ((a' ← as_int (JInt a); b' ← as_int (JInt b); Some (Some (mkSize a' b'))) = Some (Some (mkSize a b))).
    by rewrite !as_int_JInt. }
  assert (read_slider (Some (if ts_manual (theTimeSlider (w_time w)) then JStr (js "manual")
    else json_index (ts_index (theTimeSlider (w_time w))))) = Some (slider_doc (theTimeSlider (w_time w)))) as ->.
  { unfold slider_doc. destruct (ts_manual _); [done|]. destruct (ts_index _) as [| |k]; try done. apply read_slider_JInt. }
  assert (read_dropdown (Some (from_option JInt (JStr (js "manual")) (w_sizeDropdown w))) = Some (w_sizeDropdown w)) as ->.
  { destruct (w_sizeDropdown w); [apply read_dropdown_JInt|done]. }
  destruct (dash_pairs_parts w) as [-> ->]. rewrite read_graphs_list. unfold doc_of.
  destruct (date_sub _ _) as [n|]; [|done]. cbn [json_milli from_option]. by rewrite read_interval_JMilli.
Qed.

(** Names that survive a dashboard: distinct strings of units, neither inherited nor array indices. *)
Definition names_ok (w : World) : Prop :=
  Forall (fun ks => series_ok ks /\ Forall wf_str ks) (dash_graphs w) /\
  from_option json_wf True (isAutoRefresh (w_time w)).

Lemma json_wf_strings ks : Forall wf_str ks -> json_wf (JArr (JStr <$> ks)).
Proof. intros H. cbn [json_wf]. apply foldr_and, Forall_fmap. exact H. Qed.

Lemma getDashboard_wf w : names_ok w -> json_wf (getDashboard w).
Proof.
  intros [Hg Ha]. unfold getDashboard. cbn [json_wf].
  set (tail := [(js "timeInterval", _); _; _; _; _]).
  assert (Hnames : tail.*1 = [js "timeInterval"; js "timeSlider"; js "sizeDropdown"; js "graphs"; js "formats"]) by reflexivity.
  assert (Htail : Forall (fun p => json_wf p.2) tail).
  { unfold tail. repeat apply Forall_cons_2; [..|apply Forall_nil_2]; cbn [snd].
    - unfold json_milli. destruct (date_sub _ _); [apply norm_num_wf|done].
    - destruct (ts_manual _); [|by destruct (ts_index _); [| |apply norm_num_wf]].
      apply (bool_decide_unpack (Forall is_unit (js "manual"))). reflexivity.
    - destruct (w_sizeDropdown w); [apply norm_num_wf|].
      apply (bool_decide_unpack (Forall is_unit (js "manual"))). reflexivity.
    - cbn [json_wf]. apply foldr_and, Forall_fmap. eapply Forall_impl; [exact Hg|]. intros ks [_ H]. by apply json_wf_strings.
    - cbn [json_wf]. apply foldr_and, Forall_fmap, Forall_forall. intros n _. apply norm_num_wf. }
  assert (Hsize : json_wf (size_json (w_size w))).
  { cbn [size_json json_wf]. split_and!; [| |split; [apply norm_num_wf|split; [apply norm_num_wf|done]]].
    - apply (bool_decide_unpack (NoDup [js "width"; js "height"])). reflexivity.
    - apply (bool_decide_unpack (Forall (fun k => ~ is_index k /\ Forall is_unit k) [js "width"; js "height"])). reflexivity. }
  clearbody tail. destruct (isAutoRefresh (w_time w)) as [r|]; cbn [from_option] in Ha.
  - rewrite !fmap_app, Hnames. split_and!.
    + apply (bool_decide_unpack (NoDup [js "size"; js "autoRefresh"; js "timeInterval"; js "timeSlider"; js "sizeDropdown";
        js "graphs"; js "formats"])). reflexivity.
    + apply (bool_decide_unpack (Forall (fun k => ~ is_index k /\ Forall is_unit k) [js "size"; js "autoRefresh";
        js "timeInterval"; js "timeSlider"; js "sizeDropdown"; js "graphs"; js "formats"])). reflexivity.
    + apply foldr_and, Forall_app; split; [by apply Forall_singleton|]. apply Forall_app; split; [by apply Forall_singleton|done].
  - rewrite !fmap_app, Hnames. split_and!.
    + apply (bool_decide_unpack (NoDup [js "size"; js "timeInterval"; js "timeSlider"; js "sizeDropdown";
        js "graphs"; js "formats"])). reflexivity.
    + apply (bool_decide_unpack (Forall (fun k => ~ is_index k /\ Forall is_unit k) [js "size";
        js "timeInterval"; js "timeSlider"; js "sizeDropdown"; js "graphs"; js "formats"])). reflexivity.
    + apply foldr_and, Forall_app; split; [by apply Forall_singleton|]. done.
Qed.

Lemma getSeries_new f ks : series_ok ks -> getSeries (new_surface f ks) = ks.
Proof.
  intros [_ Hk]. unfold getSeries, keys_opt, keys, obj_keys. cbn. rewrite series_of_names. apply enum_order_id.
  eapply Forall_impl; [exact Hk|]. by intros ? [].
Qed.

Lemma dash_of_new w old l :
  w_graphs w = old ++ new_surfaces l -> gg_allGraphs (w_grid w) = seq (length old) (length l) ->
  Forall (fun p => series_ok p.2) l ->
  dash_graphs w = l.*2 /\ dash_formats w = bars_fmt_to_ix <$> l.*1.
Proof.
  intros Hg Ha Hs. unfold dash_graphs, dash_formats, surface_of. rewrite Ha, Hg.
  assert (Hl : forall i p, l !! i = Some p ->
    (old ++ new_surfaces l) !! (length old + i)%nat = Some (new_surface p.1 p.2)).
  { intros i p Hi. rewrite lookup_app_r by lia. unfold new_surfaces. rewrite list_lookup_fmap.
    replace (length old + i - length old)%nat with i by lia. by rewrite Hi. }
  split; apply list_eq; intros i; rewrite !list_lookup_fmap.
  - destruct (l !! i) as [p|] eqn:Hi.
    + rewrite lookup_seq_lt by (by eapply lookup_lt_Some). cbn. rewrite (Hl i p Hi). cbn. f_equal.
      apply (getSeries_new p.1). rewrite Forall_lookup in Hs. by eapply Hs.
    + rewrite lookup_seq_ge by (by apply lookup_ge_None). done.
  - destruct (l !! i) as [p|] eqn:Hi.
    + rewrite lookup_seq_lt by (by eapply lookup_lt_Some). cbn. by rewrite (Hl i p Hi).
    + rewrite lookup_seq_ge by (by apply lookup_ge_None). done.
Qed.

Lemma names_ok_series w : names_ok w -> Forall (fun p => series_ok p.2) (dash_pairs w).
Proof.
  intros [H _]. destruct (dash_pairs_parts w) as [E _]. rewrite E in H. apply Forall_fmap in H. eapply Forall_impl; [exact H|]. by intros ? [].
Qed.

(** A stored dashboard, as [loadSettings] hands it to [openDashboard]. *)
Definition stored (name : jsstr) (w : World) : json := JObj [(prefix ++ name, JStr (stringify (getDashboard w)))].

Lemma openDashboard_stored scope name w w2 :
  names_ok w -> openDashboard scope name (stored name w) w2 = openDoc name (doc_of w) w2.
Proof.
  intros Hw. unfold openDashboard, stored, prop_str. cbn [obj_get]. rewrite decide_True by done.
  cbn [opt_string from_option to_string]. rewrite parse_stringify by (by apply getDashboard_wf).
  pose proof (read_dash_get w) as Hr. unfold getDashboard in *. unfold openDoc. rewrite Hr. done.
Qed.

(** ** Properties *)

(** C4: a dashboard comes back as it was saved.  The JSON text of [getDashboard], stored under its
    name, opened on any page: nothing is thrown, the page's own graphs are replaced by graphs with
    the saved series in the saved order and formats, the graph size and the automatic refresh are the saved ones, and so is
    the slider: manual, at the saved marker, or left alone when the page was saved before the slider was at one; the hash and the
    list name the dashboard.  The series must have names that are distinct, of 16-bit units, neither
    array indices (which an object reorders) nor inherited names.  A saved interval that is neither empty nor [NaN] becomes the page's range, ending where the
    page's range ended, unless the saved marker is not the one at which the page's slider is: then the
    range is that of the marker, and on a visible page it ends ten seconds ago. *)
Theorem dashboard_roundtrip scope name w w2 :
  names_ok w -> grid_ok w2 ->
  let w' := exec (openDashboard scope name (stored name w)) w2 in
  let slider := theTimeSlider (w_time w) in
  result (openDashboard scope name (stored name w)) w2 = Ok () /\
  dash_graphs w' = dash_graphs w /\ dash_formats w' = dash_formats w /\
  gg_allGraphs (w_grid w') = seq (length (w_graphs w2)) (length (gg_allGraphs (w_grid w))) /\
  gg_selected (w_grid w') = None /\
  w_size w' = w_size w /\ isAutoRefresh (w_time w') = isAutoRefresh (w_time w) /\
  (ts_manual slider = true -> ts_manual (theTimeSlider (w_time w')) = true) /\
  (ts_manual slider = false -> forall i, ts_index slider = IAt i -> 0 <= i < n_markers ->
   ts_manual (theTimeSlider (w_time w')) = false /\ ts_index (theTimeSlider (w_time w')) = IAt i) /\
  (ts_manual slider = false -> (forall i, ts_index slider <> IAt i) -> theTimeSlider (w_time w') = theTimeSlider (w_time w2)) /\
  (forall ms stop,
     date_sub (dt_stop (theCurrentDates (w_time w))) (dt_start (theCurrentDates (w_time w))) = Some ms -> ms <> 0 ->
     dt_stop (theOriginalDates (w_time w2)) = Some stop ->
     let saved := mkDates (Some (stop - ms)) (Some stop) in
     let now := sy_now (w_sys w2) - 10 * 1000 in
     ((ts_manual slider = true \/ (forall i, ts_index slider <> IAt i) \/ ts_index slider = ts_index (theTimeSlider (w_time w2))) ->
      (forall i, ts_index slider = IAt i -> 0 <= i < n_markers) ->
      theOriginalDates (w_time w') = saved /\ theCurrentDates (w_time w') = saved) /\
     (forall i secs, ts_manual slider = false -> ts_index slider = IAt i -> markers !! Z.to_nat i = Some secs -> 0 <= i ->
      ts_index (theTimeSlider (w_time w2)) <> IAt i ->
      theOriginalDates (w_time w') = mkDates (Some (stop - secs * 1000)) (Some stop) /\
      theCurrentDates (w_time w') = if sy_hidden (w_sys w2) then theOriginalDates (w_time w')
                                    else mkDates (Some (now - secs * 1000)) (Some now))) /\
  sy_hash (w_sys w') = js "#?dashboard=" ++ name /\ da_current (w_dash w') = Some name.
Proof.
  intros Hw Hw2. unfold exec, result. rewrite openDashboard_stored by done.
  destruct (openDoc_spec name (doc_of w) w2 (go_valid _ Hw2) (names_ok_series w Hw))
    as (Hr & E1 & (old & E3 & E2) & E4 & _ & E6 & E7 & E8 & E9 & E10).
  fold (exec (openDoc name (doc_of w)) w2). set (w' := exec _ w2) in *.
  cbn [dd_graphs dd_slider dd_interval doc_of] in *. unfold slider_doc in *.
  destruct (dash_of_new w' old _ E2) as [D1 D2]; [by rewrite E1, E3|by apply names_ok_series|].
  destruct (dash_pairs_parts w) as [P1 P2].
  assert (Hclamp : forall i, 0 <= i < n_markers -> clamp i = i) by (intros; unfold clamp; lia).
  split_and!; try done.
  - by rewrite D1, P1.
  - by rewrite D2, P2.
  - rewrite E1. cbn. f_equal. apply length_fmap.
  - by rewrite E1.
  - intros Hm. by destruct (ts_manual (theTimeSlider (w_time w))).
  - intros Hm k Hk Hr'. rewrite Hm, Hk, Hclamp in E7 by done. exact E7.
  - intros Hm Hk. rewrite Hm in E7. destruct (ts_index (theTimeSlider (w_time w))) as [| |i]; [done|done|by destruct (Hk i)].
  - intros ms stop Hms Hne Hst. set (saved := mkDates (Some (stop - ms)) (Some stop)). rewrite Hms, (proj2 (Z.eqb_neq ms 0)) in E8 by done. specialize (E8 ms stop eq_refl Hst).
    split.
    + intros Hcase Hrange. assert (H : (theOriginalDates (w_time w'), theCurrentDates (w_time w')) = (saved, saved)); [|by injection H].
      rewrite E8. unfold opened_range. destruct (ts_manual _); [done|]. destruct (ts_index (theTimeSlider (w_time w))) as [| |i]; [done|done|].
      rewrite Hclamp by auto. destruct Hcase as [?|[Hn|<-]]; [done|by destruct (Hn i)|]. by rewrite bool_decide_true.
    + intros i secs Hm Hk Hsec Hi Hdiff. rewrite Hm, Hk in E8. unfold opened_range in E8.
      assert (Hr' : 0 <= i < n_markers) by (apply lookup_lt_Some in Hsec; unfold n_markers; lia).
      rewrite Hclamp, bool_decide_false, Hsec in E8 by done. cbn [default] in E8. injection E8 as -> ->. done.
Qed.

(** The request [saveSettings] sends. *)
Lemma saveSettings_log u n v cb w :
  exists x body, sy_log (w_sys (exec (saveSettings u n v cb) w)) = sy_log (w_sys (exec begin w)) ++
      [EHttp x "POST" (js "/?s=" ++ escape (scope_string u)) body] /\
    body = stringify (JObj [(n, JStr (from_option stringify [] v))]).
Proof.
  exists (sy_next_xhr (w_sys (exec begin w))), (stringify (JObj [(n, JStr (from_option stringify [] v))])).
  split; [|done]. unfold saveSettings.
  destruct (total_begin w) as [t Ht]. set (body := (begin ≫= _ : M unit)).
  assert (Hb : body w = (exec (x ← new_xhr (XSaveSettings cb t); emit (EHttp x "POST" (js "/?s=" ++ escape (scope_string u))
    (stringify (JObj [(n, JStr (from_option stringify [] v))])))) (exec begin w), Ok ())).
  { unfold body. by rewrite (bind_Ok _ _ _ _ _ (eta _ _ _ Ht)). }
  unfold exec at 1. rewrite (guarded_Ok _ _ _ _ Hb). reflexivity.
Qed.

Lemma prefix_not_index fn : ~ is_index (prefix ++ fn).
Proof. unfold is_index, array_index. cbn. tauto. Qed.

Lemma word_wf fn : bad_name fn = false -> wf_str fn.
Proof.
  unfold bad_name. intros [_ H]%orb_false_iff. apply negb_false_iff in H. rewrite forallb_forall in H.
  apply Forall_forall. intros c Hc%list_elem_of_In. specialize (H c Hc). unfold is_word, is_alnum, is_digit, is_unit in *.
  rewrite !orb_true_iff, !andb_true_iff, !Z.leb_le, Z.eqb_eq in H. lia.
Qed.

Lemma settings_body_parses n v :
  wf_str n -> ~ is_index n -> json_wf v ->
  json_parse (stringify (JObj [(n, JStr (stringify v))])) = Some (JObj [(n, JStr (stringify v))]) /\
  json_parse (stringify v) = Some v.
Proof.
  intros Hn Hi Hv. split; [|by apply parse_stringify]. apply parse_stringify. cbn [json_wf]. split_and!.
  - apply NoDup_singleton.
  - by apply Forall_singleton.
  - split; [|done]. apply (stringify_wf _ _ (le_n _) Hv).
Qed.

(** The requests sent so far, but for those of the loader. *)
Definition request_of (e : effect) : option (nat * string * jsstr * jsstr) :=
  match e with EHttp x verb url body => Some (x, verb, url, body) | _ => None end.
Definition sent (w : World) : list (nat * string * jsstr * jsstr) := omap request_of (sy_log (w_sys w)).

(** Nothing is sent: no request, none in flight, the hash as it was. *)
Definition nothing_sent (w w' : World) : Prop :=
  sent w' = sent w /\ sy_xhrs (w_sys w') = sy_xhrs (w_sys w) /\ sy_hash (w_sys w') = sy_hash (w_sys w).

Lemma errorDialog_quiet m w :
  let w' := exec (errorDialog m) w in
  nothing_sent w w' /\ ui_errors (w_ui w') = ui_errors (w_ui w) ++ [match m with EText s => EText (htmlescape s) | m => m end].
Proof.
  cbv zeta. split; [|done]. split; [|done]. unfold sent.
  change (sy_log (w_sys (exec (errorDialog m) w))) with (((sy_log (w_sys w) ++ [EDom ".dialog.error" "prependTo" [AStr (js "body")]])
    ++ [EDom "div#progressbar" "show" []]) ++ [EAnimate "0" AnimHide]).
  rewrite <- !app_assoc, omap_app. apply app_nil_r.
Qed.

Lemma choiceDialog_quiet t o cb w :
  let w' := exec (choiceDialog t o cb) w in
  nothing_sent w w' /\ ui_dialog (w_ui w') = Some (DChoice (htmlescape t) ((fun p => (p.1, htmlescape p.2)) <$> o) cb).
Proof.
  cbv zeta. split; [|done]. split; [|done]. unfold sent.
  change (sy_log (w_sys (exec (choiceDialog t o cb) w))) with ((sy_log (w_sys w) ++ [EDom ".dialog.prompt" "detach" []])
    ++ [EDom ".dialog.prompt" "prependTo" [AStr (js "body")]]).
  rewrite <- !app_assoc, omap_app. apply app_nil_r.
Qed.

Lemma begin_quiet w : nothing_sent w (exec begin w) /\ sy_next_xhr (w_sys (exec begin w)) = sy_next_xhr (w_sys w).
Proof.
  unfold begin. rewrite exec_bind. cbn [get]. destruct (ui_nesting (w_ui w) =? 0); [|done]. split; [|done]. split; [|done].
  unfold sent. match goal with |- omap _ (sy_log (w_sys ?v)) = _ => change (sy_log (w_sys v)) with ((sy_log (w_sys w) ++
    [EDom "div#progressbar" "css" [AStr (js "visibility"); AStr (js "visible")]]) ++ [EAnimate "half" AnimVisible]) end.
  rewrite <- !app_assoc, omap_app. apply app_nil_r.
Qed.

(** [saveSettings] sends one POST. *)
Lemma saveSettings_posts u n v cb w :
  let w' := exec (saveSettings u n v cb) w in
  exists x done_, sent w' = sent w ++ [(x, "POST"%string, js "/?s=" ++ escape (scope_string u),
      stringify (JObj [(n, JStr (from_option stringify [] v))]))] /\
    sy_xhrs (w_sys w') = sy_xhrs (w_sys w) ++ [(x, XSaveSettings cb done_)].
Proof.
  cbv zeta. destruct (total_begin w) as [t Ht]. exists (sy_next_xhr (w_sys w)), t. destruct (begin_quiet w) as [(B1 & B2 & _) B3].
  set (body := (done_ ← begin; x ← new_xhr (XSaveSettings cb done_);
     emit (EHttp x "POST" (js "/?s=" ++ escape (scope_string u)) (stringify (JObj [(n, JStr (from_option stringify [] v))]))))).
  assert (Hb : body w = (exec (x ← new_xhr (XSaveSettings cb t); emit (EHttp x "POST" (js "/?s=" ++ escape (scope_string u))
    (stringify (JObj [(n, JStr (from_option stringify [] v))])))) (exec begin w), Ok ())).
  { unfold body. by rewrite (bind_Ok _ _ _ _ _ (eta _ _ _ Ht)). }
  change (saveSettings u n v cb) with (guarded "_saveSettings" body). unfold exec. rewrite (guarded_Ok _ _ _ _ Hb). cbn [fst].
  set (e := EHttp (sy_next_xhr (w_sys (exec begin w))) "POST" (js "/?s=" ++ escape (scope_string u))
    (stringify (JObj [(n, JStr (from_option stringify [] v))]))).
  split.
  - unfold sent. match goal with |- omap _ (sy_log (w_sys ?z)) = _ => change (sy_log (w_sys z)) with (sy_log (w_sys (exec begin w)) ++ [e]) end.
    rewrite omap_app. fold (sent (exec begin w)). rewrite B1. unfold e. by rewrite B3.
  - match goal with |- sy_xhrs (w_sys ?z) = _ => change (sy_xhrs (w_sys z))
      with (sy_xhrs (w_sys (exec begin w)) ++ [(sy_next_xhr (w_sys (exec begin w)), XSaveSettings cb t)]) end. by rewrite B2, B3.
Qed.

(** One POST to the scope of the user [u], whose body gives the dashboard under its name; the hash names it. *)
Definition posts (fn u : jsstr) (dash : json) (w w' : World) : Prop :=
  sy_hash (w_sys w') = js "#?dashboard=" ++ fn /\
  exists x done_ body text,
    sent w' = sent w ++ [(x, "POST"%string, js "/?s=" ++ escape u, body)] /\
    sy_xhrs (w_sys w') = sy_xhrs (w_sys w) ++ [(x, XSaveSettings SvReloadDashboards done_)] /\
    json_parse body = Some (JObj [(prefix ++ fn, JStr text)]) /\ json_parse text = Some dash.

Lemma save_now_posts fn u dash w :
  bad_name fn = false -> json_wf dash -> theUserName (w_dash w) = Some u -> posts fn u dash w (exec (save_now fn dash) w).
Proof.
  intros Hb Hd Hu. unfold save_now. rewrite exec_bind. cbn [get]. rewrite Hu. rewrite exec_seq by (unfold saveSettings; tot).
  split; [done|]. destruct (saveSettings_posts (Some u) (prefix ++ fn) (Some dash) SvReloadDashboards w) as (x & t & H1 & H2).
  exists x, t, (stringify (JObj [(prefix ++ fn, JStr (stringify dash))])), (stringify dash).
  split; [exact H1|]. split; [exact H2|].
  apply settings_body_parses; [|apply prefix_not_index|done]. apply Forall_app; split; [units|by apply word_wf].
Qed.

(** C25: saving a dashboard.  A name with other characters than letters, digits and underscores, or an empty one, and any name while
    nobody is logged in, sends nothing and reports an error.  Under a name that the list does not know, exactly one request is sent, a
    POST to the user's scope, whose body is a JSON object with the one member [dashboard.<name>], a string that parses
    to the page's [getDashboard]; the hash then names the dashboard.  Under a known name nothing is sent: the page asks whether to overwrite,
    and the answer "save" then sends that one request with the dashboard as it was when asked, any other answer nothing. *)
Theorem save_sends_dashboard fn w :
  names_ok w ->
  let w' := exec (save_dashboard_named fn) w in
  let dash := getDashboard w in
  let refused := nothing_sent w w' /\ exists m, ui_errors (w_ui w') = ui_errors (w_ui w) ++ [EText m] in
  if bad_name fn then refused
  else match theUserName (w_dash w) with
       | Some ((_ :: _) as u) =>
           if obj_truthy (da_items (w_dash w)) fn then
             nothing_sent w w' /\
             (exists text options, ui_dialog (w_ui w') = Some (DChoice text options (COverwriteDashboard fn dash))) /\
             forall v, theUserName (w_dash v) = Some u ->
               posts fn u dash v (exec (overwrite_answer fn dash (js "save")) v) /\
               forall opt, opt <> js "save" -> exec (overwrite_answer fn dash opt) v = v
           else posts fn u dash w w'
       | _ => refused
       end.
Proof.
  intros Hw. cbv zeta. pose proof (getDashboard_wf w Hw) as Hd. unfold save_dashboard_named. destruct (bad_name fn) eqn:Hb.
  { destruct (errorDialog_quiet (EText (js "Please enter a proper file name first. Alphanumeric and underscore characters only.")) w) as [H1 H2].
    split; [exact H1|by eexists]. }
  rewrite !exec_bind. cbn [get]. rewrite !exec_bind. cbn [get].
  assert (Hno : nothing_sent w (exec (errorText "You must log in to save dashboards") w) /\
    exists m, ui_errors (w_ui (exec (errorText "You must log in to save dashboards") w)) = ui_errors (w_ui w) ++ [EText m]).
  { destruct (errorDialog_quiet (EText (js "You must log in to save dashboards")) w) as [H1 H2]. split; [exact H1|by eexists]. }
  destruct (theUserName (w_dash w)) as [[|c u]|] eqn:Hu; [exact Hno| |exact Hno].
  destruct (obj_truthy _ fn); [|by apply save_now_posts].
  destruct (choiceDialog_quiet (js "Dashboard named '" ++ fn ++ js "' already exists. Overwrite it?")
    [(js "save", js "Save"); (js "no", js "Cancel")] (COverwriteDashboard fn (getDashboard w)) w) as [H1 H2].
  split; [exact H1|]. split; [by do 2 eexists|]. intros v Hv. unfold overwrite_answer. split.
  - rewrite bool_decide_true by done. by apply save_now_posts.
  - intros opt Ho. by rewrite bool_decide_false.
Qed.

(** With the time range in manual mode, the entry of the size menu is not restored: the saved
    [sizeDropdown] is dropped, because [openDashboard] looks at [timeSlider] where it means
    [sizeDropdown].  On the other pages the saved entry of the menu comes back. *)
Theorem size_entry_lost_in_manual scope name w w2 k :
  names_ok w -> grid_ok w2 -> w_sizeDropdown w = Some k -> 0 <= k < 4 ->
  w_sizeDropdown (exec (openDashboard scope name (stored name w)) w2)
    = if ts_manual (theTimeSlider (w_time w)) then None else Some k.
Proof.
  intros Hw Hw2 Hk Hr. unfold exec. rewrite openDashboard_stored by done.
  destruct (openDoc_spec name (doc_of w) w2 (go_valid _ Hw2) (names_ok_series w Hw)) as (_ & _ & _ & _ & E & _).
  unfold exec in E. rewrite E. cbn [dd_size dd_slider dd_dropdown doc_of]. rewrite Hk. unfold slider_doc.
  assert (menu_index k = k) as Hm by (unfold menu_index; rewrite (proj2 (Z.leb_le 0 k)), (proj2 (Z.ltb_lt k 4)) by lia; done).
  destruct (ts_manual _); [done|]. destruct (ts_index _); cbn; by rewrite Hm.
Qed.

(** Confirming the removal of a dashboard posts an empty value to the scope of the logged-in
    user, whatever scope the dashboard was listed from: one listed from [global] is not removed. *)
Theorem remove_posts_to_user name u w :
  Some (name, Some (js "global")) ∈ da_list (w_dash w) -> theUserName (w_dash w) = Some u ->
  exists x, last (sy_log (w_sys (exec (remove_answer name (js "delete")) w)))
    = Some (EHttp x "POST" (js "/?s=" ++ escape u) (stringify (JObj [(prefix ++ name, JStr [])]))).
Proof.
  intros _ Hu. unfold remove_answer. rewrite bool_decide_true by done. rewrite exec_bind. cbn [get]. rewrite Hu.
  destruct (saveSettings_log (Some u) (prefix ++ name) None (SvDeleted name) w) as (x & body & Hl & Hb).
  exists x. by rewrite Hl, last_snoc, Hb.
Qed.

(** Reloading the list of dashboards empties the list but never the table [itemsByName], so a
    dashboard that was removed still counts as existing, and saving under its name asks to overwrite. *)
Theorem removed_name_still_known name w :
  obj_get (da_items (w_dash w)) name <> None -> obj_get (da_items (w_dash (exec dashboards_reload w))) name <> None.
Proof.
  intros Hn. pose (P := fun w : World => obj_get (da_items (w_dash w)) name <> None).
  assert (Hp : preserves P dashboards_reload); [|by apply Hp].
  assert (Hput : forall f, (forall d, da_items (f d) = da_items d) -> preserves P (put_dash f)).
  { intros f Hf w1 H1. unfold P in *. cbn. by rewrite Hf. }
  assert (Hu : preserves P updateCurrentDashboard) by (unfold updateCurrentDashboard; pres).
  unfold dashboards_reload. apply pres_bind; [by apply Hput|intros _]. apply pres_bind; [apply pres_get|intros u].
  assert (Hon : preserves P (on_userDashboards u (JObj []))).
  { unfold on_userDashboards. cbn [names_of]. apply pres_bind; [apply pres_ret|intros _].
    apply pres_bind; [|intros _; exact Hu]. destruct (bool_decide _); [apply pres_ret|].
    apply pres_bind; [by apply Hput|intros _]. apply pres_loadSettings; exact _. }
  destruct u as [[|c u]|]; [exact Hon| |exact Hon]. apply pres_loadSettings; exact _.
Qed.

End Dashboard.
