(* ===== verification/Bookmark.v ===== *)
(** * Bookmarks: the page's state in the location hash

    [packup_state_as_hash] writes the graphs and the time range into the hash;
    [gotohash] (run when the page has loaded and when the hash changes) reads it
    back, or loads the dashboard it names.  Also the bulk edits of the counters
    on the grid. *)

From stdpp Require Import sets.
From S2P Require Import Prelude JsString JsObject JsNumber Json UriCodec World JsValue Shell Loader Grid TimeRange Dashboard.
Import Shell Interval Grid TimeRange JsValue Dashboard.
Import (hints) Loader.

Local Open Scope Z_scope.

Module Bookmark.

(** ** Writing *)

(** [state[k] = theDash.graphs[k].join(';')], one property per graph. *)
Definition state_series (graphs : list (list jsstr)) : list (jsstr * jsstr) :=
  imap (fun k ks => (num_to_str (Z.of_nat k), join (js ";") ks)) graphs.

(** [grix]: the graph's key and its format. *)
Definition state_graphs (formats : list Z) : jsstr :=
  join (js ";") (imap (fun k f => num_to_str (Z.of_nat k) ++ js "," ++ num_to_str f) formats).

Definition state_of (w : World) : list (jsstr * jsstr) :=
  obj_set (state_series (dash_graphs w)) (js "graphs") (state_graphs (dash_formats w)).

(** [escape(Math.floor(d.getTime()/1000))] *)
Definition secs_str (d : date) : jsstr := escape (from_option num_to_str (js "NaN") (Loader.seconds d)).

Definition packed_hash (w : World) : jsstr :=
  js "#?" ++
  concat ((fun k => escape k ++ js "=" ++ escape (default [] (obj_get (state_of w) k)) ++ js "&") <$> obj_keys (state_of w)) ++
  js "from=" ++ secs_str (dt_start (theCurrentDates (w_time w))) ++ js "&" ++
  js "to=" ++ secs_str (dt_stop (theCurrentDates (w_time w))) ++ js "&" ++
  js "state=".

Definition packup_state_as_hash : M unit := h ← get packed_hash; set_hash h.

(** ** Reading *)

Definition date_of_seconds (s : option Z) : date :=
  t ← (fun n => n * 1000) <$> s; if Z.abs t <=? 8640000000000000 then Some t else None.

(** One graph of the state: the surface is made before its series are looked up. *)
Definition load_graph (state : list (jsstr * jsstr)) (piece : jsstr) : M unit :=
  let vals := split_char (ch ",") piece in
  let graph_ix := default [] (vals !! 0%nat) in
  let f := default errorBars (bars_ix_to_fmt (default (js "undefined") (vals !! 1%nat))) in
  nu ← newGraph;
  match nu with
  | Some g =>
      update g (set_format f);;
      match obj_get state graph_ix with
      | Some serii => for_each (split_char (ch ";") serii) (toggleSeries g)
      | None => throw TypeError
      end
  | None => throw TypeError
  end.

Definition load_state (state : list (jsstr * jsstr)) (cb : nat) : M unit :=
  clear;;
  match obj_get state (js "graphs") with
  | None => throw TypeError
  | Some graphs => for_each (split_char (ch ";") graphs) (load_graph state)
  end;;
  let secs k := date_of_seconds (parseInt (default (js "undefined") (obj_get state k))) in
  resetDateRange (secs (js "from")) (secs (js "to"));;
  finish cb.

(** [keyvals[ki].split('=', 2)]: a missing value is [undefined]. *)
Definition key_value (s : jsstr) : jsstr * jsstr :=
  let kv := split_limit (ch "=") 2 s in
  (default [] (kv !! 0%nat), unescape (default (js "undefined") (kv !! 1%nat))).

Inductive func := FDashboard | FState.

(** The function chosen by the keys: the last of [dashboard] and [state]. *)
Definition func_of (keys_ : list jsstr) : option func :=
  foldl (fun f k => if bool_decide (k = js "dashboard") then Some FDashboard
                    else if bool_decide (k = js "state") then Some FState else f) None keys_.

Definition hash_args (hash : jsstr) : list (jsstr * jsstr) :=
  foldl (fun o s => obj_set o (key_value s).1 (key_value s).2) [] (split_char (ch "&") hash).

Definition load_hash (hash : jsstr) : M unit :=
  guarded "_load_hash" (
    let f := func_of ((fun s => (key_value s).1) <$> split_char (ch "&") hash) in
    let args := hash_args hash in
    u ← get (fun w => theUserName (w_dash w));
    let contexts := js "global" :: match u with Some ((_ :: _) as u) => [u] | _ => [] end in
    match f with
    | None => mret ()
    | Some FDashboard =>
        end_ ← begin;
        load_dashboard (default (js "undefined") (obj_get args (js "dashboard"))) contexts end_
    | Some FState => end_ ← begin; load_state args end_
    end).

Definition gotohash : M unit :=
  hash ← get (fun w => sy_hash (w_sys w));
  (if bool_decide (take 2 hash = js "#?") then load_hash (drop 2 hash) else mret ());;
  documentResize.

(** The old cookie login: [doLogin] is not defined anywhere. *)
Definition is_login (s : jsstr) : bool :=
  let t := (span is_space s).2 in
  starts_with (js "login") t && forallb is_space (drop 5 t).

Fixpoint parse_cookies (cb : M unit) (cookies : list jsstr) : M unit :=
  match cookies with
  | [] => dom "#login" "slideDown" [];; cb
  | c :: cookies' =>
      let cookie := split_char (ch "=") c in
      if is_login (default [] (cookie !! 0%nat)) then
        match decodeURIComponent (default (js "undefined") (cookie !! 1%nat)) with
        | None => throw URIError
        | Some _ => throw (ReferenceError (js "doLogin"))
        end
      else parse_cookies cb cookies'
  end.
Definition maybeParseCookie (str : jsstr) (cb : M unit) : M unit := parse_cookies cb (split_char (ch ";") str).

(** ** Replacing counters on the grid *)

(** [for (var path in graph._series)] while the body toggles series: the names are
    those at the start; one deleted meanwhile is skipped, one added is not visited. *)
Definition visit_path (g : nat) (ft0 : jsstr) (ft1 : option jsstr) (keep : bool) (path : jsstr) : M unit :=
  s ← surface g;
  if bool_decide (path ∈ keys_opt (gs_series s)) then
    match indexOf ft0 path with
    | Some _ =>
        toggleSeries g (replace_first ft0 (default (js "undefined") ft1) path);;
        if keep then mret () else toggleSeries g path
    | None => mret ()
    end
  else mret ().

Definition change_graph (ft0 : jsstr) (ft1 : option jsstr) (keep : bool) (g : nat) : M unit :=
  s ← surface g;
  for_each (keys_opt (gs_series s)) (visit_path g ft0 ft1 keep);;
  reload g.

Definition change_counters (from_to : jsstr) (keep_old : bool) : M unit :=
  let ft := split_limit (ch ":") 2 from_to in
  gs ← get (fun w => gg_allGraphs (w_grid w));
  for_each gs (change_graph (default [] (ft !! 0%nat)) (ft !! 1%nat) keep_old).

Definition add_counters (match_add : jsstr) : M unit := change_counters match_add true.

Definition regexp_change : M unit :=
  promptDialog (js "Match counters, and replace them with another (can be substring)." ++ [10] ++
    js "[Syntax: match:substitution]") PChangeCounters.
Definition regexp_add : M unit :=
  promptDialog (js "Match counters, and add their substitution to same graphs (can be substring)." ++ [10] ++
    js "[Syntax: match:substitution]") PAddCounters.

(** ** Texts of the hash *)

Lemma escape_digits s : Forall (fun c => is_digit c = true) s -> escape s = s.
Proof.
  induction 1 as [|c s Hc _ IH]; [done|]. rewrite escape_cons, IH. unfold escape_unit, escape_keeps, is_alnum.
  by rewrite Hc.
Qed.

Lemma escape_num n : 0 <= n -> escape (num_to_str n) = num_to_str n.
Proof. intros Hn. by apply escape_digits, num_to_str_digits. Qed.

(** The escaped text holds none of the separators of the hash. *)
Lemma escape_no_sep s c : escape_keeps c = false -> c <> 37 -> c ∉ escape s.
Proof. intros Hk Hc Hin. apply escape_units in Hin as [H|H]; congruence. Qed.

Lemma split_amp ps last_ :
  Forall (fun p => 38 ∉ p) ps -> 38 ∉ last_ ->
  split_char 38 (concat ((fun p => p ++ [38]) <$> ps) ++ last_) = ps ++ [last_].
Proof.
  intros Hp Hl. induction Hp as [|p ps Hp _ IH]; [by apply split_char_id|]. cbn.
  rewrite <- !app_assoc. cbn. rewrite split_char_app by done. by rewrite IH.
Qed.

(** A property [k=v] of the hash, read back. *)
Definition pair_str (k v : jsstr) : jsstr := k ++ 61 :: escape v.

Lemma key_value_pair k v : 61 ∉ k -> wf_str v -> key_value (pair_str k v) = (k, v).
Proof.
  intros Hk Hv. unfold key_value, pair_str, split_limit. change (ch "=") with 61.
  rewrite split_char_app by done. rewrite (split_char_id 61 (escape v)) by (by apply escape_no_sep).
  cbn. by rewrite unescape_escape_str.
Qed.

Lemma pair_str_amp k v : 38 ∉ k -> 38 ∉ pair_str k v.
Proof.
  intros Hk. unfold pair_str. rewrite not_elem_of_app, not_elem_of_cons. split_and!; [done|done|by apply escape_no_sep].
Qed.

(** Assigning pairs leaves the other names alone. *)
Lemma obj_get_unassigned (ps : list (jsstr * jsstr)) o k :
  k ∉ ps.*1 -> obj_get (foldl (fun o p => obj_set o p.1 p.2) o ps) k = obj_get o k.
Proof.
  revert o; induction ps as [|[k' v] ps IH]; intros o Hk; [done|]. cbn in Hk |- *.
  apply not_elem_of_cons in Hk as [Hk Hps]. rewrite IH by done. apply obj_get_set_ne. congruence.
Qed.

(** Assigning pairs with distinct names gives an object that holds each of them. *)
Lemma obj_get_assigned (ps : list (jsstr * jsstr)) o k v :
  NoDup ps.*1 -> (k, v) ∈ ps -> obj_get (foldl (fun o p => obj_set o p.1 p.2) o ps) k = Some v.
Proof.
  revert o; induction ps as [|[k' v'] ps IH]; intros o Hnd Hin; [by apply not_elem_of_nil in Hin|].
  cbn in Hnd. apply NoDup_cons in Hnd as [Hk Hnd]. cbn [foldl fst snd].
  apply elem_of_cons in Hin as [[= -> ->]|Hin]; [|by apply IH].
  rewrite obj_get_unassigned by done. apply obj_get_set.
Qed.

(** ** The state object *)

Definition nm (k : nat) : jsstr := num_to_str (Z.of_nat k).

Lemma nm_digits k : Forall (fun c => is_digit c = true) (nm k).
Proof. apply num_to_str_digits. lia. Qed.

Lemma nm_not_word k s : existsb (fun c => negb (is_digit c)) s = true -> nm k <> s.
Proof.
  intros Hs <-. pose proof (nm_digits k) as Hd. apply existsb_exists in Hs as (c & Hc & Hn).
  rewrite Forall_forall in Hd. apply list_elem_of_In in Hc. by rewrite (Hd c Hc) in Hn.
Qed.

Lemma nm_inj j k : nm j = nm k -> j = k.
Proof. intros H. apply num_to_str_inj in H; lia. Qed.

Lemma state_series_names gs : (state_series gs).*1 = nm <$> seq 0 (length gs).
Proof.
  apply list_eq. intros i. unfold state_series. rewrite !list_lookup_fmap, list_lookup_imap.
  destruct (gs !! i) eqn:Hi.
  - rewrite lookup_seq_lt by (by eapply lookup_lt_Some). done.
  - rewrite lookup_seq_ge by (by apply lookup_ge_None). done.
Qed.

Lemma state_series_wf gs : obj_wf (state_series gs).
Proof.
  unfold obj_wf. rewrite state_series_names. apply NoDup_fmap_2; [intros ? ?; apply nm_inj|apply NoDup_seq].
Qed.

Lemma state_of_app w :
  state_of w = state_series (dash_graphs w) ++ [(js "graphs", state_graphs (dash_formats w))].
Proof.
  unfold state_of. apply obj_set_new. rewrite state_series_names. intros (k & Hk & _)%list_elem_of_fmap.
  symmetry in Hk. by apply nm_not_word in Hk.
Qed.

(** The pairs written before [state=]. *)
Definition hash_pairs (w : World) (from to : Z) : list (jsstr * jsstr) :=
  ((fun k => (k, default [] (obj_get (state_of w) k))) <$> obj_keys (state_of w)) ++
  [(js "from", num_to_str (from / 1000)); (js "to", num_to_str (to / 1000))].

(** A page whose state fits a bookmark: graphs with series, whose names hold no semicolon; a valid range after 1970. *)
Record bookmarkable (w : World) (from to : Z) : Prop := {
  bm_dates : theCurrentDates (w_time w) = mkDates (Some from) (Some to);
  bm_range : 0 <= from <= 8640000000000000 /\ 0 <= to <= 8640000000000000;
  bm_graphs : Forall (fun ks => ks <> [] /\ series_ok ks /\ Forall (fun k => wf_str k /\ (59 ∉ k)) ks) (dash_graphs w) }.

Lemma state_key_cases w k : k ∈ obj_keys (state_of w) -> k = js "graphs" \/ exists j, k = nm j.
Proof.
  unfold obj_keys. rewrite elem_of_enum_order, state_of_app, fmap_app, elem_of_app, state_series_names. cbn.
  rewrite list_elem_of_singleton. intros [(j & -> & _)%list_elem_of_fmap| ->]; eauto.
Qed.

Lemma escape_state_key w k : k ∈ obj_keys (state_of w) -> escape k = k.
Proof. intros [-> |[j ->]]%state_key_cases; [done|]. apply escape_digits, nm_digits. Qed.

Lemma secs_str_spec t : 0 <= t -> secs_str (Some t) = escape (num_to_str (t / 1000)).
Proof. done. Qed.

Lemma packed_hash_pairs w from to :
  bookmarkable w from to ->
  packed_hash w = js "#?" ++ concat ((fun p => p ++ [38]) <$> ((fun p => pair_str p.1 p.2) <$> hash_pairs w from to))
                  ++ pair_str (js "state") [].
Proof.
  intros [Hd Hr _]. unfold packed_hash. rewrite Hd. cbn [dt_start dt_stop]. rewrite !secs_str_spec by lia. f_equal.
  unfold hash_pairs. rewrite !fmap_app, concat_app, <- app_assoc. f_equal.
  - rewrite <- !list_fmap_compose. f_equal. apply list_fmap_ext. intros i k Hk.
    apply list_elem_of_lookup_2, escape_state_key in Hk. cbn. unfold pair_str. rewrite Hk, <- !app_assoc. done.
  - cbn [fmap list_fmap concat fst snd]. unfold pair_str. rewrite app_nil_r, <- !app_assoc. done.
Qed.

Lemma state_graphs_wf fs : Forall (fun f => 0 <= f) fs -> wf_str (state_graphs fs).
Proof.
  intros Hf. apply join_wf; [units|]. apply Forall_lookup. intros i p Hp. rewrite list_lookup_imap in Hp.
  apply fmap_Some in Hp as (f & Hi & ->). rewrite Forall_lookup in Hf.
  apply Forall_app; split; [apply digits_wf, nm_digits|]. apply Forall_cons_2; [done|].
  apply digits_wf, num_to_str_digits. by eapply Hf.
Qed.

Lemma dash_formats_range w : Forall (fun f => 1 <= f <= 5) (dash_formats w).
Proof. unfold dash_formats. apply Forall_fmap, Forall_forall. intros g _. cbn. destruct (gs_format _); cbn; lia. Qed.

Section bookmark.
Context (w : World) (from to : Z) (Hb : bookmarkable w from to).

Lemma state_of_wf : obj_wf (state_of w).
Proof. unfold state_of. apply obj_set_wf, state_series_wf. Qed.

Lemma state_values_wf k : wf_str (default [] (obj_get (state_of w) k)).
Proof.
  destruct (obj_get (state_of w) k) as [v|] eqn:E; [|constructor]. cbn. apply obj_get_elem in E.
  rewrite state_of_app in E. apply elem_of_app in E as [E|[= _ ->]%list_elem_of_singleton].
  - apply list_elem_of_lookup in E as [i E]. unfold state_series in E. rewrite list_lookup_imap in E.
    apply fmap_Some in E as (ks & Hk & [= -> ->]). pose proof (bm_graphs _ _ _ Hb) as Hg. rewrite Forall_lookup in Hg.
    destruct (Hg i ks Hk) as (_ & _ & Hks). apply join_wf; [units|]. eapply Forall_impl; [exact Hks|]. by intros ? [].
  - apply state_graphs_wf. eapply Forall_impl; [apply dash_formats_range|]. intros f Hf. cbn in Hf. lia.
Qed.

Definition all_pairs : list (jsstr * jsstr) := hash_pairs w from to ++ [(js "state", [])].

(** No name of the hash holds a separator, every value is a string of units. *)
Lemma hash_pairs_ok : Forall (fun p => (38 ∉ p.1) /\ (61 ∉ p.1) /\ wf_str p.2) all_pairs.
Proof.
  pose proof (bm_range _ _ _ Hb). unfold all_pairs, hash_pairs. rewrite !Forall_app. split_and!.
  - apply Forall_fmap, Forall_forall. intros k Hk. cbn. split_and!; [..|apply state_values_wf];
      (apply state_key_cases in Hk as [->|[j ->]];
       [apply (bool_decide_unpack _); vm_compute; exact I|apply (digits_not_in _ _ (nm_digits j)); lia]).
  - assert (Hn : forall t, 0 <= t -> wf_str (num_to_str (t / 1000))).
    { intros t Ht. apply digits_wf, num_to_str_digits, Z.div_pos; lia. }
    repeat apply Forall_cons_2; [..|constructor]; cbn; split_and!;
      first [apply Hn; lia|apply (bool_decide_unpack _); vm_compute; exact I].
  - apply Forall_singleton. cbn. split_and!; [..|constructor]; apply (bool_decide_unpack _); vm_compute; exact I.
Qed.

Lemma hash_pairs_names : NoDup all_pairs.*1.
Proof.
  unfold all_pairs, hash_pairs. rewrite !fmap_app, <- app_assoc. rewrite <- list_fmap_compose.
  replace ((fst ∘ (fun k => (k, default [] (obj_get (state_of w) k)))) <$> obj_keys (state_of w)) with (obj_keys (state_of w))
    by (symmetry; apply list_fmap_id).
  apply NoDup_app; split_and!.
  - apply NoDup_enum_order, state_of_wf.
  - intros k Hk. cbn. rewrite !not_elem_of_cons.
    apply state_key_cases in Hk as [->|[j ->]]; split_and!; try apply not_elem_of_nil; try done; by apply nm_not_word.
  - apply (bool_decide_unpack _). vm_compute. exact I.
Qed.

Lemma hash_split : split_char (ch "&") (drop 2 (packed_hash w)) = (fun p => pair_str p.1 p.2) <$> all_pairs.
Proof.
  rewrite (packed_hash_pairs w from to Hb). change (drop 2 (js "#?" ++ ?t)) with t. unfold all_pairs.
  pose proof hash_pairs_ok as Hok. unfold all_pairs in Hok. apply Forall_app in Hok as [Hok _].
  change (ch "&") with 38. rewrite split_amp, fmap_app; [done| |].
  - apply Forall_fmap. eapply Forall_impl; [exact Hok|]. intros p (H & _). by apply pair_str_amp.
  - apply (bool_decide_unpack _). vm_compute. exact I.
Qed.

Lemma hash_key_values :
  (fun s => key_value s) <$> split_char (ch "&") (drop 2 (packed_hash w)) = all_pairs.
Proof.
  rewrite hash_split, <- list_fmap_compose. rewrite <- (list_fmap_id all_pairs) at 2.
  apply list_fmap_ext. intros i p Hp. pose proof hash_pairs_ok as Hok. rewrite Forall_lookup in Hok.
  destruct (Hok i p Hp) as (_ & H1 & H2). cbn. rewrite key_value_pair by done. by destruct p.
Qed.

Lemma hash_args_pairs :
  hash_args (drop 2 (packed_hash w)) = foldl (fun o p => obj_set o p.1 p.2) [] all_pairs.
Proof.
  rewrite <- hash_key_values. unfold hash_args. generalize (@nil (jsstr * jsstr)).
  induction (split_char _ _) as [|s l IH]; intros o; [done|]. cbn. apply IH.
Qed.

Lemma hash_args_get k v : (k, v) ∈ all_pairs -> obj_get (hash_args (drop 2 (packed_hash w))) k = Some v.
Proof. intros Hin. rewrite hash_args_pairs. apply obj_get_assigned; [apply hash_pairs_names|done]. Qed.

Lemma state_pair k v : obj_get (state_of w) k = Some v -> (k, v) ∈ all_pairs.
Proof.
  intros E. unfold all_pairs, hash_pairs. rewrite !elem_of_app. left. left. apply list_elem_of_fmap. exists k.
  split; [by rewrite E|]. apply elem_of_obj_keys. congruence.
Qed.

Lemma hash_func : func_of ((fun s => (key_value s).1) <$> split_char (ch "&") (drop 2 (packed_hash w))) = Some FState.
Proof.
  change (fun s => (key_value s).1) with (fst ∘ (fun s => key_value s)).
  rewrite list_fmap_compose, hash_key_values. unfold all_pairs. rewrite fmap_app. unfold func_of. rewrite foldl_app. done.
Qed.

End bookmark.

(** What a bookmark holds of the graphs: formats and series. *)
Definition graph_list (w : World) : list (fmt * list jsstr) :=
  (fun g => (gs_format (surface_of w g), getSeries (surface_of w g))) <$> gg_allGraphs (w_grid w).

Lemma graph_list_parts w : (graph_list w).*2 = dash_graphs w /\ bars_fmt_to_ix <$> (graph_list w).*1 = dash_formats w.
Proof. unfold graph_list. by rewrite <- !list_fmap_compose. Qed.

Lemma for_each_ext {A B} (f : A -> M unit) (h : B -> M unit) la lb w :
  Forall2 (fun a b => forall w, f a w = h b w) la lb -> for_each la f w = for_each lb h w.
Proof.
  intros H. revert w. induction H as [|a b la lb Hab _ IH]; intros w; [done|]. cbn. unfold mbind, M_bind. rewrite Hab.
  destruct (h b w) as [w' []]; [apply IH|done].
Qed.

Lemma bars_key f : bars_ix_to_fmt (num_to_str (bars_fmt_to_ix f)) = Some f.
Proof. by destruct f. Qed.

Section bookmark.
Context (w : World) (from to : Z) (Hb : bookmarkable w from to).

Lemma graph_list_ok : Forall (fun p => series_ok p.2) (graph_list w).
Proof.
  apply Forall_forall. intros p Hp. assert (Hin : p.2 ∈ (graph_list w).*2) by (apply list_elem_of_fmap; eauto).
  rewrite (proj1 (graph_list_parts w)) in Hin. pose proof (bm_graphs _ _ _ Hb) as Hg. rewrite Forall_forall in Hg.
  by destruct (Hg _ Hin) as (_ & ? & _).
Qed.

Lemma state_series_get k ks : dash_graphs w !! k = Some ks -> obj_get (state_of w) (nm k) = Some (join (js ";") ks).
Proof.
  intros Hk. apply obj_in_get; [apply state_of_wf|]. rewrite state_of_app. apply elem_of_app. left.
  apply (list_elem_of_lookup_2 _ k). unfold state_series. rewrite list_lookup_imap, Hk. done.
Qed.

Lemma state_graphs_get : obj_get (state_of w) (js "graphs") = Some (state_graphs (dash_formats w)).
Proof. unfold state_of. apply obj_get_set. Qed.

Definition piece (k : nat) (f : Z) : jsstr := nm k ++ 44 :: num_to_str f.

Lemma pieces_split : dash_graphs w <> [] -> split_char (ch ";") (state_graphs (dash_formats w)) = imap piece (dash_formats w).
Proof.
  intros Hs. unfold state_graphs. change (js ";") with [59]. change (ch ";") with 59. apply split_char_join.
  - unfold dash_graphs in Hs. unfold dash_formats.
    by destruct (gg_allGraphs (w_grid w)).
  - apply Forall_lookup. intros i p Hp. rewrite list_lookup_imap in Hp. apply fmap_Some in Hp as (f & Hi & ->).
    pose proof (dash_formats_range w) as Hr. rewrite Forall_lookup in Hr. specialize (Hr i f Hi). cbn in Hr.
    change (59 ∉ piece i f). unfold piece. rewrite not_elem_of_app, not_elem_of_cons.
    split_and!; [apply (digits_not_in _ _ (nm_digits i)); lia|done|].
    apply (digits_not_in _ (num_to_str f)); [apply num_to_str_digits|]; lia.
Qed.

Lemma load_graph_piece args k f ks v :
  obj_get args (nm k) = Some (join (js ";") ks) -> ks <> [] -> Forall (fun k => 59 ∉ k) ks ->
  load_graph args (piece k (bars_fmt_to_ix f)) v = open_graph f ks v.
Proof.
  intros Ha Hne Hk. unfold load_graph, piece. cbv zeta. change (ch ",") with 44.
  rewrite split_char_app by (apply (digits_not_in _ _ (nm_digits k)); lia).
  rewrite split_char_id by (destruct f; apply (bool_decide_unpack _); vm_compute; exact I).
  change (([nm k; num_to_str (bars_fmt_to_ix f)] : list jsstr) !! 0%nat) with (Some (nm k)).
  change (([nm k; num_to_str (bars_fmt_to_ix f)] : list jsstr) !! 1%nat) with (Some (num_to_str (bars_fmt_to_ix f))).
  cbn [from_option id]. rewrite bars_key, Ha. cbn [from_option id].
  change (js ";") with [59]. change (ch ";") with 59. rewrite split_char_join by done. done.
Qed.

Lemma load_graphs_run v :
  let args := hash_args (drop 2 (packed_hash w)) in
  for_each (imap piece (dash_formats w)) (load_graph args) v = open_all (graph_list w) v.
Proof.
  intros args. apply for_each_ext. apply Forall2_same_length_lookup_2.
  { unfold dash_formats, graph_list. by rewrite length_imap, !length_fmap. }
  intros i p [f ks] Hp Hq u. rewrite list_lookup_imap in Hp. unfold dash_formats in Hp. unfold graph_list in Hq.
  rewrite list_lookup_fmap in Hp. rewrite list_lookup_fmap in Hq. destruct (gg_allGraphs (w_grid w) !! i) as [g|] eqn:Hi; [|done].
  cbn in Hp, Hq. injection Hp as <-. injection Hq as <- <-. cbn [fst snd].
  assert (Hd : dash_graphs w !! i = Some (getSeries (surface_of w g))).
  { unfold dash_graphs. by rewrite list_lookup_fmap, Hi. }
  pose proof (bm_graphs _ _ _ Hb) as Hg. rewrite Forall_lookup in Hg. destruct (Hg _ _ Hd) as (Hne & _ & Hk).
  apply load_graph_piece; [|done|eapply Forall_impl; [exact Hk|]; by intros ? []].
  unfold args. eapply hash_args_get, state_pair, state_series_get; [done..|exact Hd].
Qed.

Lemma hash_dates :
  let args := hash_args (drop 2 (packed_hash w)) in
  let secs k := date_of_seconds (parseInt (default (js "undefined") (obj_get args k))) in
  secs (js "from") = Some (from / 1000 * 1000) /\ secs (js "to") = Some (to / 1000 * 1000).
Proof.
  pose proof (bm_range _ _ _ Hb) as [Hf Ht].
  assert (Hsec : forall t, 0 <= t <= 8640000000000000 ->
    date_of_seconds (parseInt (num_to_str (t / 1000))) = Some (t / 1000 * 1000)).
  { intros t Hr. assert (0 <= t / 1000 * 1000 <= t) by (pose proof (Z.mul_div_le t 1000); pose proof (Z.div_pos t 1000); lia).
    rewrite parseInt_num_to_str by lia. unfold date_of_seconds. cbn. rewrite (proj2 (Z.leb_le _ _)); [done|lia]. }
  assert (Hin : forall k v, (k, v) ∈ [(js "from", num_to_str (from / 1000)); (js "to", num_to_str (to / 1000))] ->
    (k, v) ∈ all_pairs w from to).
  { intros k v Hin. unfold all_pairs, hash_pairs. rewrite !elem_of_app. left. by right. }
  cbv beta zeta. rewrite (hash_args_get w from to Hb _ _ (Hin (js "from") _ ltac:(left))).
  rewrite (hash_args_get w from to Hb _ _ (Hin (js "to") _ ltac:(right; left))). cbn [from_option id].
  split; by apply Hsec.
Qed.

(** What remains after the graphs are made, whatever the loader does meanwhile. *)
Definition restored (w' : World) (gr : GraphGrid) (l : list GraphSurface) : Prop :=
  w_grid w' = gr /\ w_graphs w' = l /\
  theOriginalDates (w_time w') = mkDates (Some (from / 1000 * 1000)) (Some (to / 1000 * 1000)) /\
  theCurrentDates (w_time w') = mkDates (Some (from / 1000 * 1000)) (Some (to / 1000 * 1000)) /\
  ts_manual (theTimeSlider (w_time w')) = true /\ isAutoRefresh (w_time w') = Some (JBool false).

Lemma load_state_run cb v :
  dash_graphs w <> [] -> grid_ok v ->
  exists old, length old = length (w_graphs v) /\
    restored (exec (load_state (hash_args (drop 2 (packed_hash w))) cb) v)
      (mkGrid (seq (length (w_graphs v)) (length (graph_list w))) None) (old ++ new_surfaces (graph_list w)).
Proof.
  intros Hs Hv. destruct (clear_world v (go_valid _ Hv)) as (w1 & Hc & C1 & C2 & _).
  destruct (open_all_spec (graph_list w) w1 graph_list_ok) as (Hr & G1 & G2). exists (w_graphs w1). split; [done|].
  unfold load_state. set (args := hash_args _). rewrite exec_bind, Hc.
  assert (obj_get args (js "graphs") = Some (state_graphs (dash_formats w))) as ->.
  { unfold args. eapply hash_args_get, state_pair, state_graphs_get. exact Hb. }
  rewrite (pieces_split Hs), exec_bind, load_graphs_run, (eta _ _ _ Hr). cbv zeta.
  destruct hash_dates as [Hf Ht]. cbv beta. fold args in Hf, Ht. rewrite Hf, Ht. set (w2 := exec (open_all _) w1) in *. rewrite <- C2.
  set (reset := resetDateRange _ _).
  assert (H : restored (exec reset w2) (mkGrid (seq (length (w_graphs w1)) (length (graph_list w))) None)
    (w_graphs w1 ++ new_surfaces (graph_list w))).
  { destruct (resetDateRange_time (Some (from / 1000 * 1000)) (Some (to / 1000 * 1000)) w2) as (T1 & T2 & T3 & T4).
    split_and!; [| |done..].
    - assert (w_grid (exec reset w2) = w_grid w2) as -> by (apply (pres_eq w_grid); intros; unfold reset; pres).
      by rewrite G2, C1.
    - assert (w_graphs (exec reset w2) = w_graphs w2) as -> by (apply (pres_eq w_graphs); intros; unfold reset; pres). done. }
  rewrite exec_bind. unfold exec in H at 1. destruct (reset w2) as [w3 [[]|e]]; [|exact H]. cbn [fst] in H.
  revert H. apply (pres_finish (fun w => restored w _ _)); exact _.
Qed.

End bookmark.

(** A bookmark without graphs has one empty piece, whose graph has no property. *)
Lemma empty_args w from to :
  bookmarkable w from to -> dash_graphs w = [] ->
  let args := hash_args (drop 2 (packed_hash w)) in
  obj_get args (js "graphs") = Some [] /\ obj_get args [] = None.
Proof.
  intros Hb Hs args.
  assert (Hf : dash_formats w = []).
  { unfold dash_graphs in Hs. apply fmap_nil_inv in Hs. unfold dash_formats. by rewrite Hs. }
  unfold args. split.
  - rewrite (hash_args_get w from to Hb (js "graphs") []); [done|]. apply state_pair. by rewrite state_graphs_get, Hf.
  - rewrite (hash_args_pairs w from to Hb), obj_get_unassigned; [done|]. unfold all_pairs, hash_pairs.
    rewrite state_of_app, Hs, Hf. apply (bool_decide_unpack _). vm_compute. exact I.
Qed.

Lemma load_empty_state args cb v :
  obj_get args (js "graphs") = Some [] -> obj_get args [] = None -> grid_ok v ->
  exists v', load_state args cb v = (v', Throw TypeError) /\ dash_graphs v' = [[]] /\
    theOriginalDates (w_time v') = theOriginalDates (w_time v).
Proof.
  intros Hg Hn Hv. destruct (clear_world v (go_valid _ Hv)) as (v1 & Hc & C1 & _ & _ & _ & C5 & _).
  destruct (newGraph_spec v1) as (v2 & Hnew & N1 & N2 & N3 & _). set (g := length (w_graphs v1)) in *.
  exists (exec (update g (set_format errorBars)) v2). split_and!.
  - unfold load_state. rewrite (bind_Ok _ _ _ _ _ Hc), Hg. apply bind_Throw. cbn [for_each split_char].
    apply bind_Throw. unfold load_graph. rewrite (bind_Ok _ _ _ _ _ Hnew).
    change (default [] (split_char (ch ",") [] !! 0%nat)) with (@nil Z). by rewrite Hn.
  - unfold dash_graphs, surface_of. cbn. rewrite N2, C1. cbn. f_equal.
    rewrite list_lookup_alter_eq, N1, lookup_app_r by (unfold g; lia). unfold g. by rewrite Nat.sub_diag.
  - cbn. by rewrite N3, C5.
Qed.

(** ** Renaming counters *)

(** What a visit makes of a graph's series. *)
Definition renamed (ft0 : jsstr) (ft1 : option jsstr) (path : jsstr) : jsstr :=
  replace_first ft0 (default (js "undefined") ft1) path.
Definition matches (ft0 path : jsstr) : bool := bool_decide (indexOf ft0 path <> None).

Definition visited (ft0 : jsstr) (ft1 : option jsstr) (keep : bool) (o : list (jsstr * unit)) (path : jsstr)
    : list (jsstr * unit) :=
  if bool_decide (path ∈ o.*1) && matches ft0 path then
    let o1 := toggle o (renamed ft0 ft1 path) in if keep then o1 else toggle o1 path
  else o.

Section renaming.
Context (ft0 : jsstr) (ft1 : option jsstr) (keep : bool).

Lemma visit_path_spec g path s o w :
  w_graphs w !! g = Some s -> gs_series s = Some o ->
  exists w', visit_path g ft0 ft1 keep path w = (w', Ok ()) /\ w_grid w' = w_grid w /\
    w_graphs w' = alter (set_series (Some (visited ft0 ft1 keep o path))) g (w_graphs w).
Proof.
  intros Hg Ho. set (n := renamed ft0 ft1 path).
  assert (Hsame : exists w', (mret () : M unit) w = (w', Ok ()) /\ w_grid w' = w_grid w /\
    w_graphs w' = alter (set_series (Some o)) g (w_graphs w)).
  { exists w. split_and!; [done|done|]. symmetry. by eapply alter_id_at, set_series_id. }
  unfold visit_path, visited, matches. rewrite (bind_Ok _ _ w w s) by (unfold surface, mbind, M_bind; cbn; by rewrite Hg).
  rewrite Ho. unfold keys_opt, keys. cbn [fmap option_fmap option_map from_option id].
  rewrite (bool_decide_ext (path ∈ obj_keys o) (path ∈ o.*1)) by (unfold obj_keys; apply elem_of_enum_order).
  destruct (bool_decide (path ∈ o.*1)); [|exact Hsame]. cbn [andb].
  destruct (indexOf ft0 path); [|exact Hsame]. rewrite bool_decide_true by done.
  fold (renamed ft0 ft1 path). fold n.
  destruct (toggleSeries_spec g n s o w Hg Ho) as [E1 E2].
  assert (Ht : forall p, total (toggleSeries g p)) by (intros; unfold toggleSeries; tot).
  set (w1 := exec (toggleSeries g n) w) in *. rewrite (bind_Ok _ _ _ _ _ (total_unit _ w (Ht n))). fold w1.
  destruct keep; [by exists w1|].
  destruct (toggleSeries_spec g path (set_series (Some (toggle o n)) s) (toggle o n) w1) as [F1 F2]; [|done|].
  { by rewrite E2, list_lookup_alter_eq, Hg. }
  exists (exec (toggleSeries g path) w1). split; [by apply total_unit|]. by rewrite F1, F2, E1, E2, list_alter_alter_eq.
Qed.

Lemma visit_paths_spec g ks s o w :
  w_graphs w !! g = Some s -> gs_series s = Some o ->
  exists w', for_each ks (visit_path g ft0 ft1 keep) w = (w', Ok ()) /\ w_grid w' = w_grid w /\
    w_graphs w' = alter (set_series (Some (foldl (visited ft0 ft1 keep) o ks))) g (w_graphs w).
Proof.
  revert s o w; induction ks as [|k ks IH]; intros s o w Hg Ho.
  { exists w. split_and!; [done|done|]. symmetry. by eapply alter_id_at, set_series_id. }
  destruct (visit_path_spec g k s o w Hg Ho) as (w1 & Hv & E1 & E2). cbn [for_each foldl].
  destruct (IH (set_series (Some (visited ft0 ft1 keep o k)) s) (visited ft0 ft1 keep o k) w1) as (w2 & Hf & F1 & F2);
    [|done|].
  { by rewrite E2, list_lookup_alter_eq, Hg. }
  exists w2. rewrite (bind_Ok _ _ _ _ _ Hv). by rewrite F1, F2, E1, E2, list_alter_alter_eq.
Qed.

Lemma change_graph_spec g s ks w :
  w_graphs w !! g = Some s -> gs_series s = Some (series_of ks) -> Forall (fun k => ~ is_index k) ks ->
  exists w', change_graph ft0 ft1 keep g w = (w', Ok ()) /\ w_grid w' = w_grid w /\
    w_graphs w' = alter (set_series (Some (foldl (visited ft0 ft1 keep) (series_of ks) ks))) g (w_graphs w).
Proof.
  intros Hg Ho Hi. unfold change_graph.
  rewrite (bind_Ok _ _ w w s) by (unfold surface, mbind, M_bind; cbn; by rewrite Hg).
  assert (Hk : keys_opt (gs_series s) = ks).
  { rewrite Ho. unfold keys_opt, keys, obj_keys. cbn. rewrite series_of_names. by apply enum_order_id. }
  rewrite Hk. destruct (visit_paths_spec g ks s _ w Hg Ho) as (w1 & Hf & E1 & E2). rewrite (bind_Ok _ _ _ _ _ Hf).
  edestruct (reload_grid g) as (w2 & Hr & [G1 G2]); [by rewrite E2, list_lookup_alter_eq, Hg|].
  exists w2. by rewrite G1, G2, Hr.
Qed.

Lemma toggle_present ks k : k ∈ ks -> NoDup ks -> (1 < length ks)%nat ->
  toggle (series_of ks) k = series_of (filter (fun x => x <> k) ks).
Proof.
  intros Hin Hnd Hlen. unfold toggle, obj_truthy.
  rewrite (bool_decide_true (obj_get _ k <> None)) by (rewrite obj_get_None, series_of_names; tauto). cbn [orb].
  assert (Hl : length (keys (series_of ks)) = length ks).
  { unfold keys, obj_keys. by rewrite enum_order_Permutation, series_of_names. }
  rewrite Hl, (proj2 (Z.ltb_lt _ _)) by lia. unfold obj_delete, series_of. clear.
  induction ks as [|x ks IH]; [done|]. rewrite fmap_cons, !filter_cons. cbn [fst].
  destruct (decide (x <> k)); rewrite ?fmap_cons; by rewrite IH.
Qed.

(** Renaming the names of a graph one after the other. *)
Lemma visited_all pre post :
  let ren l := renamed ft0 ft1 <$> List.filter (matches ft0) l in
  let old l := if keep then l else List.filter (fun k => negb (matches ft0 k)) l in
  NoDup (pre ++ post ++ ren (pre ++ post)) -> Forall (fun k => ~ inherited k) (ren (pre ++ post)) ->
  foldl (visited ft0 ft1 keep) (series_of (old pre ++ post ++ ren pre)) post
    = series_of (old (pre ++ post) ++ ren (pre ++ post)).
Proof.
  intros ren old. revert pre; induction post as [|k post IH]; intros pre Hnd Hi; [by rewrite app_nil_r|].
  replace (pre ++ k :: post) with ((pre ++ [k]) ++ post) in * by (by rewrite <- app_assoc).
  rewrite <- (IH (pre ++ [k])); [|by rewrite <- (app_assoc pre [k])|done]. cbn [foldl]. f_equal. clear IH.
  assert (Hren : ren (pre ++ [k]) = ren pre ++ (if matches ft0 k then [renamed ft0 ft1 k] else [])).
  { unfold ren. rewrite List.filter_app, fmap_app. cbn. by destruct (matches ft0 k). }
  assert (Hold : old (pre ++ [k]) = old pre ++ (if keep || negb (matches ft0 k) then [k] else [])).
  { unfold old. destruct keep; [done|]. rewrite List.filter_app. cbn. by destruct (matches ft0 k). }
  assert (Hsub : forall x, x ∈ old pre -> x ∈ pre).
  { intros x. unfold old. destruct keep; [done|]. rewrite !list_elem_of_In, filter_In. tauto. }
  rewrite Hren, Hold. unfold visited. rewrite series_of_names, bool_decide_true by set_solver. cbn [andb].
  destruct (matches ft0 k) eqn:Hm; [|by rewrite orb_true_r, !app_nil_r, <- !app_assoc].
  assert (Hr : ren ((pre ++ [k]) ++ post) = ren pre ++ [renamed ft0 ft1 k] ++ ren post).
  { unfold ren. rewrite !List.filter_app, !fmap_app. cbn. by rewrite Hm, <- app_assoc. }
  rewrite Hr in Hnd, Hi. apply Forall_app in Hi as [_ Hi]. apply Forall_cons in Hi as [Hi _].
  set (n := renamed ft0 ft1 k) in *. clear Hren Hold Hr Hm.
  assert (Hnd' : NoDup (pre ++ [k] ++ post ++ ren pre ++ [n])).
  { rewrite !app_assoc in Hnd. apply NoDup_app in Hnd as [Hnd _]. rewrite <- !app_assoc in Hnd. exact Hnd. }
  apply NoDup_app in Hnd' as (Hp & Hpd & Hnd').
  assert (Hn : n ∉ old pre ++ [k] ++ post ++ ren pre).
  { rewrite !not_elem_of_app. apply NoDup_app in Hnd' as (_ & Hk & Hnd'). rewrite app_assoc in Hnd'.
    apply NoDup_app in Hnd' as (_ & Hn & _). split_and!.
    - intros H%Hsub. apply (Hpd n H). set_solver.
    - intros Hx%list_elem_of_singleton. apply (Hk k); set_solver.
    - intros H. apply (Hn n); set_solver.
    - intros H. apply (Hn n); set_solver. }
  change (k :: post) with ([k] ++ post). rewrite <- !app_assoc, toggle_fresh by done.
  cbv zeta. destruct keep; cbn [orb]; [by rewrite <- !app_assoc|]. cbn [negb].
  rewrite toggle_present.
  - f_equal. rewrite !filter_app. rewrite <- !app_assoc.
    assert (Hid : forall l : list jsstr, k ∉ l -> filter (fun x => x <> k) l = l).
    { intros l Hl. apply filter_id, Forall_forall. intros x Hx ->. done. }
    apply NoDup_app in Hnd' as (_ & Hk & Hnd').
    assert (k ∉ post ++ ren pre ++ [n]) as Hk' by (apply Hk; set_solver). rewrite !not_elem_of_app in Hk'.
    rewrite (Hid (old pre)) by (intros H%Hsub; apply (Hpd k H); set_solver).
    rewrite (Hid post), (Hid (ren pre)), (Hid [n]) by tauto.
    rewrite filter_cons_False by (by intros H; apply H). done.
  - set_solver.
  - rewrite <- !app_assoc. apply NoDup_app. split_and!.
    + unfold old. by apply NoDup_ListNoDup, List.NoDup_filter, NoDup_ListNoDup.
    + intros x H%Hsub. apply (Hpd x H).
    + done.
  - rewrite !length_app. cbn. lia.
Qed.

(** All graphs of the grid, one after the other. *)
Lemma change_graphs_run w l v :
  (forall g, g ∈ l -> exists s, w_graphs w !! g = Some s /\ gs_series s = Some (series_of (getSeries s)) /\
     Forall (fun k => ~ is_index k) (getSeries s)) ->
  NoDup l -> (forall g, g ∈ l -> w_graphs v !! g = w_graphs w !! g) ->
  let v' := exec (for_each l (change_graph ft0 ft1 keep)) v in
  w_grid v' = w_grid v /\
  (forall g, g ∉ l -> w_graphs v' !! g = w_graphs v !! g) /\
  (forall g s, g ∈ l -> w_graphs w !! g = Some s ->
     w_graphs v' !! g = Some (set_series (Some (foldl (visited ft0 ft1 keep) (series_of (getSeries s)) (getSeries s))) s)).
Proof.
  revert v; induction l as [|g l IH]; intros v Hs Hl Hv.
  { split_and!; [done|done|]. by intros ? ? ?%not_elem_of_nil. }
  apply NoDup_cons in Hl as [Hgl Hl]. cbn [for_each]. rewrite exec_bind.
  destruct (Hs g) as (s & Hgs & H1 & H2); [left|].
  destruct (change_graph_spec g s (getSeries s) v) as (v1 & Hc & E1 & E2); [rewrite Hv; [done|left]|done|done|].
  rewrite Hc. destruct (IH v1) as (F1 & F2 & F3); [intros; apply Hs; by right|done| |].
  { intros g' Hg'. rewrite E2, list_lookup_alter_ne by congruence. apply Hv. by right. }
  split_and!; [by rewrite F1, E1| |].
  - intros g' [Hne Hg']%not_elem_of_cons. by rewrite F2, E2, list_lookup_alter_ne by done.
  - intros g' s' Hg' Hs'. apply elem_of_cons in Hg' as [->|Hg']; [|by apply F3].
    rewrite F2, E2, list_lookup_alter_eq, Hv by (done || left). rewrite Hs' in Hgs |- *. by simplify_eq.
Qed.

End renaming.

(** ** Properties *)

(** C5: a bookmark brings the page back.  With the hash that [packup_state_as_hash] writes (at
    least one graph, each with series whose names hold no semicolon, a range after 1970), [gotohash]
    on any page replaces its graphs by the bookmarked ones, with their series in order and their formats, and
    shows the bookmarked range, to the second, in manual mode with the automatic refresh off. *)
Theorem bookmark_roundtrip w w2 from to :
  bookmarkable w from to -> dash_graphs w <> [] -> grid_ok w2 ->
  sy_hash (w_sys w2) = sy_hash (w_sys (exec packup_state_as_hash w)) ->
  let w' := exec gotohash w2 in
  let dates := mkDates (Some (from / 1000 * 1000)) (Some (to / 1000 * 1000)) in
  dash_graphs w' = dash_graphs w /\ dash_formats w' = dash_formats w /\
  theOriginalDates (w_time w') = dates /\ theCurrentDates (w_time w') = dates /\
  ts_manual (theTimeSlider (w_time w')) = true /\ isAutoRefresh (w_time w') = Some (JBool false).
Proof.
  intros Hb Hs Hw2 Hh w' dates. change (sy_hash (w_sys w2) = packed_hash w) in Hh.
  set (gr := mkGrid (seq (length (w_graphs w2)) (length (graph_list w))) None).
  pose (R := fun v : World => exists old, length old = length (w_graphs w2) /\
    restored from to v gr (old ++ new_surfaces (graph_list w))).
  assert (HR : R w').
  { unfold w', gotohash. rewrite exec_bind. cbn [get]. rewrite Hh.
    rewrite bool_decide_true by (by rewrite (packed_hash_pairs w from to Hb)).
    rewrite exec_seq by (unfold load_hash; tot). apply (pres_documentResize R).
    unfold load_hash. apply (exec_guarded R). rewrite exec_bind. cbn [get].
    rewrite (hash_func w from to Hb). destruct (total_begin w2) as [t Ht]. rewrite exec_bind, (eta _ _ _ Ht).
    assert (Hg : same_grid w2 (exec begin w2)).
    { constructor; [apply (pres_eq w_grid); intros; pres|apply (pres_eq w_graphs); intros; pres]. }
    pose proof (load_state_run w from to Hb t (exec begin w2) Hs (grid_ok_same _ _ Hg Hw2)) as HL.
    by rewrite (sg_graphs _ _ Hg) in HL. }
  destruct HR as (old & Hl & H1 & H2 & H3 & H4 & H5 & H6).
  destruct (dash_of_new w' old (graph_list w) H2) as [D1 D2]; [by rewrite H1, Hl|by apply (graph_list_ok w from to)|].
  destruct (graph_list_parts w) as [P1 P2]. rewrite D1, D2, P1, P2. done.
Qed.

(** A bookmark of a page without graphs cannot be opened: [load_hash] reports a [TypeError] after
    it has closed the page's graphs and opened one without series; the range is not set. *)
Theorem empty_bookmark_fails w w2 from to :
  bookmarkable w from to -> dash_graphs w = [] -> grid_ok w2 ->
  sy_hash (w_sys w2) = sy_hash (w_sys (exec packup_state_as_hash w)) ->
  let w' := exec gotohash w2 in
  last (ui_errors (w_ui w')) = Some (EGuarded "_load_hash" TypeError) /\ dash_graphs w' = [[]] /\
  theOriginalDates (w_time w') = theOriginalDates (w_time w2).
Proof.
  intros Hb Hs Hw2 Hh w'. change (sy_hash (w_sys w2) = packed_hash w) in Hh.
  destruct (total_begin w2) as [t Ht]. set (w3 := exec begin w2).
  assert (Hg : same_grid w2 w3 /\ theOriginalDates (w_time w3) = theOriginalDates (w_time w2)).
  { split; [constructor; [apply (pres_eq w_grid); intros; pres|apply (pres_eq w_graphs); intros; pres]|].
    apply (pres_eq (fun w => theOriginalDates (w_time w))); intros; pres. }
  destruct Hg as [Hg Hd]. destruct (empty_args w from to Hb Hs) as [A1 A2].
  destruct (load_empty_state _ t w3 A1 A2 (grid_ok_same _ _ Hg Hw2)) as (w4 & Hrun & G4 & D4).
  assert (Hload : exec (load_hash (drop 2 (packed_hash w))) w2 = exec (errorDialog (EGuarded "_load_hash" TypeError)) w4).
  { unfold load_hash, exec. erewrite guarded_Throw; [reflexivity|]. rewrite (bind_Ok _ _ w2 w2 (theUserName (w_dash w2))) by done.
    rewrite (hash_func w from to Hb). rewrite (bind_Ok _ _ _ _ _ (eta _ _ _ Ht)). exact Hrun. }
  assert (E : w' = exec documentResize (exec (load_hash (drop 2 (packed_hash w))) w2)).
  { unfold w', gotohash. rewrite exec_bind. cbn [get]. rewrite Hh.
    rewrite bool_decide_true by (by rewrite (packed_hash_pairs w from to Hb)).
    by rewrite exec_seq by (unfold load_hash; tot). }
  rewrite Hload in E. set (w5 := exec (errorDialog _) w4) in E.
  destruct (documentResize_keeps w5) as (w6 & D1 & _ & D2).
  assert (Hp : preserves (fun w => dash_graphs w = [[]] /\ theOriginalDates (w_time w) = theOriginalDates (w_time w2))
    documentResize) by pres.
  assert (Hui : w_ui w' = w_ui w5) by (rewrite E; unfold exec; by rewrite D1).
  split; [rewrite Hui; apply last_snoc|]. rewrite E. apply Hp. split; [exact G4|]. by rewrite <- Hd, <- D4.
Qed.

(** The surfaces of a grid whose series objects hold their names in order. *)
Definition plain_series (w : World) : Prop :=
  forall g s, g ∈ gg_allGraphs (w_grid w) -> w_graphs w !! g = Some s ->
    gs_series s = Some (series_of (getSeries s)) /\ Forall (fun k => ~ is_index k) (getSeries s).

(** On every graph the names are visited in order, each match toggling its substitution and then itself. *)
Lemma change_counters_visits a b keep w :
  58 ∉ a -> 58 ∉ b -> grid_ok w -> plain_series w ->
  let w' := exec (change_counters (a ++ 58 :: b) keep) w in
  gg_allGraphs (w_grid w') = gg_allGraphs (w_grid w) /\
  forall g s, g ∈ gg_allGraphs (w_grid w) -> w_graphs w !! g = Some s ->
    w_graphs w' !! g = Some (set_series (Some (foldl (visited a (Some b) keep) (series_of (getSeries s)) (getSeries s))) s).
Proof.
  intros Ha Hbc Hw Hgs w'. unfold w', change_counters, split_limit. change (ch ":") with 58.
  rewrite split_char_app, split_char_id by done. cbn [take]. rewrite exec_bind. cbn [get].
  change (default [] ([a; b] !! 0%nat)) with a. change (([a; b] : list jsstr) !! 1%nat) with (Some b).
  destruct (change_graphs_run a (Some b) keep w (gg_allGraphs (w_grid w)) w) as (G1 & _ & G3).
  { pose proof (go_valid _ Hw) as Hval. rewrite Forall_forall in Hval. intros g Hg.
    destruct (lookup_lt_is_Some_2 (w_graphs w) g (Hval g Hg)) as [s Hs]. exists s. split; [done|]. by apply (Hgs g). }
  { apply (go_nodup _ Hw). }
  { done. }
  split; [by rewrite G1|]. intros g s Hg Hs. by apply G3.
Qed.

(** C26: replacing counters.  On a page whose counters are not named like array indices, and on each graph of the grid on which the
    substituted names are distinct, not there yet and not inherited, [change_counters] replaces each counter whose name contains the text by the one with the substitution,
    at the end and in order, and [add_counters] keeps both; the other counters and all else of the graph stay.  Where a
    substituted name is already on the graph, it is toggled off instead ([substitution_toggles_off]). *)
Theorem change_counters_replaces a b keep w :
  58 ∉ a -> 58 ∉ b -> grid_ok w -> plain_series w ->
  let w' := exec (change_counters (a ++ 58 :: b) keep) w in
  gg_allGraphs (w_grid w') = gg_allGraphs (w_grid w) /\
  forall g s, g ∈ gg_allGraphs (w_grid w) -> w_graphs w !! g = Some s ->
    let ks := getSeries s in
    let new := renamed a (Some b) <$> List.filter (matches a) ks in
    NoDup (ks ++ new) -> Forall (fun k => ~ inherited k) new ->
    w_graphs w' !! g = Some (set_series (Some (series_of
      ((if keep then ks else List.filter (fun k => negb (matches a k)) ks) ++ new))) s).
Proof.
  intros Ha Hbc Hw Hgs w'. destruct (change_counters_visits a b keep w Ha Hbc Hw Hgs) as [G1 G2]. split; [done|].
  intros g s Hg Hs ks new Hn Hi. unfold w'. rewrite (G2 g s Hg Hs). do 3 f_equal.
  pose proof (visited_all a (Some b) keep [] ks Hn Hi) as Hv.
  cbv beta zeta in Hv. cbn [List.filter fmap list_fmap app] in Hv. rewrite app_nil_r in Hv. by destruct keep.
Qed.

(** A counter whose substitution is already on the graph is not replaced: the substitution is toggled off.  A graph of the
    two is left with the old counter alone, whether old counters are to be kept or not. *)
Theorem substitution_toggles_off a b keep w g s k :
  58 ∉ a -> 58 ∉ b -> grid_ok w -> plain_series w -> g ∈ gg_allGraphs (w_grid w) -> w_graphs w !! g = Some s ->
  matches a k = true -> renamed a (Some b) k <> k -> getSeries s = [k; renamed a (Some b) k] ->
  w_graphs (exec (change_counters (a ++ 58 :: b) keep) w) !! g = Some (set_series (Some (series_of [k])) s).
Proof.
  intros Ha Hbc Hw Hgs Hg Hs Hm Hne Hk. destruct (change_counters_visits a b keep w Ha Hbc Hw Hgs) as [_ G2].
  rewrite (G2 g s Hg Hs), Hk. do 3 f_equal. set (n := renamed a (Some b) k) in *. cbn [foldl].
  assert (E1 : toggle (series_of [k; n]) n = series_of [k]).
  { rewrite toggle_present; [|set_solver| |cbn; lia].
    - rewrite filter_cons_True by done. by rewrite filter_cons_False by (intros H; by apply H).
    - apply NoDup_cons. split; [|apply NoDup_singleton]. intros E%list_elem_of_singleton. congruence. }
  assert (E2 : toggle (series_of [k]) k = series_of [k]).
  { unfold toggle, obj_truthy. rewrite (bool_decide_true (obj_get _ k <> None)) by (rewrite obj_get_None, series_of_names; set_solver).
    cbn [orb]. unfold keys. by rewrite obj_keys_length. }
  assert (E3 : visited a (Some b) keep (series_of [k; n]) k = series_of [k]).
  { unfold visited. rewrite series_of_names, bool_decide_true by set_solver. rewrite Hm. cbn [andb]. fold n. rewrite E1. by destruct keep. }
  rewrite E3. unfold visited. rewrite series_of_names, bool_decide_false; [done|]. intros E%list_elem_of_singleton. congruence.
Qed.

End Bookmark.
