(* ===== verification/Login.v ===== *)
(** * Users and the login ([UserModel] to [UserLoginView], [UserLogoutView] of [files/graph.js])

    The settings model keeps the users the server knows; the user logged in is
    named by the cookie [login].  The user controls react to the model's events
    ([reset], [logged_in], [logged_out]), each of which has that one listener;
    [trigger] is the call of its handler.  [Backbone.sync] is a request whose
    answer is an argument of the completion handler. *)

From S2P Require Import Prelude Utf8 Sha256 JsString JsObject JsNumber Json JsValue UriCodec Cookie World Shell Loader Grid TimeRange Views Dashboard Bookmark.
Import JsValue Shell Grid TimeRange Dashboard Bookmark.
Import (hints) Loader.

Local Open Scope Z_scope.

Module Login.

(** ** [UserModel] and [UsersModel] *)

Definition attr (u : User) (k : string) : option json := default None (obj_get (us_attrs u) (js k)).

Definition user_attrs (username : option jsstr) (password_hash : option json) : list (jsstr * option json) :=
  [(js "username", JStr <$> username); (js "password_hash", password_hash)].

(** [toJSON]: [JSON.stringify] leaves out an undefined password. *)
Definition toJSON (u : User) : json :=
  JObj [(js "user." ++ opt_string (attr u "username"),
         JStr (stringify (JObj match attr u "password_hash" with Some p => [(js "password", p)] | None => [] end)))].

(** The attributes of one user of the answer; [inl] is what it throws. *)
Definition parse_user (key : jsstr) (value : json) : exn + list (jsstr * option json) :=
  match json_parse (to_string value) with
  | None => inl SyntaxError
  | Some v =>
      match prop v "password" with
      | None => inl TypeError
      | Some p => inr (user_attrs (split_char (ch ".") key !! 1%nat) p)
      end
  end.

Fixpoint parse_users (o : list (jsstr * json)) (ks : list jsstr) : exn + list (list (jsstr * option json)) :=
  match ks with
  | [] => inr []
  | k :: ks' =>
      match parse_user k (default JNull (obj_get o k)), parse_users o ks' with
      | inl e, _ => inl e
      | _, inl e => inl e
      | inr u, inr us => inr (u :: us)
      end
  end.

(** [parse]: [_.map] over the answer.  What has a numeric [length] is visited by its indices, which have no [split]; a
    number or a boolean has no keys. *)
Definition parse (response : json) : exn + list (list (jsstr * option json)) :=
  match response with
  | JObj o =>
      match obj_get o (js "length") with
      | Some (JNum m _) => if 0 <? m then inl TypeError else inr []
      | _ => parse_users o (obj_keys o)
      end
  | JNull | JBool _ | JNum _ _ | JArr [] | JStr [] => inr []
  | JArr _ | JStr _ => inl TypeError
  end.

Definition users : M (list User) := get (fun w => lg_users (w_login w)).

Definition put_users (f : list User -> list User) : M unit :=
  modify (set_login (fun l => mkLogin (f (lg_users l)) (lg_next_cid l) (lg_jar l) (lg_url l) (lg_username l) (lg_password l))).

(** A new model with its [cid]. *)
Definition new_user (attrs : list (jsstr * option json)) : M nat :=
  cid ← get (fun w => lg_next_cid (w_login w));
  modify (set_login (fun l => mkLogin (lg_users l ++ [mkUser cid attrs]) (S cid) (lg_jar l) (lg_url l) (lg_username l) (lg_password l)));;
  mret cid.

(** [users.reset(response, {parse: true})]: the collection is emptied before the answer is parsed. *)
Definition reset_users (response : json) : M unit :=
  put_users (fun _ => []);;
  match parse response with
  | inl e => throw e
  | inr l => for_each l (fun attrs => new_user attrs;; mret ())
  end.

(** [users.findWhere({username: username})] *)
Definition find_user (username : jsstr) (us : list User) : option User :=
  List.find (fun u => match attr u "username" with Some (JStr s) => bool_decide (s = username) | _ => false end) us.

(** ** [SettingsModel] *)

Definition config : Cookie.Config := Cookie.mkConfig false false.
Definition login_options : Cookie.Options := Cookie.mkOptions (Some 12) (Some (js "/")).

Definition jar : M (list Cookie.Crumb) := get (fun w => lg_jar (w_login w)).
Definition put_jar (j : list Cookie.Crumb) : M unit :=
  modify (set_login (fun l => mkLogin (lg_users l) (lg_next_cid l) j (lg_url l) (lg_username l) (lg_password l))).
Definition now : M Z := get (fun w => sy_now (w_sys w)).

(** [$.cookie('login')]: with the plugin's configuration the value is a string. *)
Definition read_login : M (option jsstr) :=
  t ← now; j ← jar;
  match Cookie.cookie_get config t (js "login") j with
  | None => throw URIError
  | Some v => mret (to_string <$> v)
  end.

Definition getLoggedInUser : M (option jsstr) :=
  login_cookie ← read_login;
  match login_cookie with
  | Some c =>
      us ← users;
      match find_user (default [] (head (split_char (ch ":") c))) us with
      | Some u => mret (to_string <$> attr u "username")
      | None => mret None
      end
  | None => mret None
  end.

Definition isLoggedIn : M bool := u ← getLoggedInUser; mret (bool_decide (u <> None)).

(** ** The user controls *)

(** [UserLogoutView]: its label and its only item. *)
Definition logout_label : M jsstr :=
  u ← getLoggedInUser; mret (js "User: " ++ scope_string u).
Definition logout_items : list (Dropdown.item unit) := [Dropdown.mkItem (js "Logout") () false].

Definition showViewsWhenNobodyIsLoggedIn : M unit :=
  emit (ESlideUp SlideLogout);;
  gotohash.

Definition showViewsWhenSomebodyIsLoggedIn : M unit := emit (ESlideUp SlideLogin).

Definition enable_save : M unit :=
  modify (set_views (fun v => mkViews (vw_tabs v) (vw_logout v) (vw_chart_size v) (vw_advanced v) false)).

(** The callbacks of the animations: the other control slides down. *)
Definition slide_done (k : SlideCode) : M unit :=
  match k with
  | SlideLogout => dom "#login" "slideDown" []
  | SlideLogin =>
      Dropdown.slideDown Dropdown.Logout logout_label logout_items;;
      u ← getLoggedInUser;
      put_dash (fun d => mkDash u (da_items d) (da_list d) (da_current d));;
      enable_save;;
      dashboards_reload;;
      gotohash
  end.

(** The listeners of the model's events. *)
Definition on_reset : M unit :=
  u ← getLoggedInUser;
  if bool_decide (u = None) then showViewsWhenNobodyIsLoggedIn else showViewsWhenSomebodyIsLoggedIn.

Definition on_logged_in : M unit := showViewsWhenSomebodyIsLoggedIn.

(** [window.location.href = window.location.href.split('#')[0]] *)
Definition on_logged_out : M unit :=
  w ← get id;
  let href := lg_url (w_login w) ++ sy_hash (w_sys w) in
  dom "window.location" "href" [AStr (default [] (head (split_char (ch "#") href)))].

(** ** Logging in and out *)

(** [initialize]: the users are fetched. *)
Definition initialize : M unit :=
  x ← new_xhr XUsers;
  emit (EHttp x "GET" (js "/?s=users") []).

(** A successful answer of [$.ajax] for JSON. *)
Definition ajax_success (r : Reply) : option json :=
  if (200 <=? rp_status r) && (rp_status r <? 300) then json_parse (rp_text r) else None.

(** The answer of [fetch]: [reset] on the collection, then the [success] callback. *)
Definition onUsers (r : Reply) : M unit :=
  match ajax_success r with
  | Some v => reset_users v;; on_reset
  | None => mret ()
  end.

Definition set_attrs (o : list (jsstr * json)) (u : User) : User :=
  mkUser (us_cid u) (foldl (fun a p => obj_set a p.1 (Some p.2)) (us_attrs u) o).

(** [users.create]: the model is added, then saved; the answer's attributes are set on it. *)
Definition users_create (username password_hash : jsstr) : M unit :=
  cid ← new_user (user_attrs (Some username) (Some (JStr password_hash)));
  x ← new_xhr (XUserCreated cid);
  us ← users;
  emit (EHttp x "POST" (js "/?s=users")
    (from_option (fun u => stringify (toJSON u)) [] (List.find (fun u => Nat.eqb (us_cid u) cid) us))).

(** The properties of an answer that is an object; those of an array are its indices. *)
Definition answer_attrs (v : json) : option (list (jsstr * json)) :=
  match v with
  | JObj o => Some o
  | JArr l => Some (imap (fun i x => (num_to_str (Z.of_nat i), x)) l)
  | _ => None
  end.

Definition onUserCreated (cid : nat) (r : Reply) : M unit :=
  match ajax_success r ≫= answer_attrs with
  | Some o => put_users (fmap (fun u => if Nat.eqb (us_cid u) cid then set_attrs o u else u))
  | None => mret ()
  end.

Definition write_login (username password_hash : jsstr) : M unit :=
  t ← now; j ← jar;
  match Cookie.cookie_set config t (js "login") (JStr (username ++ js ":" ++ password_hash)) login_options j with
  | Some j' => put_jar j'
  | None => throw URIError
  end.

Definition create_question (username : jsstr) : jsstr :=
  js "Could not load user info -- create new user " ++ username ++ js "?".

Definition login (username password : jsstr) (hashed : bool) : M unit :=
  let password_hash := if hashed then password else Sha256.hash (password ++ js " salt " ++ username) None in
  us ← users;
  match find_user username us with
  | None =>
      choiceDialog (create_question username) [(js "create", js "Yes"); (js "no", js "No")]
        (CCreateUser username password_hash)
  | Some _ => write_login username password_hash;; on_logged_in
  end.

Definition createUserAndLogin (username password_hash : jsstr) : M unit :=
  users_create username password_hash;;
  login username password_hash true;;
  saveSettings (Some username) [] None SvNothing.

(** The answer to the question. *)
Definition create_answer (username password_hash opt : jsstr) : M unit :=
  if bool_decide (opt = js "create") then createUserAndLogin username password_hash else mret ().

Definition logout : M unit :=
  t ← now; j ← jar;
  match Cookie.removeCookie config t (js "login") login_options j with
  | Some (j', _) => put_jar j'
  | None => throw URIError
  end;;
  on_logged_out.

Definition logout_action (text : jsstr) : M unit := Dropdown.doAction logout_items (fun _ => logout) text.

(** ** [UserLoginView] *)

Inductive input := LoginName | LoginPassword.

Definition set_input (i : input) (s : jsstr) : M unit :=
  modify (set_login (fun l => match i with
    | LoginName => mkLogin (lg_users l) (lg_next_cid l) (lg_jar l) (lg_url l) s (lg_password l)
    | LoginPassword => mkLogin (lg_users l) (lg_next_cid l) (lg_jar l) (lg_url l) (lg_username l) s
    end)).

Definition view_login : M unit := l ← get w_login; login (lg_username l) (lg_password l) false.

(** Focusing an input empties it. *)
Definition input_focus (i : input) : M unit := set_input i [].

Definition input_keydown (i : input) (which : Z) : M unit :=
  if which =? 13 then
    dom "#counter_jstree" "deselect_all" [];;
    match i with
    | LoginName => dom "#loginpassword" "focus" [];; input_focus LoginPassword
    | LoginPassword => dom "#loginpassword" "blur" [];; view_login
    end
  else mret ().

(** ** Lemmas *)

Definition jar_of (w : World) : list Cookie.Crumb := lg_jar (w_login w).
Definition users_of (w : World) : list User := lg_users (w_login w).

(** The page at time [t]. *)
Definition at_time (t : Z) (w : World) : World :=
  set_sys (fun s => mkSys t (sy_hidden s) (sy_hash s) (sy_timers s) (sy_next_timer s) (sy_xhrs s) (sy_next_xhr s) (sy_log s)) w.

(** The user a value of the cookie names. *)
Definition user_named (us : list User) (c : option json) : option jsstr :=
  c ← c; u ← find_user (default [] (head (split_char (ch ":") (to_string c)))) us; to_string <$> attr u "username".

(** The user logged in at time [t]. *)
Definition session (w : World) (t : Z) : option jsstr :=
  user_named (users_of w) (default None (Cookie.cookie_get config t (js "login") (jar_of w))).

Lemma find_user_name n us u : find_user n us = Some u -> attr u "username" = Some (JStr n).
Proof.
  intros [_ H]%find_some. destruct (attr u "username") as [[| | |s| |]|]; try done.
  apply bool_decide_eq_true in H. by subst.
Qed.

Lemma read_login_exec w :
  Cookie.jar_ok (jar_of w) ->
  read_login w = (w, Ok (to_string <$> default None (Cookie.cookie_get config (sy_now (w_sys w)) (js "login") (jar_of w)))).
Proof.
  intros Hj. unfold read_login, now, jar, mbind, M_bind, get. fold (jar_of w).
  by rewrite Cookie.cookie_get_crumb by done.
Qed.

Lemma getLoggedInUser_exec w :
  Cookie.jar_ok (jar_of w) -> getLoggedInUser w = (w, Ok (session w (sy_now (w_sys w)))).
Proof.
  intros Hj. unfold getLoggedInUser, session, user_named. rewrite (bind_Ok _ _ _ _ _ (read_login_exec w Hj)).
  destruct (default None _) as [c|]; [|done]. cbn [fmap option_fmap option_map mbind option_bind].
  unfold mbind at 1, M_bind, users, get. fold (users_of w). by destruct (find_user _ (users_of w)).
Qed.

Lemma login_value_user us u h :
  ch ":" ∉ u -> find_user u us <> None -> user_named us (Some (JStr (u ++ js ":" ++ h))) = Some u.
Proof.
  intros Hc Hf. unfold user_named. cbn [mbind option_bind to_string]. change (js ":" ++ h) with (ch ":" :: h).
  rewrite split_char_app by done. cbn [head default from_option id].
  destruct (find_user u us) as [x|] eqn:E; [|done]. cbn [mbind option_bind]. by rewrite (find_user_name u us x E).
Qed.

(** A name that can be in the cookie, with the hash of a password. *)
Lemma login_value_ok u h :
  wf_str u -> encodeURIComponent u <> None -> Forall Sha256.hex_lower h ->
  wf_str (u ++ js ":" ++ h) /\ encodeURIComponent (u ++ js ":" ++ h) <> None.
Proof.
  intros Hu He Hh. split.
  - apply Forall_app. split; [done|]. apply Forall_app. split; [by repeat constructor|].
    eapply Forall_impl; [exact Hh|]. unfold Sha256.hex_lower, is_unit. intros; lia.
  - destruct (encodeURIComponent u) as [r|] eqn:E; [|done]. rewrite (encodeURIComponent_app (length u) u _ r) by done.
    change (js ":" ++ h) with (ch ":" :: h). cbn [encodeURIComponent]. rewrite encodeURIComponent_kept; [done|].
    eapply Forall_impl; [exact Hh|]. unfold Sha256.hex_lower, uri_keeps, is_alnum, is_digit. intros c Hc. cbn beta in Hc.
    zcases; cbn; done || lia.
Qed.

(** Writing the cookie. *)
Lemma write_login_exec w u h :
  Cookie.jar_ok (jar_of w) -> wf_str (u ++ js ":" ++ h) -> encodeURIComponent (u ++ js ":" ++ h) <> None ->
  exists j, write_login u h w = (exec (put_jar j) w, Ok ()) /\ Cookie.jar_ok j /\
    forall t key, key <> [] -> sy_now (w_sys w) <= t -> Cookie.cookie_get config t key j =
      if decide (key = js "login") then
        Some (if t <? Cookie.expiry (sy_now (w_sys w)) 12 then Some (JStr (u ++ js ":" ++ h)) else None)
      else Cookie.cookie_get config t key (jar_of w).
Proof.
  intros Hj Hw He. unfold write_login, now, jar, mbind, M_bind, get. fold (jar_of w).
  destruct (Cookie.cookie_set _ _ _ _ _ _) as [j|] eqn:E.
  - exists j. split; [done|]. unfold login_options in E.
    destruct (Cookie.cookie_set_get config eq_refl _ (js "login") (JStr (u ++ js ":" ++ h)) 12 _ _ Hj ltac:(by repeat constructor) ltac:(done) Hw E)
      as [Hok Hg]. split; [done|].
    intros t key Hne Ht. rewrite Hg by done. destruct (decide _); [|done]. do 2 f_equal.
    destruct (Z.ltb_spec t (Cookie.expiry (sy_now (w_sys w)) 12)); [|by rewrite andb_false_r].
    by rewrite (proj2 (Z.ltb_lt (sy_now (w_sys w)) _)) by lia.
  - exfalso. unfold Cookie.cookie_set, Cookie.stringifyCookieValue, Cookie.encode in E. cbn [Cookie.raw config Cookie.as_json to_string] in E.
    destruct (encodeURIComponent (u ++ js ":" ++ h)) eqn:E2; [|done].
    by replace (encodeURIComponent (js "login")) with (Some (js "login")) in E by reflexivity.
Qed.

(** What [login] does for a user the server knows: the cookie and the animation. *)
Lemma login_known w u h :
  Cookie.jar_ok (jar_of w) -> find_user u (users_of w) <> None ->
  wf_str (u ++ js ":" ++ h) -> encodeURIComponent (u ++ js ":" ++ h) <> None ->
  exists j, login u h true w = (exec on_logged_in (exec (put_jar j) w), Ok ()) /\ Cookie.jar_ok j /\
    forall t key, key <> [] -> sy_now (w_sys w) <= t -> Cookie.cookie_get config t key j =
      if decide (key = js "login") then
        Some (if t <? Cookie.expiry (sy_now (w_sys w)) 12 then Some (JStr (u ++ js ":" ++ h)) else None)
      else Cookie.cookie_get config t key (jar_of w).
Proof.
  intros Hj Hf Hw He. destruct (write_login_exec w u h Hj Hw He) as (j & E & Hok & Hg). exists j. split; [|done].
  unfold login. unfold mbind at 1, M_bind, users, get. fold (users_of w).
  destruct (find_user u (users_of w)); [|done]. rewrite (bind_Ok _ _ _ _ _ E). done.
Qed.

(** The session that [login] starts, for worlds that agree on users and jar. *)
Lemma session_after w w' u h :
  users_of w' = users_of w -> ch ":" ∉ u -> find_user u (users_of w) <> None ->
  (forall t key, key <> [] -> sy_now (w_sys w) <= t -> Cookie.cookie_get config t key (jar_of w') =
      if decide (key = js "login") then
        Some (if t <? Cookie.expiry (sy_now (w_sys w)) 12 then Some (JStr (u ++ js ":" ++ h)) else None)
      else Cookie.cookie_get config t key (jar_of w)) ->
  forall t, sy_now (w_sys w) <= t ->
    session w' t = if t <? Cookie.expiry (sy_now (w_sys w)) 12 then Some u else None.
Proof.
  intros Hu Hc Hf Hg t Ht. unfold session. rewrite Hg, decide_True, Hu by done. cbn [default from_option id].
  destruct (t <? _); [|done]. by apply login_value_user.
Qed.

(** C28: logging in as a user the server knows, with a name that can be written in
    a cookie and holds no colon, writes the cookie [login] with the name, a colon and the hash of the salted password; from then on
    that user is logged in for twelve days (to the second) and nobody after.  Nothing else of the page changes but
    the log, in which the login controls slide up; the other cookies read as before. *)
Theorem login_lasts w username password :
  Cookie.jar_ok (jar_of w) -> find_user username (users_of w) <> None ->
  wf_str username -> encodeURIComponent username <> None -> ch ":" ∉ username ->
  let value := username ++ js ":" ++ Sha256.hash (password ++ js " salt " ++ username) None in
  let until := Cookie.expiry (sy_now (w_sys w)) 12 in
  exists j, let w' := exec (emit (ESlideUp SlideLogin)) (exec (put_jar j) w) in
    login username password false w = (w', Ok ()) /\ Cookie.jar_ok j /\
    (forall t, sy_now (w_sys w) <= t ->
       Cookie.cookie_get config t (js "login") j = Some (if t <? until then Some (JStr value) else None) /\
       getLoggedInUser (at_time t w') = (at_time t w', Ok (if t <? until then Some username else None))) /\
    forall t key, sy_now (w_sys w) <= t -> key <> [] -> key <> js "login" ->
      Cookie.cookie_get config t key j = Cookie.cookie_get config t key (jar_of w).
Proof.
  intros Hj Hf Hw He Hc value until. set (h := Sha256.hash (password ++ js " salt " ++ username) None) in *.
  destruct (login_value_ok username h Hw He (proj2 (Sha256.hash_digits _ _))) as [Hv1 Hv2].
  destruct (login_known w username h Hj Hf Hv1 Hv2) as (j & E & Hok & Hg). exists j. cbv zeta. split; [exact E|].
  split; [exact Hok|]. split.
  - intros t Ht. split; [by rewrite Hg, decide_True|]. rewrite getLoggedInUser_exec by exact Hok. do 2 f_equal.
    apply (session_after w (exec (put_jar j) w) username h); done.
  - intros t key Ht Hne Hk. by rewrite Hg, decide_False.
Qed.

(** Logging out removes the cookie: nobody is logged in, then or later, the
    other cookies stay, and the page goes to its address without the hash. *)
Theorem logout_ends_session w :
  Cookie.jar_ok (jar_of w) -> ch "#" ∉ lg_url (w_login w) ->
  sy_hash (w_sys w) = [] \/ head (sy_hash (w_sys w)) = Some (ch "#") ->
  exists w', logout w = (w', Ok ()) /\ Cookie.jar_ok (jar_of w') /\
    sy_log (w_sys w') = sy_log (w_sys w) ++ [EDom "window.location" "href" [AStr (lg_url (w_login w))]] /\
    (forall t, sy_now (w_sys w) <= t -> getLoggedInUser (at_time t w') = (at_time t w', Ok None)) /\
    forall t key, sy_now (w_sys w) <= t -> key <> [] -> key <> js "login" ->
      Cookie.cookie_get config t key (jar_of w') = Cookie.cookie_get config t key (jar_of w).
Proof.
  intros Hj Hu Hh.
  destruct (Cookie.removeCookie_get config eq_refl (sy_now (w_sys w)) (js "login") login_options (jar_of w) Hj)
    as (j & E & Hok & Hg); [by repeat constructor|done|done|done|].
  assert (Hs : head (split_char (ch "#") (lg_url (w_login w) ++ sy_hash (w_sys w))) = Some (lg_url (w_login w))).
  { destruct (sy_hash (w_sys w)) as [|x s]; [by rewrite app_nil_r, split_char_id|].
    destruct Hh as [?|[= ->]]; [done|]. by rewrite split_char_app. }
  exists (exec on_logged_out (exec (put_jar j) w)). split.
  - unfold logout. unfold mbind, M_bind, now, jar, get. fold (jar_of w). rewrite E. reflexivity.
  - split; [exact Hok|]. split.
    { change (lg_url (w_login w)) with (default [] (Some (lg_url (w_login w)))). rewrite <- Hs. reflexivity. }
    split.
    + intros t Ht. rewrite getLoggedInUser_exec by exact Hok. do 2 f_equal. unfold session. cbn [jar_of w_login].
      change (jar_of (at_time t _)) with j. by rewrite Hg, decide_True by done.
    + intros t key Ht Hne Hk. change (jar_of _) with j at 1. by rewrite Hg, decide_False.
Qed.

(** ** Creating a user *)

Definition cids_ok (w : World) : Prop := Forall (fun u => (us_cid u < lg_next_cid (w_login w))%nat) (users_of w).

Lemma find_cid us cid attrs :
  Forall (fun u => (us_cid u < cid)%nat) us ->
  List.find (fun u => Nat.eqb (us_cid u) cid) (us ++ [mkUser cid attrs]) = Some (mkUser cid attrs).
Proof.
  induction 1 as [|u us Hu _ IH]; cbn; [by rewrite Nat.eqb_refl|]. by rewrite (proj2 (Nat.eqb_neq _ _)) by lia.
Qed.

Lemma attr_username cid n p : attr (mkUser cid (user_attrs n p)) "username" = JStr <$> n.
Proof. reflexivity. Qed.

Lemma find_user_new us n cid p :
  find_user n us = None -> find_user n (us ++ [mkUser cid (user_attrs (Some n) p)]) = Some (mkUser cid (user_attrs (Some n) p)).
Proof.
  unfold find_user. induction us as [|u us IH]; cbn [List.find app].
  - intros _. rewrite attr_username. cbn [fmap option_fmap option_map]. by rewrite bool_decide_eq_true_2.
  - by destruct (match attr u "username" with Some (JStr _) => _ | _ => _ end).
Qed.

(** The password's object and the member that holds it. *)
Definition password_json (h : jsstr) : json := JObj [(js "password", JStr h)].

Lemma password_wf h : wf_str h -> json_wf (password_json h).
Proof.
  intros Hh. cbn [json_wf password_json]. split_and!; [apply NoDup_singleton| |].
  - apply Forall_singleton. split; [apply (bool_decide_unpack _); vm_compute; exact I|by repeat constructor].
  - done.
Qed.

Lemma toJSON_user cid n h :
  toJSON (mkUser cid (user_attrs (Some n) (Some (JStr h)))) = JObj [(js "user." ++ n, JStr (stringify (password_json h)))].
Proof. reflexivity. Qed.

(** The text sent for a new user, and what [parse] makes of it. *)
Lemma user_text cid n h :
  wf_str n -> wf_str h ->
  json_parse (stringify (toJSON (mkUser cid (user_attrs (Some n) (Some (JStr h)))))) =
    Some (JObj [(js "user." ++ n, JStr (stringify (password_json h)))]) /\
  parse (JObj [(js "user." ++ n, JStr (stringify (password_json h)))]) =
    inr [user_attrs (head (split_char (ch ".") n)) (Some (JStr h))].
Proof.
  intros Hn Hh. destruct (settings_body_parses (js "user." ++ n) (password_json h)) as [H1 H2].
  - apply Forall_app. split; [by repeat constructor|done].
  - unfold is_index, array_index. cbn. tauto.
  - by apply password_wf.
  - rewrite toJSON_user. split; [exact H1|]. unfold parse.
    assert (Hl : obj_get [(js "user." ++ n, JStr (stringify (password_json h)))] (js "length") = None).
    { apply obj_get_None. cbn [fmap list_fmap fst]. intros E%list_elem_of_singleton. discriminate E. }
    rewrite Hl. unfold obj_keys. cbn [fmap list_fmap fst].
    rewrite enum_order_id by (apply Forall_singleton; unfold is_index, array_index; cbn; tauto).
    cbn [parse_users obj_get]. rewrite decide_True by done. cbn [default from_option id].
    unfold parse_user. cbn [to_string]. rewrite H2. unfold password_json. cbn [prop]. unfold obj_get at 1.
    rewrite decide_True by done. do 3 f_equal. change (js "user." ++ n) with (js "user" ++ ch "." :: n).
    rewrite split_char_app by (apply (bool_decide_unpack _); vm_compute; exact I).
    cbn [lookup list_lookup]. by destruct (split_char (ch ".") n).
Qed.

Lemma users_create_exec w n h :
  cids_ok w -> exists w' x, users_create n h w = (w', Ok ()) /\
    users_of w' = users_of w ++ [mkUser (lg_next_cid (w_login w)) (user_attrs (Some n) (Some (JStr h)))] /\
    jar_of w' = jar_of w /\ sy_now (w_sys w') = sy_now (w_sys w) /\
    sy_log (w_sys w') = sy_log (w_sys w) ++ [EHttp x "POST" (js "/?s=users")
      (stringify (toJSON (mkUser (lg_next_cid (w_login w)) (user_attrs (Some n) (Some (JStr h))))))].
Proof.
  intros Hc. pose proof (find_cid _ _ (user_attrs (Some n) (Some (JStr h))) Hc) as Hf.
  unfold users_create, new_user, users, new_xhr, emit, modify, mbind, M_bind, mret, M_ret, get.
  cbv beta iota zeta. cbn [w_login set_login set_sys lg_users]. fold (users_of w). rewrite Hf.
  eexists _, _. split_and!; reflexivity.
Qed.

(** [saveSettings] leaves the login alone and only adds to the log. *)
Lemma saveSettings_sends s n v cb w e :
  e ∈ sy_log (w_sys w) -> e ∈ sy_log (w_sys (exec (saveSettings s n v cb) w)).
Proof.
  intros He. unfold saveSettings, begin. unfold guarded, guard, exec, mbind, M_bind, get.
  cbv beta iota zeta. destruct (ui_nesting (w_ui w) =? 0); cbn -[js stringify]; rewrite ?elem_of_app; auto.
Qed.

(** Creating a user with a hash: the users, the request and the session afterwards. *)
Lemma createUserAndLogin_exec w n h :
  Cookie.jar_ok (jar_of w) -> cids_ok w -> find_user n (users_of w) = None -> ch ":" ∉ n ->
  wf_str (n ++ js ":" ++ h) -> encodeURIComponent (n ++ js ":" ++ h) <> None ->
  let u := mkUser (lg_next_cid (w_login w)) (user_attrs (Some n) (Some (JStr h))) in
  let w' := exec (createUserAndLogin n h) w in
  users_of w' = users_of w ++ [u] /\
  (exists x, EHttp x "POST" (js "/?s=users") (stringify (toJSON u)) ∈ sy_log (w_sys w')) /\
  Cookie.jar_ok (jar_of w') /\
  forall t, sy_now (w_sys w) <= t -> session w' t = if t <? Cookie.expiry (sy_now (w_sys w)) 12 then Some n else None.
Proof.
  intros Hj Hc Hf Hcol Hv1 Hv2 u w'. destruct (users_create_exec w n h Hc) as (wc & x & Ec & Hu & Hjc & Hnc & Hlog).
  assert (Hfu : find_user n (users_of wc) <> None) by (rewrite Hu; by rewrite find_user_new).
  destruct (login_known wc n h) as (j & El & Hok & Hg); [by rewrite Hjc|done..|].
  set (w3 := exec on_logged_in (exec (put_jar j) wc)).
  assert (E : w' = exec (saveSettings (Some n) [] None SvNothing) w3).
  { unfold w', createUserAndLogin. by rewrite exec_bind, Ec, exec_bind, El. }
  assert (Hl3 : w_login w' = w_login w3).
  { rewrite E. apply (pres_eq w_login). intros b. apply pres_saveSettings; apply _. }
  unfold users_of at 1, jar_of at 1, session, users_of at 2, jar_of at 1. rewrite Hl3. split_and!.
  - exact Hu.
  - exists x. rewrite E. apply saveSettings_sends. change (sy_log (w_sys w3)) with (sy_log (w_sys wc) ++ [ESlideUp SlideLogin]).
    rewrite Hlog, !elem_of_app, list_elem_of_singleton. auto.
  - exact Hok.
  - rewrite <- Hnc. exact (session_after wc w3 n h eq_refl Hcol Hfu Hg).
Qed.

(** C29: logging in under a name the server does not know asks whether to create the
    user, with the hash of the salted password; the answer [create] sends the user to
    the server, as a document that [parse] turns back into the same user when the
    name holds no dot, and logs the user in; any other answer does nothing. *)
Theorem create_user_and_login w username password opt :
  Cookie.jar_ok (jar_of w) -> cids_ok w -> find_user username (users_of w) = None ->
  wf_str username -> encodeURIComponent username <> None -> ch ":" ∉ username ->
  let h := Sha256.hash (password ++ js " salt " ++ username) None in
  let w1 := exec (login username password false) w in
  let w2 := exec (create_answer username h opt) w1 in
  (exists text opts, ui_dialog (w_ui w1) = Some (DChoice text opts (CCreateUser username h))) /\
  w_login w1 = w_login w /\
  if decide (opt = js "create") then
    let u := mkUser (lg_next_cid (w_login w)) (user_attrs (Some username) (Some (JStr h))) in
    users_of w2 = users_of w ++ [u] /\
    (exists x body v, EHttp x "POST" (js "/?s=users") body ∈ sy_log (w_sys w2) /\ json_parse body = Some v /\
       (ch "." ∉ username -> parse v = inr [us_attrs u])) /\
    forall t, sy_now (w_sys w) <= t -> getLoggedInUser (at_time t w2) =
      (at_time t w2, Ok (if t <? Cookie.expiry (sy_now (w_sys w)) 12 then Some username else None))
  else w2 = w1.
Proof.
  intros Hj Hc Hf Hw He Hcol h w1 w2.
  assert (E1 : w1 = exec (choiceDialog (create_question username) [(js "create", js "Yes"); (js "no", js "No")]
    (CCreateUser username h)) w).
  { unfold w1, login, exec. unfold mbind at 1, M_bind, users, get. fold (users_of w). by rewrite Hf. }
  split; [rewrite E1; by do 2 eexists|]. assert (Hl : w_login w1 = w_login w) by (by rewrite E1). split; [done|].
  unfold w2, create_answer. destruct (decide (opt = js "create")) as [->|Hne]; [|by rewrite bool_decide_eq_false_2].
  rewrite bool_decide_eq_true_2 by done. clear w2.
  assert (Hn : sy_now (w_sys w1) = sy_now (w_sys w)) by (by rewrite E1). clearbody w1. clear E1.
  pose proof (proj2 (Sha256.hash_digits (password ++ js " salt " ++ username) None)) as Hh. fold h in Hh.
  destruct (login_value_ok username h Hw He Hh) as [Hv1 Hv2]. clearbody h.
  destruct (createUserAndLogin_exec w1 username h) as (Hu & [x Hx] & Hok & Hs);
    [unfold jar_of, cids_ok, users_of in *; by rewrite Hl..|done|done|done|].
  assert (Hwh : wf_str h) by (apply Forall_app in Hv1 as [_ [_ ?]%Forall_app]; done).
  destruct (user_text (lg_next_cid (w_login w1)) username h Hw Hwh) as [T1 T2].
  unfold users_of in Hu at 2. rewrite Hl in Hu, Hx, T1. split; [exact Hu|]. split.
  - eexists x, _, _. split; [exact Hx|]. split; [exact T1|]. intros Hdot. by rewrite T2, split_char_id.
  - intros t Ht. rewrite getLoggedInUser_exec by exact Hok. do 2 f_equal. rewrite <- Hn. apply Hs. by rewrite Hn.
Qed.

(** ** Names with a dot or a colon *)

(** A dot or a colon in a user's name is not kept: the document sent for a user
    is read back with the name up to its first dot, and after logging in under a
    name with a colon the user logged in is the one named by the part before it, or nobody. *)
Theorem special_names_truncated w username rest password :
  Cookie.jar_ok (jar_of w) -> wf_str username -> wf_str rest ->
  (forall cid h, wf_str h -> (ch "." ∉ username) ->
     exists v, json_parse (stringify (toJSON (mkUser cid (user_attrs (Some (username ++ ch "." :: rest)) (Some (JStr h)))))) = Some v /\
       parse v = inr [user_attrs (Some username) (Some (JStr h))]) /\
  ((ch ":" ∉ username) -> find_user (username ++ ch ":" :: rest) (users_of w) <> None ->
   encodeURIComponent (username ++ ch ":" :: rest) <> None -> sy_now (w_sys w) < Cookie.expiry (sy_now (w_sys w)) 12 ->
   exists w', login (username ++ ch ":" :: rest) password false w = (w', Ok ()) /\
     getLoggedInUser w' = (w', Ok (match find_user username (users_of w) with Some _ => Some username | None => None end))).
Proof.
  intros Hj Hu Hr. assert (Hwf : forall c, is_unit c -> wf_str (username ++ c :: rest)).
  { intros c Hc. apply Forall_app. split; [done|by constructor]. }
  split.
  - intros cid h Hh Hd. destruct (user_text cid (username ++ ch "." :: rest) h) as [T1 T2]; [by apply Hwf|done|].
    eexists. split; [exact T1|]. by rewrite T2, split_char_app by done.
  - intros Hc Hf He Ht. set (n := username ++ ch ":" :: rest) in *.
    set (h := Sha256.hash (password ++ js " salt " ++ n) None).
    destruct (login_value_ok n h) as [Hv1 Hv2]; [by apply Hwf|done|apply Sha256.hash_digits|].
    destruct (login_known w n h Hj Hf Hv1 Hv2) as (j & E & Hok & Hg). eexists. split; [exact E|].
    rewrite getLoggedInUser_exec by exact Hok. do 2 f_equal. unfold session. change (jar_of _) with j.
    change (sy_now (w_sys (exec on_logged_in _))) with (sy_now (w_sys w)). change (users_of _) with (users_of w).
    rewrite Hg, decide_True, (proj2 (Z.ltb_lt _ _) Ht) by (done || lia). cbn [default from_option id].
    unfold user_named. cbn [mbind option_bind to_string]. unfold n. rewrite <- app_assoc, <- app_comm_cons.
    rewrite split_char_app by done. cbn [head default from_option id].
    destruct (find_user username (users_of w)) as [x|] eqn:Ef; [|done]. cbn [mbind option_bind].
    by rewrite (find_user_name _ _ _ Ef).
Qed.

(** ** What the user controls change *)

Section preserves.
Context (P : World -> Prop) `{!Stable P set_io} `{!Stable P set_ui} `{!Stable P set_time} `{!Stable P set_grid}
  `{!Stable P set_graphs} `{!Stable P set_loader}.

Lemma pres_load_state s cb : preserves P (load_state s cb).
Proof. unfold load_state, load_graph. presg. Qed.
Hint Resolve pres_load_state : pres.
Lemma pres_gotohash : preserves P gotohash.
Proof. unfold gotohash, load_hash. presg. Qed.
End preserves.

(** The dashboards and the hash leave the user's name and the views alone. *)
Definition shows (u : option jsstr) (v : Views) (w : World) : Prop := theUserName (w_dash w) = u /\ w_views w = v.

Lemma shows_reload u v : preserves (shows u v) (dashboards_reload;; gotohash).
Proof.
  apply pres_bind; [|intros _; apply pres_gotohash; apply _].
  unfold dashboards_reload, on_userDashboards, updateCurrentDashboard, add_item, put_dash. pres;
    try (apply pres_modify; by intros w []).
Qed.

(** When the login control has slid away while somebody is logged in, the page shows
    that user: the logout menu is labelled with the name and offers only the
    logout, the dashboards' user is set and saving is enabled, whatever the page's hash loads. *)
Theorem login_shows_user w u :
  Cookie.jar_ok (jar_of w) -> session w (sy_now (w_sys w)) = Some u ->
  dv_entries (vw_logout (w_views w)) = None ->
  let w' := exec (slide_done SlideLogin) w in
  theUserName (w_dash w') = Some u /\
  vw_logout (w_views w') = mkDropdown (Some (js "User: " ++ u)) (Some [(js "Logout", false)]) (dv_open (vw_logout (w_views w))) /\
  vw_save_disabled (w_views w') = false.
Proof.
  intros Hj Hs He.
  assert (Hg : forall g, getLoggedInUser (set_views g w) = (set_views g w, Ok (Some u))).
  { intros g. rewrite getLoggedInUser_exec by done. by rewrite <- Hs. }
  destruct (Dropdown.render_exec Dropdown.Logout logout_label logout_items w (js "User: " ++ u)) as (g & E & Hv).
  { intros g. unfold logout_label. by rewrite (bind_Ok _ _ _ _ _ (Hg g)). }
  specialize (Hv Dropdown.Logout). rewrite decide_True in Hv by done. cbn [Dropdown.view_of] in Hv. rewrite He in Hv.
  set (w1 := exec (dom ".tdropdown" "slideDown" []) (set_views g w)).
  assert (E1 : getLoggedInUser w1 = (w1, Ok (Some u))) by (rewrite getLoggedInUser_exec by done; by rewrite <- Hs).
  set (w2 := exec enable_save (exec (put_dash (fun d => mkDash (Some u) (da_items d) (da_list d) (da_current d))) w1)).
  assert (Hsh : shows (Some u) (w_views w2) (exec (slide_done SlideLogin) w)).
  { replace (exec (slide_done SlideLogin) w) with (exec (dashboards_reload;; gotohash) w2); [by apply shows_reload|].
    cbn [slide_done]. unfold Dropdown.slideDown. symmetry.
    rewrite exec_bind. rewrite (bind_Ok _ _ _ _ _ E). rewrite (total_unit (dom _ _ _)) by tot.
    rewrite exec_bind. fold w1. rewrite E1. done. }
  destruct Hsh as [H1 H2]. cbv zeta. rewrite H1, H2. split; [done|]. split; [exact Hv|]. done.
Qed.

End Login.
