(* ===== verification/Users.v ===== *)
(** * The users are a Backbone collection ([UsersModel] of [files/graph.js])

    [Login] keeps the users as a list of attributes.  In the program they are the models of a
    [Backbone.Collection].  This file runs the operations of [Collection]
    and [Sync] beside those of [Login] and shows that the list is what the collection holds, model for model, that
    looking a user up finds the same one, and that the requests are those of [Backbone.sync].  Users
    have no [id]: the answers that name one are left out. *)

From S2P Require Import Prelude JsString JsObject JsNumber Json JsValue Backbone Collection Sync World Shell Loader Grid TimeRange Dashboard Bookmark Login.
Import JsValue Shell Dashboard.

Local Open Scope Z_scope.

Module Users.

Abbreviation collection := (Collection.collection (V := json)).
Abbreviation attrs := (list (jsstr * option json)).
Abbreviation uniqueId := Collection.uniqueId.

Definition users_url : jsstr := js "/?s=users".

(** [toJSON] of [UserModel]; [undefined] in a name is written out and an undefined password left out. *)
Definition user_toJSON (m : Model.model json) : json :=
  JObj [(js "user." ++ opt_string (Model.get m (js "username")),
         JStr (stringify (JObj match Model.get m (js "password_hash") with Some p => [(js "password", p)] | None => [] end)))].

(** What the program does with its users. *)
Inductive op :=
  | OFetched (response : json)                       (** the answer of [fetch] *)
  | OCreate (username password_hash : jsstr)
  | OSaved (cid : nat) (r : Reply).                  (** the answer to saving a new user *)

(** On the collection. *)
Definition run_coll (x : op) (c : collection) : collection :=
  match x with
  | OFetched r =>
      match Login.parse r with
      | inl _ => Collection.reset_state c
      | inr l => (Collection.reset Sync.id_name (Collection.AAttrs <$> l) c).1
      end
  | OCreate u h => (Sync.create user_toJSON users_url (Login.user_attrs (Some u) (Some (JStr h))) c).1
  | OSaved cid r => from_option (fun resp => Sync.save_answered (uniqueId cid) resp c) c (Login.ajax_success r)
  end.

(** On the page. *)
Definition run_page (x : op) (w : World) : World :=
  match x with
  | OFetched r => exec (Login.reset_users r) w
  | OCreate u h => exec (Login.users_create u h) w
  | OSaved cid r => exec (Login.onUserCreated cid r) w
  end.

(** The answers give no id. *)
Definition plain_op (x : op) : Prop :=
  match x with
  | OSaved _ r => forall o, Login.ajax_success r ≫= Login.answer_attrs = Some o -> obj_get o (js "id") = None
  | _ => True
  end.

(** ** The relation *)

Definition user_at (c : collection) (u : User) : Prop :=
  exists m, obj_get (Collection.c_objs c) (uniqueId (us_cid u)) = Some m /\ forall k, Model.get m k = Model.attr_get (us_attrs u) k.

(** Models are numbered below the counter and have no ids. *)
Record inv (c : collection) : Prop := {
  iv_objs : forall cid m, obj_get (Collection.c_objs c) cid = Some m ->
    (exists n, (n < Collection.c_next c)%nat /\ cid = uniqueId n) /\ Model.get m (js "id") = None;
  iv_byId : forall k cid, obj_get (Collection.c_byId c) k = Some cid -> exists n, (n < Collection.c_next c)%nat /\ k = uniqueId n;
  iv_length : Collection.c_length c = length (Collection.c_models c) }.

Record holds (c : collection) (l : LoginState) : Prop := {
  h_inv : inv c;
  h_models : Collection.c_models c = (fun u => uniqueId (us_cid u)) <$> lg_users l;
  h_next : Collection.c_next c = lg_next_cid l;
  h_users : forall u, u ∈ lg_users l -> user_at c u }.

Lemma not_uniqueId n : js "undefined" <> uniqueId n /\ js "null" <> uniqueId n /\ js "[object Object]" <> uniqueId n.
Proof. split_and!; discriminate. Qed.

(** *** A new model *)

Definition with_obj (given : attrs) (c : collection) : collection :=
  Collection.mkCollection (obj_set (Collection.c_objs c) (uniqueId (Collection.c_next c)) (Model.new_model given []))
    (Collection.c_models c) (Collection.c_length c) (Collection.c_byId c) (S (Collection.c_next c)).
Definition with_ref (c : collection) (cid : jsstr) : collection :=
  Collection.set_byId (obj_set (Collection.c_byId c) cid cid) c.

Lemma inv_with_obj given c :
  inv c -> obj_wf given -> Model.attr_get given (js "id") = None -> inv (with_obj given c) /\
  Collection.model_id Sync.id_name (with_obj given c) (uniqueId (Collection.c_next c)) = None.
Proof.
  intros [H1 H2 H3] Hwf Hid. pose proof (proj2 (Model.new_model_spec given Hwf) (js "id")) as Hg. rewrite Hid in Hg.
  split; [constructor; cbn [with_obj Collection.c_objs Collection.c_next Collection.c_byId Collection.c_models Collection.c_length]|].
  - intros cid m. destruct (decide (uniqueId (Collection.c_next c) = cid)) as [<-|Hne].
    + rewrite obj_get_set. intros [= <-]. split; [eauto|done].
    + rewrite obj_get_set_ne by done. intros Hm. destruct (H1 cid m Hm) as [(n & Hn & ->) Hi]. split; [|done]. exists n. split; [lia|done].
  - intros k cid Hk. destruct (H2 k cid Hk) as (n & Hn & ->). exists n. split; [lia|done].
  - done.
  - unfold Collection.model_id, with_obj. cbn [Collection.c_objs]. rewrite obj_get_set. cbn. unfold Collection.id_of. by rewrite Hg.
Qed.

Lemma inv_with_ref c n : inv c -> (n < Collection.c_next c)%nat -> inv (with_ref c (uniqueId n)).
Proof.
  intros [H1 H2 H3] Hn. constructor; [done| |done]. intros k cid. cbn [with_ref Collection.set_byId Collection.c_byId Collection.c_next].
  destruct (decide (uniqueId n = k)) as [<-|Hne]; [intros _; eauto|]. rewrite obj_get_set_ne by done. apply H2.
Qed.

Lemma addReference_plain c cid : Collection.model_id Sync.id_name c cid = None -> Collection.addReference Sync.id_name cid c = with_ref c cid.
Proof. intros H. unfold Collection.addReference. by rewrite H. Qed.

(** The model just made is not in the collection yet. *)
Lemma get_fresh c given :
  inv c -> Collection.model_id Sync.id_name (with_obj given c) (uniqueId (Collection.c_next c)) = None ->
  Collection.get Sync.id_name (with_obj given c) (Collection.AModel (uniqueId (Collection.c_next c))) = None.
Proof.
  intros [H1 H2 H3] Hid. unfold Collection.get, Collection.get_model.
  destruct (Collection.prop_name_cases Sync.id_name (with_obj given c) (uniqueId (Collection.c_next c))) as [E|[_ Hname]]; [congruence|].
  assert (Hn : forall k, (forall n, (n < Collection.c_next c)%nat -> k <> uniqueId n) -> obj_get (Collection.c_byId (with_obj given c)) k = None).
  { intros k Hk. destruct (obj_get _ k) as [cid|] eqn:E; [|done]. destruct (H2 k cid E) as (n & Hn & ->). by destruct (Hk n Hn). }
  rewrite !Hn; [done| | |]; intros n Hlt; [intros E%Collection.uniqueId_inj; lia|destruct Hname as [->| ->]; apply not_uniqueId|apply not_uniqueId].
Qed.

(** *** [reset] *)

(** Adding attributes without ids, one after the other. *)
Definition added (c : collection) (given : attrs) : collection := with_ref (with_obj given c) (uniqueId (Collection.c_next c)).

Lemma turn_plain o st given :
  Collection.o_remove o = false -> inv (Collection.s_coll st) -> obj_wf given -> Model.attr_get given (js "id") = None ->
  let st' := Collection.set_turn Sync.id_name o st (Collection.AAttrs given) in
  Collection.s_coll st' = added (Collection.s_coll st) given /\
  Collection.s_toAdd st' = Collection.s_toAdd st ++ [uniqueId (Collection.c_next (Collection.s_coll st))] /\
  Collection.s_order st' = Collection.s_order st /\ inv (Collection.s_coll st').
Proof.
  intros Ho Hc Hwf Hid. cbv zeta. destruct (inv_with_obj given _ Hc Hwf Hid) as [Hw Hm].
  unfold Collection.set_turn, Collection.get. rewrite Hid. cbn [mbind option_bind Collection.prepareModel].
  change (Collection.mkCollection _ _ _ _ _) with (with_obj given (Collection.s_coll st)). rewrite (addReference_plain _ _ Hm).
  unfold Collection.place. rewrite Ho. cbn [andb Collection.s_coll Collection.s_toAdd Collection.s_order]. split_and!; [done..|].
  apply inv_with_ref; [done|]. cbn. lia.
Qed.

(** [_.uniqueId] and the list of models: a new user at the end. *)
Definition put_new (toAdd : list jsstr) (c : collection) : collection :=
  Collection.mkCollection (Collection.c_objs c) (Collection.c_models c ++ toAdd) (Collection.c_length c + length toAdd)
    (Collection.c_byId c) (Collection.c_next c).
Definition appended (c : collection) (given : attrs) : collection := put_new [uniqueId (Collection.c_next c)] (added c given).
Definition finished (st : Collection.set_state) : collection := put_new (Collection.s_toAdd st) (Collection.s_coll st).

Lemma put_new_app l k c : put_new (l ++ k) c = put_new k (put_new l c).
Proof. unfold put_new. cbn. by rewrite length_app, Nat.add_assoc, app_assoc. Qed.

Definition plain_attrs (given : attrs) : Prop := obj_wf given /\ Model.attr_get given (js "id") = None.

Lemma loop_plain o l st :
  Collection.o_remove o = false -> inv (Collection.s_coll st) -> Forall plain_attrs l ->
  let st' := foldl (Collection.set_turn Sync.id_name o) st (Collection.AAttrs <$> l) in
  finished st' = foldl appended (finished st) l /\ Collection.s_order st' = Collection.s_order st.
Proof.
  intros Ho Hc Hl. revert st Hc. induction Hl as [|given l [Hw Hi] _ IH]; intros st Hc; [done|]. cbv zeta in *.
  cbn [fmap list_fmap foldl]. destruct (turn_plain o st given Ho Hc Hw Hi) as (E1 & E2 & E3 & Hc').
  destruct (IH _ Hc') as [-> ->]. split; [|done]. f_equal. unfold finished. rewrite E1, E2, put_new_app. done.
Qed.

Lemma set_finished o args c :
  Collection.o_remove o = false -> Collection.o_at o = None ->
  let st := foldl (Collection.set_turn Sync.id_name o) (Collection.mkSet c [] [] [] []) args in
  (Collection.set Sync.id_name o args c).1 = finished st.
Proof.
  intros Ho Ha. cbv zeta. unfold Collection.set. set (st := foldl _ _ _). rewrite Ho. cbn [fst]. unfold Collection.put_models.
  destruct (Collection.s_toAdd st) eqn:E, (Collection.s_order st) eqn:E2; unfold finished, put_new; rewrite E, ?Ho, ?Ha; try done.
  cbn. rewrite app_nil_r, Nat.add_0_r. by destruct (Collection.s_coll st).
Qed.

(** ** Each operation *)

(** A new user of the page. *)
Definition add_user (l : LoginState) (given : attrs) : LoginState :=
  mkLogin (lg_users l ++ [mkUser (lg_next_cid l) given]) (S (lg_next_cid l)) (lg_jar l) (lg_url l) (lg_username l) (lg_password l).
Definition with_users (f : list User -> list User) (l : LoginState) : LoginState :=
  mkLogin (f (lg_users l)) (lg_next_cid l) (lg_jar l) (lg_url l) (lg_username l) (lg_password l).

Lemma holds_appended c l given : holds c l -> plain_attrs given -> holds (appended c given) (add_user l given).
Proof.
  intros [H1 H2 H3 H4] [Hw Hi]. destruct (inv_with_obj given c H1 Hw Hi) as [Hinv _].
  apply (inv_with_ref _ (Collection.c_next c)) in Hinv as [I1 I2 I3]; [|cbn; lia].
  constructor; [constructor; [exact I1|exact I2|]| |cbn; by f_equal|].
  - cbn. rewrite length_app. cbn. by rewrite (iv_length _ H1).
  - cbn. rewrite H2, H3, fmap_app. done.
  - intros u. cbn [lg_users add_user]. rewrite elem_of_app, list_elem_of_singleton. unfold user_at. cbn [appended put_new added with_ref with_obj Collection.set_byId Collection.c_objs].
    intros [Hu| ->].
    + destruct (H4 u Hu) as (m & Em & Ek). exists m. split; [|done]. rewrite obj_get_set_ne; [done|].
      destruct (iv_objs _ H1 _ _ Em) as [(n & Hn & ->) _]. intros E%Collection.uniqueId_inj. lia.
    + cbn [us_cid us_attrs]. rewrite <- H3, obj_get_set. eexists. split; [done|]. by apply Model.new_model_spec.
Qed.

Lemma holds_all given c l : holds c l -> Forall plain_attrs given -> holds (foldl appended c given) (foldl add_user l given).
Proof. intros H Hg. revert c l H. induction Hg as [|g gs Hp _ IH]; intros c l H; [done|]. by apply IH, holds_appended. Qed.

Lemma holds_emptied c l : holds c l -> holds (Collection.reset_state c) (with_users (fun _ => []) l).
Proof.
  intros [[H1 _ _] _ H3 _]. constructor; [constructor; [exact H1|done|done]|done|exact H3|]. by intros u ?%not_elem_of_nil.
Qed.

(** [reset] and [create] put the new models at the end. *)
Lemma reset_appends l c :
  inv (Collection.reset_state c) -> Forall plain_attrs l ->
  (Collection.reset Sync.id_name (Collection.AAttrs <$> l) c).1 = foldl appended (Collection.reset_state c) l.
Proof.
  intros Hc Hl. unfold Collection.reset, Collection.add.
  pose proof (set_finished (Collection.mkOptions false false None true) (Collection.AAttrs <$> l) (Collection.reset_state c) eq_refl eq_refl) as E.
  cbv zeta in E. destruct (Collection.set _ _ _ _) as [c' ev]. cbn [fst] in *. rewrite E.
  apply (loop_plain (Collection.mkOptions false false None true) l (Collection.mkSet (Collection.reset_state c) [] [] [] [])); done.
Qed.

Lemma create_appends given c : inv c -> plain_attrs given -> (Collection.create Sync.id_name given c).1 = appended c given.
Proof.
  intros Hc [Hw Hi]. destruct (inv_with_obj given c Hc Hw Hi) as [_ Hm].
  unfold Collection.create, Collection.add. cbn [Collection.prepareModel].
  change (Collection.mkCollection _ _ _ _ _) with (with_obj given c).
  rewrite (set_finished (Collection.mkOptions false false None false)) by done. cbn [foldl]. unfold Collection.set_turn. cbn [Collection.s_coll].
  rewrite (get_fresh c given Hc Hm). cbn [Collection.prepareModel Collection.s_toAdd]. rewrite (addReference_plain _ _ Hm). done.
Qed.

(** The answer to saving a user. *)
Abbreviation given_of o := (Sync.own_props (JObj o)).

Lemma set_attrs_get o a k :
  obj_wf o -> Model.attr_get (foldl (fun a p => obj_set a p.1 (Some p.2)) a o) k = Model.after false (given_of o) a k.
Proof.
  intros Hwf. rewrite Sync.own_after. revert a. induction o as [|[j v] o IH]; intros a; [done|]. apply NoDup_cons in Hwf as [Hj Hwf].
  cbn [foldl fst snd obj_get]. rewrite (IH Hwf), Model.attr_get_set. destruct (decide (j = k)) as [->|Hne]; [|done].
  by rewrite (proj2 (obj_get_None o k)).
Qed.

(** The properties of an answer that is an object. *)
Lemma answer_props v o : Login.answer_attrs v = Some o -> Sync.own_props v = given_of o /\ Sync.isObject v = true.
Proof.
  destruct v as [| | | |l|o']; try done; intros [= <-]; [|done]. split; [|done]. cbn [Sync.own_props]. unfold Sync.indexed.
  rewrite fmap_imap. done.
Qed.

Lemma answer_plain v : Login.answer_attrs v = None -> Sync.isObject v = false.
Proof. by destruct v. Qed.

(** Nothing in the index changes: the id is not among the attributes. *)
Lemma set_on_plain cid o c :
  obj_wf o -> obj_get o (js "id") = None ->
  (Collection.set_on Sync.id_name false cid (given_of o) c).1 =
  from_option (fun m => Collection.set_objs (obj_set (Collection.c_objs c) cid (Model.set false false (given_of o) m).1) c) c
    (obj_get (Collection.c_objs c) cid).
Proof.
  intros Hwf Hid. unfold Collection.set_on. destruct (obj_get (Collection.c_objs c) cid) as [m|]; [|done]. cbn [from_option].
  assert (Hw : obj_wf (given_of o)) by (by apply Sync.own_wf).
  destruct (Model.set_spec false false (given_of o) m Hw) as (_ & _ & _ & E). cbv zeta in E.
  destruct (Model.set _ _ _ m) as [m' ev]. cbn [fst snd] in *. rewrite bool_decide_eq_false_2; [done|]. rewrite E. clear E.
  rewrite elem_of_app. intros [H|H].
  - apply list_elem_of_In, in_map_iff in H as (k & Ek & Hk). apply (app_inv_head (js "change:") k (js "id")) in Ek as ->.
    apply filter_In in Hk as [Hk%list_elem_of_In _]. unfold obj_keys in Hk. rewrite elem_of_enum_order, Sync.own_names in Hk.
    by apply obj_get_None in Hid.
  - destruct (Model.differing _ _); [by apply not_elem_of_nil in H|]. by apply list_elem_of_singleton in H.
Qed.

Lemma holds_saved c l n o :
  holds c l -> obj_wf o -> obj_get o (js "id") = None ->
  holds (Collection.set_on Sync.id_name false (uniqueId n) (given_of o) c).1
    (with_users (fmap (fun u => if Nat.eqb (us_cid u) n then Login.set_attrs o u else u)) l).
Proof.
  intros [[I1 I2 I3] H2 H3 H4] Hwf Hid. rewrite set_on_plain by done.
  assert (Hw : obj_wf (given_of o)) by (by apply Sync.own_wf).
  assert (Em : (fun u => uniqueId (us_cid u)) <$> lg_users l =
    (fun u => uniqueId (us_cid u)) <$> ((fun u => if Nat.eqb (us_cid u) n then Login.set_attrs o u else u) <$> lg_users l)).
  { rewrite <- list_fmap_compose. apply list_fmap_ext. intros i u _. cbn. by destruct (Nat.eqb _ _). }
  destruct (obj_get (Collection.c_objs c) (uniqueId n)) as [m|] eqn:E; cbn [from_option].
  - destruct (Model.set_spec false false (given_of o) m Hw) as (Hset & _). destruct (I1 _ m E) as [Hn Hmid].
    constructor; [constructor; [|exact I2|exact I3]|exact (eq_trans H2 Em)|done|].
    + cbn. intros cid m'. destruct (decide (uniqueId n = cid)) as [<-|Hne].
      * rewrite obj_get_set. intros [= <-]. split; [done|]. rewrite Hset. unfold Model.after.
        rewrite bool_decide_eq_false_2; [done|]. unfold obj_keys. rewrite elem_of_enum_order, Sync.own_names. by apply obj_get_None.
      * rewrite obj_get_set_ne by done. apply I1.
    + cbn [lg_users with_users]. intros u' (u & -> & Hu)%list_elem_of_fmap. destruct (H4 u Hu) as (m0 & E0 & Hk). unfold user_at. cbn [Collection.set_objs Collection.c_objs].
      destruct (Nat.eqb_spec (us_cid u) n) as [<-|Hne].
      * unfold Login.set_attrs. cbn [us_cid us_attrs]. rewrite obj_get_set. eexists. split; [done|]. intros k. rewrite Hset, set_attrs_get by done. unfold Model.after.
        rewrite E in E0. injection E0 as <-. by rewrite <- Hk.
      * exists m0. rewrite obj_get_set_ne by (intros ?%Collection.uniqueId_inj; congruence). done.
  - constructor; [by constructor|exact (eq_trans H2 Em)|done|]. cbn [lg_users with_users]. intros u' (u & -> & Hu)%list_elem_of_fmap.
    destruct (H4 u Hu) as (m0 & E0 & Hk). destruct (Nat.eqb_spec (us_cid u) n) as [<-|Hne]; [congruence|by exists m0].
Qed.

(** ** The page *)

Lemma plain_user u p : plain_attrs (Login.user_attrs u p).
Proof. split; [apply (bool_decide_unpack _); vm_compute; exact I|done]. Qed.

Lemma parse_users_plain o ks l : Login.parse_users o ks = inr l -> Forall plain_attrs l.
Proof.
  revert l. induction ks as [|k ks IH]; intros l; cbn [Login.parse_users]; [by intros [= <-]|].
  unfold Login.parse_user. destruct (json_parse _) as [v|]; [|done]. destruct (prop v "password") as [p|]; [|done].
  destruct (Login.parse_users o ks) as [e|us]; [done|]. intros [= <-]. constructor; [apply plain_user|by apply IH].
Qed.

Lemma parse_plain r l : Login.parse r = inr l -> Forall plain_attrs l.
Proof.
  destruct r as [| | |[]|[]|o]; try done; try (by intros [= <-]). unfold Login.parse.
  destruct (obj_get o (js "length")) as [[| |m e| | |]|]; try apply parse_users_plain. destruct (0 <? m); [done|by intros [= <-]].
Qed.

Lemma saved_wf r o : Login.ajax_success r ≫= Login.answer_attrs = Some o -> obj_wf o.
Proof.
  unfold Login.ajax_success. destruct (_ && _); [|done]. destruct (json_parse _) as [[| | |?|l|o']|] eqn:E; try done; cbn.
  - intros [= <-]. unfold obj_wf. rewrite fmap_imap. clear E. apply NoDup_alt. intros i j x Hi Hj.
    rewrite list_lookup_imap in Hi, Hj. destruct (l !! i), (l !! j); try done. cbn in *.
    rewrite <- Hi in Hj. injection Hj as Hj. apply num_to_str_inj in Hj; lia.
  - intros [= <-]. by eapply json_parse_obj.
Qed.

Lemma new_users_page l w : w_login (exec (for_each l (fun given => Login.new_user given;; mret ())) w) = foldl add_user (w_login w) l.
Proof. revert w. induction l as [|given l IH]; intros w; [done|]. cbn [for_each foldl]. exact (IH (exec (Login.new_user given) w)). Qed.

Lemma holds_step c w x : holds c (w_login w) -> plain_op x -> holds (run_coll x c) (w_login (run_page x w)).
Proof.
  intros H Hx. destruct x as [r|u h|n r]; cbn [run_coll run_page plain_op] in *.
  - pose proof (holds_emptied _ _ H) as He. unfold Login.reset_users. destruct (Login.parse r) as [e|l] eqn:E; [exact He|].
    apply parse_plain in E. rewrite reset_appends by (done || apply He).
    change (exec _ w) with (exec (for_each l (fun given => Login.new_user given;; mret ())) (exec (Login.put_users (fun _ => [])) w)).
    rewrite new_users_page. by apply holds_all.
  - unfold Sync.create. cbn [fst]. rewrite create_appends by (apply H || apply plain_user). apply holds_appended; [exact H|apply plain_user].
  - unfold Login.onUserCreated. pose proof (saved_wf r) as Hw. destruct (Login.ajax_success r) as [v|]; [|exact H].
    cbn [mbind option_bind from_option] in *. unfold Sync.save_answered.
    destruct (Login.answer_attrs v) as [o|] eqn:E; [|by rewrite (answer_plain v E)].
    destruct (answer_props v o E) as [-> ->]. apply (holds_saved c (w_login w)); [done|by apply Hw|by apply Hx].
Qed.

(** Looking a user up by name. *)
Lemma findWhere_find_user c l n :
  holds c l ->
  Collection.findWhere [(js "username", Some (JStr n))] c = (fun u => uniqueId (us_cid u)) <$> Login.find_user n (lg_users l).
Proof.
  intros [_ Hm _ Hu]. unfold Collection.findWhere, Login.find_user. rewrite Hm. clear Hm. revert Hu.
  generalize (lg_users l). intros us Hu. induction us as [|u us IH]; [done|].
  assert (E : Collection.matches [(js "username", Some (JStr n))] c (uniqueId (us_cid u)) =
    match Login.attr u "username" with Some (JStr s) => bool_decide (s = n) | _ => false end).
  { destruct (Hu u ltac:(left)) as (m & Em & Ek). unfold Collection.matches. rewrite Em.
    change (obj_keys _) with [js "username"]. cbn [forallb]. rewrite andb_true_r, Ek.
    change (Model.attr_get [(js "username", Some (JStr n))] (js "username")) with (Some (JStr n)).
    assert (Ea : Model.attr_get (us_attrs u) (js "username") = Login.attr u "username").
    { unfold Model.attr_get, Login.attr. by destruct (obj_get _ _) as [[]|]. }
    rewrite Ea. destruct (Login.attr u "username") as [[| | |s| |]|];
      try (by rewrite bool_decide_eq_false_2). apply bool_decide_ext. split; congruence. }
  cbn [fmap list_fmap List.find]. rewrite E. destruct (match Login.attr u "username" with Some _ => _ | None => _ end); [done|].
  apply IH. intros v Hv. apply Hu. by right.
Qed.

Definition page (ops : list op) (w : World) : World := foldl (fun w x => run_page x w) w ops.
Definition users_collection (ops : list op) (c : collection) : collection := foldl (fun c x => run_coll x c) c ops.

Lemma holds_run ops c w : holds c (w_login w) -> Forall plain_op ops -> holds (users_collection ops c) (w_login (page ops w)).
Proof. intros H Hx. revert c w H. induction Hx as [|x ops Hp _ IH]; intros c w H; [done|]. by apply IH, holds_step. Qed.

(** The collection before the first answer; the counter of [cid]s is the page's. *)
Definition new_collection (w : World) : collection := Collection.mkCollection [] [] 0 [] (lg_next_cid (w_login w)).

Lemma holds_new w : lg_users (w_login w) = [] -> holds (new_collection w) (w_login w).
Proof.
  intros E. constructor; [constructor; cbn; [by intros ??|by intros ??|done]|by rewrite E|done|]. rewrite E. by intros u ?%not_elem_of_nil.
Qed.

(** The requests. *)
Lemma holds_cids c w : holds c (w_login w) -> Login.cids_ok w.
Proof.
  intros H. apply Forall_forall. intros u Hu. destruct (h_users _ _ H u Hu) as (m & Em & _).
  destruct (iv_objs _ (h_inv _ _ H) _ m Em) as [(n & Hn & E%Collection.uniqueId_inj) _]. rewrite <- (h_next _ _ H). lia.
Qed.

Lemma create_request c w u h :
  holds c (w_login w) ->
  exists x doc, (Sync.create user_toJSON users_url (Login.user_attrs (Some u) (Some (JStr h))) c).2 = Some (inr (Sync.json_request (js "POST") users_url doc)) /\
    sy_log (w_sys (run_page (OCreate u h) w)) = sy_log (w_sys w) ++ [EHttp x "POST" users_url (stringify doc)].
Proof.
  intros H. set (given := Login.user_attrs (Some u) (Some (JStr h))). pose proof (plain_user (Some u) (Some (JStr h))) as Hp. fold given in Hp.
  destruct (Model.new_model_spec given (proj1 Hp)) as [_ Hg].
  destruct (Login.users_create_exec w u h (holds_cids c w H)) as (w' & x & E & _ & _ & _ & Hlog).
  exists x, (user_toJSON (Model.new_model given [])). split.
  - unfold Sync.create. cbn [snd]. rewrite create_appends by (apply H || done). unfold Sync.model_at.
    cbn [appended put_new added with_ref with_obj Collection.set_byId Collection.c_objs].
    rewrite obj_get_set. cbn [fmap option_fmap option_map]. rewrite Sync.save_new; [done|discriminate|]. unfold Sync.isNew, Sync.has. by rewrite Hg.
  - cbn [run_page]. unfold exec. rewrite E. cbn [fst]. rewrite Hlog. unfold user_toJSON. by rewrite !Hg.
Qed.

(** C30: the page's list of users implements the collection [UsersModel].  Whatever answers of [fetch] arrive, good or
    not, and whatever users are created and saved, the page has the users that the Backbone collection has, with the same [cid]s,
    in the same order and with the same attributes, and [findWhere] by name finds the user that the page finds.  The
    requests are those that [Backbone.sync] makes: the page asks for the users with that of [fetch], and to create one more
    sends what [create] sends. *)
Theorem users_refine_collection ops w :
  lg_users (w_login w) = [] -> Forall plain_op ops ->
  let c := users_collection ops (new_collection w) in
  let us := Login.users_of (page ops w) in
  Collection.c_models c = (fun u => uniqueId (us_cid u)) <$> us /\
  Collection.c_length c = length us /\
  (forall k, Collection.pluck k c = (fun u => Model.attr_get (us_attrs u) k) <$> us) /\
  (forall n, Collection.findWhere [(js "username", Some (JStr n))] c = (fun u => uniqueId (us_cid u)) <$> Login.find_user n us) /\
  (forall u h, exists x doc,
     (Sync.create user_toJSON users_url (Login.user_attrs (Some u) (Some (JStr h))) c).2 = Some (inr (Sync.json_request (js "POST") users_url doc)) /\
     sy_log (w_sys (run_page (OCreate u h) (page ops w))) = sy_log (w_sys (page ops w)) ++ [EHttp x "POST" users_url (stringify doc)]) /\
  Sync.fetch_all users_url = inr (Sync.bare_request (js "GET") users_url) /\
  exists x, sy_log (w_sys (exec Login.initialize w)) = sy_log (w_sys w) ++ [EHttp x "GET" users_url []].
Proof.
  intros He Hx c us. pose proof (holds_run ops _ w (holds_new w He) Hx) as H. fold c in H. split_and!.
  - apply H.
  - rewrite (iv_length _ (h_inv _ _ H)), (h_models _ _ H). apply length_fmap.
  - intros k. unfold Collection.pluck. rewrite (h_models _ _ H), <- list_fmap_compose. apply list_fmap_ext.
    intros i u Hu%list_elem_of_lookup_2. destruct (h_users _ _ H u Hu) as (m & Em & Ek). unfold compose. rewrite Em. apply Ek.
  - intros n. by apply findWhere_find_user.
  - intros u h. by apply create_request.
  - done.
  - by eexists.
Qed.

End Users.
