(* ===== verification/Xref.v ===== *)
(** * Cross-references ([computeXref] and the dialog of [files/graph.js])

    The agents of the server name their categories; two categories are
    cross-referenced when an agent has both.  The dialog offers the categories
    that end the name of a counter on the grid, and replaces them by others. *)

From stdpp Require Import sets.
From S2P Require Import Prelude JsString JsObject JsNumber Json UriCodec World JsValue Shell Loader Grid TimeRange Dashboard Bookmark.
Import Shell Grid TimeRange JsValue Dashboard Bookmark.
Import (hints) Loader.

Local Open Scope Z_scope.

Module Xref.

(** ** [computeXref] *)

(** An array used as a table: the names it inherits are those of objects and of [Array.prototype], and [length]. *)
Definition array_names : list jsstr :=
  object_prototype ++
  [js "length"; js "concat"; js "every"; js "filter"; js "forEach"; js "indexOf"; js "join"; js "lastIndexOf"; js "map";
   js "pop"; js "push"; js "reduce"; js "reduceRight"; js "reverse"; js "shift"; js "slice"; js "some"; js "sort";
   js "splice"; js "unshift"; js "entries"; js "keys"; js "values"; js "find"; js "findIndex"; js "fill";
   js "copyWithin"; js "includes"; js "flat"; js "flatMap"; js "at"; js "findLast"; js "findLastIndex";
   js "toReversed"; js "toSorted"; js "toSpliced"; js "with"].

(** A category that is an ordinary property of an array. *)
Definition plain (c : jsstr) : bool := negb (bool_decide (is_index c)) && negb (bool_decide (c ∈ array_names)).

Abbreviation Table := (list (jsstr * list (jsstr * unit))).

(** The inner loop: every category of the agent is set in the row. *)
Definition add_row (cats : list jsstr) (row : list (jsstr * unit)) : list (jsstr * unit) :=
  foldl (fun r c2 => obj_set r c2 ()) row cats.

(** The loop over the categories of an agent. *)
Definition add_agent (ret : Table) (cats : list jsstr) : Table :=
  foldl (fun ret c => obj_set ret c (add_row cats (default [] (obj_get ret c)))) ret cats.

(** The rows without their own category; [sort] moves no property that is not an index. *)
Definition finish_rows (ret : Table) : Table := (fun p => (p.1, obj_delete p.2 p.1)) <$> ret.

(** [computeXref] on the category lists of the agents; [None] when a category is an
    index or an inherited name of arrays, where the table is not one. *)
Definition computeXref (agents : list (list jsstr)) : option Table :=
  if forallb (forallb plain) agents then Some (finish_rows (foldl add_agent [] agents)) else None.

(** [xx["istatd_categories"].split(",")] of the agents that have them; [None] for a [TypeError]. *)
Definition agent_categories (v : json) : option (list (list jsstr)) :=
  match v with
  | JObj o => match obj_get o (js "istatd_categories") with
              | None => Some []
              | Some (JStr s) => Some [split_char (ch ",") s]
              | Some _ => None
              end
  | JArr _ => Some []
  | _ => None
  end.
Definition agents_categories (v : option json) : option (list (list jsstr)) :=
  match v with
  | Some (JArr l) => (fun ll => concat ll) <$> mapM agent_categories l
  | _ => Some []
  end.

(** ** The options *)

Definition getGraphedCounters (w : World) : list jsstr :=
  arrayKeys (foldl (fun o path => obj_set o path ()) []
    (gg_allGraphs (w_grid w) ≫= fun g => getSeries (surface_of w g))).

(** [counter.substr(-1 * category.length) == category] *)
Definition ends_with (category counter : jsstr) : bool := bool_decide (substr_last (length category) counter = category).

Definition populateXrefFrom (xrefs : Table) (w : World) : list jsstr :=
  List.filter (fun cat => existsb (ends_with cat) (getGraphedCounters w)) (obj_keys xrefs).

Definition populateXrefTo (xrefs : Table) (from : jsstr) : list jsstr :=
  sort_strings (obj_keys (default [] (obj_get xrefs from))).

(** ** The dialog *)

Definition xrefSelectDialog : M unit :=
  dom ".dialog.prompt" "detach" [];;
  set_dialog (Some DXref);;
  dom ".dialog.prompt" "prependTo" [AStr (js "body")];;
  x ← new_xhr XXref;
  emit (EHttp x "GET" (js "/?a=*") []).

Definition xref_change : M unit := xrefSelectDialog.

(** The answer of the server: the table and the options of the first list.  The handler is not guarded. *)
Definition onXref (responseText : jsstr) : M (Table * list jsstr) :=
  match json_parse responseText with
  | None => throw SyntaxError
  | Some data =>
      agents ← prop_of data "agents";
      match agents_categories agents with
      | None => throw TypeError
      | Some cats =>
          match computeXref cats with
          | Some x => opts ← get (populateXrefFrom x); mret (x, opts)
          | None => throw (Outside "categories")
          end
      end
  end.

(** [eHandler]: [selected] are the texts of the selected options of the second list, the
    first of them at [selectedIndex]. *)
Definition xref_submit (change : bool) (from : jsstr) (selected : list jsstr) : M unit :=
  guarded "" (
    (if change then
       match selected with
       | to :: _ => change_counters (from ++ js ":" ++ to) false
       | [] => throw TypeError
       end
     else for_each selected (fun to => change_counters (from ++ js ":" ++ to) true));;
    dialog_close).

(** ** Lemmas *)

Lemma add_row_get cats row c : obj_get (add_row cats row) c <> None <-> c ∈ cats \/ obj_get row c <> None.
Proof.
  unfold add_row. revert row; induction cats as [|d cats IH]; intros row; cbn.
  { rewrite elem_of_nil. tauto. }
  rewrite IH, elem_of_cons. destruct (decide (d = c)) as [->|Hne].
  - rewrite obj_get_set. intuition congruence.
  - rewrite obj_get_set_ne by done. intuition congruence.
Qed.

(** The table as a relation: [c2] is in the row of [c1]. *)
Definition related (t : Table) (c1 c2 : jsstr) : Prop := exists row, obj_get t c1 = Some row /\ obj_get row c2 <> None.

Lemma add_agent_get ret cats c :
  obj_get (add_agent ret cats) c <> None <-> c ∈ cats \/ obj_get ret c <> None.
Proof.
  unfold add_agent. generalize cats at 2 3 as l. intros l. revert ret; induction l as [|d l IH]; intros ret; cbn.
  { rewrite elem_of_nil. tauto. }
  rewrite IH, elem_of_cons. destruct (decide (d = c)) as [->|Hne].
  - rewrite obj_get_set. intuition congruence.
  - rewrite obj_get_set_ne by done. intuition congruence.
Qed.

Lemma add_agent_related ret cats c1 c2 :
  related (add_agent ret cats) c1 c2 <-> (c1 ∈ cats /\ c2 ∈ cats) \/ related ret c1 c2.
Proof.
  unfold add_agent. generalize cats at 2 3 as l. intros l. revert ret; induction l as [|d l IH]; intros ret; cbn.
  { rewrite elem_of_nil. tauto. }
  rewrite IH, elem_of_cons. destruct (decide (d = c1)) as [->|Hne].
  - assert (Hs : related (obj_set ret c1 (add_row cats (default [] (obj_get ret c1)))) c1 c2 <-> c2 ∈ cats \/ related ret c1 c2).
    { unfold related. rewrite obj_get_set. split.
      - intros (row & [= <-] & Hr). apply add_row_get in Hr as [Hr|Hr]; [by left|]. right.
        destruct (obj_get ret c1) as [row|]; cbn in Hr; [eauto|done].
      - intros Hr. eexists. split; [done|]. apply add_row_get. destruct Hr as [Hr|(row & Er & Hr)]; [by left|].
        right. by rewrite Er. }
    rewrite Hs. tauto.
  - assert (Hs : forall row, related (obj_set ret d row) c1 c2 <-> related ret c1 c2).
    { intros row. unfold related. by rewrite obj_get_set_ne. }
    rewrite Hs. intuition congruence.
Qed.

Lemma agents_related agents ret c1 c2 :
  related (foldl add_agent ret agents) c1 c2 <-> (exists cats, cats ∈ agents /\ c1 ∈ cats /\ c2 ∈ cats) \/ related ret c1 c2.
Proof.
  revert ret; induction agents as [|cats agents IH]; intros ret; cbn.
  { split; [by right|]. intros [(? & ?%not_elem_of_nil & _)|]; done. }
  rewrite IH, add_agent_related. setoid_rewrite elem_of_cons. split.
  - intros [(l & ? & ? & ?)|[[? ?]|?]]; [left; eauto|left; eauto|by right].
  - intros [(l & [->|?] & ? & ?)|?]; [right; by left|left; eauto|right; by right].
Qed.

Lemma finish_rows_get ret c : obj_get (finish_rows ret) c = (fun row => obj_delete row c) <$> obj_get ret c.
Proof.
  unfold finish_rows. induction ret as [|[k row] ret IH]; [done|]. cbn. destruct (decide (k = c)) as [->|]; [done|apply IH].
Qed.

Lemma series_names_get l (o : list (jsstr * unit)) p :
  obj_get (foldl (fun o path => obj_set o path ()) o l) p <> None <-> p ∈ l \/ obj_get o p <> None.
Proof. exact (add_row_get l o p). Qed.

Lemma elem_of_sort_strings p l : p ∈ sort_strings l <-> p ∈ l.
Proof. unfold sort_strings. by rewrite merge_sort_Permutation. Qed.

(** ** Properties *)

(** C38: the cross-references.  For ordinary category names, [computeXref] relates two different categories
    exactly when some agent lists both; the second list of the dialog holds the related categories, so the
    relation it offers is symmetric and never offers a category for itself. *)
Theorem xref_relates_shared agents t :
  computeXref agents = Some t ->
  forall c1 c2, c2 ∈ populateXrefTo t c1 <-> c1 <> c2 /\ exists cats, cats ∈ agents /\ c1 ∈ cats /\ c2 ∈ cats.
Proof.
  unfold computeXref. destruct (forallb _ agents); [|done]. intros [= <-] c1 c2. unfold populateXrefTo.
  rewrite elem_of_sort_strings, elem_of_obj_keys, finish_rows_get.
  pose proof (agents_related agents [] c1 c2) as Hr. unfold related in Hr.
  destruct (obj_get (foldl add_agent [] agents) c1) as [row|] eqn:E; cbn.
  - destruct (decide (c1 = c2)) as [<-|Hne].
    + rewrite obj_get_delete. split; [done|by intros []].
    + rewrite obj_get_delete_ne by done. split.
      * intros H. split; [done|]. destruct (proj1 Hr) as [H'|(? & [=] & _)]; [eauto|done].
      * intros [_ H]. destruct (proj2 Hr (or_introl H)) as (row' & [= <-] & H'). done.
  - split; [done|]. intros [_ H]. by destruct (proj2 Hr (or_introl H)) as (row' & [=] & _).
Qed.

(** The first list of the dialog offers a category exactly when an agent has it and it ends the name of a counter on
    some graph of the grid. *)
Theorem xref_offers_suffixes agents t w cat :
  computeXref agents = Some t -> cat <> [] ->
  cat ∈ populateXrefFrom t w <->
  (exists cats, cats ∈ agents /\ cat ∈ cats) /\
  exists g counter pre, g ∈ gg_allGraphs (w_grid w) /\ counter ∈ getSeries (surface_of w g) /\ counter = pre ++ cat.
Proof.
  unfold computeXref. destruct (forallb _ agents); [|done]. intros [= <-] Hne. unfold populateXrefFrom.
  rewrite list_elem_of_In, filter_In, <- list_elem_of_In, elem_of_obj_keys, finish_rows_get.
  assert (Hk : (fun row => obj_delete row cat) <$> obj_get (foldl add_agent [] agents) cat <> None <->
    exists cats, cats ∈ agents /\ cat ∈ cats).
  { rewrite fmap_None. assert (H : forall ret, obj_get (foldl add_agent ret agents) cat <> None <->
      (exists cats, cats ∈ agents /\ cat ∈ cats) \/ obj_get ret cat <> None).
    { induction agents as [|cats agents IH]; intros ret; cbn.
      { split; [by right|]. intros [(? & ?%not_elem_of_nil & _)|]; done. }
      rewrite IH, add_agent_get. setoid_rewrite elem_of_cons. split.
      - intros [(l & ? & ?)|[?|?]]; [left; eauto|left; eauto|by right].
      - intros [(l & [->|?] & ?)|?]; [right; by left|left; eauto|right; by right]. }
    rewrite H. cbn. intuition congruence. }
  rewrite Hk, existsb_exists. apply and_iff_compat_l.
  assert (Hs : forall counter, ends_with cat counter = true <-> exists pre, counter = pre ++ cat).
  { intros counter. unfold ends_with, substr_last. rewrite bool_decide_eq_true. destruct (length cat) as [|n] eqn:El.
    { by destruct cat. } rewrite <- El. split.
    - intros H. exists (take (length counter - length cat) counter). 
      rewrite <- (take_drop (length counter - length cat) counter) at 1. by rewrite H.
    - intros [pre ->]. rewrite length_app. replace (length pre + length cat - length cat)%nat with (length pre) by lia.
      apply drop_app_length. }
  split.
  - intros (counter & Hin%list_elem_of_In & He). apply Hs in He as [pre He]. unfold getGraphedCounters, arrayKeys in Hin.
    rewrite elem_of_sort_strings, elem_of_obj_keys, series_names_get in Hin. destruct Hin as [Hin|Hin]; [|done].
    apply list_elem_of_bind in Hin as (g & Hc & Hg). by exists g, counter, pre.
  - intros (g & counter & pre & Hg & Hc & ->). exists (pre ++ cat). split; [|apply Hs; by eexists].
    apply list_elem_of_In. unfold getGraphedCounters, arrayKeys.
    rewrite elem_of_sort_strings, elem_of_obj_keys, series_names_get. left. apply list_elem_of_bind. eauto.
Qed.

(** A grid with one counter, and two agents. *)
Definition xref_agents : list (list jsstr) := [[js "host.web1"; js "class.web"]; [js "host.db1"; js "class.db"]].
Definition xref_world : World := exec (open_graph noBars [js "cpu.class.web"]) sample_world.

Lemma xref_relates_shared_witness :
  exists t, computeXref xref_agents = Some t /\ (js "host.web1" ∈ populateXrefTo t (js "class.web")).
Proof.
  eexists. split; [vm_compute; reflexivity|].
  apply (xref_relates_shared xref_agents _ ltac:(vm_compute; reflexivity)).
  split; [discriminate|]. exists [js "host.web1"; js "class.web"]. split; [left|]. split; [right; left|left].
Defined.

Lemma xref_offers_suffixes_witness :
  exists t, computeXref xref_agents = Some t /\ (js "class.web" ∈ populateXrefFrom t xref_world).
Proof.
  eexists. split; [vm_compute; reflexivity|].
  apply (xref_offers_suffixes xref_agents _ xref_world (js "class.web") ltac:(vm_compute; reflexivity)); [discriminate|].
  split; [exists [js "host.web1"; js "class.web"]; split; [left|right; left]|].
  exists 0%nat, (js "cpu.class.web"), (js "cpu."). split; [vm_compute; left|]. split; [vm_compute; left|reflexivity].
Defined.

End Xref.
