(* ===== verification/Invariant.v ===== *)
(** * Invariants of the whole application

    [AppInv P] is what an invariant [P] of the page must satisfy: it does not
    depend on the dialogs, the views, the login, the dashboards, the layout and
    the sizes, and the primitive operations of the loader, the grid, the time
    range and the browser keep it.  Every operation of the application then
    keeps [P]: the lemmas [inv_*] build this up component by component.  The
    instances are the timers and requests ([sys_ok]) and the grid ([grid_ok]). *)

From S2P Require Import Prelude JsString JsObject JsNumber Json JsValue UriCodec Cookie World Shell Loader Grid TimeRange Dates Plot CounterTree Views Dashboard Bookmark Login Xref.
Import Shell Interval Grid TimeRange Dates Plot Dashboard Bookmark Xref.

Local Open Scope Z_scope.

Module Invariant.

Definition paint_code (c : TimerCode) : Prop := match c with TPaint _ | TPaintVisible _ => True | _ => False end.
Definition other_xhr (c : XhrCode) : Prop := match c with XLoader _ _ => False | _ => True end.
Definition keeps_auto (f : TimeState -> TimeState) : Prop :=
  forall t, isAutoRefresh (f t) = isAutoRefresh t /\ autoRefreshTimer (f t) = autoRefreshTimer t.

Class BaseInv (P : World -> Prop) : Prop := {
  ai_ui :: Stable P set_ui;
  ai_views :: Stable P set_views;
  ai_login :: Stable P set_login;
  ai_dash :: Stable P set_dash;
  ai_page :: Stable P set_page;
  ai_size :: Stable P upd_size;
  ai_maxSamples :: Stable P upd_maxSamples;
  ai_sizeDropdown :: Stable P upd_sizeDropdown;
  ai_time f : keeps_auto f -> preserves P (modify (set_time f));
  ai_emit e : preserves P (emit e);
  ai_hash h : preserves P (set_hash h);
  ai_timeout c ms : paint_code c -> preserves P (setTimeout c ms);
  ai_xhr c : other_xhr c -> preserves P (new_xhr c);
  ai_get ks mt ms g sk : preserves P (Loader.addToNextGet ks mt ms g sk);
  ai_auto r : preserves P (setAutoRefresh r) }.

Class AppInv (P : World -> Prop) : Prop := {
  ai_base :: BaseInv P;
  ai_render g sk d : preserves P (renderData g sk d);
  ai_toggle g path : preserves P (toggleSeries g path);
  ai_close g : preserves P (close g);
  ai_unselect : preserves P (modify (set_grid (set_selected None)));
  ai_newGraph : preserves P newGraph;
  ai_newSelect : preserves P (nu ← newGraph; select nu);
  ai_click g w : g ∈ gg_allGraphs (w_grid w) -> P w -> P (exec (surface_click g) w);
  ai_format g f : preserves P (update g (set_format f));
  ai_repaint g : preserves P (repaint g) }.

Create HintDb keep discriminated.
#[export] Hint Resolve ai_emit ai_hash ai_get ai_auto ai_render ai_toggle ai_close ai_unselect ai_newGraph ai_newSelect
  ai_format ai_repaint : keep.

Section Basic.
Context (P : World -> Prop) `{!BaseInv P}.

Lemma inv_dom t m args : preserves P (dom t m args).
Proof. apply ai_emit. Qed.
Lemma inv_ui f : preserves P (modify (set_ui f)).
Proof. apply pres_modify. intros w. apply stable. Qed.
Lemma inv_size s : preserves P (modify (set_size s)).
Proof. apply pres_modify. intros w Hw. exact (stable (fun _ => s) w Hw). Qed.
Lemma inv_maxSamples m : preserves P (modify (set_maxSamples m)).
Proof. apply pres_modify. intros w Hw. exact (stable (fun _ => m) w Hw). Qed.
Lemma inv_sizeDropdown d : preserves P (modify (set_sizeDropdown d)).
Proof. apply pres_modify. intros w Hw. exact (stable (fun _ => d) w Hw). Qed.
(** ** The shell *)

Lemma inv_errorDialog m : preserves P (errorDialog m).
Proof.
  unfold errorDialog, show_error, set_nesting, dom.
  repeat (apply pres_bind; [|intros _]); first [apply inv_ui | apply ai_emit].
Qed.
Lemma inv_errorText s : preserves P (errorText s).
Proof. apply inv_errorDialog. Qed.

Lemma inv_guard {A} name (f : M A) : preserves P f -> preserves P (guard name f).
Proof.
  intros Hf w Hw. specialize (Hf w Hw). unfold exec, guard in *. destruct (f w) as [w' [a|e]]; [done|].
  apply (pres_bind P (errorDialog (EGuarded name e)) (fun _ => mret None)); [apply inv_errorDialog|intros; apply pres_ret|done].
Qed.
Lemma inv_guarded name (f : M unit) : preserves P f -> preserves P (guarded name f).
Proof. intros Hf. unfold guarded. apply pres_bind; [by apply inv_guard|intros; apply pres_ret]. Qed.

End Basic.

#[export] Hint Resolve inv_dom inv_ui inv_size inv_maxSamples inv_sizeDropdown inv_errorDialog inv_errorText : keep.

(** Split a computation into its parts and close each with the database. *)
Ltac keep_leaf :=
  lazymatch goal with
  | |- preserves _ (modify (set_time _)) => apply ai_time; first [done | by intros []]
  | |- preserves _ (modify (set_views _)) => apply pres_modify; intros ? ?; by apply stable
  | |- preserves _ (modify (set_login _)) => apply pres_modify; intros ? ?; by apply stable
  | |- preserves _ (modify (set_dash _)) => apply pres_modify; intros ? ?; by apply stable
  | |- preserves _ (modify (set_page _)) => apply pres_modify; intros ? ?; by apply stable
  | |- preserves _ (setTimeout _ _) => apply ai_timeout; exact I
  | |- preserves _ (new_xhr _) => apply ai_xhr; exact I
  | |- preserves _ (mret _) => apply pres_ret
  | |- preserves _ (throw _) => apply pres_throw
  | |- preserves _ (get _) => apply pres_get
  | |- preserves _ getAdjustedNow => apply pres_get
  | |- preserves _ pageIsHidden => apply pres_get
  | |- _ => solve [eauto with keep typeclass_instances]
  end.
Ltac keep :=
  repeat lazymatch goal with
  | |- preserves _ (mbind _ _) => first [solve [eauto with keep typeclass_instances] | apply pres_bind; [|intros ?]]
  | |- preserves _ (for_each _ _) => apply pres_for_each; intros ?
  | |- preserves _ (match ?x with _ => _ end) => destruct x
  | |- preserves _ (guarded _ _) => apply inv_guarded
  | |- preserves _ (guard _ _) => apply inv_guard
  end; try keep_leaf.

Section Shell.
Context (P : World -> Prop) `{!BaseInv P}.

Lemma inv_new_token : preserves P new_token.
Proof. intros w Hw. unfold exec. cbn. by apply stable. Qed.
Hint Resolve inv_new_token : keep.
Lemma inv_begin : preserves P begin.
Proof. unfold begin, bar_css, set_nesting. keep. Qed.
Lemma inv_finish t : preserves P (finish t).
Proof. unfold finish, bar_css, set_nesting. keep. Qed.
Lemma inv_anim_done k : preserves P (anim_done k).
Proof. unfold anim_done, bar_css. keep. Qed.
Lemma inv_promptDialog s cb : preserves P (promptDialog s cb).
Proof. unfold promptDialog, set_dialog. keep. Qed.
Lemma inv_choiceDialog s o cb : preserves P (choiceDialog s o cb).
Proof. unfold choiceDialog, set_dialog. keep. Qed.
Lemma inv_dialog_close : preserves P dialog_close.
Proof. unfold dialog_close, set_dialog. keep. Qed.
Hint Resolve inv_begin inv_finish inv_anim_done inv_promptDialog inv_choiceDialog inv_dialog_close : keep.
Lemma inv_prompt_submit cb : preserves P cb -> preserves P (prompt_submit cb).
Proof. intros H. unfold prompt_submit. keep. Qed.
Lemma inv_choice_submit cb : preserves P cb -> preserves P (choice_submit cb).
Proof. intros H. unfold choice_submit. keep. Qed.

(** ** The grid *)

Lemma inv_surface g : preserves P (surface g).
Proof. unfold surface. keep. Qed.
Hint Resolve inv_surface : keep.
Lemma inv_reload g : preserves P (reload g).
Proof. unfold reload. keep. Qed.
Hint Resolve inv_reload : keep.
Lemma inv_reloadAll : preserves P reloadAll.
Proof. unfold reloadAll. keep. Qed.
Lemma inv_repaintAll : preserves P repaintAll.
Proof.
  unfold repaintAll. keep. match goal with |- preserves _ (repaint_from _ ?gs) => generalize gs 1 end.
  intros gs. induction gs as [|g gs IH]; intros v; cbn [repaint_from]; keep.
Qed.

End Shell.

#[export] Hint Resolve inv_new_token inv_begin inv_finish inv_anim_done inv_promptDialog inv_choiceDialog inv_dialog_close
  inv_surface inv_reload inv_reloadAll inv_repaintAll : keep.

(** An invariant that does not depend on the graphs needs only the base. *)
Lemma AppInv_stable P `{!BaseInv P} `{!Stable P set_grid} `{!Stable P set_graphs} : AppInv P.
Proof.
  assert (Hg : forall f, preserves P (modify (set_grid f))) by (intros; apply pres_modify; intros w; apply stable).
  assert (Hs : forall f, preserves P (modify (set_graphs f))) by (intros; apply pres_modify; intros w; apply stable).
  assert (Hu : forall g f, preserves P (update g f)) by (intros; apply Hs).
  assert (Hr : preserves P restoreOriginalInterval) by (apply ai_time; by intros []).
  assert (Hd : forall g, preserves P (destroyDygraph g)) by (intros; unfold destroyDygraph; keep).
  assert (Hsel : forall g, preserves P (select g)) by (intros; unfold select; keep).
  assert (Hnew : preserves P newGraph) by (unfold newGraph, new_GraphSurface, add; keep).
  constructor; intros.
  - exact _.
  - unfold renderData. keep.
  - unfold toggleSeries. keep.
  - unfold close, remove. keep.
  - apply Hg.
  - exact Hnew.
  - apply pres_bind; [exact Hnew|intros; apply Hsel].
  - revert w H H0. intros w _. change (P w -> P (exec (surface_click g) w)). revert w.
    change (preserves P (surface_click g)). unfold surface_click. keep.
  - apply Hu.
  - unfold repaint, repaint_body, fade. keep.
Qed.

Section Operations.
Context (P : World -> Prop) `{!AppInv P}.

Lemma inv_clear : preserves P clear.
Proof. unfold clear. keep. Qed.
Lemma inv_grid_click : preserves P grid_click.
Proof. unfold grid_click. keep. Qed.
Lemma inv_showSettings g : preserves P (showSettings g).
Proof. unfold showSettings. keep. Qed.
Lemma inv_toggleSummary g : preserves P (toggleSummary g).
Proof. unfold toggleSummary. keep. Qed.
Hint Resolve inv_clear inv_grid_click inv_showSettings inv_toggleSummary : keep.

(** ** The time range and the layout *)

Lemma inv_calcReloadInterval : preserves P calcReloadInterval.
Proof. unfold calcReloadInterval. keep. Qed.
Lemma inv_restoreOriginalInterval : preserves P restoreOriginalInterval.
Proof. unfold restoreOriginalInterval. keep. Qed.
Hint Resolve inv_calcReloadInterval inv_restoreOriginalInterval : keep.
Lemma inv_refresh : preserves P refresh.
Proof. unfold refresh, refresh_body. keep. Qed.
Hint Resolve inv_refresh : keep.
Lemma inv_auto_refresh : preserves P auto_refresh.
Proof. unfold auto_refresh. keep. Qed.
Lemma inv_zoomOutIntervals : preserves P zoomOutIntervals.
Proof. unfold zoomOutIntervals, fade. keep. Qed.
Hint Resolve inv_zoomOutIntervals : keep.
Lemma inv_zoomCallback a b d : preserves P (zoomCallback a b d).
Proof. unfold zoomCallback, fade. keep. Qed.
Lemma inv_dblclick : preserves P dblclick.
Proof. unfold dblclick. keep. Qed.
Lemma inv_set_interval i : preserves P (set_interval i).
Proof. unfold set_interval. keep. Qed.
Lemma inv_put_slider f : preserves P (put_slider f).
Proof. unfold put_slider. keep. Qed.
Hint Resolve inv_set_interval inv_put_slider : keep.
Lemma inv_setManual m : preserves P (setManual m).
Proof. unfold setManual. keep. Qed.
Hint Resolve inv_setManual : keep.
Lemma inv_moveThumb i : preserves P (moveThumb i).
Proof. unfold moveThumb. keep. Qed.
Lemma inv_update_index i : preserves P (update_index i).
Proof. unfold update_index, slider. keep. Qed.
Hint Resolve inv_moveThumb inv_update_index : keep.
Lemma inv_setIndex i : preserves P (setIndex i).
Proof. unfold setIndex. keep. Qed.
Lemma inv_slider_move l x : preserves P (slider_move l x).
Proof. unfold slider_move, slider. keep. Qed.
Lemma inv_slider_mouseup l x : preserves P (slider_mouseup l x).
Proof. unfold slider_mouseup, slider. keep. Qed.
Lemma inv_resetDateRange a b : preserves P (resetDateRange a b).
Proof. unfold resetDateRange. keep. Qed.
Lemma inv_documentResize : preserves P documentResize.
Proof. unfold documentResize. keep. Qed.
Hint Resolve inv_setIndex inv_resetDateRange inv_documentResize : keep.
Lemma inv_setGraphSize s : preserves P (setGraphSize s).
Proof. unfold setGraphSize. keep. Qed.
Hint Resolve inv_setGraphSize : keep.
Lemma inv_graph_size a b i : preserves P (graph_size a b i).
Proof. unfold graph_size, unmark_sizes, mark_size, put_chart_size. keep. Qed.
Lemma inv_size_setCustom s : preserves P (size_setCustom s).
Proof. unfold size_setCustom, setCustom_parts, unmark_sizes, put_chart_size. keep. Qed.
Lemma inv_size_custom : preserves P size_custom.
Proof. unfold size_custom. keep. Qed.
Lemma inv_splitter_move x : preserves P (splitter_move x).
Proof. unfold splitter_move, set_layout. keep. Qed.
Lemma inv_toggle_lefttab : preserves P toggle_lefttab.
Proof. unfold toggle_lefttab, set_layout. keep. Qed.
Lemma inv_on_visibility : preserves P on_visibility.
Proof. unfold on_visibility, set_layout. keep. Qed.
Lemma inv_select_daterange : preserves P select_daterange.
Proof. unfold select_daterange, promptDialogN, set_dialog. keep. Qed.
Lemma inv_daterange_submit `{LocalZone} a b c : preserves P (daterange_submit a b c).
Proof. unfold daterange_submit, daterange_answer. keep. Qed.
Lemma inv_paint_visible g : preserves P (paint_visible g).
Proof. unfold paint_visible. keep. Qed.

(** ** Counters on graphs *)

Lemma inv_toggleGraphing path k : preserves P (toggleGraphing path k).
Proof. unfold toggleGraphing. keep. Qed.
Hint Resolve inv_toggleGraphing : keep.
Lemma inv_select_node f l o i ps : preserves P (CounterTree.select_node f l o i ps).
Proof. unfold CounterTree.select_node. keep. Qed.
Lemma inv_change_counters s k : preserves P (change_counters s k).
Proof. unfold change_counters, change_graph, visit_path. keep. Qed.
Hint Resolve inv_change_counters : keep.
Lemma inv_xref_submit c f l : preserves P (xref_submit c f l).
Proof. unfold xref_submit. keep. Qed.
Lemma inv_xref_change : preserves P xref_change.
Proof. unfold xref_change, xrefSelectDialog, set_dialog. keep. Qed.
Lemma inv_onXref s : preserves P (onXref s).
Proof. unfold onXref, prop_of. keep. Qed.

(** ** Dashboards and bookmarks *)

Lemma inv_loadSettings s f cb : preserves P (loadSettings s f cb).
Proof. unfold loadSettings. keep. Qed.
Lemma inv_saveSettings s n v cb : preserves P (saveSettings s n v cb).
Proof. unfold saveSettings. keep. Qed.
Lemma inv_updateCurrentDashboard : preserves P updateCurrentDashboard.
Proof. unfold updateCurrentDashboard. keep. Qed.
Hint Resolve inv_loadSettings inv_saveSettings inv_updateCurrentDashboard : keep.
Lemma inv_on_userDashboards c v : preserves P (on_userDashboards c v).
Proof. unfold on_userDashboards, add_item, put_dash. keep. Qed.
Hint Resolve inv_on_userDashboards : keep.
Lemma inv_dashboards_reload : preserves P dashboards_reload.
Proof. unfold dashboards_reload, put_dash. keep. Qed.
Lemma inv_load_dashboard d c cb : preserves P (load_dashboard d c cb).
Proof. unfold load_dashboard. keep. Qed.
Hint Resolve inv_dashboards_reload inv_load_dashboard inv_graph_size : keep.
Lemma inv_openDashboard s d v : preserves P (openDashboard s d v).
Proof.
  unfold openDashboard, open_rest, open_size, open_all, open_graph, open_interval, open_slider,
    setCurrentDashboard, put_dash. keep.
Qed.
Hint Resolve inv_openDashboard : keep.
Lemma inv_onLoadSettings cb r : preserves P (onLoadSettings cb r).
Proof. unfold onLoadSettings, settings_success, settings_error. keep. Qed.
Lemma inv_onSaveSettings cb d r : preserves P (onSaveSettings cb d r).
Proof. unfold onSaveSettings, save_cb, prop_of. keep. Qed.
Lemma inv_pick_dashboard n c : preserves P (pick_dashboard n c).
Proof. unfold pick_dashboard. keep. Qed.
Lemma inv_remove_dashboard n : preserves P (remove_dashboard n).
Proof. unfold remove_dashboard. keep. Qed.
Lemma inv_remove_answer n o : preserves P (remove_answer n o).
Proof. unfold remove_answer. keep. Qed.
Lemma inv_save_dashboard_named n : preserves P (save_dashboard_named n).
Proof. unfold save_dashboard_named, save_now. keep. Qed.
Lemma inv_overwrite_answer n d o : preserves P (overwrite_answer n d o).
Proof. unfold overwrite_answer, save_now. keep. Qed.
Lemma inv_save_dashboard : preserves P save_dashboard.
Proof. unfold save_dashboard. keep. Qed.
Lemma inv_gotohash : preserves P gotohash.
Proof. unfold gotohash, load_hash, load_state, load_graph. keep. Qed.
Lemma inv_packup : preserves P packup_state_as_hash.
Proof. unfold packup_state_as_hash. keep. Qed.
Hint Resolve inv_gotohash : keep.

(** ** The login and the menus *)

Lemma inv_getLoggedInUser : preserves P Login.getLoggedInUser.
Proof. unfold Login.getLoggedInUser, Login.read_login, Login.now, Login.jar, Login.users. keep. Qed.
Lemma inv_put_view d f : preserves P (Dropdown.put_view d f).
Proof. unfold Dropdown.put_view. keep. Qed.
Lemma inv_render {A} self label (items : list (Dropdown.item A)) :
  preserves P label -> preserves P (Dropdown.render self label items).
Proof.
  intros Hl. unfold Dropdown.render, Dropdown.renderLabel, Dropdown.renderDropdown, Dropdown.the_view, Dropdown.put_view. keep.
Qed.
Hint Resolve inv_getLoggedInUser inv_put_view : keep.
Lemma inv_mouse_click t : preserves P (Dropdown.mouse_click t).
Proof. unfold Dropdown.mouse_click, Dropdown.body_mouseup, Dropdown.close, Dropdown.open. keep. Qed.
Lemma inv_body_mouseup : preserves P Dropdown.body_mouseup.
Proof. unfold Dropdown.body_mouseup, Dropdown.close. keep. Qed.
Lemma inv_doAction {A} (items : list (Dropdown.item A)) run text :
  (forall a, preserves P (run a)) -> preserves P (Dropdown.doAction items run text).
Proof. intros H. unfold Dropdown.doAction. keep. Qed.
Lemma inv_slide_done k : preserves P (Login.slide_done k).
Proof.
  unfold Login.slide_done, Dropdown.slideDown, put_dash, Login.enable_save. keep. apply inv_render.
  unfold Login.logout_label. keep.
Qed.
Lemma inv_new_user a : preserves P (Login.new_user a).
Proof. unfold Login.new_user. keep. Qed.
Hint Resolve inv_new_user : keep.
Lemma inv_onUsers r : preserves P (Login.onUsers r).
Proof.
  unfold Login.onUsers, Login.reset_users, Login.put_users, Login.on_reset, Login.showViewsWhenNobodyIsLoggedIn,
    Login.showViewsWhenSomebodyIsLoggedIn. keep.
Qed.
Lemma inv_onUserCreated c r : preserves P (Login.onUserCreated c r).
Proof. unfold Login.onUserCreated, Login.put_users. keep. Qed.
Lemma inv_login_op u p h : preserves P (Login.login u p h).
Proof.
  unfold Login.login, Login.write_login, Login.put_jar, Login.on_logged_in, Login.showViewsWhenSomebodyIsLoggedIn,
    Login.now, Login.jar, Login.users. keep.
Qed.
Hint Resolve inv_login_op : keep.
Lemma inv_create_answer u h o : preserves P (Login.create_answer u h o).
Proof. unfold Login.create_answer, Login.createUserAndLogin, Login.users_create, Login.users. keep. Qed.
Lemma inv_logout : preserves P Login.logout.
Proof. unfold Login.logout, Login.put_jar, Login.on_logged_out, Login.now, Login.jar. keep. Qed.
Lemma inv_set_input i s : preserves P (Login.set_input i s).
Proof. unfold Login.set_input. keep. Qed.
Lemma inv_input_focus i : preserves P (Login.input_focus i).
Proof. unfold Login.input_focus, Login.set_input. keep. Qed.
Hint Resolve inv_input_focus : keep.
Lemma inv_input_keydown i k : preserves P (Login.input_keydown i k).
Proof. unfold Login.input_keydown, Login.view_login. keep. Qed.

End Operations.

(** ** The grid is an invariant *)

Lemma grid_ok_keep {A} (m : M A) : (forall w, same_grid w (exec m w)) -> preserves grid_ok m.
Proof. intros H w Hw. exact (grid_ok_same _ _ (H w) Hw). Qed.

#[export] Instance grid_ok_sys : Stable grid_ok set_sys.
Proof. intros f w. apply grid_ok_same. by constructor. Qed.
#[export] Instance grid_ok_io : Stable grid_ok set_io.
Proof. intros f w. apply grid_ok_sys. Qed.
#[export] Instance grid_ok_ui : Stable grid_ok set_ui.
Proof. intros f w. apply grid_ok_same. by constructor. Qed.
#[export] Instance grid_ok_time : Stable grid_ok set_time.
Proof. intros f w. apply grid_ok_same. by constructor. Qed.
#[export] Instance grid_ok_loader : Stable grid_ok set_loader.
Proof. intros f w. apply grid_ok_same. by constructor. Qed.

#[export] Instance grid_ok_base : BaseInv grid_ok.
Proof.
  constructor; intros; try (intros ? w; apply grid_ok_same; by constructor).
  - by apply grid_ok_keep.
  - apply pres_emit; apply _.
  - apply pres_set_hash; apply _.
  - apply pres_setTimeout; apply _.
  - apply pres_new_xhr; apply _.
  - apply Loader.pres_addToNextGet; apply _.
  - apply pres_setAutoRefresh; apply _.
Qed.

(** A new graph is on the grid, so it can be selected. *)
Lemma newGraph_on_grid w g : result newGraph w = Ok (Some g) -> g ∈ gg_allGraphs (w_grid (exec newGraph w)).
Proof.
  intros [= <-]. change (length (w_graphs w) ∈ gg_allGraphs (w_grid w) ++ [length (w_graphs w)]).
  rewrite elem_of_app, list_elem_of_singleton. by right.
Qed.

(** Changing a surface but for its series. *)
Lemma grid_ok_surface g f : (forall s, gs_series (f s) = gs_series s) -> preserves grid_ok (update g f).
Proof.
  intros Hf w [H1 H2 H3 H4]. constructor; cbn; try done; [by rewrite length_alter|].
  intros i s Hi. destruct (decide (i = g)) as [->|Hne].
  - rewrite list_lookup_alter_eq. intros (s0 & Es & ->)%fmap_Some. rewrite Hf. by apply (H4 g).
  - rewrite list_lookup_alter_ne by done. by apply H4.
Qed.

#[export] Instance grid_ok_app : AppInv grid_ok.
Proof.
  constructor; intros.
  - exact _.
  - unfold renderData. destruct sk; [apply pres_ret|]. apply pres_bind; [by apply grid_ok_surface|]. intros _. keep.
  - intros w. apply grid_ok_toggle_any.
  - intros w. apply grid_ok_close_any.
  - intros w [H1 H2 H3 H4]. by constructor.
  - intros w. apply grid_ok_newGraph.
  - intros w Hw. rewrite exec_bind. pose proof (grid_ok_newGraph w Hw) as Hn. pose proof (newGraph_on_grid w) as Hg.
    unfold exec, result in Hn, Hg. destruct (newGraph w) as [w' [[g|]|e]]; cbn in *; [|by apply grid_ok_select|done].
    apply grid_ok_select; [done|]. by apply Hg.
  - rewrite surface_click_exec. by apply grid_ok_select.
  - by apply grid_ok_surface.
  - intros w. apply grid_ok_repaint.
Qed.

End Invariant.
