(* ===== verification/Pending.v ===== *)
(** * Pending timers and requests as an invariant of the application

    The loader, the automatic refresh and the painting share the browser's
    timers, each clearing its own by its identifier.  [sys_ok] states that they do
    not get in each other's way: identifiers are unique, the loader's invariant
    and that of the automatic refresh hold together. *)

From S2P Require Import Prelude JsString JsObject JsNumber Json World Shell Loader Grid TimeRange Invariant.
Import Shell Interval Grid TimeRange Invariant.

Local Open Scope Z_scope.

Module Pending.

(** What holds also in the middle of the loader's operations: the timer named by
    [_nextEvent], if it is still pending, is the loader's. *)
Record quiet (w : World) : Prop := {
  q_auto : auto_ok w;
  q_ids : NoDup (tm_id <$> sy_timers (w_sys w));
  q_fresh : timers_fresh w;
  q_xids : NoDup (sy_xhrs (w_sys w)).*1;
  q_xfresh : xhrs_fresh w;
  q_event : forall e, ld_nextEvent (w_loader w) = Some e ->
    (e < sy_next_timer (w_sys w))%nat /\ forall t, t ∈ sy_timers (w_sys w) -> tm_id t = e -> tm_code t = TLoader }.

Record sys_ok (w : World) : Prop := {
  so_loader : Loader.Inv w;
  so_quiet : quiet w }.

(** ** Parts of the state *)

(** [w'] has the timers, the requests, the flags and the loader's timer of [w]. *)
Record same_pending (w w' : World) : Prop := {
  sp_timers : sy_timers (w_sys w') = sy_timers (w_sys w);
  sp_next : sy_next_timer (w_sys w') = sy_next_timer (w_sys w);
  sp_xhrs : sy_xhrs (w_sys w') = sy_xhrs (w_sys w);
  sp_xnext : sy_next_xhr (w_sys w') = sy_next_xhr (w_sys w);
  sp_flag : isAutoRefresh (w_time w') = isAutoRefresh (w_time w);
  sp_auto : autoRefreshTimer (w_time w') = autoRefreshTimer (w_time w);
  sp_event : ld_nextEvent (w_loader w') = ld_nextEvent (w_loader w) \/ ld_nextEvent (w_loader w') = None }.

Lemma quiet_same w w' : same_pending w w' -> quiet w -> quiet w'.
Proof.
  intros [E1 E2 E3 E4 E5 E6 E7] [Q1 Q2 Q3 Q4 Q5 Q6].
  constructor; unfold timers_fresh, xhrs_fresh in *; rewrite ?E1, ?E2, ?E3, ?E4; try done.
  - destruct Q1 as [A1 A2]. constructor; unfold refresh_timers in *; rewrite ?E1, ?E5, ?E6; done.
  - destruct E7 as [->| ->]; [done|]. intros e [=].
Qed.

Lemma Inv_same w w' :
  w_loader w' = w_loader w -> sy_timers (w_sys w') = sy_timers (w_sys w) ->
  sy_next_timer (w_sys w') = sy_next_timer (w_sys w) -> sy_xhrs (w_sys w') = sy_xhrs (w_sys w) ->
  Loader.Inv w -> Loader.Inv w'.
Proof.
  intros E1 E2 E3 E4 [H1 H2 H3 H4 H5]. constructor; unfold loader_timers, loader_xhrs, timers_fresh in *;
    rewrite ?E1, ?E2, ?E3, ?E4; done.
Qed.

Lemma sys_ok_same w w' :
  w_loader w' = w_loader w -> same_pending w w' -> sys_ok w -> sys_ok w'.
Proof.
  intros El Hs [H1 H2]. constructor; [|by eapply quiet_same]. destruct Hs. by eapply Inv_same.
Qed.

(** ** Timers *)

(** Two timers with one identifier are one timer. *)
Lemma timer_unique w t t' :
  quiet w -> t ∈ sy_timers (w_sys w) -> t' ∈ sy_timers (w_sys w) -> tm_id t = tm_id t' -> t = t'.
Proof.
  intros [_ Hnd _ _ _ _] Ht Ht' E. apply list_elem_of_lookup in Ht as [i Hi], Ht' as [j Hj].
  assert (i = j) as ->; [|congruence]. apply (NoDup_lookup _ _ _ (tm_id t) Hnd); rewrite list_lookup_fmap.
  - by rewrite Hi.
  - rewrite Hj. cbn. by rewrite E.
Qed.

(** A new timer that is not for the automatic refresh. *)
Lemma quiet_setTimeout c ms : (forall n, c <> TRefresh n) -> preserves quiet (setTimeout c ms).
Proof.
  intros Hc w [[A1 A2] Q2 Q3 Q4 Q5 Q6]. unfold exec, setTimeout. cbn [fst].
  set (t := mkTimer (sy_next_timer (w_sys w)) (sy_now (w_sys w) + ms) c).
  assert (Hr : filter is_refresh_timer [t] = []) by (unfold t, is_refresh_timer; destruct c as [| | |n]; [done..|by destruct (Hc n)]).
  constructor; unfold timers_fresh, xhrs_fresh in *; cbn [w_sys set_sys sy_timers sy_next_timer sy_xhrs sy_next_xhr w_loader]; try done.
  - constructor; [|done]. unfold refresh_timers in *. cbn [w_sys set_sys sy_timers w_time]. fold t. by rewrite filter_app, Hr, app_nil_r.
  - rewrite fmap_app. apply NoDup_app. split; [done|]. split; [|apply NoDup_singleton].
    intros i (t' & -> & Ht')%list_elem_of_fmap Hi%list_elem_of_singleton.
    rewrite Forall_forall in Q3. specialize (Q3 t' Ht'). cbn in Hi. lia.
  - apply Forall_app. split; [|apply Forall_singleton; cbn; lia]. eapply Forall_impl; [exact Q3|]. cbn. lia.
  - intros e He. destruct (Q6 e He) as [H1 H2]. split; [lia|]. intros t' [Ht'|Ht']%elem_of_app; [auto|].
    apply list_elem_of_singleton in Ht' as ->. cbn. lia.
Qed.

(** Clearing a timer that is not the automatic refresh's. *)
Lemma quiet_clearTimeout id w :
  quiet w -> (forall t, t ∈ sy_timers (w_sys w) -> tm_id t = id -> forall n, tm_code t <> TRefresh n) ->
  quiet (exec (clearTimeout id) w).
Proof.
  intros [[A1 A2] Q2 Q3 Q4 Q5 Q6] Hid. assert (Hf : refresh_timers (exec (clearTimeout id) w) = refresh_timers w).
  { rewrite refresh_timers_clear. apply filter_id, Forall_forall. intros t [Ht Hin]%list_elem_of_filter Hi.
    unfold is_refresh_timer in Ht. destruct (tm_code t) eqn:Ec; try done. by apply (Hid t Hin Hi every). }
  constructor.
  - constructor; [by rewrite Hf|done].
  - eapply sublist_NoDup; [exact Q2|]. apply fmap_sublist, sublist_filter.
  - unfold timers_fresh in *. rewrite Forall_forall in Q3 |- *. intros t [_ Ht]%list_elem_of_filter. by apply Q3.
  - done.
  - done.
  - intros e He. destruct (Q6 e He) as [H1 H2]. split; [done|]. intros t [_ Ht]%list_elem_of_filter. by apply H2.
Qed.

(** A new request, of any kind. *)
Lemma quiet_new_xhr c : preserves quiet (new_xhr c).
Proof.
  intros w [Q1 Q2 Q3 Q4 Q5 Q6]. constructor; unfold timers_fresh, xhrs_fresh in *;
    cbn [exec new_xhr fst w_sys set_sys sy_timers sy_next_timer sy_xhrs sy_next_xhr w_loader]; try done.
  - destruct Q1 as [A1 A2]. by constructor.
  - rewrite fmap_app. apply NoDup_app. split; [done|]. split; [|apply NoDup_singleton].
    intros i (x & -> & Hx)%list_elem_of_fmap Hi%list_elem_of_singleton.
    rewrite Forall_forall in Q5. specialize (Q5 x Hx). cbn in Hi. lia.
  - apply Forall_app. split; [|apply Forall_singleton; cbn; lia]. eapply Forall_impl; [exact Q5|]. cbn. lia.
Qed.

(** ** The loader keeps quiet *)

#[export] Instance quiet_ui : Stable quiet set_ui.
Proof. intros f w. apply quiet_same. constructor; try done. by left. Qed.

Lemma quiet_emit e : preserves quiet (emit e).
Proof. intros w. apply quiet_same. constructor; try done. by left. Qed.

Lemma quiet_loader f w :
  ld_nextEvent (f (w_loader w)) = ld_nextEvent (w_loader w) \/ ld_nextEvent (f (w_loader w)) = None ->
  quiet w -> quiet (set_loader f w).
Proof. intros Hf. apply quiet_same. by constructor. Qed.

Lemma quiet_guarded name (f : M unit) : preserves quiet f -> preserves quiet (guarded name f).
Proof.
  intros Hf w Hw. specialize (Hf w Hw). unfold exec in *. destruct (f w) as [w' [[]|e]] eqn:E.
  - by rewrite (guarded_Ok _ _ _ _ E).
  - rewrite (guarded_Throw _ _ _ _ _ E). cbn in *. revert Hf. apply quiet_same. constructor; try done. by left.
Qed.

Lemma quiet_schedule now deadline : preserves quiet (Loader.schedule now deadline).
Proof.
  unfold Loader.schedule. apply pres_bind; [apply pres_get|]. intros t. apply pres_bind.
  - destruct (deadline <? t); [|apply pres_ret]. intros w Hw. rewrite exec_bind. cbn [get].
    destruct (ld_nextEvent (w_loader w)) as [e|] eqn:Ee.
    + rewrite exec_seq by tot. apply quiet_loader; [by right|]. apply quiet_clearTimeout; [done|].
      intros t' Ht' <- n Hn. destruct (q_event w Hw _ Ee) as [_ H]. rewrite (H t' Ht' eq_refl) in Hn. done.
    + rewrite exec_seq by tot. apply quiet_loader; [by right|done].
  - intros _ w Hw. rewrite exec_bind. cbn [get]. destruct (ld_nextEvent (w_loader w)) as [e|] eqn:Ee; [done|].
    rewrite exec_seq by tot.
    set (w1 := exec (modify (set_loader (Loader.set_event None deadline))) w).
    assert (H1 : quiet w1) by (apply quiet_loader; [by right|done]).
    pose proof (quiet_setTimeout TLoader (deadline - now) ltac:(done) w1 H1) as H2.
    rewrite exec_bind. cbn [setTimeout]. destruct H2 as [[A1 A2] Q2 Q3 Q4 Q5 Q6].
    constructor; [by constructor|done..|]. intros e' [= <-]. split; [cbn; lia|]. cbn [exec modify setTimeout fst w_sys set_sys set_loader sy_timers].
    intros t' [Ht'|Ht']%elem_of_app Hi.
    + exfalso. destruct H1 as [_ _ F _ _ _]. unfold timers_fresh in F. rewrite Forall_forall in F. specialize (F t' Ht'). cbn in F, Hi. lia.
    + apply list_elem_of_singleton in Ht' as ->. done.
Qed.

Lemma quiet_addToNextGet ks mt ms g sk : preserves quiet (Loader.addToNextGet ks mt ms g sk).
Proof.
  apply quiet_guarded. unfold Loader.addToNextGet_body, Loader.enqueue, getAdjustedNow.
  repeat lazymatch goal with
  | |- preserves _ (mbind _ _) => apply pres_bind; [|intros ?]
  | |- preserves _ (for_each _ _) => apply pres_for_each; intros ?
  | |- preserves _ (match ?x with _ => _ end) => destruct x
  end; try first [apply pres_get | apply pres_throw | apply quiet_schedule | apply pres_modify; intros w; apply quiet_loader; by left].
Qed.

Lemma quiet_startRequest : preserves quiet Loader.startRequest.
Proof.
  apply quiet_guarded. repeat lazymatch goal with
  | |- preserves _ (mbind _ _) => apply pres_bind; [|intros ?]
  | |- preserves _ (match ?x with _ => _ end) => destruct x
  end; try first [apply pres_get | apply pres_throw | apply pres_ret | apply quiet_new_xhr | apply quiet_emit
    | apply pres_modify; intros w; apply quiet_loader; by left].
Qed.

Lemma quiet_onTimer : preserves quiet Loader.onTimer.
Proof.
  apply quiet_guarded. apply pres_bind; [apply pres_modify; intros w; apply quiet_loader; by right|]. intros _.
  apply pres_bind; [apply pres_get|]. intros [x|]; [apply pres_ret|apply quiet_startRequest].
Qed.

(** ** The automatic refresh *)

(** The timers after [setAutoRefresh]: the old one is cleared, a new one may be set. *)
Lemma setAutoRefresh_timers ref w :
  let w' := exec (setAutoRefresh ref) w in
  w_loader w' = w_loader w /\ sy_xhrs (w_sys w') = sy_xhrs (w_sys w) /\ sy_next_xhr (w_sys w') = sy_next_xhr (w_sys w) /\
  exists old new, sy_timers (w_sys w') = old ++ new /\
    (old = sy_timers (w_sys w) \/
     exists id, autoRefreshTimer (w_time w) = Some id /\ old = filter (fun t => tm_id t <> id) (sy_timers (w_sys w))) /\
    ((new = [] /\ sy_next_timer (w_sys w') = sy_next_timer (w_sys w)) \/
     exists due ms, new = [mkTimer (sy_next_timer (w_sys w)) due (TRefresh ms)] /\
       sy_next_timer (w_sys w') = S (sy_next_timer (w_sys w))).
Proof.
  unfold setAutoRefresh, exec, mbind, M_bind, get.
  destruct (autoRefreshTimer (w_time w)) as [id|] eqn:Ea; cbv beta iota zeta; cbn -[js];
    destruct (from_option truthy false ref); cbn -[js]; split_and!; try done.
  - eexists _, _. split; [done|]. split; [right; by eexists|]. right. by do 2 eexists.
  - eexists _, []. rewrite app_nil_r. split; [done|]. split; [right; by eexists|by left].
  - eexists _, _. split; [done|]. split; [by left|]. right. by do 2 eexists.
  - eexists _, []. rewrite app_nil_r. split; [done|]. split; by left.
Qed.

(** The timer of the automatic refresh is not the loader's. *)
Lemma auto_timer_code w id t :
  quiet w -> autoRefreshTimer (w_time w) = Some id -> t ∈ sy_timers (w_sys w) -> tm_id t = id -> is_refresh_timer t.
Proof.
  intros Hq Ea Ht Hi. pose proof (ao_timer w (q_auto w Hq)) as Hao. rewrite Ea in Hao. destruct Hao as (tm & Hr & <-).
  assert (Hin : tm ∈ refresh_timers w) by (rewrite Hr; by apply list_elem_of_singleton).
  apply list_elem_of_filter in Hin as [Hc Hin]. by rewrite (timer_unique w t tm).
Qed.

(** Dropping elements of a key that are not selected anyway. *)
Lemma filter_disjoint {A} (key : A -> nat) (p : A -> bool) (l : list A) id :
  (forall t, t ∈ l -> key t = id -> p t = false) -> filter p (filter (fun t => key t <> id) l) = filter p l.
Proof.
  intros Hp. induction l as [|t l IH]; [done|]. assert (IH' := IH (fun t' Ht' => Hp t' (list_elem_of_further _ _ _ Ht'))).
  rewrite (filter_cons (fun t => key t <> id)). destruct (decide (key t <> id)) as [Hn|Hn].
  - rewrite !(filter_cons p). by rewrite IH'.
  - apply dec_stable in Hn. rewrite (filter_cons_False p); [done|]. rewrite Hp; [by intros []|left|done].
Qed.

Lemma setAutoRefresh_loader_timers ref w :
  quiet w -> loader_timers (exec (setAutoRefresh ref) w) = loader_timers w.
Proof.
  intros Hq. destruct (setAutoRefresh_timers ref w) as (_ & _ & _ & old & new & E & Ho & Hn). unfold loader_timers.
  rewrite E, filter_app. replace (filter is_loader_timer new) with (@nil Timer).
  2:{ by destruct Hn as [[-> _]|(due & ms & -> & _)]. }
  rewrite app_nil_r. destruct Ho as [->|(id & Ea & ->)]; [done|].
  apply (filter_disjoint tm_id). intros t Ht Hi. pose proof (auto_timer_code w id t Hq Ea Ht Hi) as Hr.
  unfold is_loader_timer, is_refresh_timer in *. by destruct (tm_code t).
Qed.

Lemma sys_ok_setAutoRefresh ref : preserves sys_ok (setAutoRefresh ref).
Proof.
  intros w [HI Hq]. destruct (setAutoRefresh_timers ref w) as (El & Ex & Exn & old & new & E & Ho & Hn).
  assert (Hold : old `sublist_of` sy_timers (w_sys w)) by (destruct Ho as [->|(id & _ & ->)]; [done|apply sublist_filter]).
  pose proof (setAutoRefresh_loader_timers ref w Hq) as Hlt. pose proof Hq as [Q1 Q2 Q3 Q4 Q5 Q6].
  set (w' := exec (setAutoRefresh ref) w) in *.
  assert (Hf : forall t, t ∈ old -> (tm_id t < sy_next_timer (w_sys w))%nat).
  { intros t Ht. unfold timers_fresh in Q3. rewrite Forall_forall in Q3. by apply Q3, (elem_of_sublist old). }
  assert (Hfresh : timers_fresh w').
  { unfold timers_fresh. rewrite E. apply Forall_app. destruct Hn as [[-> ->]|(due & ms & -> & ->)].
    - split; [|constructor]. apply Forall_forall. exact Hf.
    - split; [|apply Forall_singleton; cbn; lia]. apply Forall_forall. intros t Ht%Hf. lia. }
  constructor.
  - destruct HI as [I1 I2 I3 I4 I5]. constructor; unfold loader_xhrs in *; rewrite ?El, ?Hlt, ?Ex; done.
  - constructor; unfold xhrs_fresh; rewrite ?El, ?Ex, ?Exn; try done.
    + by apply setAutoRefresh_ok.
    + rewrite E, fmap_app. apply NoDup_app. split; [eapply sublist_NoDup; [exact Q2|by apply fmap_sublist]|].
      destruct Hn as [[-> _]|(due & ms & -> & _)]; [split; [by intros x _ ?%not_elem_of_nil|constructor]|].
      split; [|apply NoDup_singleton]. intros i (t & -> & Ht%Hf)%list_elem_of_fmap Hi%list_elem_of_singleton. cbn in Hi. lia.
    + intros e He. destruct (Q6 e He) as [H1 H2]. rewrite E. split.
      { destruct Hn as [[_ ->]|(due & ms & _ & ->)]; lia. }
      intros t [Ht|Ht]%elem_of_app Hi; [apply H2; [by apply (elem_of_sublist old)|done]|].
      destruct Hn as [[-> _]|(due & ms & -> & _)]; [by apply not_elem_of_nil in Ht|].
      apply list_elem_of_singleton in Ht as ->. cbn in Hi. lia.
Qed.

(** ** The instance *)

Lemma Inv_setTimeout c ms w : c <> TLoader -> Loader.Inv w -> Loader.Inv (exec (setTimeout c ms) w).
Proof.
  intros Hc [I1 I2 I3 I4 I5].
  assert (Hl : loader_timers (exec (setTimeout c ms) w) = loader_timers w).
  { unfold loader_timers. cbn. rewrite filter_app. unfold is_loader_timer at 2. by destruct c; rewrite ?app_nil_r. }
  constructor; rewrite ?Hl; try done. unfold timers_fresh in *. cbn. apply Forall_app.
  split; [|apply Forall_singleton; cbn; lia]. eapply Forall_impl; [exact I3|]. cbn. lia.
Qed.

Lemma Inv_new_xhr c w : other_xhr c -> Loader.Inv w -> Loader.Inv (exec (new_xhr c) w).
Proof.
  intros Hc [I1 I2 I3 I4 I5].
  assert (Hl : loader_xhrs (exec (new_xhr c) w) = loader_xhrs w).
  { unfold loader_xhrs. cbn. rewrite filter_app. unfold is_loader_xhr at 2. by destruct c; rewrite ?app_nil_r. }
  constructor; rewrite ?Hl; done.
Qed.

Ltac pending_same := intros; intros ? ?; apply sys_ok_same; [done|constructor; try done; by left].

#[export] Instance sys_ok_base : BaseInv sys_ok.
Proof.
  constructor; try pending_same.
  - intros f Hf w. destruct (Hf (w_time w)). apply sys_ok_same; [done|constructor; try done; by left].
  - intros e w. apply sys_ok_same; [done|constructor; try done; by left].
  - intros h w. apply sys_ok_same; [done|constructor; try done; by left].
  - intros c ms Hc w [HI Hq]. constructor; [apply Inv_setTimeout; [by intros ->|done]|].
    apply quiet_setTimeout; [by intros n ->|done].
  - intros c Hc w [HI Hq]. constructor; [by apply Inv_new_xhr|by apply quiet_new_xhr].
  - intros ks mt ms g sk w [HI Hq]. constructor; [by apply Loader.addToNextGet_spec|by apply quiet_addToNextGet].
  - apply sys_ok_setAutoRefresh.
Qed.

#[export] Instance sys_ok_app : AppInv sys_ok.
Proof. apply AppInv_stable; [exact _|pending_same..]. Qed.

(** ** Timers that fire and requests that are answered *)

(** The next firing of an interval. *)
Definition rearm (id : nat) (ms : Z) (w : World) : World :=
  set_sys (fun s => mkSys (sy_now s) (sy_hidden s) (sy_hash s)
    ((fun t => if decide (tm_id t = id) then mkTimer id (tm_due t + ms) (tm_code t) else t) <$> sy_timers s)
    (sy_next_timer s) (sy_xhrs s) (sy_next_xhr s) (sy_log s)) w.

Lemma loader_timer_fires w t :
  sys_ok w -> t ∈ sy_timers (w_sys w) -> tm_code t = TLoader -> sys_ok (exec Loader.onTimer (Loader.remove_timer (tm_id t) w)).
Proof.
  intros [HI Hq] Ht Hc. constructor.
  - assert (Hin : t ∈ loader_timers w).
    { apply list_elem_of_filter. unfold is_loader_timer. by rewrite Hc. }
    destruct (loader_timers w) as [|t' ts] eqn:El; [by apply not_elem_of_nil in Hin|].
    destruct (Loader.Inv_timer_cases w t' ts HI El) as [-> _]. apply list_elem_of_singleton in Hin as ->.
    apply (Loader.Inv_step Loader.Fire w); [done|]. cbn [Loader.step]. by rewrite El.
  - apply quiet_onTimer, quiet_clearTimeout; [done|]. intros t' Ht' Hi n Hn.
    rewrite (timer_unique w t' t) in Hn by done. congruence.
Qed.

Lemma other_timer_fires w t :
  sys_ok w -> t ∈ sy_timers (w_sys w) -> paint_code (tm_code t) -> sys_ok (Loader.remove_timer (tm_id t) w).
Proof.
  intros [HI Hq] Ht Hc. constructor.
  - assert (Hl : loader_timers (Loader.remove_timer (tm_id t) w) = loader_timers w).
    { apply (filter_disjoint tm_id). intros t' Ht' Hi. rewrite (timer_unique w t' t) by done.
      unfold is_loader_timer. by destruct (tm_code t). }
    destruct HI as [I1 I2 I3 I4 I5]. constructor; rewrite ?Hl; try done.
    unfold timers_fresh in *. rewrite Forall_forall in I3 |- *. intros t' [_ Ht']%list_elem_of_filter. by apply I3.
  - apply quiet_clearTimeout; [done|]. intros t' Ht' Hi n Hn. rewrite (timer_unique w t' t) in Hn by done.
    by rewrite Hn in Hc.
Qed.

Lemma filter_fmap_timers (p : Timer -> bool) f (l : list Timer) :
  (forall t, p (f t) = p t) -> filter p (f <$> l) = f <$> filter p l.
Proof.
  intros Hp. induction l as [|t l IH]; [done|]. rewrite fmap_cons, !filter_cons, Hp, IH. by destruct (decide (p t)).
Qed.

Lemma refresh_timer_fires w t ms n :
  sys_ok w -> t ∈ sy_timers (w_sys w) -> tm_code t = TRefresh n -> sys_ok (rearm (tm_id t) ms w).
Proof.
  intros [HI Hq] Ht Hc. set (f := fun t' => if decide (tm_id t' = tm_id t) then mkTimer (tm_id t) (tm_due t' + ms) (tm_code t') else t').
  assert (Hcode : forall t', tm_code (f t') = tm_code t') by (intros t'; unfold f; by destruct (decide _)).
  assert (Hid : forall t', tm_id (f t') = tm_id t') by (intros t'; unfold f; by destruct (decide _)).
  assert (Hl : loader_timers (rearm (tm_id t) ms w) = loader_timers w).
  { unfold loader_timers, rearm. cbn [w_sys set_sys sy_timers]. fold f.
    rewrite filter_fmap_timers by (intros; unfold is_loader_timer; by rewrite Hcode).
    rewrite <- (list_fmap_id (filter _ _)) at 2. apply list_fmap_ext. intros i t' Hi%list_elem_of_lookup_2.
    apply list_elem_of_filter in Hi as [Hp Hin]. unfold f. rewrite decide_False; [done|]. intros E.
    rewrite (timer_unique w t' t) in Hp by done. unfold is_loader_timer in Hp. by rewrite Hc in Hp. }
  assert (Hi : tm_id <$> sy_timers (w_sys (rearm (tm_id t) ms w)) = tm_id <$> sy_timers (w_sys w)).
  { unfold rearm. cbn [w_sys set_sys sy_timers]. fold f. rewrite <- list_fmap_compose. apply list_fmap_ext. intros. apply Hid. }
  assert (Hfr : timers_fresh (rearm (tm_id t) ms w)).
  { destruct Hq as [_ _ Q3 _ _ _]. unfold timers_fresh, rearm in *. cbn [w_sys set_sys sy_timers sy_next_timer]. fold f.
    apply Forall_fmap. eapply Forall_impl; [exact Q3|]. intros t' H'. cbn. by rewrite Hid. }
  constructor.
  - destruct HI as [I1 I2 I3 I4 I5]. by constructor; rewrite ?Hl.
  - destruct Hq as [[A1 A2] Q2 Q3 Q4 Q5 Q6]. constructor; try done; [|by rewrite Hi|].
    + constructor; [|done].
      replace (refresh_timers (rearm (tm_id t) ms w)) with (f <$> refresh_timers w).
      2:{ symmetry. apply (filter_fmap_timers is_refresh_timer f). intros t'. unfold is_refresh_timer. by rewrite Hcode. }
      change (w_time (rearm (tm_id t) ms w)) with (w_time w). destruct (autoRefreshTimer (w_time w)); [|by rewrite A1].
      destruct A1 as (tm & -> & <-). exists (f tm). split; [done|apply Hid].
    + intros e He. destruct (Q6 e He) as [H1 H2]. split; [done|]. intros t' (t0 & -> & H0)%list_elem_of_fmap.
      fold (f t0). rewrite Hid, Hcode. by apply H2.
Qed.

(** *** Requests *)

Lemma xhr_unique w x c c' :
  quiet w -> (x, c) ∈ sy_xhrs (w_sys w) -> (x, c') ∈ sy_xhrs (w_sys w) -> c = c'.
Proof.
  intros [_ _ _ Hnd _ _] H1 H2. apply list_elem_of_lookup in H1 as [i Hi], H2 as [j Hj].
  assert (i = j) as ->; [|congruence]. apply (NoDup_lookup _ _ _ x Hnd); rewrite list_lookup_fmap.
  - by rewrite Hi.
  - by rewrite Hj.
Qed.

Lemma quiet_remove_xhr x w : quiet w -> quiet (Loader.remove_xhr x w).
Proof.
  intros [[A1 A2] Q2 Q3 Q4 Q5 Q6]. constructor; try done.
  - eapply sublist_NoDup; [exact Q4|]. apply fmap_sublist, sublist_filter.
  - unfold xhrs_fresh in *. rewrite Forall_forall in Q5 |- *. intros y [_ Hy]%list_elem_of_filter. by apply Q5.
Qed.

Lemma other_xhr_done w x c : sys_ok w -> (x, c) ∈ sy_xhrs (w_sys w) -> other_xhr c -> sys_ok (Loader.remove_xhr x w).
Proof.
  intros [HI Hq] Hx Hc. constructor; [|by apply quiet_remove_xhr].
  assert (Hl : loader_xhrs (Loader.remove_xhr x w) = loader_xhrs w).
  { apply (filter_disjoint fst). intros [y c'] Hy E. cbn in E. subst y. unfold is_loader_xhr. cbn.
    rewrite (xhr_unique w x c' c) by done. by destruct c. }
  destruct HI as [I1 I2 I3 I4 I5]. constructor; rewrite ?Hl; done.
Qed.

(** The loader's answer is delivered to the surfaces, which only set timers to paint. *)
Lemma quiet_deliver c d : preserves quiet (deliver c d).
Proof.
  cbn [deliver surface_client]. unfold on_data. apply pres_bind; [apply quiet_emit|intros _].
  unfold renderData. destruct (cb_seriesKeys c); [apply pres_ret|].
  apply pres_bind; [apply pres_modify; intros w; apply quiet_same; constructor; try done; by left|]. intros _.
  apply pres_bind; [by apply quiet_setTimeout|intros _; apply pres_ret].
Qed.

Lemma quiet_onXhrComplete a g c : preserves quiet (Loader.onXhrComplete a g c).
Proof.
  apply quiet_guarded. apply pres_bind; [apply pres_modify; intros w; apply quiet_loader; by left|]. intros _.
  apply pres_bind; [|intros _; apply quiet_startRequest]. destruct (299 <? _); [apply pres_throw|].
  destruct (Loader.an_body a); [|apply pres_throw]. apply pres_for_each. intros; apply quiet_deliver.
Qed.

Lemma loader_xhr_done w x g c a :
  sys_ok w -> (x, XLoader g c) ∈ sy_xhrs (w_sys w) -> sys_ok (exec (Loader.onXhrComplete a g c) (Loader.remove_xhr x w)).
Proof.
  intros [HI Hq] Hx. constructor; [|by apply quiet_onXhrComplete, quiet_remove_xhr].
  assert (Hin : (x, XLoader g c) ∈ loader_xhrs w) by (by apply list_elem_of_filter).
  destruct (loader_xhrs w) as [|y ys] eqn:El; [by apply not_elem_of_nil in Hin|].
  destruct (Loader.Inv_xhr_cases w y ys HI El) as (g' & c' & Ey & -> & _ & _). apply list_elem_of_singleton in Hin as <-.
  apply (Loader.Inv_step (Loader.Complete a) w); [done|]. cbn [Loader.step]. by rewrite El.
Qed.

End Pending.
