(* ===== verification/App.v ===== *)
(** * The application: [on_ready], the menus and the dispatch of events

    [on_ready] builds the page.  From then on the browser calls the handlers:
    a timer fires, a request is answered, an animation ends, a dialog is
    answered, the user acts on the page.  [step] is one such call, and every step
    keeps the invariants of the system and of the grid. *)

From S2P Require Import Prelude JsString JsObject JsNumber Json JsValue UriCodec Cookie World Shell Loader Grid TimeRange Dates Plot CounterTree CounterFilter Views Clicks Dashboard Bookmark Login Xref Invariant Pending.
Import Shell Interval Grid TimeRange Dates Plot Clicks Dashboard Bookmark Xref Invariant Pending.
Import (hints) Loader.

Local Open Scope Z_scope.

Module App.

(** ** The menus *)

Inductive chart_action := GraphSize (width height : Z) | CustomSize.

Definition chart_items : list (Dropdown.item chart_action) :=
  [Dropdown.mkItem (js "Small (300x120)") (GraphSize 300 120) false;
   Dropdown.mkItem (js "Medium (600x240)") (GraphSize 600 240) true;
   Dropdown.mkItem (js "Large (800x480)") (GraphSize 800 480) false;
   Dropdown.mkItem (js "Custom...") CustomSize false].

(** An action on the entry at index [k] ([ev.currentTarget]). *)
Definition run_chart (k : nat) (a : chart_action) : M unit :=
  match a with
  | GraphSize w h => graph_size w h (Some (Z.of_nat k))
  | CustomSize => size_custom
  end.

Inductive tool := RegexReplace | RegexAdd | CrossReference | ManualRange | BookmarkUrl.

Definition tool_items : list (Dropdown.item tool) :=
  [Dropdown.mkItem (js "Regex/Replace...") RegexReplace false;
   Dropdown.mkItem (js "Regex/Add...") RegexAdd false;
   Dropdown.mkItem (js "Cross-reference Counters...") CrossReference false;
   Dropdown.mkItem (js "Manual Date Range...") ManualRange false;
   Dropdown.mkItem (js "Create Bookmark URL") BookmarkUrl false].

Definition run_tool (t : tool) : M unit :=
  match t with
  | RegexReplace => regexp_change
  | RegexAdd => regexp_add
  | CrossReference => xref_change
  | ManualRange => select_daterange
  | BookmarkUrl => packup_state_as_hash
  end.

Definition chart_initialize : M unit := Dropdown.render Dropdown.ChartSize (mret (js "Chart Size")) chart_items.
Definition tools_initialize : M unit := Dropdown.render Dropdown.AdvancedTools (mret (js "Advanced Tools")) tool_items.

(** A click of the mouse on an entry: its release closes the menus, then [doAction]. *)
Definition chart_choose (k : nat) : M unit :=
  Dropdown.body_mouseup;;
  match chart_items !! k with
  | Some i => Dropdown.doAction chart_items (run_chart k) (Dropdown.it_item i)
  | None => mret ()
  end.

Definition tool_choose (k : nat) : M unit :=
  Dropdown.body_mouseup;;
  match tool_items !! k with
  | Some i => Dropdown.doAction tool_items run_tool (Dropdown.it_item i)
  | None => mret ()
  end.

Definition logout_choose : M unit := Dropdown.body_mouseup;; Login.logout_action (js "Logout").

(** ** The buttons *)

(** The login button is also a [.tbutton], without an [action]. *)
Inductive button := SaveDashboard | RefreshNow | AutoRefresh | LoginButton.

#[global] Instance button_eq_dec : EqDecision button.
Proof. solve_decision. Defined.

(** [eval] of the [action] attribute. *)
Definition action (b : button) : M unit :=
  match b with
  | SaveDashboard => save_dashboard
  | RefreshNow => refresh
  | AutoRefresh => auto_refresh
  | LoginButton => mret ()
  end.

(** The handler that [on_ready] binds to every button. *)
Definition button_handler (b : button) : M unit :=
  guarded "" (
    disabled ← get (fun w => vw_save_disabled (w_views w));
    if bool_decide (b = SaveDashboard) && disabled then mret () else action b).

(** The click then reaches the view that holds the login button. *)
Definition button_click (b : button) : M unit :=
  button_handler b;; match b with LoginButton => Login.view_login | _ => mret () end.

(** ** [on_ready] *)

(** [new TimeSlider('time_slider')]: the markers are placed and the default index chosen. *)
Definition new_TimeSlider : M unit :=
  put_slider (fun s => mkSlider false INull false (ts_width s));;
  dom ".markers" "attr" [AStr (js "unselectable"); AStr (js "on")];;
  dom ".marker" "attr" [AStr (js "unselectable"); AStr (js "on")];;
  for_each (seq 0 (length markers)) (fun ix => dom ".marker" "css" [AStr (js "left"); ANum (Z.of_nat ix)]);;
  setIndex 2.

(** [UserLoginView.initialize] and [UserControlsView.initialize] *)
Definition login_view_initialize : M unit :=
  for_each ["#loginname"; "#loginpassword"; "#loginbutton"]%string (fun c => dom "#login" "append" [AStr (js c)]).

Definition controls_initialize : M unit :=
  Login.initialize;;
  dom "#user_controls" "append" [AStr (js "#login")];;
  dom "#user_controls" "append" [AStr (js "#logout")];;
  login_view_initialize.

Definition unselectable (target : string) : M unit := dom target "attr" [AStr (js "unselectable"); AStr (js "on")].

Definition on_ready : M unit :=
  guarded "_on_ready" (
    end_ ← begin;
    Tabs.rebuildTabs;;
    put_dash (fun d => mkDash (theUserName d) [] (da_list d) (Some []));;
    modify (set_grid (fun _ => mkGrid [] None));;
    new_TimeSlider;;
    CounterFilter.tree_initialize;;
    controls_initialize;;
    chart_initialize;;
    tools_initialize;;
    unselectable "#hsplit";;
    unselectable ".tbutton";;
    unselectable ".tdropdown div";;
    unselectable ".tslider div";;
    modify (set_loader (fun _ => Loader.init));;
    finish end_).

(** ** Dialogs *)

Definition fmt_of (s : jsstr) : option fmt :=
  List.find (fun f => bool_decide (fmt_name f = s)) [noBars; errorBars; customBars; stacked; area].

(** The answers to the open dialog. *)
Definition prompt_answer (cb : PromptCb) (s : jsstr) : M (option bool) :=
  match cb with
  | PSizeCustom => r ← size_setCustom s; mret (Some r)
  | PChangeCounters => change_counters s false;; mret None
  | PAddCounters => add_counters s;; mret None
  | PSaveDashboard => save_dashboard_named s;; mret None
  end.

Definition choice_answer (cb : ChoiceCb) (opt : jsstr) : M unit :=
  match cb with
  | CFormat g => match fmt_of opt with Some f => update g (set_format f);; repaint g | None => mret () end
  | CDeleteDashboard name => remove_answer name opt
  | COverwriteDashboard name dash => overwrite_answer name dash opt
  | CCreateUser u h => Login.create_answer u h opt
  end.

Section Dispatch.
Context `{LocalZone}.

(** What the user enters: a line, an option, three fields, the two lists. *)
Inductive answer :=
  | ALine (s : jsstr)
  | AOption (opt : jsstr)
  | AFields (from to max_samples : jsstr)
  | ALists (change : bool) (from : jsstr) (selected : list jsstr).

Definition dialog_submit (d : Dialog) (a : answer) : M unit :=
  match d, a with
  | DPrompt _ cb, ALine s => prompt_submit (prompt_answer cb s)
  | DChoice _ _ cb, AOption opt => choice_submit (choice_answer cb opt)
  | DDateRange, AFields from to ms => daterange_submit from to ms
  | DXref, ALists change from selected => xref_submit change from selected
  | _, _ => mret ()
  end.

(** ** Timers and requests *)

Definition timer_code (c : TimerCode) : M unit :=
  match c with
  | TLoader => Loader.onTimer
  | TPaintVisible g => paint_visible g
  | TPaint g => repaint g
  | TRefresh _ => refresh
  end.

(** A timer fires: an interval is due again, the others are spent. *)
Definition fire (t : Timer) (w : World) : World :=
  exec (timer_code (tm_code t))
    (match tm_code t with TRefresh ms => rearm (tm_id t) ms w | _ => Loader.remove_timer (tm_id t) w end).

(** An answer of the server: the parsed series for the loader, else the text. *)
Inductive response := RData (a : Loader.Answer) | RText (r : Reply).

Definition xhr_done (c : XhrCode) (r : response) : M unit :=
  match c, r with
  | XLoader gotten cbObjs, RData a => Loader.onXhrComplete a gotten cbObjs
  | XLoadSettings cb, RText r => onLoadSettings cb r
  | XSaveSettings cb done_, RText r => onSaveSettings cb done_ r
  | XXref, RText r => onXref (rp_text r);; mret ()
  | XUsers, RText r => Login.onUsers r
  | XUserCreated cid, RText r => Login.onUserCreated cid r
  | _, _ => mret ()
  end.

Definition fits (c : XhrCode) (r : response) : Prop :=
  match c, r with XLoader _ _, RData _ => True | XLoader _ _, RText _ => False | _, RText _ => True | _, RData _ => False end.

Definition complete (x : nat) (c : XhrCode) (r : response) (w : World) : World :=
  exec (xhr_done c r) (Loader.remove_xhr x w).

(** ** The user *)

Inductive ui_event :=
  | UTab (i : nat) | UMouse (t : option Dropdown.ident)
  | UChart (k : nat) | UTool (k : nat) | ULogout | UButton (b : button)
  | USliderMove (left x : Z) | USliderUp (left x : Z)
  | UGraphClick (g : nat) | UGraphClose (g : nat) | UGraphZoomOut (g : nat) | UGraphSettings (g : nat) | UGraphSummary (g : nat)
  | ULegend (g : nat) (contents : list dom_node) | UGridClick
  | UZoom (minX maxX : Z) (domain : option (Z * Z)) | UDblclick
  | UCounter (text_of : jsstr -> jsstr) (leaf is_open : bool) (id : jsstr) (parents : list jsstr)
  | UDashboard (name : jsstr) (context : option jsstr) | URemoveDashboard (name : jsstr)
  | USplitter (x : Z) | ULefttab | UResize | UHashChange
  | UInputFocus (i : Login.input) | UInputKey (i : Login.input) (which : Z) | UInputText (i : Login.input) (s : jsstr)
  | UErrorClose | UDialogClose.

Definition ui_handler (u : ui_event) : M unit :=
  match u with
  | UTab i => Tabs.tab_click i
  | UMouse t => Dropdown.mouse_click t
  | UChart k => chart_choose k
  | UTool k => tool_choose k
  | ULogout => logout_choose
  | UButton b => button_click b
  | USliderMove l x => slider_move l x
  | USliderUp l x => slider_mouseup l x
  | UGraphClick g => bubble g
  | UGraphClose g => close_box g
  | UGraphZoomOut g => zoomout_box g
  | UGraphSettings g => settings_box g
  | UGraphSummary g => summary_box g
  | ULegend g contents => legend_click g contents
  | UGridClick => Widget.handler grid_methods Widget.Click
  | UZoom a b d => zoomCallback a b d
  | UDblclick => dblclick
  | UCounter f leaf is_open id parents => CounterTree.select_node f leaf is_open id parents
  | UDashboard n c => pick_dashboard n c
  | URemoveDashboard n => remove_dashboard n
  | USplitter x => splitter_move x
  | ULefttab => toggle_lefttab
  | UResize => documentResize
  | UHashChange => gotohash
  | UInputFocus i => Login.input_focus i
  | UInputKey i k => Login.input_keydown i k
  | UInputText i s => Login.set_input i s
  | UErrorClose => errorDialog_close
  | UDialogClose => dialog_close
  end.

(** An element takes events while it is on the page. *)
Definition enabled (u : ui_event) (w : World) : Prop :=
  match u with
  | UGraphClick g | UGraphClose g | UGraphZoomOut g | UGraphSettings g | UGraphSummary g | ULegend g _ => g ∈ gg_allGraphs (w_grid w)
  | _ => True
  end.

(** What the browser changes by itself: the clock, the visibility, the hash, the window. *)
Inductive browser :=
  | BTick (ms : Z) | BHidden (h : bool) | BHash (h : jsstr) | BPage (p : Page -> Page).

Definition browse (b : browser) (w : World) : World :=
  match b with
  | BTick ms => Loader.tick ms w
  | BHidden h => exec on_visibility (set_sys (fun s => mkSys (sy_now s) h (sy_hash s) (sy_timers s) (sy_next_timer s)
      (sy_xhrs s) (sy_next_xhr s) (sy_log s)) w)
  | BHash h => exec gotohash (exec (set_hash h) w)
  | BPage f => set_page f w
  end.

(** ** Steps *)

Inductive step (w : World) : World -> Prop :=
  | step_browser b : step w (browse b w)
  | step_timer t : t ∈ sy_timers (w_sys w) -> tm_due t <= sy_now (w_sys w) -> step w (fire t w)
  | step_reply x c r : (x, c) ∈ sy_xhrs (w_sys w) -> fits c r -> step w (complete x c r w)
  | step_anim k : step w (exec (anim_done k) w)
  | step_slide k : ESlideUp k ∈ sy_log (w_sys w) -> step w (exec (Login.slide_done k) w)
  | step_dialog d a : ui_dialog (w_ui w) = Some d -> step w (exec (dialog_submit d a) w)
  | step_ui u : enabled u w -> step w (exec (ui_handler u) w).

End Dispatch.

(** ** Every handler keeps an invariant of the application *)

Section Handlers.
Context (P : World -> Prop) `{!AppInv P} `{LocalZone}.

Lemma inv_run_chart k a : preserves P (run_chart k a).
Proof. destruct a; [apply inv_graph_size|apply inv_size_custom]; apply _. Qed.
Lemma inv_run_tool t : preserves P (run_tool t).
Proof.
  destruct t; cbn [run_tool].
  - apply inv_promptDialog; apply _.
  - apply inv_promptDialog; apply _.
  - apply inv_xref_change; apply _.
  - apply inv_select_daterange; apply _.
  - apply inv_packup; apply _.
Qed.
Lemma inv_chart_choose k : preserves P (chart_choose k).
Proof.
  unfold chart_choose. apply pres_bind; [by apply inv_body_mouseup|]. intros _. destruct (chart_items !! k); [|keep].
  apply (inv_doAction P). intros; apply inv_run_chart.
Qed.
Lemma inv_tool_choose k : preserves P (tool_choose k).
Proof.
  unfold tool_choose. apply pres_bind; [by apply inv_body_mouseup|]. intros _. destruct (tool_items !! k); [|keep].
  apply (inv_doAction P). apply inv_run_tool.
Qed.
Lemma inv_logout_choose : preserves P logout_choose.
Proof.
  unfold logout_choose. apply pres_bind; [by apply inv_body_mouseup|]. intros _. apply (inv_doAction P).
  intros; by apply inv_logout.
Qed.
Lemma inv_button_click b : preserves P (button_click b).
Proof.
  unfold button_click. apply pres_bind.
  - apply inv_guarded; [apply _|]. apply pres_bind; [apply pres_get|]. intros d.
    destruct (_ && d); [apply pres_ret|]. destruct b; cbn [action];
      [by apply inv_save_dashboard|by apply inv_refresh|by apply inv_auto_refresh|apply pres_ret].
  - intros _. destruct b; try apply pres_ret. unfold Login.view_login. apply pres_bind; [apply pres_get|]. intros; by apply inv_login_op.
Qed.

Lemma inv_prompt_answer cb s : preserves P (prompt_answer cb s).
Proof.
  destruct cb; cbn [prompt_answer]; (apply pres_bind; [|intros; apply pres_ret]).
  - by apply inv_size_setCustom.
  - by apply inv_change_counters.
  - by apply inv_change_counters.
  - by apply inv_save_dashboard_named.
Qed.
Lemma inv_choice_answer cb o : preserves P (choice_answer cb o).
Proof.
  destruct cb; cbn [choice_answer].
  - destruct (fmt_of o); keep.
  - by apply inv_remove_answer.
  - by apply inv_overwrite_answer.
  - by apply inv_create_answer.
Qed.
Lemma inv_dialog_submit d a : preserves P (dialog_submit d a).
Proof.
  destruct d, a; cbn [dialog_submit]; try apply pres_ret.
  - apply inv_prompt_submit; [apply _|apply inv_prompt_answer].
  - apply inv_choice_submit; [apply _|apply inv_choice_answer].
  - by apply inv_daterange_submit.
  - by apply inv_xref_submit.
Qed.

Lemma inv_handler f : preserves P f -> preserves P (Widget.handler (Widget.mkMethods None None None (Some f)) Widget.Click).
Proof. intros Hf. apply (inv_guarded P _), (inv_guarded P _), Hf. Qed.

Lemma inv_bubble g : preserves P (bubble g).
Proof.
  intros w Hw. destruct (decide (g ∈ gg_allGraphs (w_grid w))) as [Hg|Hg].
  - rewrite bubble_selects, <- surface_click_exec by done. by apply ai_click.
  - rewrite bubble_unselects by done. by apply inv_grid_click.
Qed.

Lemma inv_box body g : preserves P body -> preserves P (guarded "" body;; bubble g).
Proof. intros Hb. apply pres_bind; [by apply inv_guarded; [apply _|]|]. intros _. apply inv_bubble. Qed.

(** The handlers of the user's events, for an element on the page. *)
Lemma inv_ui_handler u w : enabled u w -> P w -> P (exec (ui_handler u) w).
Proof.
  intros Hu Hw. destruct u; cbn [ui_handler enabled] in *.
  - revert w Hu Hw. intros w _. revert w. apply (inv_guarded P _). keep. unfold Tabs.put_tabs. keep.
  - by apply inv_mouse_click.
  - by apply inv_chart_choose.
  - by apply inv_tool_choose.
  - by apply inv_logout_choose.
  - by apply inv_button_click.
  - by apply inv_slider_move.
  - by apply inv_slider_mouseup.
  - by apply inv_bubble.
  - apply inv_box; [|done]. apply ai_close.
  - apply inv_box; [|done]. by apply inv_zoomOutIntervals.
  - apply inv_box; [|done]. by apply inv_showSettings.
  - apply inv_box; [|done]. by apply inv_toggleSummary.
  - apply inv_box; [|done]. destruct (contents !! 1%nat) as [[|text]|]; [apply pres_throw|apply ai_toggle|apply pres_throw].
  - by apply inv_handler; [apply inv_grid_click|].
  - by apply inv_zoomCallback.
  - by apply inv_dblclick.
  - by apply inv_select_node.
  - by apply inv_pick_dashboard.
  - by apply inv_remove_dashboard.
  - by apply inv_splitter_move.
  - by apply inv_toggle_lefttab.
  - by apply inv_documentResize.
  - by apply inv_gotohash.
  - by apply inv_input_focus.
  - by apply inv_input_keydown.
  - by apply inv_set_input.
  - exact (inv_ui P _ w Hw).
  - apply inv_dialog_close; [apply _|done].
Qed.

Lemma inv_timer_code c : c <> TLoader -> preserves P (timer_code c).
Proof. destruct c; [done|intros _..]; cbn [timer_code]; [by apply inv_paint_visible|by apply ai_repaint|by apply inv_refresh]. Qed.

Lemma inv_xhr_done c r : other_xhr c -> preserves P (xhr_done c r).
Proof.
  intros Hc. destruct c, r; cbn [xhr_done]; try done; try apply pres_ret.
  - by apply inv_onLoadSettings.
  - by apply inv_onSaveSettings.
  - apply pres_bind; [by apply inv_onXref|intros; apply pres_ret].
  - by apply inv_onUsers.
  - by apply inv_onUserCreated.
Qed.

End Handlers.

(** ** The page that [on_ready] leaves *)

(** Nothing is loaded or drawn while the page is built. *)
Definition blank (w : World) : Prop := w_loader w = Loader.init /\ w_grid w = mkGrid [] None.

Lemma blank_reloadAll : preserves blank reloadAll.
Proof. intros w [H1 H2]. unfold reloadAll. rewrite exec_bind. cbn [get]. by rewrite H2. Qed.

Lemma blank_setIndex i : preserves blank (setIndex i).
Proof.
  unfold setIndex, moveThumb, setManual, update_index, slider, put_slider, set_interval, restoreOriginalInterval,
    calcReloadInterval, refresh, refresh_body. pose proof blank_reloadAll.
  repeat first [apply pres_guarded; [apply _|apply _|] | progress pres]; done.
Qed.

Lemma pres_and {A} (P Q : World -> Prop) (m : M A) :
  preserves P m -> preserves Q m -> preserves (fun w => P w /\ Q w) m.
Proof. intros H1 H2 w [Hp Hq]. split; [by apply H1|by apply H2]. Qed.

Section Ready.
Context (P : World -> Prop) `{!AppInv P}.
Hypothesis Hempty : preserves P (modify (set_grid (fun _ => mkGrid [] None))).

Definition blank_and (w : World) : Prop := P w /\ blank w.

Lemma ready_loader : preserves blank_and (modify (set_loader (fun _ => Loader.init))).
Proof.
  intros w Hw. replace (exec _ w) with w; [done|]. destruct Hw as [_ [Hl _]]. destruct w. cbn in *. by subst.
Qed.

Lemma ready_guarded name (f : M unit) : preserves blank_and f -> preserves blank_and (guarded name f).
Proof.
  intros Hf w Hw. specialize (Hf w Hw). unfold exec in *. destruct (f w) as [w' [[]|e]] eqn:E.
  - by rewrite (guarded_Ok _ _ _ _ E).
  - rewrite (guarded_Throw _ _ _ _ _ E). apply (pres_and P blank); [apply inv_errorDialog; apply _|apply pres_errorDialog; apply _|done].
Qed.

Lemma inv_new_TimeSlider : preserves P new_TimeSlider.
Proof. unfold new_TimeSlider. keep; [by apply inv_put_slider|by apply inv_setIndex]. Qed.
Lemma inv_controls : preserves P controls_initialize.
Proof. unfold controls_initialize, login_view_initialize, Login.initialize. keep. Qed.
Lemma inv_tree : preserves P CounterFilter.tree_initialize.
Proof. unfold CounterFilter.tree_initialize, CounterFilter.filter_initialize. keep. Qed.

Lemma blank_new_TimeSlider : preserves blank new_TimeSlider.
Proof. unfold new_TimeSlider, put_slider. pose proof blank_setIndex. pres. Qed.

(** Building the page keeps an invariant of the application. *)
Lemma inv_on_ready : preserves blank_and on_ready.
Proof.
  unfold on_ready. apply ready_guarded.
  repeat lazymatch goal with |- preserves _ (mbind _ _) => apply pres_bind; [|intros ?] end.
  all: try exact ready_loader; apply (pres_and P blank).
  all: unfold unselectable, Tabs.rebuildTabs, Tabs.put_tabs, put_dash, chart_initialize, tools_initialize.
  all: try (keep; fail).
  all: try first [apply inv_new_TimeSlider | apply inv_tree | apply inv_controls | exact Hempty | apply blank_new_TimeSlider].
  all: try (apply inv_render; [apply _|keep]).
  all: try (unfold Dropdown.render, Dropdown.renderLabel, Dropdown.renderDropdown, Dropdown.the_view, Dropdown.put_view,
    CounterFilter.tree_initialize, CounterFilter.filter_initialize, controls_initialize, login_view_initialize, Login.initialize; pres; fail).
  all: try (apply pres_begin || apply pres_finish; apply _).
  - intros w [H1 H2]. by split.
Qed.

End Ready.

(** What the page shows once it is built. *)

Lemma total_render {A} d l (items : list (Dropdown.item A)) : total (Dropdown.render d (mret l) items).
Proof.
  intros w. destruct (Dropdown.render_exec d (mret l : M jsstr) items w l) as (g & E & _); [done|].
  exists (). unfold result. by rewrite E.
Qed.

Lemma total_new_TimeSlider : total new_TimeSlider.
Proof. unfold new_TimeSlider, put_slider. tot. Qed.

Lemma total_trees : total CounterFilter.tree_initialize /\ total controls_initialize.
Proof.
  unfold CounterFilter.tree_initialize, CounterFilter.filter_initialize, controls_initialize, login_view_initialize, Login.initialize. split; tot.
Qed.

Lemma begin_token w : exists t, begin w = (exec begin w, Ok t).
Proof.
  unfold begin, exec, mbind, M_bind, get. cbv beta iota zeta. destruct (ui_nesting (w_ui w) =? 0); by eexists.
Qed.

(** The steps of [on_ready] one after the other. *)
Lemma on_ready_steps (Q : World -> Prop) `{!Stable Q set_io} `{!Stable Q set_ui} `{!Stable Q set_loader} w :
  let w1 := exec (modify (set_grid (fun _ => mkGrid [] None)))
    (exec (put_dash (fun d => mkDash (theUserName d) [] (da_list d) (Some []))) (exec Tabs.rebuildTabs (exec begin w))) in
  let w2 := exec controls_initialize (exec CounterFilter.tree_initialize (exec new_TimeSlider w1)) in
  Q (exec tools_initialize (exec chart_initialize w2)) -> Q (exec on_ready w).
Proof.
  intros w1 w2 HQ. unfold on_ready. apply exec_guarded; [exact _..|]. destruct (begin_token w) as [t Et].
  rewrite exec_bind, Et. unfold Tabs.rebuildTabs, Tabs.put_tabs, put_dash in *. rewrite !exec_seq by tot.
  rewrite (exec_seq new_TimeSlider) by apply total_new_TimeSlider.
  rewrite (exec_seq CounterFilter.tree_initialize), (exec_seq controls_initialize) by apply total_trees.
  rewrite (exec_seq chart_initialize), (exec_seq tools_initialize) by apply total_render.
  unfold unselectable.
  match goal with |- Q (exec ?k ?v) => assert (Hk : preserves Q k) end; [|by apply Hk].
  pres; try (apply pres_modify; intros ? ?; by apply stable).
Qed.

(** Building the slider: its default index selects the last hour. *)
Lemma new_TimeSlider_time w :
  dt_stop (theOriginalDates (w_time w)) = Some (sy_now (w_sys w) - 10 * 1000) ->
  let t := w_time (exec new_TimeSlider w) in
  theTimeSlider t = mkSlider false (IAt 2) false (ts_width (theTimeSlider (w_time w))) /\
  theCurrentDates t = mkDates (Some (sy_now (w_sys w) - 10 * 1000 - 3600 * 1000)) (Some (sy_now (w_sys w) - 10 * 1000)) /\
  theReloadInterval t = 10.
Proof.
  intros Hs t. unfold t, new_TimeSlider, put_slider. rewrite !exec_seq by tot. rewrite setIndex_time.
  change (clamp 2) with 2. cbn [seq length markers for_each]. rewrite !exec_seq by tot.
  set (w' := exec (mret ()) _). assert (Hn : sy_now (w_sys w') = sy_now (w_sys w)) by reflexivity.
  assert (Ht : w_time w' = set_slider (mkSlider false INull false (ts_width (theTimeSlider (w_time w)))) (w_time w)) by reflexivity.
  rewrite Hn, Ht. clearbody w'. unfold index_set. cbn [theTimeSlider set_slider ts_index].
  rewrite bool_decide_eq_false_2 by done. change (default 0 (markers !! Z.to_nat 2)) with 3600.
  match goal with |- context [interval_set 3600 ?n ?h ?t] =>
    destruct (interval_set_dates 3600 n h t (sy_now (w_sys w) - 10 * 1000) Hs) as (_ & E2 & E3 & E4 & _) end.
  unfold at_index at 1 3 5. cbn [theTimeSlider set_slider theCurrentDates theReloadInterval].
  rewrite E2, E3, E4. split; [reflexivity|]. split; [by destruct (sy_hidden (w_sys w'))|reflexivity].
Qed.

Section Trees.
Context (P : World -> Prop) `{!Stable P set_io} `{!Stable P set_ui}.
Lemma pres_trees : preserves P CounterFilter.tree_initialize /\ preserves P controls_initialize.
Proof.
  unfold CounterFilter.tree_initialize, CounterFilter.filter_initialize, controls_initialize, login_view_initialize, Login.initialize. split; pres.
Qed.
End Trees.

(** Rendering the two menus. *)
Lemma menus_views w :
  vw_chart_size (w_views w) = no_dropdown -> vw_advanced (w_views w) = no_dropdown ->
  let v := w_views (exec tools_initialize (exec chart_initialize w)) in
  vw_chart_size v = mkDropdown (Some (js "Chart Size")) (Some ((fun i => (Dropdown.it_item i, Dropdown.it_selected i)) <$> chart_items)) false /\
  vw_advanced v = mkDropdown (Some (js "Advanced Tools")) (Some ((fun i => (Dropdown.it_item i, Dropdown.it_selected i)) <$> tool_items)) false.
Proof.
  intros H1 H2 v.
  destruct (Dropdown.render_exec Dropdown.ChartSize (mret (js "Chart Size") : M jsstr) chart_items w _ ltac:(done)) as (g1 & E1 & V1).
  destruct (Dropdown.render_exec Dropdown.AdvancedTools (mret (js "Advanced Tools") : M jsstr) tool_items (set_views g1 w) _ ltac:(done))
    as (g2 & E2 & V2).
  assert (Ex : exec tools_initialize (exec chart_initialize w) = set_views g2 (set_views g1 w)).
  { unfold tools_initialize, chart_initialize, exec. rewrite E1. cbn [fst]. by rewrite E2. }
  unfold v. rewrite Ex. cbn [w_views set_views].
  pose proof (V2 Dropdown.ChartSize) as C2. pose proof (V1 Dropdown.ChartSize) as C1.
  pose proof (V2 Dropdown.AdvancedTools) as A2. pose proof (V1 Dropdown.AdvancedTools) as A1.
  unfold Dropdown.is_open in *. cbn [w_views set_views] in *. rewrite C1 in C2. rewrite A1 in A2.
  cbn [Dropdown.view_of] in C2, A2. rewrite H1 in C2. rewrite H2 in A2. done.
Qed.

(** C40: loading the page leaves the time slider at one hour, the range of the last hour up
    to ten seconds ago, an empty grid, a label per tab with the counters' active, and
    the two menus with their entries, all closed; the medium size is marked in its menu
    and in use, but not recorded as the menu's choice. *)
Theorem on_ready_page now gauge page l :
  let w := exec on_ready (set_login (fun _ => l) (globals now gauge page)) in
  theTimeSlider (w_time w) = mkSlider false (IAt 2) false gauge /\
  theCurrentDates (w_time w) = mkDates (Some (now - 10 * 1000 - 3600 * 1000)) (Some (now - 10 * 1000)) /\
  theReloadInterval (w_time w) = 10 /\ w_grid w = mkGrid [] None /\
  w_size w = mkSize 600 240 /\ w_sizeDropdown w = None /\
  vw_tabs (w_views w) = [mkTab (js "counters") true (Some (js "Counters", true));
                         mkTab (js "dashboards") false (Some (js "Dashboards", false))] /\
  vw_chart_size (w_views w) = mkDropdown (Some (js "Chart Size"))
    (Some [(js "Small (300x120)", false); (js "Medium (600x240)", true); (js "Large (800x480)", false); (js "Custom...", false)]) false /\
  vw_advanced (w_views w) = mkDropdown (Some (js "Advanced Tools"))
    (Some [(js "Regex/Replace...", false); (js "Regex/Add...", false); (js "Cross-reference Counters...", false);
           (js "Manual Date Range...", false); (js "Create Bookmark URL", false)]) false.
Proof.
  intros w. set (w0 := set_login (fun _ => l) (globals now gauge page)) in *.
  set (w1 := exec (modify (set_grid (fun _ => mkGrid [] None)))
    (exec (put_dash (fun d => mkDash (theUserName d) [] (da_list d) (Some []))) (exec Tabs.rebuildTabs (exec begin w0)))).
  set (w2 := exec controls_initialize (exec CounterFilter.tree_initialize (exec new_TimeSlider w1))).
  assert (Hv : w_views w2 = w_views w1).
  { unfold w2. rewrite (pres_eq w_views controls_initialize), (pres_eq w_views CounterFilter.tree_initialize),
      (pres_eq w_views new_TimeSlider); [done|intros b..].
    - unfold new_TimeSlider, put_slider. pres.
    - unfold CounterFilter.tree_initialize, CounterFilter.filter_initialize. pres.
    - unfold controls_initialize, login_view_initialize, Login.initialize. pres. }
  assert (Htail : forall P, Stable P set_io -> Stable P set_ui -> Stable P set_views ->
    P (exec new_TimeSlider w1) -> P (exec tools_initialize (exec chart_initialize w2))).
  { intros P S1 S2 S3 H. unfold w2.
    apply (Dropdown.pres_render P Dropdown.AdvancedTools (mret (js "Advanced Tools")) tool_items); [apply pres_ret|].
    apply (Dropdown.pres_render P Dropdown.ChartSize (mret (js "Chart Size")) chart_items); [apply pres_ret|].
    assert (H' : P (exec CounterFilter.tree_initialize (exec new_TimeSlider w1))).
    { by apply (proj1 (pres_trees P)). }
    by apply (proj2 (pres_trees P)). }
  destruct (new_TimeSlider_time w1 eq_refl) as (T1 & T2 & T3).
  assert (Et : w_time w = w_time (exec new_TimeSlider w1)).
  { apply (on_ready_steps (fun v => w_time v = _)). apply (Htail (fun v => w_time v = _)); [exact _..|done]. }
  assert (Eg : w_grid w = mkGrid [] None).
  { apply (on_ready_steps (fun v => w_grid v = _)). apply (Htail (fun v => w_grid v = _)); [exact _..|].
    rewrite (pres_eq w_grid new_TimeSlider); [done|]. intros b. unfold new_TimeSlider, put_slider. pres. }
  assert (Es : w_size w = mkSize 600 240 /\ w_sizeDropdown w = None).
  { apply (on_ready_steps (fun v => w_size v = _ /\ w_sizeDropdown v = _)).
    apply (Htail (fun v => w_size v = _ /\ w_sizeDropdown v = _)); [exact _..|].
    split; [rewrite (pres_eq w_size new_TimeSlider)|rewrite (pres_eq w_sizeDropdown new_TimeSlider)]; try done;
      intros b; unfold new_TimeSlider, put_slider; pres. }
  assert (Ev : w_views w = w_views (exec tools_initialize (exec chart_initialize w2))).
  { by apply (on_ready_steps (fun v => w_views v = _)). }
  rewrite Et, T1, T2, T3, Eg. destruct Es as [-> ->]. split_and!; try done.
  - rewrite Ev. transitivity (vw_tabs (w_views w2)); [|by rewrite Hv].
    by apply Dropdown.tabs_render, Dropdown.tabs_render.
  - rewrite Ev. apply (menus_views w2); by rewrite Hv.
  - rewrite Ev. apply (menus_views w2); by rewrite Hv.
Qed.

(** ** Choosing from the menus *)

(** The entries of the size menu with the one at [i] marked. *)
Definition marked (i : Z) (w : World) : option (list (jsstr * bool)) :=
  imap (fun k e => (e.1, Z.of_nat k =? i)) <$> dv_entries (vw_chart_size (w_views w)).

Lemma graph_size_run a b i w :
  let w' := exec (graph_size a b (Some i)) w in
  w_size w' = mkSize a b /\ w_sizeDropdown w' = Some i /\ dv_entries (vw_chart_size (w_views w')) = marked i w /\
  forall d, Dropdown.is_open w' d = Dropdown.is_open w d.
Proof.
  cbv zeta. unfold graph_size, setGraphSize. rewrite !exec_seq by tot. split_and!.
  - rewrite (pres_eq w_size documentResize); [done|]. intros. apply pres_documentResize; exact _.
  - rewrite (pres_eq w_sizeDropdown documentResize); [done|]. intros. apply pres_documentResize; exact _.
  - rewrite (pres_eq w_views documentResize); [|intros; apply pres_documentResize; exact _].
    change (dv_entries (on_entries (fun k c => c || (Z.of_nat k =? i)) (on_entries (fun _ _ => false) (vw_chart_size (w_views w)))) = marked i w).
    unfold marked, on_entries. cbn. destruct (dv_entries (vw_chart_size (w_views w))) as [l|]; [|reflexivity]. cbn. f_equal.
    apply list_eq. intros k. rewrite !list_lookup_imap. by destruct (l !! k).
  - intros d. unfold Dropdown.is_open. rewrite (pres_eq w_views documentResize); [by destruct d|].
    intros. apply pres_documentResize; exact _.
Qed.

(** An entry of the size menu sets the size it names and is recorded by its
    place in the menu, which is what a saved dashboard keeps, and by its mark; the last entry opens the prompt
    for a custom size; the menus are closed. *)
Theorem chart_menu_sizes k w :
  let w' := exec (chart_choose k) w in
  (forall d, Dropdown.is_open w' d = false) /\
  match k with
  | 0%nat => w_size w' = mkSize 300 120 /\ w_sizeDropdown w' = Some 0 /\ dv_entries (vw_chart_size (w_views w')) = marked 0 w
  | 1%nat => w_size w' = mkSize 600 240 /\ w_sizeDropdown w' = Some 1 /\ dv_entries (vw_chart_size (w_views w')) = marked 1 w
  | 2%nat => w_size w' = mkSize 800 480 /\ w_sizeDropdown w' = Some 2 /\ dv_entries (vw_chart_size (w_views w')) = marked 2 w
  | 3%nat => (exists text, ui_dialog (w_ui w') = Some (DPrompt text PSizeCustom)) /\ w_size w' = w_size w
  | _ => w_size w' = w_size w
  end.
Proof.
  intros w'. unfold w', chart_choose. rewrite exec_seq by (unfold Dropdown.body_mouseup, Dropdown.close, Dropdown.put_view; tot).
  set (w1 := exec Dropdown.body_mouseup w).
  assert (Hc : forall d, Dropdown.is_open w1 d = false) by (by intros []).
  assert (Hnd : NoDup (Dropdown.it_item <$> chart_items)) by (apply (bool_decide_unpack _); vm_compute; exact I).
  assert (Hs : forall a b i, (forall d, Dropdown.is_open (exec (graph_size a b (Some i)) w1) d = false) /\
    w_size (exec (graph_size a b (Some i)) w1) = mkSize a b /\ w_sizeDropdown (exec (graph_size a b (Some i)) w1) = Some i /\
    dv_entries (vw_chart_size (w_views (exec (graph_size a b (Some i)) w1))) = marked i w).
  { intros a b i. destruct (graph_size_run a b i w1) as (E1 & E2 & E3 & E4). split_and!; [|done..].
    intros d. rewrite E4. apply Hc. }
  destruct (chart_items !! k) as [it|] eqn:Ek.
  - rewrite (Dropdown.doAction_entry chart_items (run_chart k) k it Hnd Ek).
    destruct k as [|[|[|[|k]]]]; try discriminate Ek; injection Ek as <-; cbn [Dropdown.it_action run_chart]; [apply Hs..|].
    split; [exact Hc|]. split; [by eexists|done].
  - split; [exact Hc|]. by destruct k as [|[|[|[|k]]]].
Qed.

(** ** Every step keeps the application's invariant *)

Definition app_ok (w : World) : Prop := sys_ok w /\ grid_ok w.

Section Reachable.
Context `{LocalZone}.

Lemma globals_ok now gauge page l :
  let w := set_login (fun _ => l) (globals now gauge page) in sys_ok w /\ grid_ok w /\ blank w.
Proof.
  intros w. split_and!; [|constructor; try constructor|done].
  - constructor.
    + constructor; try done; constructor.
    + constructor; try done; try constructor; try done; constructor.
  - intros g s Hin. by apply not_elem_of_nil in Hin.
Qed.

Lemma sys_ok_empty : preserves sys_ok (modify (set_grid (fun _ => mkGrid [] None))).
Proof. intros w. apply sys_ok_same; [done|constructor; try done; by left]. Qed.
Lemma grid_ok_empty : preserves grid_ok (modify (set_grid (fun _ => mkGrid [] None))).
Proof. intros w Hw. constructor; try constructor. intros g s Hin. by apply not_elem_of_nil in Hin. Qed.

Lemma on_ready_ok now gauge page l : app_ok (exec on_ready (set_login (fun _ => l) (globals now gauge page))).
Proof.
  destruct (globals_ok now gauge page l) as (H1 & H2 & H3). split.
  - by apply (inv_on_ready sys_ok sys_ok_empty).
  - by apply (inv_on_ready grid_ok grid_ok_empty).
Qed.

(** Timers and requests, for each of the two. *)
Lemma fire_sys t w : sys_ok w -> t ∈ sy_timers (w_sys w) -> sys_ok (fire t w).
Proof.
  intros Hw Ht. unfold fire. destruct (tm_code t) as [|g|g|n] eqn:Ec.
  - by apply loader_timer_fires.
  - apply (inv_timer_code sys_ok); [done|]. apply other_timer_fires; [done..|by rewrite Ec].
  - apply (inv_timer_code sys_ok); [done|]. apply other_timer_fires; [done..|by rewrite Ec].
  - apply (inv_timer_code sys_ok); [done|]. by eapply refresh_timer_fires.
Qed.

Lemma fire_grid t w : grid_ok w -> grid_ok (fire t w).
Proof.
  intros Hw. unfold fire.
  assert (Hw' : grid_ok (match tm_code t with TRefresh ms => rearm (tm_id t) ms w | _ => Loader.remove_timer (tm_id t) w end)).
  { by destruct (tm_code t); apply (grid_ok_sys _ w). }
  destruct (tm_code t) as [|g|g|n]; [exact (Loader.pres_onTimer grid_ok _ Hw')|by apply (inv_timer_code grid_ok)..].
Qed.

Lemma complete_sys x c r w : sys_ok w -> (x, c) ∈ sy_xhrs (w_sys w) -> fits c r -> sys_ok (complete x c r w).
Proof.
  intros Hw Hx Hf. unfold complete. destruct c as [g o| | | | | |].
  { destruct r as [a|]; [|done]. by apply loader_xhr_done. }
  all: apply (inv_xhr_done sys_ok); [done|]; by eapply other_xhr_done.
Qed.

Lemma complete_grid x c r w : grid_ok w -> grid_ok (complete x c r w).
Proof.
  intros Hw. unfold complete. assert (Hw' : grid_ok (Loader.remove_xhr x w)) by (by apply (grid_ok_sys _ w)).
  destruct c as [g o| | | | | |]; [|by apply (inv_xhr_done grid_ok)..].
  destruct r as [a|]; [|done]. apply (Loader.pres_onXhrComplete grid_ok); [|done].
  intros c d. cbn [deliver surface_client]. unfold on_data. apply pres_bind; [apply ai_emit|intros _; apply (ai_render (P := grid_ok))].
Qed.

(** What the browser does by itself. *)
Lemma browse_ok b w : app_ok w -> app_ok (browse b w).
Proof.
  intros [H1 H2]. destruct b as [ms|h|hash|f]; cbn [browse]; split.
  - revert H1. apply sys_ok_same; [done|constructor; try done; by left].
  - by apply (grid_ok_sys _ w).
  - apply (inv_on_visibility sys_ok). revert H1. apply sys_ok_same; [done|constructor; try done; by left].
  - apply (inv_on_visibility grid_ok). by apply (grid_ok_sys _ w).
  - apply (inv_gotohash sys_ok), (ai_hash (P := sys_ok)), H1.
  - apply (inv_gotohash grid_ok), (ai_hash (P := grid_ok)), H2.
  - by apply (ai_page (P := sys_ok)).
  - by apply (ai_page (P := grid_ok)).
Qed.

Lemma step_ok w w' : app_ok w -> step w w' -> app_ok w'.
Proof.
  intros [H1 H2] Hs. destruct Hs as [b|t Ht _|x c r Hx Hf|k|k _|d a _|u Hu].
  - by apply browse_ok.
  - split; [by apply fire_sys|by apply fire_grid].
  - split; [by apply complete_sys|by apply complete_grid].
  - split; [apply (inv_anim_done sys_ok)|apply (inv_anim_done grid_ok)]; done.
  - split; [apply (inv_slide_done sys_ok)|apply (inv_slide_done grid_ok)]; done.
  - split; [apply (inv_dialog_submit sys_ok)|apply (inv_dialog_submit grid_ok)]; done.
  - split; [apply (inv_ui_handler sys_ok)|apply (inv_ui_handler grid_ok)]; done.
Qed.

(** What the invariant says of the timers, the requests and the grid. *)
Lemma app_ok_facts w :
  app_ok w ->
  (length (loader_timers w) <= 1)%nat /\ (length (loader_xhrs w) <= 1)%nat /\
  (ld_nextEvent (w_loader w) = head (tm_id <$> loader_timers w)) /\ (ld_xhr (w_loader w) = head (loader_xhrs w).*1) /\
  (length (refresh_timers w) <= 1)%nat /\
  (refresh_timers w <> [] <-> from_option truthy false (isAutoRefresh (w_time w)) = true) /\
  NoDup (tm_id <$> sy_timers (w_sys w)) /\ NoDup (sy_xhrs (w_sys w)).*1 /\ grid_ok w.
Proof.
  intros [[[I1 I2 _ _ _] [[A1 A2] Q2 _ Q4 _ _]] Hg].
  destruct (ld_nextEvent (w_loader w)) as [e|]; [destruct I1 as (tm & -> & <- & _)|rewrite I1];
    (destruct (ld_xhr (w_loader w)) as [x|]; [destruct I2 as (g & c & -> & _)|rewrite I2]);
    rewrite A2; (destruct (autoRefreshTimer (w_time w)); [destruct A1 as (t & -> & <-)|rewrite A1]);
    split_and!; try done; cbn; lia.
Qed.

End Reachable.

End App.
