(* ===== verification/Wiring.v ===== *)
(** * Handlers of the graphs, and the events that find them

    What [GraphGrid], [Widget], [GraphSurface] and [GraphGrid.newGraph] bind through jQuery, and what
    happens when the user clicks on a graph, one of its boxes or its legend: jQuery's dispatch
    finds the handlers, and the event bubbles.  The theorem is that these clicks do what
    [Clicks] says of them.

    A legend is drawn again and again, and each time its entries are new elements without
    handlers; moving the mouse over it binds them.  Entries do not contain entries.  Opening a dashboard or following a
    bookmark is a sequence of inputs: all graphs are closed, then graphs are made and given their series. *)

From stdpp Require Import gmap.
From S2P Require Import Prelude JsString JsObject World Shell Loader Grid TimeRange Legend Views Clicks Invariant App JqEvent.
Import Shell Grid TimeRange Clicks Invariant App.

Local Open Scope Z_scope.

Module Wiring.

(** ** Elements and handlers *)

Inductive box := CloseBox | ZoomoutBox | SettingsBox | SummaryBox.

(** The grid, a graph, what it holds, and the spans of its legend. *)
Inductive node := NGrid | NGraph (g : nat) | NBox (g : nat) (b : box) | NLegend (g : nat) | NEntry (g i : nat).

Inductive handler := HBox (g : nat) (b : box) | HWidget (obj : option nat) (ev : Widget.event) | HLegend (g : nat) | HEntry (g : nat).

#[global] Instance box_eq : EqDecision box.
Proof. solve_decision. Defined.
#[global] Instance widget_event_eq : EqDecision Widget.event.
Proof. solve_decision. Defined.
#[global] Instance node_eq : EqDecision node.
Proof. solve_decision. Defined.
#[global] Instance handler_eq : EqDecision handler.
Proof. solve_decision. Defined.

Definition box_code (b : box) : nat := match b with CloseBox => 0 | ZoomoutBox => 1 | SettingsBox => 2 | SummaryBox => 3 end.
Definition code_box (n : nat) : box := match n with 0%nat => CloseBox | 1%nat => ZoomoutBox | 2%nat => SettingsBox | _ => SummaryBox end.

Definition node_code (n : node) : nat * nat * nat :=
  match n with
  | NGrid => (0, 0, 0) | NGraph g => (1, g, 0) | NBox g b => (2, g, box_code b) | NLegend g => (3, g, 0) | NEntry g i => (4, g, i)
  end%nat.
Definition code_node (c : nat * nat * nat) : node :=
  match c with
  | (0, _, _) => NGrid | (1, g, _) => NGraph g | (2, g, b) => NBox g (code_box b) | (3, g, _) => NLegend g | (_, g, i) => NEntry g i
  end%nat.

#[global] Instance node_countable : Countable node.
Proof. apply (inj_countable' node_code code_node). intros [| |? []| |]; done. Defined.

Abbreviation registry := (JqEvent.registry node handler).

(** ** The page *)

(** The state, the handlers, and the spans of each legend with their contents. *)
Record page := mkPage {
  p_world : World; p_registry : registry; p_legends : gmap nat (list (nat * list dom_node)); p_next : nat }.

Definition with_world (w : World) (p : page) : page := mkPage w (p_registry p) (p_legends p) (p_next p).
Definition with_registry (r : registry) (p : page) : page := mkPage (p_world p) r (p_legends p) (p_next p).

Definition entries (g : nat) (p : page) : list (nat * list dom_node) := default [] (p_legends p !! g).

Definition path (n : node) : list node :=
  match n with
  | NGrid => []
  | NGraph _ => [NGrid]
  | NBox g _ | NLegend g => [NGraph g; NGrid]
  | NEntry g _ => [NLegend g; NGraph g; NGrid]
  end.

(** The page to jQuery: no handler here has a selector. *)
Definition dom_of : JqEvent.dom node handler page := JqEvent.mkDom p_registry (fun _ => path) (fun _ _ => false) (fun _ _ _ _ => false).

(** ** Binding *)

Definition event_name (ev : Widget.event) : jsstr :=
  match ev with
  | Widget.Mousedown => js "mousedown" | Widget.Mouseup => js "mouseup"
  | Widget.Mousemove => js "mousemove" | Widget.Click => js "click"
  end.

Definition on (n : node) (type : jsstr) (h : handler) (r : registry) : registry := JqEvent.add n type h None r.

(** [new Widget(obj, $obj, owner)] *)
Definition bind_widget (obj : option nat) (n : node) (r : registry) : registry :=
  foldl (fun r ev => on n (event_name ev) (HWidget obj ev) r) r [Widget.Mousedown; Widget.Mouseup; Widget.Mousemove; Widget.Click].

(** [new GraphSurface($self, parWig)] *)
Definition bind_surface (g : nat) (r : registry) : registry :=
  let r := foldl (fun r b => on (NBox g b) (js "click") (HBox g b) r) r [CloseBox; ZoomoutBox; SettingsBox; SummaryBox] in
  bind_widget (Some g) (NGraph g) r.

(** [new GraphGrid(id)], on a page without graphs *)
Definition page0 (w : World) : page := mkPage w (bind_widget None NGrid ∅) ∅ 0.

(** [theGrid.newGraph()] *)
Definition newGraph_page (p : page) : page :=
  match newGraph (p_world p) with
  | (w, Ok (Some g)) => mkPage w (on (NLegend g) (js "mouseover") (HLegend g) (bind_surface g (p_registry p))) (<[g := []]> (p_legends p)) (p_next p)
  | (w, _) => with_world w p
  end.

(** Dygraph writes the legend: the spans are new elements. *)
Definition draw (g : nat) (contents : list (list dom_node)) (p : page) : page :=
  mkPage (p_world p) (p_registry p) (<[g := zip (seq (p_next p) (length contents)) contents]> (p_legends p)) (p_next p + length contents).

(** ** The handlers *)

(** The elements of a graph. *)
Definition subtree (g : nat) (p : page) : list node :=
  [NGraph g; NBox g SummaryBox; NBox g SettingsBox; NBox g ZoomoutBox; NBox g CloseBox; NLegend g] ++ (NEntry g <$> (entries g p).*1).

Definition box_body (g : nat) (b : box) : M unit :=
  match b with CloseBox => close g | ZoomoutBox => zoomOutIntervals | SettingsBox => showSettings g | SummaryBox => toggleSummary g end.

(** [this.$self.remove()], of [close], also forgets the handlers of the graph. *)
Definition forget (g : nat) (p : page) : page := with_registry (JqEvent.cleanData (subtree g p) (p_registry p)) p.
Definition run_box (g : nat) (b : box) (p : page) : page :=
  let p' := match b with CloseBox => forget g p | _ => p end in
  with_world (exec (guarded "" (box_body g b)) (p_world p)) p'.

(** [theGrid.clear()], which opening a dashboard or following a bookmark begins with *)
Definition close_page (p : page) (g : nat) : page := with_world (exec (close g) (p_world p)) (forget g p).
Definition clear_page (p : page) : page :=
  let p := with_world (set_grid (set_selected None) (p_world p)) p in
  foldl close_page p (gg_allGraphs (w_grid (p_world p))).

Definition object_methods (obj : option nat) : Widget.methods := match obj with Some g => surface_methods g | None => grid_methods end.

(** [GraphSurface.click] stops the event. *)
Definition widget_verdict (obj : option nat) (ev : Widget.event) : JqEvent.verdict :=
  match obj, ev with Some _, Widget.Click => JqEvent.StopPropagation | _, _ => JqEvent.Continue end.

(** [$(elem).unbind(); $(elem).click(...)] *)
Definition rebind (g : nat) (r : registry) (i : nat) : registry :=
  on (NEntry g i) (js "click") (HEntry g) (JqEvent.remove (NEntry g i) [] None None r).
Definition run_legend (g : nat) (p : page) : page := with_registry (foldl (rebind g) (p_registry p) (entries g p).*1) p.

(** The contents of an entry of a legend. *)
Fixpoint find_entry (i : nat) (l : list (nat * list dom_node)) : option (list dom_node) :=
  match l with [] => None | (j, c) :: l' => if bool_decide (i = j) then Some c else find_entry i l' end.
(** [$(this).contents()] *)
Definition contents (cur : node) (p : page) : list dom_node :=
  match cur with NEntry g i => default [] (find_entry i (entries g p)) | _ => [] end.

Definition run (h : handler) (cur : node) (ev : JqEvent.event node) (p : page) : page * JqEvent.verdict :=
  match h with
  | HBox g b => (run_box g b p, JqEvent.Continue)
  | HWidget obj e => (with_world (exec (Widget.handler (object_methods obj) e) (p_world p)) p, widget_verdict obj e)
  | HLegend g => (run_legend g p, JqEvent.Continue)
  | HEntry g => (with_world (exec (entry_handler g (contents cur p)) (p_world p)) p, JqEvent.Continue)
  end.

Definition fire (type : string) (n : node) (p : page) : page := JqEvent.fire dom_of run (JqEvent.mkEvent (js type) n 0) p.

(** ** Inputs *)

Inductive input :=
  | New                                          (** a graph is made *)
  | ClickBox (g : nat) (b : box) | ClickGraph (g : nat) | ClickGrid
  | Draw (g : nat) (contents : list (list dom_node))
  | Over (g : nat) (k : option nat)              (** the mouse comes over the legend, or over an entry *)
  | ClickEntry (g k : nat)
  | Clear                                        (** every graph is closed *)
  | Work (m : World -> World).                   (** timers, answers of the server, other controls *)

(** The entry is the one at a position. *)
Definition entry (g k : nat) (p : page) : option node := (fun e => NEntry g e.1) <$> entries g p !! k.

Definition here (g : nat) (p : page) : bool := on_page g (p_world p).

(** An element that is not on the page gets no event. *)
Definition step (p : page) (i : input) : page :=
  match i with
  | New => newGraph_page p
  | ClickBox g b => if here g p then fire "click" (NBox g b) p else p
  | ClickGraph g => if here g p then fire "click" (NGraph g) p else p
  | ClickGrid => fire "click" NGrid p
  | Draw g cs => if here g p then draw g cs p else p
  | Over g None => if here g p then fire "mouseover" (NLegend g) p else p
  | Over g (Some k) => if here g p then match entry g k p with Some n => fire "mouseover" n p | None => p end else p
  | ClickEntry g k => if here g p then match entry g k p with Some n => fire "click" n p | None => p end else p
  | Clear => clear_page p
  | Work m => with_world (m (p_world p)) p
  end.

(** ** Specification *)

(** Without elements and handlers: the state, and what each legend shows with whether the mouse has been over it since. *)
Abbreviation legends := (gmap nat (list (list dom_node) * bool)).

(** The event of the application that a click on a box is. *)
Definition box_event (g : nat) (b : box) : ui_event :=
  match b with CloseBox => UGraphClose g | ZoomoutBox => UGraphZoomOut g | SettingsBox => UGraphSettings g | SummaryBox => UGraphSummary g end.

Definition shown (g : nat) (L : legends) : list (list dom_node) := (default ([], false) (L !! g)).1.
Definition live (g : nat) (L : legends) : bool := (default ([], false) (L !! g)).2.

Definition spec_step (st : World * legends) (i : input) : World * legends :=
  let '(w, L) := st in
  match i with
  | New => (exec newGraph w, <[length (w_graphs w) := ([], false)]> L)
  | ClickBox g b => if on_page g w then (exec (ui_handler (box_event g b)) w, L) else st
  | ClickGraph g => if on_page g w then (exec (ui_handler (UGraphClick g)) w, L) else st
  | ClickGrid => (exec (ui_handler UGridClick) w, L)
  | Draw g cs => if on_page g w then (w, <[g := (cs, false)]> L) else st
  | Over g k =>
      if on_page g w && match k with Some k => bool_decide (k < length (shown g L))%nat | None => true end
      then (w, <[g := (shown g L, true)]> L) else st
  | ClickEntry g k =>
      if on_page g w then
        match shown g L !! k with
        | Some c => (exec (ui_handler (if live g L then ULegend g c else UGraphClick g)) w, L)
        | None => st
        end
      else st
  | Clear => (exec clear w, L)
  | Work m => (m w, L)
  end.

(** Other work neither makes nor removes graphs: what does is a sequence of inputs, such as opening a dashboard, which is
    [Clear], then for each graph [New] and the work that gives it its series. *)
Definition quiet (i : input) : Prop :=
  match i with
  | Work m => forall w, grid_ok w -> grid_ok (m w) /\ gg_allGraphs (w_grid (m w)) = gg_allGraphs (w_grid w)
  | _ => True
  end.

(** ** The handlers of a graph *)

Definition click_events (h : handler) : list (jsstr * JqEvent.queue handler) := [(js "click", JqEvent.lone (js "click") h)].
Definition over_events (h : handler) : list (jsstr * JqEvent.queue handler) := [(js "mouseover", JqEvent.lone (js "mouseover") h)].
Definition widget_events (obj : option nat) : list (jsstr * JqEvent.queue handler) :=
  (fun ev => (event_name ev, JqEvent.lone (event_name ev) (HWidget obj ev))) <$>
    [Widget.Mousedown; Widget.Mouseup; Widget.Mousemove; Widget.Click].

(** The elements of a graph but for the entries of its legend, and their handlers. *)
Definition fixed (g : nat) (n : node) : option (list (jsstr * JqEvent.queue handler)) :=
  match n with
  | NGraph g' => if decide (g = g') then Some (widget_events (Some g)) else None
  | NBox g' b => if decide (g = g') then Some (click_events (HBox g b)) else None
  | NLegend g' => if decide (g = g') then Some (over_events (HLegend g)) else None
  | _ => None
  end.

Record wired (p : page) (L : legends) : Prop := {
  wr_grid : grid_ok (p_world p);
  wr_root : JqEvent.events_at (p_registry p) NGrid = widget_events None;
  wr_fixed : forall g n evs, fixed g n = Some evs ->
    JqEvent.events_at (p_registry p) n = if here g p then evs else [];
  wr_shown : forall g, here g p = true -> (entries g p).*2 = shown g L;
  wr_nodup : forall g, NoDup (entries g p).*1;
  wr_old : forall g i, i ∈ (entries g p).*1 -> (i < p_next p)%nat;
  wr_entry : forall g i, here g p = true -> i ∈ (entries g p).*1 ->
    JqEvent.events_at (p_registry p) (NEntry g i) = if live g L then click_events (HEntry g) else [];
  wr_fresh : forall g i, (p_next p <= i)%nat -> JqEvent.events_at (p_registry p) (NEntry g i) = [] }.

(** ** Lemmas *)

Lemma plain_widget ev : JqEvent.is_plain (event_name ev) = true.
Proof. by destruct ev. Qed.

Lemma on_other n t h r n' :
  JqEvent.is_plain t = true -> n <> n' -> JqEvent.events_at (on n t h r) n' = JqEvent.events_at r n'.
Proof. intros Ht Hn. unfold on. rewrite JqEvent.events_at_add by done. by rewrite decide_False. Qed.

Lemma on_same n t h r :
  JqEvent.is_plain t = true ->
  JqEvent.events_at (on n t h r) n =
  obj_set (JqEvent.events_at r n) t (JqEvent.put (JqEvent.mkHandle t [] None h) (JqEvent.queue_at r n t)).
Proof. intros Ht. unfold on. rewrite JqEvent.events_at_add by done. by rewrite decide_True. Qed.

Lemma bind_widget_other obj n r n' : n <> n' -> JqEvent.events_at (bind_widget obj n r) n' = JqEvent.events_at r n'.
Proof. intros Hn. unfold bind_widget. cbn [foldl]. by rewrite !on_other by (done || apply plain_widget). Qed.

Lemma bind_widget_same obj n r : JqEvent.events_at r n = [] -> JqEvent.events_at (bind_widget obj n r) n = widget_events obj.
Proof.
  intros Hr. unfold bind_widget. cbn [foldl]. unfold JqEvent.queue_at.
  repeat (rewrite on_same by apply plain_widget; unfold JqEvent.queue_at). rewrite Hr. vm_compute. reflexivity.
Qed.

Lemma bind_surface_boxes g r n :
  let r' := foldl (fun r b => on (NBox g b) (js "click") (HBox g b) r) r [CloseBox; ZoomoutBox; SettingsBox; SummaryBox] in
  JqEvent.events_at r' n =
    match n with
    | NBox g' b => if decide (g = g') then obj_set (JqEvent.events_at r n) (js "click")
        (JqEvent.put (JqEvent.mkHandle (js "click") [] None (HBox g b)) (JqEvent.queue_at r n (js "click"))) else JqEvent.events_at r n
    | _ => JqEvent.events_at r n
    end.
Proof.
  cbv zeta. cbn [foldl]. unfold on, JqEvent.queue_at.
  rewrite !JqEvent.events_at_add by done. unfold JqEvent.queue_at. rewrite !JqEvent.events_at_add by done.
  destruct n as [|g'|g' b|g'|g' i]; try (by rewrite !decide_False).
  destruct (decide (g = g')) as [<-|Hne]; [|by rewrite !decide_False by congruence].
  destruct b; repeat first [rewrite (decide_True _ _ (eq_refl : _ = _))|rewrite decide_False by congruence]; done.
Qed.

(** What [newGraph] binds: the elements of the new graph, and no other. *)
Lemma bind_graph g r n :
  (forall n evs, fixed g n = Some evs -> JqEvent.events_at r n = []) ->
  JqEvent.events_at (on (NLegend g) (js "mouseover") (HLegend g) (bind_surface g r)) n = default (JqEvent.events_at r n) (fixed g n).
Proof.
  intros Hf. unfold bind_surface. cbv zeta. pose proof (bind_surface_boxes g r) as Hb. cbv zeta in Hb.
  set (r1 := foldl _ r _) in *.
  destruct (decide (NLegend g = n)) as [<-|Hl].
  { rewrite on_same by done. unfold JqEvent.queue_at. rewrite bind_widget_other, Hb by done.
    rewrite (Hf (NLegend g) (over_events (HLegend g))) by (cbn; by rewrite decide_True). cbn [fixed]. by rewrite decide_True. }
  rewrite on_other by done. destruct (decide (NGraph g = n)) as [<-|Hg].
  { rewrite bind_widget_same; [cbn; by rewrite decide_True|]. rewrite Hb. apply (Hf _ (widget_events (Some g))). cbn. by rewrite decide_True. }
  rewrite bind_widget_other, Hb by done. destruct n as [|g'|g' b|g'|g' i]; cbn [fixed].
  - done.
  - by rewrite decide_False by congruence.
  - destruct (decide (g = g')) as [<-|Hne]; [|done]. unfold JqEvent.queue_at.
    rewrite (Hf (NBox g b) (click_events (HBox g b))) by (cbn; by rewrite decide_True). done.
  - by rewrite decide_False by congruence.
  - done.
Qed.

Lemma fixed_graph g g' n evs evs' : fixed g n = Some evs -> fixed g' n = Some evs' -> g = g'.
Proof. destruct n; cbn; try done; repeat case_decide; congruence. Qed.

Lemma wired_new p L :
  wired p L -> wired (newGraph_page p) (<[length (w_graphs (p_world p)) := ([], false)]> L) /\ p_world (newGraph_page p) = exec newGraph (p_world p).
Proof.
  intros [W1 W2 W3 W4 W5 W6 W7 W8]. destruct (newGraph_spec (p_world p)) as (w' & En & _ & Eg & _). set (g := length (w_graphs (p_world p))) in *.
  assert (Hw : exec newGraph (p_world p) = w') by (unfold exec; by rewrite En).
  pose proof (grid_ok_newGraph _ W1) as W1'. rewrite Hw in W1'.
  assert (Hg : here g p = false).
  { apply bool_decide_eq_false_2. intros Hin. pose proof (go_valid _ W1) as Hv. rewrite Forall_forall in Hv. specialize (Hv _ Hin). unfold g in Hv. cbn in Hv. lia. }
  unfold newGraph_page. rewrite En. split; [|by rewrite Hw]. set (p' := mkPage _ _ _ _).
  assert (Hh : forall g', here g' p' = if decide (g' = g) then true else here g' p).
  { intros g'. unfold here, on_page. cbn [p' p_world]. rewrite Eg. cbn [set_allGraphs gg_allGraphs].
    destruct (decide (g' = g)) as [->|Hne].
    - apply bool_decide_eq_true_2, elem_of_app. right. by left.
    - apply bool_decide_ext. rewrite elem_of_app, list_elem_of_singleton. tauto. }
  assert (Hf : forall n evs, fixed g n = Some evs -> JqEvent.events_at (p_registry p) n = []).
  { intros n evs Hn. by rewrite (W3 g n evs Hn), Hg. }
  assert (He : forall g', entries g' p' = if decide (g' = g) then [] else entries g' p).
  { intros g'. unfold entries. cbn [p' p_legends]. destruct (decide (g' = g)) as [->|Hne]; [by rewrite lookup_insert_eq|by rewrite lookup_insert_ne by done]. }
  constructor; try (intros g'; rewrite ?He, ?Hh; unfold shown, live).
  - done.
  - cbn [p' p_registry]. by rewrite bind_graph.
  - intros n evs Hn. cbn [p' p_registry]. rewrite bind_graph by done. destruct (decide (g' = g)) as [->|Hne]; [by rewrite Hn|].
    destruct (fixed g n) as [evs'|] eqn:En'; [|by apply W3]. exfalso. apply Hne. by eapply fixed_graph.
  - destruct (decide (g' = g)) as [->|Hne]; [by rewrite lookup_insert_eq|]. rewrite lookup_insert_ne by done. apply W4.
  - destruct (decide _); [constructor|apply W5].
  - destruct (decide _); [by intros i ?%not_elem_of_nil|apply W6].
  - intros i. destruct (decide (g' = g)) as [->|Hne]; [by intros _ ?%not_elem_of_nil|]. rewrite lookup_insert_ne by done. intros H1 H2.
    cbn [p' p_registry]. rewrite bind_graph by done. by apply W7.
  - intros i Hi. cbn [p' p_registry]. rewrite bind_graph by done. by apply W8.
Qed.

(** Work on the state that keeps the graphs. *)
Lemma wired_world p L w :
  wired p L -> grid_ok w -> gg_allGraphs (w_grid w) = gg_allGraphs (w_grid (p_world p)) -> wired (with_world w p) L.
Proof.
  intros [W1 W2 W3 W4 W5 W6 W7 W8] Hw Ha. assert (Hh : forall g, here g (with_world w p) = here g p) by (intros g; unfold here, on_page; cbn; by rewrite Ha).
  constructor; try done.
  - intros g. rewrite Hh. apply W3.
  - intros g. rewrite Hh. apply W4.
  - intros g. rewrite Hh. apply W7.
Qed.

Lemma wired_draw p L g cs : wired p L -> wired (draw g cs p) (<[g := (cs, false)]> L).
Proof.
  intros [W1 W2 W3 W4 W5 W6 W7 W8]. set (ids := seq (p_next p) (length cs)).
  assert (Hz : (zip ids cs).*1 = ids) by (apply fst_zip; unfold ids; by rewrite length_seq).
  assert (He : forall g', entries g' (draw g cs p) = if decide (g' = g) then zip ids cs else entries g' p).
  { intros g'. unfold entries. cbn [draw p_legends]. destruct (decide (g' = g)) as [->|Hne]; [by rewrite lookup_insert_eq|by rewrite lookup_insert_ne by done]. }
  constructor; try done; try (intros g'; rewrite ?He; unfold shown, live; destruct (decide (g' = g)) as [->|Hne]).
  - intros _. rewrite lookup_insert_eq. apply snd_zip. unfold ids. by rewrite length_seq.
  - rewrite lookup_insert_ne by done. apply W4.
  - rewrite Hz. apply NoDup_ListNoDup, seq_NoDup.
  - apply W5.
  - intros i. rewrite Hz. intros Hi%elem_of_seq. cbn. lia.
  - intros i Hi%W6. cbn. lia.
  - intros i _. rewrite Hz, lookup_insert_eq. intros Hi%elem_of_seq. apply W8. lia.
  - intros i. rewrite lookup_insert_ne by done. apply W7.
  - intros i Hi. apply W8. cbn in Hi. lia.
  - intros i Hi. apply W8. cbn in Hi. lia.
Qed.

(** *** What the handlers do to the graphs *)

Lemma bubble_graphs g w : gg_allGraphs (w_grid (exec (bubble g) w)) = gg_allGraphs (w_grid w).
Proof.
  destruct (decide (g ∈ gg_allGraphs (w_grid w))) as [Hg|Hg]; [rewrite bubble_selects by done|by rewrite bubble_unselects by done].
  by unfold select, exec, guarded, guard.
Qed.

Lemma box_graphs g b w :
  grid_ok w -> g ∈ gg_allGraphs (w_grid w) ->
  let w' := exec (guarded "" (box_body g b)) w in
  grid_ok w' /\ gg_allGraphs (w_grid w') = match b with CloseBox => arrayRemove (gg_allGraphs (w_grid w)) g | _ => gg_allGraphs (w_grid w) end.
Proof.
  intros Hw Hg w'. split.
  - apply (inv_guarded grid_ok); [|done]. destruct b; cbn [box_body]; [intros ?; apply grid_ok_close_any|apply inv_zoomOutIntervals|apply inv_showSettings|apply inv_toggleSummary]; exact _.
  - destruct b; cbn [box_body] in w'; cycle 1.
    + unfold w'. rewrite (pres_eq w_grid); [done|]. intros c. unfold zoomOutIntervals, fade. presg.
    + unfold w'. rewrite (pres_eq w_grid); [done|]. intros c. unfold showSettings. presg.
    + unfold w'. rewrite (pres_eq w_grid); [done|]. intros c. unfold toggleSummary. presg.
    + destruct Hw as [H1 H2 _ _]. rewrite Forall_forall in H2. destruct (lookup_lt_is_Some_2 (w_graphs w) g (H2 g Hg)) as [s Hs].
      destruct (close_spec g s w Hs) as (Hr & _ & _ & E & _). unfold w'. replace (exec (guarded "" (close g)) w) with (exec (close g) w); [done|].
      unfold exec. by rewrite (guarded_Ok _ _ _ _ (eta (close g) w () Hr)).
Qed.

Lemma entry_graphs g c w :
  grid_ok w -> grid_ok (exec (entry_handler g c) w) /\ gg_allGraphs (w_grid (exec (entry_handler g c) w)) = gg_allGraphs (w_grid w).
Proof.
  intros Hw. unfold entry_handler. destruct (c !! 1%nat) as [[|text]|]; (split;
    [apply (inv_guarded grid_ok); [|done]; try apply pres_throw; intros ?; apply grid_ok_toggle_any|]);
    (rewrite (pres_eq w_grid); [done|]; intros b; unfold toggleSeries; presg).
Qed.

Lemma fixed_subtree g n evs p : fixed g n = Some evs -> n ∈ subtree g p.
Proof.
  unfold subtree. rewrite elem_of_app. intros Hn. left. destruct n as [| | g' b | |]; cbn in Hn; try done; case_decide; simplify_eq;
    [|destruct b|]; repeat first [left; done|right].
Qed.
Lemma subtree_only g n p : n ∈ subtree g p -> (exists evs, fixed g n = Some evs) \/ exists i, n = NEntry g i.
Proof.
  unfold subtree. rewrite elem_of_app, list_elem_of_fmap. intros [Hn|(i & -> & _)]; [left|right; by exists i].
  rewrite !elem_of_cons, elem_of_nil in Hn. destruct Hn as [->|[->|[->|[->|[->|[->|[]]]]]]]; cbn; rewrite decide_True by done; by eexists.
Qed.

(** A box of a graph. *)
Lemma wired_box p L g b : wired p L -> here g p = true -> wired (run_box g b p) L.
Proof.
  intros W Hg. pose proof (bool_decide_eq_true_1 _ Hg) as Hin. destruct (box_graphs g b _ (wr_grid _ _ W) Hin) as [Hw Ha].
  unfold run_box, forget. destruct b; try (by apply wired_world). destruct W as [W1 W2 W3 W4 W5 W6 W7 W8].
  destruct (arrayRemove_NoDup (gg_allGraphs (w_grid (p_world p))) g (go_nodup _ W1)) as (_ & R2 & R3). set (p' := with_world _ _).
  assert (Hh : forall g', here g' p' = if decide (g' = g) then false else here g' p).
  { intros g'. unfold here, on_page. cbn [p' with_world p_world]. rewrite Ha. destruct (decide (g' = g)) as [->|Hne]; [by apply bool_decide_eq_false_2|].
    apply bool_decide_ext. split; [apply elem_of_arrayRemove|intros ?; by apply R3]. }
  constructor; try done; try (intros g'; rewrite ?Hh); cbn [p' with_world with_registry p_registry].
  - rewrite JqEvent.events_at_clean, decide_False; [done|]. by intros [(? & ?)|(? & ?)]%subtree_only.
  - intros n evs Hn. rewrite JqEvent.events_at_clean. destruct (decide (g' = g)) as [->|Hne].
    + by rewrite decide_True by (by eapply fixed_subtree).
    + rewrite decide_False; [by apply W3|]. intros [(evs' & Hn')|(i & ->)]%subtree_only; [|done]. apply Hne. by eapply fixed_graph.
  - destruct (decide _); [done|apply W4].
  - intros i. destruct (decide (g' = g)) as [|Hne]; [done|]. intros H1 H2. rewrite JqEvent.events_at_clean, decide_False; [by apply W7|].
    intros [(evs' & Hn')|(j & Ej)]%subtree_only; [done|]. congruence.
  - intros i Hi. rewrite JqEvent.events_at_clean. destruct (decide _); [done|by apply W8].
Qed.

(** All graphs are closed. *)
Lemma close_page_box p L g : wired p L -> here g p = true -> close_page p g = run_box g CloseBox p.
Proof.
  intros W Hg. pose proof (bool_decide_eq_true_1 _ Hg) as Hin. pose proof (go_valid _ (wr_grid _ _ W)) as Hv. rewrite Forall_forall in Hv.
  destruct (lookup_lt_is_Some_2 (w_graphs (p_world p)) g (Hv g Hin)) as [s Hs]. destruct (close_spec g s _ Hs) as (Hr & _).
  unfold close_page, run_box. f_equal. cbn [box_body]. unfold exec. by rewrite (guarded_Ok _ _ _ _ (eta (close g) _ () Hr)).
Qed.

Lemma wired_closes l p L :
  NoDup l -> (forall g, g ∈ l -> here g p = true) -> wired p L ->
  wired (foldl close_page p l) L /\ p_world (foldl close_page p l) = exec (for_each l close) (p_world p).
Proof.
  intros Hl. revert p. induction Hl as [|g l Hg _ IH]; intros p Hh W; [done|]. cbn [foldl for_each].
  assert (Hg' : here g p = true) by (apply Hh; left). pose proof (close_page_box p L g W Hg') as E.
  destruct (IH (close_page p g)) as [W' Ew].
  - intros g' Hin. destruct (box_graphs g CloseBox _ (wr_grid _ _ W) (bool_decide_eq_true_1 _ Hg')) as [_ Ha].
    rewrite E. unfold here, on_page, run_box. cbn [with_world p_world]. rewrite Ha. apply bool_decide_eq_true_2.
    destruct (arrayRemove_NoDup _ g (go_nodup _ (wr_grid _ _ W))) as (_ & _ & R3). apply R3; [by intros -> |].
    assert (Hp : here g' p = true) by (apply Hh; by right). exact (bool_decide_eq_true_1 _ Hp).
  - rewrite E. by apply wired_box.
  - split; [exact W'|]. rewrite Ew. cbn [close_page with_world p_world]. symmetry. apply exec_seq. apply guarded_total.
Qed.

Lemma wired_clear p L : wired p L -> wired (clear_page p) L /\ p_world (clear_page p) = exec clear (p_world p).
Proof.
  intros W. set (p1 := with_world (set_grid (set_selected None) (p_world p)) p).
  assert (W1 : wired p1 L) by (destruct (wr_grid _ _ W); by apply wired_world; [|constructor|]).
  destruct (wired_closes (gg_allGraphs (w_grid (p_world p))) p1 L) as [W2 E2].
  - apply (go_nodup _ (wr_grid _ _ W)).
  - intros g Hg. by apply bool_decide_eq_true_2.
  - done.
  - split; [exact W2|]. exact E2.
Qed.

(** The mouse over a legend: its entries have their handler, once. *)
Lemma rebind_at g r i n :
  JqEvent.events_at r (NEntry g i) = [] \/ JqEvent.events_at r (NEntry g i) = click_events (HEntry g) ->
  JqEvent.events_at (rebind g r i) n = if decide (NEntry g i = n) then click_events (HEntry g) else JqEvent.events_at r n.
Proof.
  intros Hr. unfold rebind, on. rewrite JqEvent.events_at_add by done.
  destruct (decide (NEntry g i = n)) as [<-|Hne]; unfold JqEvent.queue_at; rewrite JqEvent.events_at_unbind; [|by rewrite decide_False].
  rewrite decide_True by done. destruct Hr as [-> | ->]; vm_compute; reflexivity.
Qed.

Lemma rebinds_at g ids r n :
  (forall i, i ∈ ids -> JqEvent.events_at r (NEntry g i) = [] \/ JqEvent.events_at r (NEntry g i) = click_events (HEntry g)) ->
  JqEvent.events_at (foldl (rebind g) r ids) n = if decide (n ∈ NEntry g <$> ids) then click_events (HEntry g) else JqEvent.events_at r n.
Proof.
  revert r. induction ids as [|i ids IH]; intros r Hr; [done|]. cbn [foldl]. pose proof (rebind_at g r i) as Ha. rewrite IH.
  - rewrite Ha by (apply Hr; left). cbn [fmap list_fmap]. destruct (decide (n ∈ NEntry g <$> ids)).
    + by rewrite decide_True by (by right).
    + destruct (decide (NEntry g i = n)) as [<-|Hne]; [by rewrite decide_True by left|]. rewrite decide_False; [done|].
      rewrite elem_of_cons. intros [?|?]; congruence.
  - intros j Hj. rewrite Ha by (apply Hr; left). destruct (decide (NEntry g i = NEntry g j)); [by right|]. apply Hr. by right.
Qed.

Lemma wired_over p L g : wired p L -> here g p = true -> wired (run_legend g p) (<[g := (shown g L, true)]> L).
Proof.
  intros [W1 W2 W3 W4 W5 W6 W7 W8] Hg.
  assert (Hr : forall n, JqEvent.events_at (p_registry (run_legend g p)) n =
    if decide (n ∈ NEntry g <$> (entries g p).*1) then click_events (HEntry g) else JqEvent.events_at (p_registry p) n).
  { intros n. apply rebinds_at. intros i Hi. rewrite (W7 g i Hg Hi). destruct (live g L); auto. }
  assert (Hn : forall n, n ∈ NEntry g <$> (entries g p).*1 <-> exists i, n = NEntry g i /\ i ∈ (entries g p).*1) by (intros n; apply list_elem_of_fmap).
  constructor; try done; try (intros g'; rewrite ?Hr; unfold shown, live); try rewrite Hr.
  - rewrite decide_False; [done|]. rewrite Hn. by intros (? & ? & _).
  - intros n evs Hf. rewrite Hr, decide_False; [by apply W3|]. rewrite Hn. by intros (? & -> & _).
  - intros Hg'. destruct (decide (g' = g)) as [->|Hne]; [rewrite lookup_insert_eq|rewrite lookup_insert_ne by done]; by apply W4.
  - intros i Hg' Hi. destruct (decide (g' = g)) as [->|Hne]; rewrite Hr.
    + rewrite lookup_insert_eq, decide_True; [done|]. rewrite Hn. eauto.
    + rewrite lookup_insert_ne by done. rewrite decide_False; [by apply W7|]. rewrite Hn. intros (? & ? & _). congruence.
  - intros i Hi. rewrite Hr, decide_False; [by apply W8|]. rewrite Hn. intros (j & [= -> ->] & Hj%W6). cbn in Hi. lia.
Qed.

(** *** Events *)

Lemma fixed_at p L g n evs t : wired p L -> here g p = true -> fixed g n = Some evs -> obj_get (JqEvent.events_at (p_registry p) n) t = obj_get evs t.
Proof. intros W Hg Hn. by rewrite (wr_fixed _ _ W g n evs Hn), Hg. Qed.

Section Event.
Context (p : page) (L : legends) (W : wired p L).

Lemma root_click ev : JqEvent.ev_type ev = js "click" ->
  JqEvent.propagate dom_of run ev [NGrid] p = with_world (exec (Widget.handler grid_methods Widget.Click) (p_world p)) p.
Proof.
  intros Et. rewrite (JqEvent.propagate_lone _ _ ev NGrid [] p (js "click") (HWidget None Widget.Click)); [done|].
  rewrite Et. cbn [dom_of JqEvent.d_registry]. by rewrite (wr_root _ _ W).
Qed.

(** A click that reaches a graph, or would if it were still there. *)
Lemma graph_click g ev : JqEvent.ev_type ev = js "click" ->
  JqEvent.propagate dom_of run ev [NGraph g; NGrid] p = with_world (exec (bubble g) (p_world p)) p.
Proof.
  intros Et. assert (Hn : fixed g (NGraph g) = Some (widget_events (Some g))) by (cbn; by rewrite decide_True).
  pose proof (wr_fixed _ _ W g _ _ Hn) as He. unfold here in He. unfold bubble. rewrite exec_bind. cbn [get fst snd]. destruct (on_page g (p_world p)).
  - rewrite (JqEvent.propagate_lone _ _ ev (NGraph g) [NGrid] p (js "click") (HWidget (Some g) Widget.Click)); [done|].
    rewrite Et. cbn [dom_of JqEvent.d_registry]. by rewrite He.
  - rewrite JqEvent.propagate_skip by (rewrite Et; cbn [dom_of JqEvent.d_registry]; by rewrite He). by apply root_click.
Qed.

Lemma legend_no_click g ev : here g p = true -> JqEvent.ev_type ev = js "click" ->
  JqEvent.propagate dom_of run ev [NLegend g; NGraph g; NGrid] p = with_world (exec (bubble g) (p_world p)) p.
Proof.
  intros Hg Et. rewrite JqEvent.propagate_skip; [by apply graph_click|]. rewrite Et. cbn [dom_of JqEvent.d_registry].
  rewrite (fixed_at p L g (NLegend g) (over_events (HLegend g)) _ W Hg) by (cbn; by rewrite decide_True). by vm_compute.
Qed.

Lemma entry_at g k n : here g p = true -> entry g k p = Some n ->
  exists i c, n = NEntry g i /\ shown g L !! k = Some c /\ contents n p = c /\
    JqEvent.events_at (p_registry p) n = if live g L then click_events (HEntry g) else [].
Proof.
  intros Hg. unfold entry. intros ([i c] & Hk & ->)%fmap_Some. exists i, c. split_and!; [done| | |].
  - rewrite <- (wr_shown _ _ W g Hg), list_lookup_fmap. by rewrite Hk.
  - cbn [fst contents]. pose proof (wr_nodup _ _ W g) as Hd. revert k Hk Hd. generalize (entries g p). intros l.
    induction l as [|[j d] l IH]; intros k Hk Hd; [done|]. cbn [find_entry]. apply NoDup_cons in Hd as [Hj Hd]. destruct k as [|k].
    + injection Hk as -> ->. by rewrite bool_decide_eq_true_2.
    + cbn in Hk. rewrite bool_decide_eq_false_2; [by apply (IH k)|]. intros ->. apply Hj. apply list_elem_of_fmap. exists (j, c). split; [done|].
      by eapply list_elem_of_lookup_2.
  - apply (wr_entry _ _ W g i Hg). apply list_elem_of_fmap. exists (i, c). split; [done|]. by eapply list_elem_of_lookup_2.
Qed.

Lemma entry_none g k : here g p = true -> entry g k p = None -> shown g L !! k = None.
Proof. intros Hg. unfold entry. intros Hk%fmap_None. rewrite <- (wr_shown _ _ W g Hg), list_lookup_fmap. by rewrite Hk. Qed.

Lemma legend_over g ev : here g p = true -> JqEvent.ev_type ev = js "mouseover" ->
  JqEvent.propagate dom_of run ev [NLegend g; NGraph g; NGrid] p = run_legend g p.
Proof.
  intros Hg Et. pose proof (wired_over p L g W Hg) as W'. rewrite (JqEvent.propagate_lone _ _ ev (NLegend g) [NGraph g; NGrid] p (js "mouseover") (HLegend g)); cycle 1.
  { rewrite Et. cbn [dom_of JqEvent.d_registry]. rewrite (fixed_at p L g (NLegend g) (over_events (HLegend g)) _ W Hg) by (cbn; by rewrite decide_True). done. }
  cbn [run]. rewrite !JqEvent.propagate_skip; [done| |]; rewrite Et; cbn [dom_of JqEvent.d_registry].
  - rewrite (wr_root _ _ W'). vm_compute. reflexivity.
  - rewrite (fixed_at _ _ g (NGraph g) (widget_events (Some g)) _ W' Hg) by (cbn; by rewrite decide_True). vm_compute. reflexivity.
Qed.
End Event.

(** *** One input *)

Definition related (p : page) (st : World * legends) : Prop := wired p st.2 /\ p_world p = st.1.

Lemma related_bubble p L g : wired p L -> related (with_world (exec (bubble g) (p_world p)) p) (exec (bubble g) (p_world p), L).
Proof.
  intros W. split; [|done]. apply wired_world; [done| |apply bubble_graphs]. apply (inv_bubble grid_ok). apply W.
Qed.

Lemma box_event_exec g b w : exec (ui_handler (box_event g b)) w = exec (bubble g) (exec (guarded "" (box_body g b)) w).
Proof. destruct b; apply exec_box. Qed.

Lemma step_box p L g b : wired p L -> here g p = true -> related (fire "click" (NBox g b) p) (exec (ui_handler (box_event g b)) (p_world p), L).
Proof.
  intros W Hg. pose proof (wired_box p L g b W Hg) as W'. unfold fire, JqEvent.fire. cbn [JqEvent.ev_target dom_of JqEvent.d_ancestors path].
  rewrite (JqEvent.propagate_lone _ _ _ (NBox g b) [NGraph g; NGrid] p (js "click") (HBox g b)); cycle 1.
  { cbn [dom_of JqEvent.d_registry]. rewrite (fixed_at p L g (NBox g b) (click_events (HBox g b)) _ W Hg) by (cbn; by rewrite decide_True). done. }
  cbn [run]. rewrite (graph_click _ L W') by done. rewrite box_event_exec.
  replace (exec (guarded "" (box_body g b)) (p_world p)) with (p_world (run_box g b p)) by (by destruct b). by apply related_bubble.
Qed.

Lemma step_entry p L g k :
  wired p L -> here g p = true ->
  related (step p (ClickEntry g k)) (spec_step (p_world p, L) (ClickEntry g k)).
Proof.
  intros W Hg. cbn [step spec_step]. unfold here in *. rewrite Hg. destruct (entry g k p) as [n|] eqn:En; cycle 1.
  { by rewrite (entry_none p L W g k Hg En). }
  destruct (entry_at p L W g k n Hg En) as (i & c & -> & -> & Hc & He). unfold fire, JqEvent.fire.
  cbn [JqEvent.ev_target dom_of JqEvent.d_ancestors path]. destruct (live g L) eqn:El.
  - rewrite (JqEvent.propagate_lone _ _ _ (NEntry g i) _ p (js "click") (HEntry g)) by (cbn [dom_of JqEvent.d_registry]; by rewrite He).
    cbn [run]. rewrite Hc. destruct (entry_graphs g c _ (wr_grid _ _ W)) as [Hw Ha]. pose proof (wired_world p L _ W Hw Ha) as W'.
    assert (Hg' : here g (with_world (exec (entry_handler g c) (p_world p)) p) = true) by (unfold here, on_page; cbn; by rewrite Ha).
    rewrite (legend_no_click _ L W') by done. cbn [ui_handler]. unfold legend_click, entry_handler at 3. rewrite exec_box. by apply related_bubble.
  - rewrite JqEvent.propagate_skip by (cbn [dom_of JqEvent.d_registry]; by rewrite He).
    rewrite (legend_no_click _ L W) by done. by apply related_bubble.
Qed.

Lemma step_over p L g k :
  wired p L -> here g p = true -> related (step p (Over g k)) (spec_step (p_world p, L) (Over g k)).
Proof.
  intros W Hg. cbn [step spec_step]. unfold here in *. rewrite Hg. cbn [andb].
  assert (Ho : related (run_legend g p) (p_world p, <[g := (shown g L, true)]> L)) by (split; [by apply wired_over|done]).
  destruct k as [k|]; [|by unfold fire, JqEvent.fire; cbn [JqEvent.ev_target dom_of JqEvent.d_ancestors path]; rewrite (legend_over p L W) by done].
  destruct (entry g k p) as [n|] eqn:En; cycle 1.
  { rewrite bool_decide_eq_false_2; [done|]. intros Hk%lookup_lt_is_Some_2. rewrite (entry_none p L W g k Hg En) in Hk. by destruct Hk. }
  destruct (entry_at p L W g k n Hg En) as (i & c & -> & Hk & Hc & He). rewrite bool_decide_eq_true_2 by (by eapply lookup_lt_Some).
  unfold fire, JqEvent.fire. cbn [JqEvent.ev_target dom_of JqEvent.d_ancestors path].
  rewrite JqEvent.propagate_skip by (cbn [dom_of JqEvent.d_registry]; rewrite He; by destruct (live g L)). by rewrite (legend_over p L W).
Qed.

Lemma step_related p st i : related p st -> quiet i -> related (step p i) (spec_step st i).
Proof.
  destruct st as [w L]. intros [W Ew] Hq. cbn [fst snd] in *. subst w. pose proof (wr_grid _ _ W) as Hok. destruct i as [|g b|g| |g cs|g k|g k| |m].
  - cbn [step spec_step]. destruct (wired_new p L W) as [W' E]. by split.
  - cbn [step spec_step]. unfold here. destruct (on_page g (p_world p)) eqn:Hg; [by apply step_box|done].
  - cbn [step spec_step]. unfold here. destruct (on_page g (p_world p)) eqn:Hg; [|done].
    unfold fire, JqEvent.fire. cbn [JqEvent.ev_target dom_of JqEvent.d_ancestors path]. rewrite (graph_click _ L W) by done. by apply related_bubble.
  - cbn [step spec_step]. unfold fire, JqEvent.fire. cbn [JqEvent.ev_target dom_of JqEvent.d_ancestors path]. rewrite (root_click _ L W) by done.
    split; [|done]. apply wired_world; [done| |].
    + apply (inv_handler grid_ok); [apply inv_grid_click; exact _|done].
    + by unfold Widget.handler, Widget.objForward, exec, guarded, guard.
  - cbn [step spec_step]. unfold here. destruct (on_page g (p_world p)); [|done]. split; [by apply wired_draw|done].
  - destruct (on_page g (p_world p)) eqn:Hg; [by apply step_over|]. cbn [step spec_step]. unfold here. rewrite Hg. by destruct k.
  - destruct (on_page g (p_world p)) eqn:Hg; [by apply step_entry|]. cbn [step spec_step]. unfold here. by rewrite Hg.
  - cbn [step spec_step]. by apply wired_clear.
  - cbn [step spec_step quiet] in *. destruct (Hq _ Hok) as [H1 H2]. split; [by apply wired_world|done].
Qed.

Lemma wired_page0 w : grid_ok w -> gg_allGraphs (w_grid w) = [] -> wired (page0 w) ∅.
Proof.
  intros Hw Ha. assert (Hh : forall g, here g (page0 w) = false) by (intros g; unfold here, on_page; cbn; by rewrite Ha).
  assert (Hr : forall n, n <> NGrid -> JqEvent.events_at (p_registry (page0 w)) n = []) by (intros n Hn; cbn [page0 p_registry]; by rewrite bind_widget_other).
  constructor; try done; try (intros g; rewrite ?Hh; done).
  - intros g n evs Hn. rewrite Hh. apply Hr. by intros ->.
  - intros g. constructor.
  - intros g i Hi. by apply not_elem_of_nil in Hi.
  - intros g i _. by apply Hr.
Qed.

(** C9: the handlers bound through jQuery do what the clicks are meant to do.  From a page without graphs, under any
    interleaving of new graphs, clicks on boxes, graphs, the grid and legend entries, mouse movements over
    legends, redrawn legends, [theGrid.clear()] and other work (work that neither makes nor removes graphs), dispatching each event through jQuery's registry gives the
    state of the specification: a box does its work and the graph is selected, a closed graph leaves the event to the grid,
    which clears the selection; an entry toggles its series once, however often the mouse came over it, and
    only selects the graph when the legend was drawn again since. *)
Theorem wiring_refines w inputs :
  grid_ok w -> gg_allGraphs (w_grid w) = [] -> Forall quiet inputs ->
  p_world (foldl step (page0 w) inputs) = (foldl spec_step (w, ∅) inputs).1.
Proof.
  intros Hw Ha Hq. assert (Hr : related (page0 w) (w, ∅)) by (split; [by apply wired_page0|done]).
  revert Hr. generalize (page0 w) (w, ∅ : legends). induction Hq as [|i inputs Hi _ IH]; intros p st Hr; [apply Hr|].
  cbn [foldl]. by apply IH, step_related.
Qed.

End Wiring.
