(* ===== verification/Menus.v ===== *)
(** * Handlers of the dropdowns ([IstatdDropdownView] of [files/graph.js])

    The three dropdowns are Backbone views: their table binds [open] to the view's element and
    [doAction] to the entries of the menu, and making the table binds a handler of the mouse to the
    body.  A click of the mouse is its release and then the click, each dispatched by jQuery.
    The theorem is that it does what [Dropdown] and [App] say of it. *)

From stdpp Require Import gmap.
From S2P Require Import Prelude JsString JsObject World Shell Views Login App JqEvent View.
Import Shell App.

Local Open Scope Z_scope.

Module Menus.
Import Dropdown.

(** ** Elements and handlers *)

(** The body, the element of a dropdown, its label, its menu, and the entries of the menu. *)
Inductive node := MBody | MView (d : ident) | MLabel (d : ident) | MReveal (d : ident) | MItem (d : ident) (k : nat).

(** A method of a view, bound to it, and the function that closes the view. *)
Inductive handler := HMethod (d : ident) (name : jsstr) | HClose (d : ident).

#[global] Instance node_eq : EqDecision node.
Proof. solve_decision. Defined.
#[global] Instance handler_eq : EqDecision handler.
Proof. solve_decision. Defined.

Definition ident_code (d : ident) : nat := match d with Logout => 0 | ChartSize => 1 | AdvancedTools => 2 end.
Definition code_ident (n : nat) : ident := match n with 0%nat => Logout | 1%nat => ChartSize | _ => AdvancedTools end.
Definition node_code (n : node) : nat * nat * nat :=
  match n with
  | MBody => (0, 0, 0) | MView d => (1, ident_code d, 0) | MLabel d => (2, ident_code d, 0) | MReveal d => (3, ident_code d, 0)
  | MItem d k => (4, ident_code d, k)
  end%nat.
Definition code_node (c : nat * nat * nat) : node :=
  match c with
  | (0, _, _) => MBody | (1, d, _) => MView (code_ident d) | (2, d, _) => MLabel (code_ident d) | (3, d, _) => MReveal (code_ident d)
  | (_, d, k) => MItem (code_ident d) k
  end%nat.
#[global] Instance node_countable : Countable node.
Proof. apply (inj_countable' node_code code_node). intros [|[]|[]|[]|[] ?]; done. Defined.

Abbreviation registry := (JqEvent.registry node handler).

Definition path (n : node) : list node :=
  match n with
  | MBody => []
  | MView _ => [MBody]
  | MLabel d | MReveal d => [MView d; MBody]
  | MItem d _ => [MReveal d; MView d; MBody]
  end.

(** ** The views *)

Definition open_key : jsstr := js "click".
Definition action_selector : jsstr := js ".reveal .tmenuitem".
Definition action_key : jsstr := js "click " ++ action_selector.

(** What [events()] returns. *)
Definition menu_events : list (jsstr * jsstr) := [(open_key, js "open"); (action_key, js "doAction")].

Section Menus.

(** [_.uniqueId('view')] *)
Context (cid : ident -> nat).

Definition menu_view (d : ident) : View.view :=
  View.mkView (cid d) (MView d) (Some menu_events)
    (js <$> ["renderLabel"; "renderDropdown"; "render"; "slideDown"; "slideUp"; "open"; "close"; "doAction"]%string).

(** The constructor: [delegateEvents] asks for the table, which binds a handler to the body, and binds the methods. *)
Definition new_menu (r : registry) (d : ident) : registry :=
  (View.new_view (fun _ => HMethod d) (menu_view d) (JqEvent.add MBody (js "mouseup") (HClose d) None r)).1.

(** [on_ready] makes the user's controls and then the two menus. *)
Definition menus0 : registry := foldl new_menu ∅ [Logout; ChartSize; AdvancedTools].

(** ** Dispatch *)

(** The state and the handlers. *)
Abbreviation page := (World * registry)%type.

(** Sizzle's answer: only the entries of a menu are [.tmenuitem]s inside a [.reveal]. *)
Definition matches (cur : node) (selector : jsstr) : bool :=
  match cur with MItem _ _ => bool_decide (selector = action_selector) | _ => false end.

Definition dom_of : JqEvent.dom node handler page := JqEvent.mkDom snd (fun _ => path) (fun _ _ => false) (fun _ _ => matches).

(** [doAction] on an entry. *)
Definition act (d : ident) (k : nat) : M unit :=
  match d with
  | Logout => Login.logout_action (js "Logout")
  | ChartSize => match chart_items !! k with Some i => doAction chart_items (run_chart k) (it_item i) | None => mret () end
  | AdvancedTools => match tool_items !! k with Some i => doAction tool_items run_tool (it_item i) | None => mret () end
  end.

(** Both methods stop the event before they do anything else; a method that throws ends the dispatch as well. *)
Definition stopping (m : M unit) (p : page) : page * JqEvent.verdict :=
  ((exec m p.1, p.2), match result m p.1 with Ok _ => JqEvent.StopPropagation | Throw _ => JqEvent.StopImmediate end).

Definition run (h : handler) (cur : node) (ev : JqEvent.event node) (p : page) : page * JqEvent.verdict :=
  match h with
  | HClose d => ((exec (close d) p.1, p.2), JqEvent.Continue)
  | HMethod d name =>
      if bool_decide (name = js "open") then stopping (open d) p
      else if bool_decide (name = js "doAction") then match cur with MItem _ k => stopping (act d k) p | _ => (p, JqEvent.Throws) end
      else (p, JqEvent.Continue)
  end.

Definition fire (type : string) (n : node) (p : page) : page := JqEvent.fire dom_of run (JqEvent.mkEvent (js type) n 0) p.

(** A click of the mouse on an element of the page. *)
Definition present (n : node) (w : World) : bool :=
  match n with MItem d k => bool_decide (k < length (default [] (dv_entries (view_of d (w_views w)))))%nat | _ => true end.
Definition click (p : page) (n : node) : page := if present n p.1 then fire "click" n (fire "mouseup" n p) else p.

(** ** Specification *)

(** The event of the application that a click is. *)
Definition ui_of (n : node) : ui_event :=
  match n with
  | MBody => UMouse None
  | MView d | MLabel d | MReveal d => UMouse (Some d)
  | MItem Logout _ => ULogout
  | MItem ChartSize k => UChart k
  | MItem AdvancedTools k => UTool k
  end.

(** ** The handlers *)

Definition open_handle (d : ident) : JqEvent.handleObj handler :=
  JqEvent.mkHandle open_key [View.namespace (menu_view d)] None (HMethod d (js "open")).
Definition action_handle (d : ident) : JqEvent.handleObj handler :=
  JqEvent.mkHandle open_key [View.namespace (menu_view d)] (Some action_selector) (HMethod d (js "doAction")).
Definition close_handle (d : ident) : JqEvent.handleObj handler := JqEvent.mkHandle (js "mouseup") [] None (HClose d).

(** The handlers of the page with the dropdowns [ds]. *)
Definition expected (ds : list ident) (n : node) (t : jsstr) : JqEvent.queue handler :=
  match n with
  | MBody => if decide (t = js "mouseup") then JqEvent.mkQueue (close_handle <$> ds) 0 else JqEvent.no_queue
  | MView d => if decide (d ∈ ds /\ t = open_key) then JqEvent.mkQueue [action_handle d; open_handle d] 1 else JqEvent.no_queue
  | _ => JqEvent.no_queue
  end.

Definition bound (ds : list ident) (r : registry) : Prop :=
  JqEvent.registry_ok r /\ forall n t, JqEvent.queue_at r n t = expected ds n t.

Lemma menu_handles d : View.handles (fun _ => HMethod d) (menu_view d) = [open_handle d; action_handle d].
Proof.
  unfold View.handles, View.handle. cbn [menu_view View.v_events View.v_methods default from_option id].
  change (obj_keys menu_events) with [open_key; action_key]. cbn [omap list_omap]. reflexivity.
Qed.

Lemma menu_proper d : View.proper (menu_view d).
Proof. by apply (View.proper_by_table (menu_view d) menu_events). Qed.

Lemma queue_at_body r d n t :
  JqEvent.queue_at (JqEvent.add MBody (js "mouseup") (HClose d) None r) n t =
  if decide (MBody = n /\ js "mouseup" = t) then JqEvent.put (close_handle d) (JqEvent.queue_at r n t) else JqEvent.queue_at r n t.
Proof. by apply JqEvent.queue_at_add. Qed.

Lemma bound_new ds d r : bound ds r -> d ∉ ds -> bound (ds ++ [d]) (new_menu r d).
Proof.
  intros [Hr Hq] Hd. unfold new_menu. set (r1 := JqEvent.add _ _ _ _ r).
  destruct (View.new_view_alone (fun _ => HMethod d) (menu_view d) r1) as (Hr' & Hown & Hother).
  { by apply JqEvent.bind_ok. }
  { intros t. unfold r1. rewrite queue_at_body, decide_False by (by intros [? _]). rewrite Hq. cbn. by rewrite decide_False by (by intros [? _]). }
  { apply menu_proper. }
  split; [done|]. intros n t. destruct (decide (n = MView d)) as [->|Hn].
  - rewrite Hown. unfold View.ours. rewrite menu_handles. cbn [expected]. destruct (decide (t = open_key)) as [->|Ht].
    + rewrite decide_True; [reflexivity|]. split; [|done]. apply elem_of_app. right. by left.
    + rewrite decide_False by (by intros [_ ?]). cbn [List.filter]. change (View.kept_type (open_handle d)) with open_key.
      change (View.kept_type (action_handle d)) with open_key. by rewrite bool_decide_eq_false_2 by congruence.
  - rewrite Hother by done. unfold r1. rewrite queue_at_body, Hq. destruct n as [|e|e|e|e k]; cbn [expected]; try (by rewrite decide_False by (by intros [? _])).
    + destruct (decide (t = js "mouseup")) as [->|Ht].
      * rewrite decide_True by done. unfold JqEvent.put. cbn. by rewrite fmap_app.
      * by rewrite decide_False by (intros [_ ?]; congruence).
    + rewrite decide_False by (by intros [? _]). apply decide_ext. rewrite elem_of_app, list_elem_of_singleton.
      split; [intros [? ?]; auto|]. intros [[?| ->] ?]; [done|]. by destruct Hn.
Qed.

Lemma bound_menus : bound [Logout; ChartSize; AdvancedTools] menus0.
Proof.
  assert (H0 : bound [] ∅).
  { split; [apply JqEvent.empty_ok|]. intros [|d|d|d|d k] t; cbn [expected]; by destruct (decide (t = _)). }
  unfold menus0. cbn [foldl].
  apply (bound_new [Logout; ChartSize] AdvancedTools); [apply (bound_new [Logout] ChartSize); [apply (bound_new [] Logout); [exact H0|]|]|];
    apply (bool_decide_unpack _); vm_compute; exact I.
Qed.

(** ** Events *)

Section Event.
Context (w : World) (r : registry) (Hb : bound [Logout; ChartSize; AdvancedTools] r).

(** An element without handlers for the event. *)
Lemma skip e ev w' n :
  expected [Logout; ChartSize; AdvancedTools] e (JqEvent.ev_type ev) = JqEvent.no_queue ->
  JqEvent.propagate dom_of run ev (e :: n) (w', r) = JqEvent.propagate dom_of run ev n (w', r).
Proof.
  intros He. apply JqEvent.propagate_none. cbn [dom_of JqEvent.d_registry snd]. by rewrite (proj2 Hb), He.
Qed.

Lemma body_up ev w' : JqEvent.ev_type ev = js "mouseup" -> JqEvent.propagate dom_of run ev [MBody] (w', r) = (exec body_mouseup w', r).
Proof.
  intros Et. rewrite JqEvent.propagate_step. unfold JqEvent.dispatch. cbn [dom_of JqEvent.d_registry snd]. by rewrite (proj2 Hb), Et.
Qed.

Lemma fire_up n : fire "mouseup" n (w, r) = (exec body_mouseup w, r).
Proof.
  unfold fire, JqEvent.fire. cbn [JqEvent.ev_target dom_of JqEvent.d_ancestors].
  destruct n as [|d|d|d|d k]; cbn [path]; rewrite ?skip by (cbn [expected JqEvent.ev_type]; try done; by rewrite decide_False by (by intros [_ ?])); by apply body_up.
Qed.

Lemma all_menus d : d ∈ [Logout; ChartSize; AdvancedTools].
Proof. rewrite !elem_of_cons. destruct d; tauto. Qed.

(** A click inside a dropdown: an entry acts, anything else toggles, and nothing goes further. *)
Lemma view_click ev d w' :
  JqEvent.ev_type ev = open_key -> JqEvent.ev_button ev = 0 ->
  (JqEvent.ev_target ev = MView d \/ JqEvent.ev_target ev = MLabel d \/ JqEvent.ev_target ev = MReveal d) ->
  JqEvent.propagate dom_of run ev [MView d; MBody] (w', r) = (exec (open d) w', r).
Proof.
  intros Et Hbt Hn. rewrite JqEvent.propagate_step. unfold JqEvent.dispatch. cbn [dom_of JqEvent.d_registry snd].
  rewrite (proj2 Hb), Et. cbn [expected]. rewrite decide_True by (split; [apply all_menus|done]).
  destruct ev as [et target btn]. cbn [JqEvent.ev_type JqEvent.ev_target JqEvent.ev_button] in *. subst et btn. unfold JqEvent.handlers.
  cbn [JqEvent.ev_target JqEvent.q_handlers JqEvent.q_delegates dom_of JqEvent.d_ancestors].
  destruct Hn as [-> |[-> | ->]]; cbn [path JqEvent.climb]; 
    rewrite ?(bool_decide_eq_true_2 (MView d = MView d)), ?(bool_decide_eq_false_2 (MLabel d = MView d)), ?(bool_decide_eq_false_2 (MReveal d = MView d)) by done; reflexivity.
Qed.

Lemma item_click ev d k w' :
  JqEvent.ev_type ev = open_key -> JqEvent.ev_button ev = 0 -> JqEvent.ev_target ev = MItem d k ->
  JqEvent.propagate dom_of run ev [MView d; MBody] (w', r) = (exec (act d k) w', r).
Proof.
  intros Et Hbt Hn. rewrite JqEvent.propagate_step. unfold JqEvent.dispatch. cbn [dom_of JqEvent.d_registry snd].
  rewrite (proj2 Hb), Et. cbn [expected]. rewrite decide_True by (split; [apply all_menus|done]).
  destruct ev as [et target btn]. cbn [JqEvent.ev_type JqEvent.ev_target JqEvent.ev_button] in *. subst et btn target.
  assert (Hh : JqEvent.handlers dom_of (MView d) (JqEvent.mkEvent open_key (MItem d k) 0) (JqEvent.mkQueue [action_handle d; open_handle d] 1) (w', r) =
    [(MItem d k, [action_handle d]); (MView d, [open_handle d])]).
  { unfold JqEvent.handlers. cbn [JqEvent.ev_target JqEvent.q_handlers JqEvent.q_delegates dom_of JqEvent.d_ancestors path JqEvent.climb].
    rewrite (bool_decide_eq_true_2 (MView d = MView d)), (bool_decide_eq_false_2 (MItem d k = MView d)), (bool_decide_eq_false_2 (MReveal d = MView d)) by done. reflexivity. }
  rewrite Hh. cbn [JqEvent.run_queue JqEvent.run_handlers action_handle JqEvent.ho_handler run].
  rewrite (bool_decide_eq_false_2 (js "doAction" = js "open")) by done. rewrite bool_decide_eq_true_2 by done. unfold stopping. cbn [fst snd].
  by destruct (result (act d k) w').
Qed.

Lemma fire_click n w' :
  fire "click" n (w', r) =
  (match n with MBody => w' | MView d | MLabel d | MReveal d => exec (open d) w' | MItem d k => exec (act d k) w' end, r).
Proof.
  unfold fire, JqEvent.fire. cbn [JqEvent.ev_target dom_of JqEvent.d_ancestors]. destruct n as [|d|d|d|d k]; cbn [path].
  - by rewrite skip.
  - by apply view_click; auto.
  - rewrite skip by done. by apply view_click; auto.
  - rewrite skip by done. by apply view_click; auto.
  - rewrite !skip by done. by apply item_click.
Qed.

Lemma click_spec n : click (w, r) n = (if present n w then exec (ui_handler (ui_of n)) w else w, r).
Proof.
  unfold click. cbn [fst]. destruct (present n w); [|done]. rewrite fire_up, fire_click. f_equal.
  assert (Ht : forall m : M unit, exec (body_mouseup;; m) w = exec m (exec body_mouseup w)).
  { intros m. apply exec_seq. unfold body_mouseup, close, put_view. tot. }
  by destruct n as [|d|d|d|[] k]; cbn [ui_of ui_handler act]; unfold mouse_click, chart_choose, tool_choose, logout_choose; rewrite Ht.
Qed.
End Event.

(** C12: the dropdowns' handlers, bound by Backbone's delegation and found by jQuery's dispatch, do what the clicks are meant to do: whatever
    the views' [cid]s, each click of the mouse closes all menus when the button is released; then a click on an entry runs that
    entry's action and does not toggle the menu, a click elsewhere on a dropdown toggles it, and
    a click outside leaves the menus closed. *)
Theorem menus_refine w ns :
  (foldl click (w, menus0) ns).1 = foldl (fun w n => if present n w then exec (ui_handler (ui_of n)) w else w) w ns.
Proof.
  revert w. induction ns as [|n ns IH]; intros w; [done|]. cbn [foldl]. rewrite click_spec by apply bound_menus. apply IH.
Qed.

End Menus.
End Menus.
