(* ===== verification/Forms.v ===== *)
(** * Handlers of the login form, the buttons and the search box ([UserLoginView], [on_ready], [CounterTreeFilterView] of [files/graph.js])

    Both views bind their methods to elements inside their own by selectors; jQuery hears the focus of
    an input as [focusin], which bubbles, so that the views' [focus] and [blur] work.  The login button
    is one of the [.tbutton]s, to which [on_ready] binds a handler of its own.  The theorems are
    that events of these elements do what [Login], [App] and [CounterFilter] say of them.

    A keyboard event carries a key; [focus()] of an input inside a method is part of that method. *)

From stdpp Require Import gmap.
From S2P Require Import Prelude JsString JsObject Backbone Collection LiveModel World Shell CounterTree CounterFilter Login App JqEvent View.
Import Shell App.

Local Open Scope Z_scope.

(** ** The login form and the buttons *)

Module LoginForm.

(** The view's element, its inputs, and the buttons of the page, one of which is in it. *)
Inductive node := LView | LInput (i : Login.input) | LButton (b : button).

Inductive handler := HMethod (name : jsstr) | HButton (b : button).

#[global] Instance input_eq : EqDecision Login.input.
Proof. solve_decision. Defined.
#[global] Instance node_eq : EqDecision node.
Proof. solve_decision. Defined.
#[global] Instance handler_eq : EqDecision handler.
Proof. solve_decision. Defined.

Definition node_code (n : node) : nat :=
  match n with
  | LView => 0 | LInput Login.LoginName => 1 | LInput Login.LoginPassword => 2
  | LButton SaveDashboard => 3 | LButton RefreshNow => 4 | LButton AutoRefresh => 5 | LButton LoginButton => 6
  end.
Definition code_node (c : nat) : node :=
  match c with
  | 0 => LView | 1 => LInput Login.LoginName | 2 => LInput Login.LoginPassword
  | 3 => LButton SaveDashboard | 4 => LButton RefreshNow | 5 => LButton AutoRefresh | _ => LButton LoginButton
  end%nat.
#[global] Instance node_countable : Countable node.
Proof. apply (inj_countable' node_code code_node). intros [|[]|[]]; done. Defined.

Abbreviation registry := (JqEvent.registry node handler).

Definition path (n : node) : list node :=
  match n with LInput _ | LButton LoginButton => [LView] | _ => [] end.

Definition input_selector (i : Login.input) : jsstr :=
  match i with Login.LoginName => js "#loginname" | Login.LoginPassword => js "#loginpassword" end.

Definition login_events : list (jsstr * jsstr) :=
  [(js "click #loginbutton", js "login"); (js "keydown #loginname", js "input_keydown"); (js "keydown #loginpassword", js "input_keydown");
   (js "focus #loginname", js "input_focus"); (js "focus #loginpassword", js "input_focus")].

(** Sizzle's answer to selectors by id. *)
Definition matches (cur : node) (selector : jsstr) : bool :=
  match cur with
  | LInput i => bool_decide (selector = input_selector i)
  | LButton LoginButton => bool_decide (selector = js "#loginbutton")
  | _ => false
  end.

Section LoginForm.

(** [_.uniqueId('view')] *)
Context (cid : nat).

Definition login_view : View.view :=
  View.mkView cid LView (Some login_events) (js <$> ["input_keydown"; "input_focus"; "login"; "slideDown"; "slideUp"]%string).

(** [$('.tbutton').click(...)] *)
Definition bind_buttons (r : registry) : registry :=
  foldl (fun r b => JqEvent.add (LButton b) (js "click") (HButton b) None r) r [LoginButton; SaveDashboard; RefreshNow; AutoRefresh].

(** [on_ready]: the view is made, then the buttons are bound. *)
Definition login0 : registry := bind_buttons (View.new_view (fun _ => HMethod) login_view ∅).1.

Abbreviation page := (World * registry)%type.
Definition dom_of : JqEvent.dom node handler page := JqEvent.mkDom snd (fun _ => path) (fun _ _ => false) (fun _ _ => matches).

(** A method may throw. *)
Definition outcome (m : M unit) (p : page) : page * JqEvent.verdict :=
  ((exec m p.1, p.2), match result m p.1 with Ok _ => JqEvent.Continue | Throw _ => JqEvent.Throws end).

(** [ev.currentTarget] is the input of a method for inputs. *)
Definition run (which : Z) (h : handler) (cur : node) (ev : JqEvent.event node) (p : page) : page * JqEvent.verdict :=
  match h with
  | HButton b => outcome (button_handler b) p
  | HMethod name =>
      if bool_decide (name = js "login") then outcome Login.view_login p
      else match cur with
           | LInput i =>
               if bool_decide (name = js "input_keydown") then outcome (Login.input_keydown i which) p
               else if bool_decide (name = js "input_focus") then outcome (Login.input_focus i) p
               else (p, JqEvent.Continue)
           | _ => (p, JqEvent.Continue)
           end
  end.

Inductive input := Click (b : button) | Focus (i : Login.input) | Key (i : Login.input) (which : Z).

Definition fire (which : Z) (type : string) (n : node) (p : page) : page := JqEvent.fire dom_of (run which) (JqEvent.mkEvent (js type) n 0) p.

(** The browser announces a focus by [focusin]. *)
Definition step (p : page) (i : input) : page :=
  match i with
  | Click b => fire 0 "click" (LButton b) p
  | Focus i => fire 0 "focusin" (LInput i) p
  | Key i which => fire which "keydown" (LInput i) p
  end.

(** The events of the application that they are. *)
Definition spec (i : input) : ui_event :=
  match i with Click b => UButton b | Focus i => UInputFocus i | Key i which => UInputKey i which end.

(** *** The handlers *)

Definition method (t : string) (selector : string) (name : string) : JqEvent.handleObj handler :=
  JqEvent.mkHandle (js t) [View.namespace login_view] (Some (js selector)) (HMethod (js name)).

Lemma login_handles : View.handles (fun _ => HMethod) login_view =
  [method "click" "#loginbutton" "login"; method "keydown" "#loginname" "input_keydown"; method "keydown" "#loginpassword" "input_keydown";
   method "focus" "#loginname" "input_focus"; method "focus" "#loginpassword" "input_focus"].
Proof.
  unfold View.handles, View.handle. cbn [login_view View.v_events View.v_methods default from_option id].
  change (obj_keys login_events) with login_events.*1. cbn [omap list_omap]. reflexivity.
Qed.

Definition button_queue (b : button) : JqEvent.queue handler := JqEvent.lone (js "click") (HButton b).

Lemma form_queues :
  (forall t, JqEvent.queue_at login0 LView t =
     let l := View.ours (fun _ => HMethod) login_view t in
     JqEvent.mkQueue (List.filter JqEvent.delegated l ++ List.filter JqEvent.direct l) (length (List.filter JqEvent.delegated l))) /\
  (forall i t, JqEvent.queue_at login0 (LInput i) t = JqEvent.no_queue) /\
  (forall b, JqEvent.queue_at login0 (LButton b) (js "click") = button_queue b).
Proof.
  destruct (View.new_view_alone (fun _ => HMethod) login_view ∅) as (_ & Hown & Hother); [apply JqEvent.empty_ok|done| |].
  { by apply (View.proper_by_table login_view login_events). }
  unfold login0, bind_buttons. cbn [foldl]. split_and!; intros.
  - rewrite !JqEvent.queue_at_add, !decide_False by (done || by intros [? _]). apply Hown.
  - rewrite !JqEvent.queue_at_add, !decide_False by (done || by intros [? _]). by apply Hother.
  - rewrite !JqEvent.queue_at_add, Hother by done. by destruct b.
Qed.

Section Event.
Context (which : Z) (w : World).

(** An event of an element of the form. *)
Lemma view_event ev :
  path (JqEvent.ev_target ev) = [LView] -> JqEvent.ev_button ev = 0 ->
  JqEvent.propagate dom_of (run which) ev [LView] (w, login0) =
  (JqEvent.run_queue (run which) ev [(JqEvent.ev_target ev,
     List.filter (fun ho => matches (JqEvent.ev_target ev) (default [] (JqEvent.ho_selector ho)))
       (View.ours (fun _ => HMethod) login_view (JqEvent.ev_type ev)))] (w, login0)).1.
Proof.
  intros Hp Hb. rewrite JqEvent.propagate_step. change LView with (View.v_el login_view) at 1.
  rewrite (View.dispatch_alone (fun _ => HMethod) dom_of (run which) login_view ev (w, login0) []).
  - by destruct (JqEvent.run_queue _ _ _ _) as [p []].
  - apply form_queues.
  - intros ho. rewrite login_handles, !elem_of_cons, elem_of_nil. by intros [->|[->|[->|[->|[->|[]]]]]].
  - exact Hp.
  - intros He. by rewrite He in Hp.
  - done.
  - done.
Qed.

Lemma skip_input i ev n :
  JqEvent.propagate dom_of (run which) ev (LInput i :: n) (w, login0) = JqEvent.propagate dom_of (run which) ev n (w, login0).
Proof. apply JqEvent.propagate_none. apply form_queues. Qed.
End Event.

Lemma run_lone which ev cur h p m :
  run which h cur ev p = outcome m p -> forall ho, JqEvent.ho_handler ho = h ->
  (JqEvent.run_queue (run which) ev [(cur, [ho])] p).1 = (exec m p.1, p.2).
Proof.
  intros Hr ho <-. cbn [JqEvent.run_queue JqEvent.run_handlers]. rewrite Hr. unfold outcome. by destruct (result m p.1).
Qed.

Lemma step_spec w i : step (w, login0) i = (exec (ui_handler (spec i)) w, login0).
Proof.
  destruct i as [b|i|i which]; cbn [step spec ui_handler]; unfold fire, JqEvent.fire; cbn [JqEvent.ev_target dom_of JqEvent.d_ancestors].
  - rewrite (JqEvent.propagate_one _ _ _ (LButton b) _ _ (js "click") (HButton b)) by apply form_queues. cbn [run].
    destruct (guarded_total "" (disabled ← get (fun w => vw_save_disabled (w_views w));
      if bool_decide (b = SaveDashboard) && disabled then mret () else action b) w) as [[] Hr]. fold (button_handler b) in Hr.
    unfold outcome. cbn [fst snd]. rewrite Hr. unfold button_click. rewrite exec_bind, (eta (button_handler b) w () Hr).
    destruct b; [done|done|done|]. cbn [path]. rewrite view_event by done. by eapply (run_lone 0 _ (LButton LoginButton) (HMethod (js "login"))).
  - cbn [path]. rewrite skip_input, view_event by done.
    destruct i; eapply (run_lone 0 _ (LInput _) (HMethod (js "input_focus"))); done.
  - cbn [path]. rewrite skip_input, view_event by done.
    destruct i; eapply (run_lone which _ (LInput _) (HMethod (js "input_keydown"))); done.
Qed.

(** C13: the login form and the buttons: whatever the view's [cid], clicks on the buttons, the focus of an input and keys in it, found
    by jQuery through the view's table and the handlers of [on_ready], do what [button_click], [input_focus] and
    [input_keydown] say, each once: a click on the login button runs the handler of the buttons and then the
    view's [login]. *)
Theorem login_form_refines w inputs : (foldl step (w, login0) inputs).1 = foldl (fun w i => exec (ui_handler (spec i)) w) w inputs.
Proof. revert w. induction inputs as [|i inputs IH]; intros w; [done|]. cbn [foldl]. rewrite step_spec. apply IH. Qed.

End LoginForm.
End LoginForm.

(** ** The search box of the counters *)

Module FilterForm.
Import CounterFilter.

(** The view's element, which it shares with the tree's view, the label, the input and the button that clears it. *)
Inductive node := FView | FLabel | FText | FClear.
Inductive handler := HMethod (name : jsstr).

#[global] Instance node_eq : EqDecision node.
Proof. solve_decision. Defined.
#[global] Instance handler_eq : EqDecision handler.
Proof. solve_decision. Defined.

Definition node_code (n : node) : nat := match n with FView => 0 | FLabel => 1 | FText => 2 | FClear => 3 end.
Definition code_node (c : nat) : node := match c with 0 => FView | 1 => FLabel | 2 => FText | _ => FClear end%nat.
#[global] Instance node_countable : Countable node.
Proof. apply (inj_countable' node_code code_node). intros []; done. Defined.

Abbreviation registry := (JqEvent.registry node handler).

Definition path (n : node) : list node := match n with FView => [] | _ => [FView] end.

Definition filter_events : list (jsstr * jsstr) :=
  [(js "click #counter_filter_label", js "label_click"); (js "focus #counter_filter_text", js "input_focus");
   (js "blur #counter_filter_text", js "input_blur"); (js "keydown #counter_filter_text", js "input_keydown");
   (js "click #counter_filter_clear", js "clear_filter")].

Definition matches (cur : node) (selector : jsstr) : bool :=
  match cur with
  | FView => false
  | FLabel => bool_decide (selector = js "#counter_filter_label")
  | FText => bool_decide (selector = js "#counter_filter_text")
  | FClear => bool_decide (selector = js "#counter_filter_clear")
  end.

Section FilterForm.

(** The [cid]s of the two views, and the rest of the page as [CounterFilter] sees it. *)
Context (cid tree_cid : nat) {W : Type} (documentResize : W -> W).

Definition filter_view : View.view :=
  View.mkView cid FView (Some filter_events)
    (js <$> ["initialize"; "label_click"; "input_focus"; "input_blur"; "input_keydown"; "clear_filter"]%string).
Definition tree_view : View.view := View.mkView tree_cid FView None (js <$> ["initialize"; "render"]%string).

(** [new CounterTreeView()] makes the filter's view, then delegates its own events, of which there are none. *)
Definition filter0 : registry := (View.new_view (fun _ => HMethod) tree_view (View.new_view (fun _ => HMethod) filter_view ∅).1).1.

Abbreviation page := (State W * registry)%type.
Definition dom_of : JqEvent.dom node handler page := JqEvent.mkDom snd (fun _ => path) (fun _ _ => false) (fun _ _ => matches).

Definition method (which : Z) (name : jsstr) (s : State W) : State W * Live.outcome failure :=
  if bool_decide (name = js "label_click") then (label_click s, Live.Normal)
  else if bool_decide (name = js "input_focus") then (input_focus s, Live.Normal)
  else if bool_decide (name = js "input_blur") then (input_blur s, Live.Normal)
  else if bool_decide (name = js "input_keydown") then input_keydown documentResize which s
  else clear_filter documentResize s.

Definition run (which : Z) (h : handler) (cur : node) (ev : JqEvent.event node) (p : page) : page * JqEvent.verdict :=
  let '(HMethod name) := h in
  let '(s, o) := method which name p.1 in
  ((s, p.2), match o with Live.Normal => JqEvent.Continue | _ => JqEvent.Throws end).

Inductive input := ClickLabel | ClickClear | Focus | Blur | Key (which : Z).

Definition fire (which : Z) (type : string) (n : node) (p : page) : page := JqEvent.fire dom_of (run which) (JqEvent.mkEvent (js type) n 0) p.

Definition step (p : page) (i : input) : page :=
  match i with
  | ClickLabel => fire 0 "click" FLabel p
  | ClickClear => fire 0 "click" FClear p
  | Focus => fire 0 "focusin" FText p
  | Blur => fire 0 "focusout" FText p
  | Key which => fire which "keydown" FText p
  end.

Definition spec (i : input) : ui_event :=
  match i with ClickLabel => ULabel | ClickClear => UClear | Focus => UFocus | Blur => UBlur | Key which => UKey which end.

(** *** The handlers *)

Definition handle (t : string) (selector : string) (name : string) : JqEvent.handleObj handler :=
  JqEvent.mkHandle (js t) [View.namespace filter_view] (Some (js selector)) (HMethod (js name)).

Lemma filter_handles : View.handles (fun _ => HMethod) filter_view =
  [handle "click" "#counter_filter_label" "label_click"; handle "focus" "#counter_filter_text" "input_focus";
   handle "blur" "#counter_filter_text" "input_blur"; handle "keydown" "#counter_filter_text" "input_keydown";
   handle "click" "#counter_filter_clear" "clear_filter"].
Proof.
  unfold View.handles, View.handle. cbn [filter_view View.v_events View.v_methods default from_option id].
  change (obj_keys filter_events) with filter_events.*1. cbn [omap list_omap]. reflexivity.
Qed.

Lemma filter_queues :
  (forall t, JqEvent.queue_at filter0 FView t =
     let l := View.ours (fun _ => HMethod) filter_view t in
     JqEvent.mkQueue (List.filter JqEvent.delegated l ++ List.filter JqEvent.direct l) (length (List.filter JqEvent.delegated l))) /\
  (forall n t, n <> FView -> JqEvent.queue_at filter0 n t = JqEvent.no_queue).
Proof.
  destruct (View.new_view_alone (fun _ => HMethod) filter_view ∅) as (_ & Hown & Hother); [apply JqEvent.empty_ok|done| |].
  { by apply (View.proper_by_table filter_view filter_events). }
  split; [exact Hown|]. intros n t Hn. by apply (Hother n t).
Qed.

(** An event below the view runs the methods whose selector matches. *)
Lemma fire_runs which type n s :
  n <> FView ->
  fire which type n (s, filter0) =
  (JqEvent.run_queue (run which) (JqEvent.mkEvent (js type) n 0)
     [(n, List.filter (fun ho => matches n (default [] (JqEvent.ho_selector ho))) (View.ours (fun _ => HMethod) filter_view (js type)))] (s, filter0)).1.
Proof.
  intros Hn. unfold fire, JqEvent.fire. cbn [JqEvent.ev_target dom_of JqEvent.d_ancestors]. set (ev := JqEvent.mkEvent _ _ _).
  rewrite JqEvent.propagate_none by (by apply filter_queues). replace (path n) with [FView] by (by destruct n).
  rewrite JqEvent.propagate_step. change FView with (View.v_el filter_view) at 1.
  rewrite (View.dispatch_alone (fun _ => HMethod) dom_of (run which) filter_view ev (s, filter0) []); try done.
  - by destruct (JqEvent.run_queue _ _ _ _) as [p []].
  - apply filter_queues.
  - intros ho. rewrite filter_handles, !elem_of_cons, elem_of_nil. by intros [->|[->|[->|[->|[->|[]]]]]].
  - by destruct n.
Qed.

Lemma run_one_method which ev cur ho p :
  (JqEvent.run_queue (run which) ev [(cur, [ho])] p).1 = (let '(HMethod name) := JqEvent.ho_handler ho in (method which name p.1).1, p.2).
Proof.
  cbn [JqEvent.run_queue JqEvent.run_handlers]. destruct (JqEvent.ho_handler ho) as [name]. unfold run.
  destruct (method which name p.1) as [s []]; done.
Qed.

Lemma filter_step_spec s i : step (s, filter0) i = ((ui_step documentResize (spec i) s).1, filter0).
Proof. destruct i; cbn [step]; rewrite fire_runs by done; apply run_one_method. Qed.

(** The search box: whatever the [cid]s of the two views that share its element, clicks on its label and its clear button, its
    focus, blur and keys, found by jQuery through the view's table, do what the session of the counter tree says,
    each once. *)
Theorem filter_form_refines s inputs : (foldl step (s, filter0) inputs).1 = ui_run documentResize (spec <$> inputs) s.
Proof. revert s. unfold ui_run. induction inputs as [|i inputs IH]; intros s; [done|]. cbn [foldl fmap list_fmap]. rewrite filter_step_spec. apply IH. Qed.

End FilterForm.
End FilterForm.
