(* ===== verification/Session.v ===== *)
(** * The page with its counters ([on_ready] and the views it makes, of [files/graph.js])

    A session is the page of [App] together with the counter tree and its filter.  The two meet in three
    places: [on_ready] sends the request for the counters, its answer goes to the counter model, and a
    rendering lays the page out again.  [step] is a call of a handler of either part; the theorems
    are about every session reachable from the page that [on_ready] leaves. *)

From S2P Require Import Prelude JsString JsObject Backbone LiveModel RegExp JsNumber Json JsValue World Shell Loader Grid TimeRange Dates CounterTree CounterFilter Views Clicks Dashboard Login Invariant Pending App.
Import Shell Grid TimeRange CounterTree CounterFilter Invariant Pending.

Local Open Scope Z_scope.

Module Session.

Abbreviation session := (CounterFilter.State World).

Definition with_world (w : World) (s : session) : session := mkState w (st_live s) (st_input s) (st_label s) (st_tree s).

(** A rendering ends with [documentResize()]. *)
Definition layout (w : World) : World := exec TimeRange.documentResize w.

(** The answer to the request for the counters: an object is set on the model, [null] and errors change nothing;
    other values are outside. *)
Definition answered (x : nat) (r : Dashboard.Reply) (s : session) : option session :=
  let s1 := with_world (App.complete x XCounters (App.RText r) (st_page s)) s in
  match Login.ajax_success r with
  | None | Some JNull => Some s1
  | Some (JObj o) => Some (CounterFilter.fetched layout o s1).1
  | Some _ => None
  end.

(** The events of the search box. *)
Definition by_user (e : CounterFilter.ui_event) : Prop := match e with UFetched _ => False | _ => True end.

(** The requests for the counters that are pending. *)
Definition counter_requests (w : World) : list (nat * XhrCode) :=
  List.filter (fun p => match p.2 with XCounters => true | _ => false end) (sy_xhrs (w_sys w)).

Section Steps.
Context `{LocalZone}.

Inductive step (s : session) : session -> Prop :=
  | step_page w' : App.step (st_page s) w' -> counter_requests w' = counter_requests (st_page s) -> step s (with_world w' s)
  | step_answer x r s' : (x, XCounters) ∈ sy_xhrs (w_sys (st_page s)) -> answered x r s = Some s' -> step s s'
  | step_filter e : by_user e -> step s (CounterFilter.ui_step layout e s).1.

(** The sessions of a page loaded at [now]. *)
Inductive reachable (now gauge : Z) (page : Page) (l : LoginState) : session -> Prop :=
  | reach_ready : reachable now gauge page l (CounterFilter.initial (exec App.on_ready (set_login (fun _ => l) (globals now gauge page))))
  | reach_step s s' : reachable now gauge page l s -> step s s' -> reachable now gauge page l s'.

(** ** Every step keeps both parts in order *)

Definition settled (s : session) : Prop := in_step s \/ stuck s.

Lemma settled_world w s : settled s -> settled (with_world w s).
Proof. done. Qed.

Lemma layout_ok w : App.app_ok w -> App.app_ok (layout w).
Proof. intros [H1 H2]. split; [by apply (inv_documentResize sys_ok)|by apply (inv_documentResize grid_ok)]. Qed.

(** A handler of the filter lays the page out or leaves it. *)
Lemma filter_ok e s :
  wf_event e -> App.app_ok (st_page s) -> settled s ->
  App.app_ok (st_page (CounterFilter.ui_step layout e s).1) /\ settled (CounterFilter.ui_step layout e s).1.
Proof.
  intros He Hw Hs. pose proof (tree_step_ui layout e s He) as [H1 H2]. destruct (CounterFilter.ui_step layout e s) as [s' o].
  cbn [fst snd] in *. destruct Hs as [Hs|Hs].
  - destruct (H1 Hs) as [Ho Hp]. split; [destruct Hp as [->| ->]; [done|by apply layout_ok]|].
    destruct o; [by left|by right; destruct Ho|done].
  - destruct (H2 Hs) as (_ & Hst & _ & ->). split; [done|by right].
Qed.

Lemma step_settles s s' : App.app_ok (st_page s) /\ settled s -> step s s' -> App.app_ok (st_page s') /\ settled s'.
Proof.
  intros [Hw Hs] Hstep. destruct Hstep as [w' Hstep _|x r s' Hx Ha|e He].
  - split; [by eapply App.step_ok|done].
  - set (w1 := App.complete x XCounters (App.RText r) (st_page s)) in *.
    assert (Hw1 : App.app_ok w1) by (by eapply App.step_ok, App.step_reply).
    unfold answered in Ha. destruct (Login.ajax_success r) as [v|] eqn:Er; [|by injection Ha as <-].
    destruct v as [| | | | |o]; [by injection Ha as <-|done..|]. injection Ha as <-.
    apply (filter_ok (UFetched o) (with_world w1 s)); [|done..]. unfold Login.ajax_success in Er. cbn [wf_event].
    destruct (_ && _); [|done]. by eapply json_parse_obj.
  - apply filter_ok; [by destruct e|done..].
Qed.

(** ** Properties *)

(** C1: in every session that can be reached from the page [on_ready] builds, by any timers, answers, animations, dialogs and
    actions of the user on the page and on the search box in any order: the loader has
    at most one timer and at most one request pending, the ones it records; there is at most
    one automatic refresh, pending exactly when it is switched on; timers and requests
    have distinct identifiers; the grid's array holds distinct live surfaces, each
    with a series object, the selected graph among them; and the tree of counters is the one of its model's
    attributes, unless a rendering has thrown. *)
Theorem session_invariant now gauge page l s :
  reachable now gauge page l s ->
  let w := st_page s in
  (length (loader_timers w) <= 1)%nat /\ (length (loader_xhrs w) <= 1)%nat /\
  (ld_nextEvent (w_loader w) = head (tm_id <$> loader_timers w)) /\ (ld_xhr (w_loader w) = head (loader_xhrs w).*1) /\
  (length (refresh_timers w) <= 1)%nat /\
  (refresh_timers w <> [] <-> from_option truthy false (isAutoRefresh (w_time w)) = true) /\
  NoDup (tm_id <$> sy_timers (w_sys w)) /\ NoDup (sy_xhrs (w_sys w)).*1 /\ grid_ok w /\
  (stuck s \/ match st_tree s with
              | Some tree => build (st_model s) = inl tree
              | None => holds (st_model s) (js "*") []
              end).
Proof.
  intros Hr w. assert (Hok : App.app_ok w /\ settled s).
  { unfold w. induction Hr as [|s s' _ IH Hs]; [|by eapply step_settles]. split; [apply App.on_ready_ok|left; apply initial_in_step]. }
  destruct Hok as [Hok Hs]. destruct (App.app_ok_facts w Hok) as (H1 & H2 & H3 & H4 & H5 & H6 & H7 & H8 & H9).
  do 9 (split; [assumption|]). destruct Hs as [[_ Hs]|Hs]; [by right|by left].
Qed.

End Steps.

End Session.
