(* ===== verification/Samples.v ===== *)
(** * Concrete runs

    The theorems of the shell, the loader, the grid, the dashboards, the
    bookmarks, the login and the handlers of events applied to runs of the
    page [TimeRange.sample_world]: graphs are created, series toggled, timers
    fire and the server answers. *)

From stdpp Require Import gmap.
From S2P Require Import Prelude Sha256 JsString JsObject JsNumber Json UriCodec Cookie World Shell Loader LoaderSpec Grid TimeRange Dates Plot Delivery CounterTree CounterFilter Views Dashboard Bookmark Backbone Collection Login Users Clicks App JqEvent View Wiring Forms Session.
Import Shell Interval Grid TimeRange Loader.Loader Dashboard Bookmark.

Local Open Scope Z_scope.

Module Samples.

Definition w0 : World := sample_world.

Lemma w0_idle : idle w0.
Proof. constructor; [reflexivity..|constructor]. Defined.

Lemma w0_grid_ok : grid_ok w0.
Proof. constructor; try constructor. intros g s Hin. by apply not_elem_of_nil in Hin. Defined.

(** Two requests, answered in one batch while a third is queued. *)
Definition answer : Answer := mkAnswer 200 (js "OK") (Some []).
Definition refused : Answer := mkAnswer 500 (js "Internal Server Error") None.

Definition ask (k : string) : event := Add [js k] 500 600 0 [js k].
Definition busy : list event := [ask "cpu.user"; Tick 100; ask "cpu.idle"; Fire; ask "net.in"].

Lemma busy_good : Forall good busy.
Proof.
  unfold busy, ask. repeat (apply Forall_cons_2 || apply Forall_nil_2); cbn; try exact I;
    apply (bool_decide_unpack _); vm_compute; exact I.
Defined.

Definition after (es : list event) : World := default w0 (run es w0).

Lemma progress_counts_witness :
  ui_nesting (w_ui (foldl progress_step w0 [PBegin; PBegin; PFinish 0; PError (EText (js "x")); PFinish 1])) = 0.
Proof.
  destruct (progress_counts [PBegin; PBegin; PFinish 0; PError (EText (js "x")); PFinish 1] w0) as [-> _];
    [vm_compute; discriminate|reflexivity].
Defined.

Lemma loader_one_timer_one_request_witness :
  (exists t, loader_timers (after busy) = [t] /\ ld_nextEvent (w_loader (after busy)) = Some (tm_id t) /\
     tm_due t = ld_nextEventTime (w_loader (after busy)) + 10 * 1000) /\
  (exists x g c, loader_xhrs (after busy) = [(x, XLoader g c)] /\ ld_xhr (w_loader (after busy)) = Some x).
Proof.
  destruct (loader_one_timer_one_request busy w0 (after busy) w0_idle) as [H1 H2];
    [vm_compute; reflexivity|]. split.
  - destruct H1 as [[H _]|H1]; [vm_compute in H; discriminate H|exact H1].
  - destruct H2 as [[H _]|H2]; [vm_compute in H; discriminate H|exact H2].
Defined.

Lemma busy_proper : Forall LoaderSpec.proper_ask (busy ++ [Complete answer]).
Proof.
  unfold busy, ask. cbn [app]. repeat (apply Forall_cons_2 || apply Forall_nil_2); cbn; try exact I;
    (split; [discriminate|apply (bool_decide_unpack _); vm_compute; exact I]).
Defined.

Lemma loader_refines_mailbox_witness :
  LoaderSpec.mrun (LoaderSpec.mevents (busy ++ [Complete answer]) w0) LoaderSpec.empty_mailbox
    = (LoaderSpec.mailbox_of (after (busy ++ [Complete answer])), LoaderSpec.trace (busy ++ [Complete answer]) w0) /\
  exists c1 c2 c3, LoaderSpec.trace (busy ++ [Complete answer]) w0
    = [LoaderSpec.Sent [c1; c2]; LoaderSpec.Served [(c1, []); (c2, [])]; LoaderSpec.Sent [c3]].
Proof.
  split; [|do 3 eexists; vm_compute; reflexivity].
  apply (LoaderSpec.loader_refines_mailbox (busy ++ [Complete answer]) w0 (after (busy ++ [Complete answer])) w0_idle busy_proper);
    [vm_compute; discriminate|vm_compute; reflexivity].
Defined.

Lemma loader_exactly_once_witness :
  length (called (after (busy ++ [Complete answer]))) = 2%nat /\
  exists calls, called (after (busy ++ [Complete answer])) = called w0 ++ calls /\
    history issued (busy ++ [Complete answer]) w0
    ≡ₚ pending (after (busy ++ [Complete answer])) ++ inflight (after (busy ++ [Complete answer]))
       ++ calls.*1 ++ history dropped (busy ++ [Complete answer]) w0.
Proof.
  split; [vm_compute; reflexivity|].
  destruct (loader_exactly_once (busy ++ [Complete answer]) w0 (after (busy ++ [Complete answer])) w0_idle) as (calls & H1 & H2 & _);
    [vm_compute; discriminate|vm_compute; reflexivity|]. exists calls. split; [exact H1|exact H2].
Defined.


Definition in_flight : nat * XhrCode := default (0%nat, XXref) (head (loader_xhrs (after busy))).

Lemma request_covers_batch_witness :
  exists g c, in_flight = (0%nat, XLoader g c) /\ keys g = [js "cpu.user"; js "cpu.idle"] /\ max_samples c = 600 /\
    (forall cb k, cb ∈ c.*2 -> k ∈ cb_keys cb -> k ∈ keys g).
Proof.
  do 2 eexists. split; [vm_compute; reflexivity|]. split; [vm_compute; reflexivity|].
  split; [vm_compute; reflexivity|].
  apply (request_covers_batch busy w0 (after busy) 0%nat _ _ w0_idle).
  - exact busy_good.
  - vm_compute. reflexivity.
  - vm_compute. left.
Defined.

Lemma w0_Inv : Loader.Inv w0.
Proof. exact (proj1 (idle_Inv w0 w0_idle)). Defined.

Lemma request_within_deadline_witness :
  exists t, loader_timers (exec (addToNextGet [js "cpu.user"] 500 600 0 [js "cpu.user"]) w0) = [t] /\
    tm_due t <= sy_now (w_sys w0) + 500.
Proof.
  apply (request_within_deadline [js "cpu.user"] 500 600 0 [js "cpu.user"] w0 w0_Inv).
  apply (bool_decide_unpack _). vm_compute. exact I.
Defined.

(** The third request's timer fires while the first is in flight; then the server fails. *)
Lemma failure_stalls_queue_witness :
  exists w', step (Complete refused) (after (busy ++ [Fire])) = Some w' /\
    keys (ld_getting (w_loader w')) = [js "net.in"] /\ step Fire w' = None /\ step (Complete answer) w' = None.
Proof.
  assert (HI : Loader.Inv (after (busy ++ [Fire]))).
  { apply (Inv_run (busy ++ [Fire]) w0 _ w0_Inv). vm_compute. reflexivity. }
  destruct (failure_stalls_queue refused (after (busy ++ [Fire])) 0%nat HI) as (w' & E & Eg & H);
    [vm_compute; reflexivity|vm_compute; reflexivity|vm_compute; reflexivity|].
  exists w'. split; [exact E|]. split; [rewrite Eg; vm_compute; reflexivity|]. apply H.
Defined.

(** ** The grid *)

Definition two_graphs : list grid_op :=
  [GNew; GToggle 0 (js "cpu.user"); GNew; GToggle 1 (js "net.in"); GSelect 1].

Lemma grid_invariant_witness : grid_ok (foldl grid_step w0 (two_graphs ++ [GClose 1; GToggle 1 (js "x"); GClear])).
Proof. apply grid_invariant. exact w0_grid_ok. Defined.

Definition gw : World := foldl grid_step w0 two_graphs.

Lemma toggle_keeps_a_series_witness :
  w_graphs (exec (toggleSeries 0 (js "cpu.idle")) (exec (toggleSeries 0 (js "cpu.idle")) gw)) = w_graphs gw.
Proof.
  assert (Hg : exists s, w_graphs gw !! 0%nat = Some s /\ gs_series s = Some [(js "cpu.user", ())]).
  { eexists. split; vm_compute; reflexivity. }
  destruct Hg as (s & Hg & Ho).
  destruct (toggle_keeps_a_series 0 (js "cpu.idle") s [(js "cpu.user", ())] gw Hg Ho) as (_ & _ & H);
    [apply NoDup_singleton|discriminate|].
  apply H; [intros Hin; apply list_elem_of_singleton in Hin; discriminate Hin|].
  apply (bool_decide_unpack _). vm_compute. exact I.
Defined.

Lemma clear_closes_all_witness : gg_allGraphs (w_grid gw) = [0; 1]%nat /\ gg_allGraphs (w_grid (exec clear gw)) = [].
Proof.
  split; [vm_compute; reflexivity|].
  destruct (clear_closes_all gw) as (_ & H & _); [|exact H].
  unfold gw, two_graphs. cbn [foldl]. do 5 apply grid_ok_step. exact w0_grid_ok.
Defined.

(** ** Dashboards and bookmarks *)

Lemma gw_grid_ok : grid_ok gw.
Proof. unfold gw, two_graphs. cbn [foldl]. do 5 apply grid_ok_step. exact w0_grid_ok. Defined.

(** The page in manual mode, logged in, with an entry of the size menu. *)
Definition page : World :=
  exec (setManual true;; graph_size 800 320 (Some 2);;
    put_dash (fun d => mkDash (Some (js "ada")) (da_items d) [Some (js "cpu", Some (js "global"))] (da_current d))) gw.

Lemma page_series : dash_graphs page = [[js "cpu.user"]; [js "net.in"]].
Proof. vm_compute. reflexivity. Defined.

Lemma page_names_ok : names_ok page.
Proof.
  split; [|exact I]. rewrite page_series. unfold series_ok.
  apply (bool_decide_unpack _). vm_compute. exact I.
Defined.

Lemma dashboard_roundtrip_witness :
  let w' := exec (openDashboard (js "ada") (js "cpu") (stored (js "cpu") page)) w0 in
  dash_graphs w' = [[js "cpu.user"]; [js "net.in"]] /\ w_size w' = mkSize 800 320 /\
  ts_manual (theTimeSlider (w_time w')) = true /\
  theCurrentDates (w_time w') = mkDates (Some 1699996390000) (Some 1699999990000).
Proof.
  destruct (dashboard_roundtrip (js "ada") (js "cpu") page w0 page_names_ok w0_grid_ok)
    as (_ & H1 & _ & _ & _ & H2 & _ & H3 & _ & _ & H4 & _).
  split; [rewrite H1; exact page_series|]. split; [rewrite H2; vm_compute; reflexivity|].
  split; [apply H3; vm_compute; reflexivity|].
  destruct (H4 (3600 * 1000) 1699999990000) as [H5 _]; [vm_compute; reflexivity|lia|vm_compute; reflexivity|].
  destruct H5 as [_ ->]; [left; vm_compute; reflexivity| |reflexivity].
  intros i. vm_compute. discriminate.
Defined.

(** The page saved at a marker of the slider, opened where the slider is at another one. *)
Definition slid : World := exec (setIndex 4) page.

Lemma slid_names_ok : names_ok slid.
Proof.
  split; [|exact I]. assert (dash_graphs slid = [[js "cpu.user"]; [js "net.in"]]) as -> by (vm_compute; reflexivity).
  unfold series_ok. apply (bool_decide_unpack _). vm_compute. exact I.
Defined.

Lemma dashboard_slider_witness :
  let w' := exec (openDashboard (js "ada") (js "cpu") (stored (js "cpu") slid)) w0 in
  ts_index (theTimeSlider (w_time w')) = IAt 4 /\
  theOriginalDates (w_time w') = mkDates (Some (1699999990000 - 12 * 3600 * 1000)) (Some 1699999990000).
Proof.
  destruct (dashboard_roundtrip (js "ada") (js "cpu") slid w0 slid_names_ok w0_grid_ok)
    as (_ & _ & _ & _ & _ & _ & _ & _ & H3 & _ & H4 & _).
  split; [apply H3; [vm_compute; reflexivity|vm_compute; reflexivity|split; [discriminate|reflexivity]]|].
  destruct (H4 (12 * 3600 * 1000) 1699999990000) as [_ H5]; [vm_compute; reflexivity|lia|vm_compute; reflexivity|].
  apply (H5 4 (12 * 3600)); [vm_compute; reflexivity|vm_compute; reflexivity|reflexivity|lia|vm_compute; discriminate].
Defined.

Lemma save_sends_dashboard_witness :
  bad_name (js "cpu_load") = false /\ bad_name (js "cpu load") = true /\
  sy_hash (w_sys (exec (save_dashboard_named (js "cpu_load")) page)) = js "#?dashboard=cpu_load" /\
  exists x body, sent (exec (save_dashboard_named (js "cpu_load")) page) = sent page ++ [(x, "POST"%string, js "/?s=ada", body)].
Proof.
  split; [vm_compute; reflexivity|]. split; [vm_compute; reflexivity|].
  pose proof (save_sends_dashboard (js "cpu_load") page page_names_ok) as H. cbv zeta in H.
  assert (E1 : bad_name (js "cpu_load") = false) by (vm_compute; reflexivity).
  assert (E2 : theUserName (w_dash page) = Some (js "ada")) by (vm_compute; reflexivity).
  assert (E3 : obj_truthy (da_items (w_dash page)) (js "cpu_load") = false) by (vm_compute; reflexivity).
  rewrite E1, E2, E3 in H. destruct H as [H (x & t & body & text & Hs & _)]. split; [exact H|]. exists x, body. exact Hs.
Defined.

Lemma size_entry_lost_in_manual_witness :
  w_sizeDropdown page = Some 2 /\
  w_sizeDropdown (exec (openDashboard (js "ada") (js "cpu") (stored (js "cpu") page)) w0) = None.
Proof.
  split; [vm_compute; reflexivity|].
  rewrite (size_entry_lost_in_manual (js "ada") (js "cpu") page w0 2 page_names_ok w0_grid_ok);
    [vm_compute; reflexivity|vm_compute; reflexivity|split; vm_compute; [discriminate|reflexivity]].
Defined.

Lemma remove_posts_to_user_witness :
  exists x, last (sy_log (w_sys (exec (remove_answer (js "cpu") (js "delete")) page)))
    = Some (EHttp x "POST" (js "/?s=ada") (stringify (JObj [(js "dashboard.cpu", JStr [])]))).
Proof.
  apply (remove_posts_to_user (js "cpu") (js "ada") page); [vm_compute; left|vm_compute; reflexivity].
Defined.

Lemma removed_name_still_known_witness :
  let w := exec (add_item (Some (js "ada")) (js "dashboard.cpu")) page in
  obj_get (da_items (w_dash (exec dashboards_reload w))) (js "cpu") <> None.
Proof. apply removed_name_still_known. vm_compute. discriminate. Defined.

Lemma page_bookmarkable : bookmarkable page 1699996390000 1699999990000.
Proof.
  constructor.
  - vm_compute. reflexivity.
  - split; vm_compute; split; discriminate.
  - rewrite page_series. unfold series_ok. apply (bool_decide_unpack _). vm_compute. exact I.
Defined.

(** The page's bookmark, followed on a fresh page. *)
Definition visit_bookmark (w : World) : World := exec (set_hash (sy_hash (w_sys (exec packup_state_as_hash w)))) w0.

Lemma visit_grid_ok w : grid_ok (visit_bookmark w).
Proof. apply (grid_ok_same w0); [by constructor|exact w0_grid_ok]. Defined.

Lemma visit_hash w : sy_hash (w_sys (visit_bookmark w)) = sy_hash (w_sys (exec packup_state_as_hash w)).
Proof. reflexivity. Defined.

Lemma bookmark_roundtrip_witness :
  dash_graphs (exec gotohash (visit_bookmark page)) = [[js "cpu.user"]; [js "net.in"]] /\
  theCurrentDates (w_time (exec gotohash (visit_bookmark page))) = mkDates (Some 1699996390000) (Some 1699999990000).
Proof.
  destruct (bookmark_roundtrip page (visit_bookmark page) _ _ page_bookmarkable) as (H1 & _ & _ & H2 & _);
    [rewrite page_series; discriminate|apply visit_grid_ok|apply visit_hash|].
  split; [rewrite H1; exact page_series|rewrite H2; reflexivity].
Defined.

Lemma empty_bookmark_fails_witness :
  last (ui_errors (w_ui (exec gotohash (visit_bookmark w0)))) = Some (EGuarded "_load_hash" TypeError).
Proof.
  apply (empty_bookmark_fails w0 (visit_bookmark w0) 1699996390000 1699999990000).
  - constructor; [vm_compute; reflexivity|split; vm_compute; split; discriminate|constructor].
  - reflexivity.
  - apply visit_grid_ok.
  - apply visit_hash.
Defined.

Lemma gw_plain : plain_series gw.
Proof.
  intros g s Hg Hs. assert (gg_allGraphs (w_grid gw) = [0; 1]%nat) as E by (vm_compute; reflexivity). rewrite E in Hg.
  rewrite !elem_of_cons, elem_of_nil in Hg. destruct Hg as [->|[->|[]]]; vm_compute in Hs; injection Hs as <-;
    (split; [vm_compute; reflexivity|apply (bool_decide_unpack _); vm_compute; exact I]).
Defined.

Lemma change_counters_replaces_witness :
  exists s', w_graphs (exec (change_counters (js "cpu:host") false) gw) !! 0%nat = Some s' /\
    gs_series s' = Some (series_of [js "host.user"]).
Proof.
  destruct (change_counters_replaces (js "cpu") (js "host") false gw) as [_ H].
  - apply (bool_decide_unpack _). vm_compute. exact I.
  - apply (bool_decide_unpack _). vm_compute. exact I.
  - exact gw_grid_ok.
  - exact gw_plain.
  - assert (exists s, w_graphs gw !! 0%nat = Some s /\ getSeries s = [js "cpu.user"]) as (s & Hs & Hk)
      by (eexists; split; [vm_compute; reflexivity|vm_compute; reflexivity]).
    specialize (H 0%nat s ltac:(vm_compute; left) Hs). cbv zeta in H. rewrite Hk in H. eexists. split; [apply H|].
    + apply (bool_decide_unpack _). vm_compute. exact I.
    + apply (bool_decide_unpack _). vm_compute. exact I.
    + vm_compute. reflexivity.
Defined.

(** A graph of two counters of which one is the substitution of the other. *)
Definition clash : World := exec (toggleSeries 0 (js "host.user")) gw.

Lemma substitution_toggles_off_witness :
  exists s', w_graphs (exec (change_counters (js "cpu:host") false) clash) !! 0%nat = Some s' /\
    gs_series s' = Some (series_of [js "cpu.user"]).
Proof.
  assert (exists s, w_graphs clash !! 0%nat = Some s /\ getSeries s = [js "cpu.user"; js "host.user"]) as (s & Hs & Hk)
    by (eexists; split; [vm_compute; reflexivity|vm_compute; reflexivity]).
  eexists. split; [apply (substitution_toggles_off (js "cpu") (js "host") false clash 0 s (js "cpu.user"))|reflexivity].
  - apply (bool_decide_unpack _). vm_compute. exact I.
  - apply (bool_decide_unpack _). vm_compute. exact I.
  - apply grid_ok_toggle_any. exact gw_grid_ok.
  - intros g s' Hg Hs'. assert (gg_allGraphs (w_grid clash) = [0; 1]%nat) as E by (vm_compute; reflexivity). rewrite E in Hg.
    rewrite !elem_of_cons, elem_of_nil in Hg. destruct Hg as [->|[->|[]]]; vm_compute in Hs'; injection Hs' as <-;
      (split; [vm_compute; reflexivity|apply (bool_decide_unpack _); vm_compute; exact I]).
  - vm_compute. left.
  - exact Hs.
  - vm_compute. reflexivity.
  - vm_compute. discriminate.
  - exact Hk.
Defined.

(** Two users the server knows, and another cookie. *)
Definition known (cid : nat) (name : string) : User := mkUser cid (Login.user_attrs (Some (js name)) (Some (JStr (js "0")))).

Definition w_users : World :=
  set_login (fun _ => mkLogin [known 0 "ann"; known 1 "bob"; known 2 "bob:x"] 3 Cookie.sample_jar
    (js "http://istatd/") [] []) w0.

Lemma w_users_ok : Cookie.jar_ok (Login.jar_of w_users) /\ Login.cids_ok w_users.
Proof. split; [exact Cookie.sample_jar_ok|]. repeat constructor; cbn; lia. Qed.

Ltac names := first [exact (proj1 w_users_ok) | exact (proj2 w_users_ok) | repeat constructor; done
                    | apply (bool_decide_unpack _); vm_compute; exact I | done].

Lemma login_lasts_witness :
  let t := sy_now (w_sys w_users) in
  exists j, let w' := exec (emit (ESlideUp SlideLogin)) (exec (Login.put_jar j) w_users) in
    Login.login (js "bob") (js "secret") false w_users = (w', Ok ()) /\
    Cookie.cookie_get Login.config t (js "login") j = Some (Some (JStr (js "bob:" ++ Sha256.hash (js "secret salt bob") None))) /\
    Login.getLoggedInUser (Login.at_time t w') = (Login.at_time t w', Ok (Some (js "bob"))).
Proof.
  destruct (Login.login_lasts w_users (js "bob") (js "secret")) as (j & E & _ & Hg & _); [names..|].
  exists j. cbv zeta in *. split; [exact E|]. destruct (Hg (sy_now (w_sys w_users)) ltac:(lia)) as [H1 H2].
  assert (Hu : (sy_now (w_sys w_users) <? Cookie.expiry (sy_now (w_sys w_users)) 12) = true) by (vm_compute; reflexivity).
  rewrite Hu in H1, H2. split; [exact H1|exact H2].
Defined.

Lemma logout_ends_session_witness :
  exists w', Login.logout w_users = (w', Ok ()) /\
    (forall t, sy_now (w_sys w_users) <= t -> Login.getLoggedInUser (Login.at_time t w') = (Login.at_time t w', Ok None)).
Proof.
  destruct (Login.logout_ends_session w_users) as (w' & E & _ & _ & Hg & _); [names|names|by left|].
  exists w'. by split.
Defined.

Lemma create_user_and_login_witness :
  let w1 := exec (Login.login (js "eve") (js "secret") false) w_users in
  let h := Sha256.hash (js "secret" ++ js " salt " ++ js "eve") None in
  Login.users_of (exec (Login.create_answer (js "eve") h (js "create")) w1) =
  Login.users_of w_users ++ [mkUser 3 (Login.user_attrs (Some (js "eve")) (Some (JStr h)))].
Proof.
  destruct (Login.create_user_and_login w_users (js "eve") (js "secret") (js "create")) as (_ & _ & H); [names..|].
  rewrite decide_True in H by done. destruct H as (H & _). exact H.
Defined.

Lemma special_names_truncated_witness :
  exists w', Login.login (js "bob:x") (js "secret") false w_users = (w', Ok ()) /\
    Login.getLoggedInUser w' = (w', Ok (Some (js "bob"))).
Proof.
  destruct (Login.special_names_truncated w_users (js "bob") (js "x") (js "secret")) as [_ H]; [names..|].
  apply H; [names|names|names|]. apply Z.ltb_lt. vm_compute. reflexivity.
Defined.

(** The page after [bob] has logged in. *)
Definition w_bob : World := exec (Login.write_login (js "bob") (js "0")) w_users.

Lemma w_bob_ok : Cookie.jar_ok (Login.jar_of w_bob).
Proof.
  destruct (Login.write_login_exec w_users (js "bob") (js "0")) as (j & E & H & _); [names..|].
  unfold w_bob, exec at 1. rewrite E. exact H.
Qed.

Lemma login_shows_user_witness :
  theUserName (w_dash (exec (Login.slide_done SlideLogin) w_bob)) = Some (js "bob").
Proof.
  destruct (Login.login_shows_user w_bob (js "bob")) as (H & _); [exact w_bob_ok|vm_compute; reflexivity|reflexivity|].
  exact H.
Defined.

(** The page loaded, then a click on a counter of the tree. *)
Definition utc : LocalZone := fixed_zone 0 ltac:(lia).
Definition w_ready : World := exec App.on_ready (set_login (fun _ => w_login w_users) (globals 1000000000 260 (sample_page false))).
Definition click_cpu : App.ui_event := App.UCounter (fun id => id) true false (js "cpu") [js "#"].

(** The counters arrive, a pattern is typed, and a counter is clicked. *)
Definition s_ready : Session.session := CounterFilter.initial w_ready.
Definition counters_reply : Reply := mkReply 200 (js "OK") (stringify (JObj CounterFilter.cf_answer)).
Definition s_counters : Session.session := default s_ready (Session.answered 0 counters_reply s_ready).
Definition s_typed : Session.session := (CounterFilter.ui_step Session.layout (CounterFilter.UType (js "cpu")) s_counters).1.
Definition s_filtered : Session.session := (CounterFilter.ui_step Session.layout (CounterFilter.UKey 13) s_typed).1.
Definition s_clicked : Session.session :=
  Session.with_world (exec (App.ui_handler click_cpu) (CounterFilter.st_page s_filtered)) s_filtered.

Lemma s_answer : Session.answered 0 counters_reply s_ready = Some s_counters.
Proof. unfold s_counters. destruct (Session.answered 0 counters_reply s_ready) eqn:E; [reflexivity|vm_compute in E; discriminate E]. Qed.
Lemma s_requested : (0%nat, XCounters) ∈ sy_xhrs (w_sys w_ready).
Proof. vm_compute. left. Qed.
Lemma s_click_requests :
  Session.counter_requests (exec (App.ui_handler click_cpu) (CounterFilter.st_page s_filtered)) =
  Session.counter_requests (CounterFilter.st_page s_filtered).
Proof. vm_compute. reflexivity. Qed.

Lemma s_clicked_reachable : Session.reachable (H := utc) 1000000000 260 (sample_page false) (w_login w_users) s_clicked.
Proof.
  assert (H0 : Session.reachable (H := utc) 1000000000 260 (sample_page false) (w_login w_users) s_ready)
    by exact (Session.reach_ready (H := utc) 1000000000 260 (sample_page false) (w_login w_users)).
  pose proof (Session.reach_step _ _ _ _ _ _ H0 (Session.step_answer (H := utc) s_ready 0 counters_reply s_counters s_requested s_answer)) as H1.
  pose proof (Session.reach_step _ _ _ _ _ _ H1 (Session.step_filter (H := utc) s_counters (CounterFilter.UType (js "cpu")) I)) as H2.
  pose proof (Session.reach_step _ _ _ _ _ _ H2 (Session.step_filter (H := utc) s_typed (CounterFilter.UKey 13) I)) as H3.
  exact (Session.reach_step _ _ _ _ _ _ H3 (Session.step_page (H := utc) s_filtered _
    (App.step_ui (H := utc) (CounterFilter.st_page s_filtered) click_cpu I) s_click_requests)).
Qed.

Lemma session_invariant_witness :
  let w := CounterFilter.st_page s_clicked in
  (length (loader_timers w) <= 1)%nat /\ grid_ok w /\ ~ CounterFilter.stuck s_clicked /\
  exists tree, CounterFilter.st_tree s_clicked = Some tree /\ CounterFilter.build (CounterFilter.st_model s_clicked) = inl tree.
Proof.
  destruct (Session.session_invariant (H := utc) 1000000000 260 (sample_page false) (w_login w_users) s_clicked s_clicked_reachable)
    as (H1 & _ & _ & _ & _ & _ & _ & _ & H9 & H10).
  assert (Hs : ~ CounterFilter.stuck s_clicked) by (vm_compute; discriminate).
  split; [exact H1|]. split; [exact H9|]. split; [exact Hs|]. destruct H10 as [H10|H10]; [destruct (Hs H10)|].
  destruct (CounterFilter.st_tree s_clicked) as [tree|] eqn:E; [|vm_compute in E; discriminate E]. exists tree. exact (conj eq_refl H10).
Defined.

(** The users are fetched, one is created and its answer arrives. *)
Definition user_ops : list Users.op :=
  [Users.OFetched (JObj [(js "user.ann", JStr (stringify (JObj [(js "password", JStr (js "77"))])))]);
   Users.OCreate (js "bob") (js "99");
   Users.OSaved 1 (mkReply 200 (js "OK") (stringify (JObj [(js "success", JBool true)])))].

Lemma users_refine_collection_witness :
  Collection.findWhere [(js "username", Some (JStr (js "bob")))] (Users.users_collection user_ops (Users.new_collection w0)) = Some (js "c1") /\
  Collection.pluck (js "success") (Users.users_collection user_ops (Users.new_collection w0)) = [None; Some (JBool true)].
Proof.
  destruct (Users.users_refine_collection user_ops w0) as (_ & _ & Hp & Hf & _).
  - vm_compute. reflexivity.
  - apply Forall_cons_2; [exact I|]. apply Forall_cons_2; [exact I|]. apply Forall_cons_2; [|apply Forall_nil_2].
    intros o. vm_compute. intros [= <-]. reflexivity.
  - split; [rewrite Hf|rewrite Hp]; vm_compute; reflexivity.
Defined.

(** A graph asks for a counter, the server answers, and the graph is painted. *)
Definition d_page : World := default w0 (run [ask "cpu.user"; Tick 600; Fire] (exec newGraph w0)).
Definition d_data : Data :=
  [(js "start", DNum 100); (js "stop", DNum 130); (js "interval", DNum 10); (js "cpu.user", DSeries [Plot.a_bucket 110 7])].
Definition d_after : World := default w0 (step (Complete (mkAnswer 200 (js "OK") (Some d_data))) d_page).

Lemma answer_drawn_witness :
  exists v rows params, Plot.paint_visible 0 d_after = (v, Ok ()) /\
    Delivery.drawn v = Delivery.drawn d_after ++ [(0%nat, rows, params)] /\ pr_labels params = [js "time"; js "cpu.user"] /\
    (110000 ∈ rows.*1) /\ (130000 ∉ rows.*1) /\
    (forall cells, (110000, cells) ∈ rows -> cells !! 0%nat = Some (Cell3 (num_of_Z 7) (num_of_Z 8) (num_of_Z 9))) /\
    (forall cells, (120000, cells) ∈ rows -> cells !! 0%nat = Some (Cell3 nNaN nNaN nNaN)).
Proof.
  assert (H : match loader_xhrs d_page with
    | [(_, XLoader _ cbs)] => bool_decide (Delivery.answered 0 (batch cbs) = Some [js "cpu.user"]) | _ => false end = true) by (vm_compute; reflexivity).
  destruct (loader_xhrs d_page) as [|[x [gotten cbs| | | | | |]] [|]] eqn:Hx; try discriminate H. apply bool_decide_eq_true in H as Ha.
  assert (Hf : (gs_format <$> w_graphs d_page !! 0%nat) = Some customBars) by (vm_compute; reflexivity).
  destruct (w_graphs d_page !! 0%nat) as [s|] eqn:Hs; [|discriminate Hf]. injection Hf as Hf.
  assert (Hk : Delivery.names_answered [js "cpu.user"] d_data).
  { constructor; [apply (bool_decide_unpack _); vm_compute; exact I| |];
      intros k Hk; apply list_elem_of_singleton in Hk; subst k; [apply (bool_decide_unpack _); vm_compute; exact I|discriminate]. }
  destruct (Delivery.answer_drawn (mkAnswer 200 (js "OK") (Some d_data)) d_data x gotten cbs [] d_page d_after 0 s [js "cpu.user"] 100 130 10)
    as (_ & Hg & _ & Hp).
  - exact Hx.
  - discriminate.
  - reflexivity.
  - vm_compute. reflexivity.
  - exact Hs.
  - exact Ha.
  - exact Hk.
  - split; [reflexivity|split; reflexivity].
  - reflexivity.
  - reflexivity.
  - destruct (Hp d_after _ Hg eq_refl) as (v & rows & params & Hv & Hd & _ & Hso & Hr & Hc & _ & Hl); [vm_compute; reflexivity|].
    cbn [gs_format set_lastRenderData] in Hc. rewrite Hf in Hc.
    assert (E : Delivery.series_in d_data [js "cpu.user"] = [(js "cpu.user", [Plot.a_bucket 110 7])]) by (vm_compute; reflexivity).
    rewrite E in Hc, Hl.
    assert (Hal : Plot.aligned rows.*1 [Plot.a_bucket 110 7]).
    { constructor; [exact Hso|repeat constructor|]. intros b Hb _. apply list_elem_of_singleton in Hb. subst b. apply Hr. exists 1. cbn. lia. }
    exists v, rows, params. split; [exact Hv|]. split; [exact Hd|]. split; [exact Hl|]. split; [apply Hr; exists 1; lia|].
    split; [intros (k & Hk0 & E1 & E2)%Hr; lia|].
    split; intros cells Hin; destruct (Hc _ _ Hin) as [_ H0]; rewrite (H0 0%nat _ _ eq_refl Hal); vm_compute; reflexivity.
Defined.

(** ** Events and their handlers *)

(** A graph whose box, legend and close box are clicked; the mouse comes twice over the legend, and other work goes on;
    then all graphs are closed and another is made. *)
Definition clicks : list Wiring.input :=
  [Wiring.New; Wiring.New; Wiring.ClickBox 0 Wiring.SummaryBox; Wiring.Draw 0 [[Clicks.Element; Clicks.TextNode (js " cpu.user")]];
   Wiring.ClickEntry 0 0; Wiring.Over 0 (Some 0%nat); Wiring.Over 0 None; Wiring.ClickEntry 0 0; Wiring.Work id; Wiring.ClickBox 0 Wiring.CloseBox;
   Wiring.Clear; Wiring.New; Wiring.ClickGraph 2].

Lemma wiring_refines_witness :
  Wiring.p_world (foldl Wiring.step (Wiring.page0 w0) clicks) = (foldl Wiring.spec_step (w0, ∅) clicks).1 /\
  gg_allGraphs (w_grid (foldl Wiring.spec_step (w0, ∅) clicks).1) = [2%nat].
Proof.
  split; [|by vm_compute]. apply Wiring.wiring_refines; [exact w0_grid_ok|reflexivity|].
  unfold clicks. repeat (apply Forall_cons_2; [first [exact I|intros w Hw; exact (conj Hw eq_refl)]|]). apply Forall_nil_2.
Defined.

(** The search box's view: the tree's view shares its element, the handlers are removed and bound again, and other code binds one. *)
Definition box_ops : list (View.op (Elt := FilterForm.node) (H := FilterForm.handler)) :=
  [View.OtherDelegate (FilterForm.tree_view 7); View.Undelegate; View.Delegate;
   View.Bind FilterForm.FView (js "click.other") (FilterForm.HMethod (js "other")) None].

Lemma view_delegation_witness :
  let v := FilterForm.filter_view 3 in
  let st := foldl (View.run_op (fun _ => FilterForm.HMethod) v) (View.v_el v, (View.new_view (fun _ => FilterForm.HMethod) v ∅).1) box_ops in
  List.filter (View.mine v) (JqEvent.handlers_at st.2 FilterForm.FView (js "focusin")) =
  [FilterForm.handle 3 "focus" "#counter_filter_text" "input_focus"].
Proof.
  intros v st. destruct (View.view_delegation (fun _ => FilterForm.HMethod) v box_ops ∅) as (_ & H & _).
  - apply JqEvent.empty_ok.
  - reflexivity.
  - by apply (View.proper_by_table v FilterForm.filter_events).
  - repeat apply Forall_cons_2; [|exact I|exact I| |apply Forall_nil_2].
    + split; [discriminate|]. intros table [=].
    + intros w Hw. change (JqEvent.words (js "click.other")) with [js "click.other"] in Hw. apply list_elem_of_singleton in Hw as ->.
      apply (bool_decide_unpack _). vm_compute. exact I.
  - unfold st. rewrite H. vm_compute. reflexivity.
Defined.

End Samples.
